(** * In-memory trading system: a shallow embedding of the matching core

    The development follows the C++ sources
    [include/TradingSystemCore.h], [src/Order.cpp], [src/Trade.cpp],
    [src/OrderBook.cpp] and [src/TradingEngine.cpp].

    Modelling conventions.
    - [Quantity] is C++ [int]; it is modelled by [Z].  Every quantity the
      engine admits lies in [1 .. MAX_ORDER_QUANTITY], so the arithmetic
      of the matching core never leaves the range of [int].
    - [Price] is C++ [double]; a finite double is a rational number and is
      modelled by that rational ([Q]).  The comparisons [<], [>], [<=],
      [>=] on finite doubles agree with the comparisons of their rational
      values.  The only arithmetic on prices is the subtraction inside the
      two comparators; the model subtracts exactly.  The constants [0.01]
      and [1e-9] are the exact values of the corresponding double literals.
    - NaN is not a [Price]: the orders of the model carry numbers.  Every
      comparison with NaN is false.  [placeOrder] never stores a NaN (its
      two tests fail, and it builds a market order, which is not given the
      price); [Engine.placeOrder_double] is [placeOrder] for a price that
      may be NaN.  [setPrice], and [modifyOrder] through it, store a NaN
      in a limit order that may be modified, because NaN fails both tests
      of [setPrice], [newPrice < MIN_ORDER_PRICE] and
      [newPrice > MAX_ORDER_PRICE].  They are modelled for the prices that
      are numbers, and the statements about them write the condition on
      the price as [setPrice] does: as these two tests failing.
    - [Timestamp] is a [system_clock::time_point]; it is modelled by the
      integer tick count.  The clock and the UUID generator are oracles that
      are read through an explicit [World].
    - [std::shared_ptr<Order>] is modelled by an index into a heap of order
      objects, so that the engine, the id index of a book and the two side
      queues of a book alias the same object, as they do in the source.
    - The reader-writer locks are not modelled: every operation is taken as
      one atomic step.
    - [generateUUID] is defined in the single-file build only
      ([InMemoryTradingSystem.cpp]); besides the oracle, its text is
      modelled as a function of the numbers it draws ([Util.generateUUID]).

    The claims of the specification come first ([The claims]); further
    properties of the code follow them. *)

From stdpp Require Import base option list strings gmap sorting.
From Stdlib Require Import Ascii ZArith QArith Qabs Lia Lqa.
From Stdlib Require Import DecimalString DecimalNat.

Set Default Proof Using "Type".
Open Scope Z_scope.

(** * The sources *)

(** ** TradingSystemCore.h *)

Inductive OrderType := BUY | SELL.
Inductive OrderStatus :=
  PENDING | ACCEPTED | PARTIALLY_FILLED | FILLED | CANCELLED | REJECTED.
Inductive OrderTimeInForce := GTC | IOC | FOK.

(** The dynamic class of an order object. *)
Inductive OrderClass := LimitOrder | MarketOrder.

Definition MAX_ORDER_QUANTITY : Z := 1000000.
(** [0.01] as a double: 0x1.47ae147ae147bp-7. *)
Definition MIN_ORDER_PRICE : Q := 5764607523034235 # (2 ^ 59).
Definition MAX_ORDER_PRICE : Q := 1000000 # 1.
(** [1e-9] as a double: 0x1.12e0be826d695p-30. *)
Definition PRICE_EPSILON : Q := 4835703278458517 # (2 ^ 82).

Abbreviation UserId := string.
Abbreviation OrderId := string.
Abbreviation TradeId := string.
Abbreviation Symbol := string.
Abbreviation Quantity := Z.
Abbreviation Price := Q.
Abbreviation Timestamp := Z.

#[global] Instance OrderType_eq_dec : EqDecision OrderType.
Proof. solve_decision. Defined.
#[global] Instance OrderStatus_eq_dec : EqDecision OrderStatus.
Proof. solve_decision. Defined.
#[global] Instance OrderClass_eq_dec : EqDecision OrderClass.
Proof. solve_decision. Defined.

(** The terminal statuses. *)
Definition terminal (s : OrderStatus) : bool :=
  match s with
  | FILLED | CANCELLED | REJECTED => true
  | _ => false
  end.

(** Comparisons of prices, as booleans. *)
Definition Qltb (a b : Q) : bool := negb (Qle_bool b a).
Definition Qleb (a b : Q) : bool := Qle_bool a b.

(** A [double] as [placeOrder] receives it: a number, or NaN.  (An infinity
    passes and fails the tests of [placeOrder] as a number beyond the
    limits does.) *)
Inductive double := Num (q : Q) | NaN.

(** [x < y] on doubles: false when one of them is NaN. *)
Definition double_lt (x y : double) : bool :=
  match x, y with
  | Num a, Num b => Qltb a b
  | _, _ => false
  end.

(** The number that a double is, where it has passed a test that NaN
    fails. *)
Definition number (x : double) : Q :=
  match x with Num q => q | NaN => 0%Q end.

(** [std::string::empty]. *)
Definition empty (s : string) : bool :=
  match s with EmptyString => true | String _ _ => false end.

(** The two oracles of the core: [generateUUID] and [getCurrentTimestamp].
    The [n]-th call of each returns the [n]-th element of its sequence. *)
Record World := mkWorld {
  uuid_seq : nat -> string;
  uuid_calls : nat;
  clock_seq : nat -> Timestamp;
  clock_calls : nat
}.

Definition generateUUID (w : World) : string * World :=
  (uuid_seq w (uuid_calls w),
   mkWorld (uuid_seq w) (S (uuid_calls w)) (clock_seq w) (clock_calls w)).

Definition getCurrentTimestamp (w : World) : Timestamp * World :=
  (clock_seq w (clock_calls w),
   mkWorld (uuid_seq w) (uuid_calls w) (clock_seq w) (S (clock_calls w))).

(** ** The text of a UUID

    [generateUUID] of the single-file build draws 31 numbers from a random
    generator and prints them in hexadecimal, in five groups.  [draw k] is
    the number that the [k]-th call of a distribution returns during one
    call of [generateUUID]: [dis] (0 to 15) for every [k] but 15, [dis2]
    (8 to 11) for [k = 15]. *)
Module Util.

Definition hex_digit (d : Z) : Ascii.ascii :=
  match d with
  | 0 => "0" | 1 => "1" | 2 => "2" | 3 => "3" | 4 => "4" | 5 => "5"
  | 6 => "6" | 7 => "7" | 8 => "8" | 9 => "9" | 10 => "a" | 11 => "b"
  | 12 => "c" | 13 => "d" | 14 => "e" | _ => "f"
  end%char.

(** The digits of [n], most significant first, written in front of [acc]. *)
Fixpoint hex_loop (fuel : nat) (n : Z) (acc : string) : string :=
  match fuel with
  | O => acc
  | S fuel' =>
      let acc' := String (hex_digit (n mod 16)) acc in
      if n / 16 =? 0 then acc' else hex_loop fuel' (n / 16) acc'
  end.

(** [ss << std::hex << n] for an [int]: the hexadecimal digits of the
    value converted to [unsigned] (32 bits), without leading zeros. *)
Definition hex (n : Z) : string := hex_loop 8 (n mod 2 ^ 32) EmptyString.

(** [for (int i = 0; i < n; i++) ss << dis(gen);] where the next draw is
    the [k]-th. *)
Fixpoint put_digits (n : nat) (draw : nat -> Z) (k : nat) : string :=
  match n with
  | O => EmptyString
  | S n' => String.append (hex (draw k)) (put_digits n' draw (S k))
  end.

Definition generateUUID (draw : nat -> Z) : string :=
  String.append (put_digits 8 draw 0)
    (String.append "-"
       (String.append (put_digits 4 draw 8)
          (String.append "-4"
             (String.append (put_digits 3 draw 12)
                (String.append "-"
                   (String.append (hex (draw 15%nat))
                      (String.append (put_digits 3 draw 16)
                         (String.append "-" (put_digits 12 draw 19))))))))).

End Util.

(** ** Order.h, Order.cpp *)

Record Order := mkOrder {
  class_ : OrderClass;
  orderId_ : OrderId;
  userId_ : UserId;
  orderType_ : OrderType;
  symbol_ : Symbol;
  quantity_ : Quantity;
  price_ : Price;
  timestamp_ : Timestamp;
  status_ : OrderStatus;
  timeInForce_ : OrderTimeInForce;
  filledQuantity_ : Quantity
}.

(** The constructor of the base class reads the clock. *)
Definition Order_new (c : OrderClass) (orderId : OrderId) (userId : UserId)
    (orderType : OrderType) (symbol : Symbol) (quantity : Quantity)
    (price : Price) (timeInForce : OrderTimeInForce) (w : World)
  : Order * World :=
  let '(now, w') := getCurrentTimestamp w in
  (mkOrder c orderId userId orderType symbol quantity price now
           PENDING timeInForce 0, w').

Definition LimitOrder_new (orderId : OrderId) (userId : UserId)
    (orderType : OrderType) (symbol : Symbol) (quantity : Quantity)
    (price : Price) (w : World) : Order * World :=
  Order_new LimitOrder orderId userId orderType symbol quantity price GTC w.

Definition MarketOrder_new (orderId : OrderId) (userId : UserId)
    (orderType : OrderType) (symbol : Symbol) (quantity : Quantity)
    (w : World) : Order * World :=
  Order_new MarketOrder orderId userId orderType symbol quantity 0%Q GTC w.

Definition getRemainingQuantity (o : Order) : Quantity :=
  quantity_ o - filledQuantity_ o.

(** Assignments to single members. *)
Definition assign_quantity (o : Order) (q : Quantity) : Order :=
  mkOrder (class_ o) (orderId_ o) (userId_ o) (orderType_ o) (symbol_ o)
          q (price_ o) (timestamp_ o) (status_ o) (timeInForce_ o)
          (filledQuantity_ o).
Definition assign_price (o : Order) (p : Price) : Order :=
  mkOrder (class_ o) (orderId_ o) (userId_ o) (orderType_ o) (symbol_ o)
          (quantity_ o) p (timestamp_ o) (status_ o) (timeInForce_ o)
          (filledQuantity_ o).
Definition assign_status (o : Order) (s : OrderStatus) : Order :=
  mkOrder (class_ o) (orderId_ o) (userId_ o) (orderType_ o) (symbol_ o)
          (quantity_ o) (price_ o) (timestamp_ o) s (timeInForce_ o)
          (filledQuantity_ o).
Definition assign_filledQuantity (o : Order) (f : Quantity) : Order :=
  mkOrder (class_ o) (orderId_ o) (userId_ o) (orderType_ o) (symbol_ o)
          (quantity_ o) (price_ o) (timestamp_ o) (status_ o)
          (timeInForce_ o) f.

Definition canModify (o : Order) : bool :=
  match status_ o with
  | PENDING | ACCEPTED => true
  | _ => false
  end.

Definition canCancel (o : Order) : bool :=
  match status_ o with
  | PENDING | ACCEPTED | PARTIALLY_FILLED => true
  | _ => false
  end.

Definition setQuantity (o : Order) (newQuantity : Quantity) : bool * Order :=
  if (newQuantity <=? 0) || (MAX_ORDER_QUANTITY <? newQuantity) then (false, o)
  else if negb (canModify o) then (false, o)
  else (true, assign_quantity o newQuantity).

(** [setPrice] is virtual: [MarketOrder] overrides it. *)
Definition setPrice (o : Order) (newPrice : Price) : bool * Order :=
  match class_ o with
  | MarketOrder => (false, o)
  | LimitOrder =>
      if Qltb newPrice MIN_ORDER_PRICE || Qltb MAX_ORDER_PRICE newPrice
      then (false, o)
      else if negb (canModify o) then (false, o)
      else (true, assign_price o newPrice)
  end.

Definition setStatus (o : Order) (newStatus : OrderStatus) : bool * Order :=
  (true, assign_status o newStatus).

Definition fill (o : Order) (fillQuantity : Quantity) : Order :=
  if fillQuantity <=? getRemainingQuantity o then
    let filled := filledQuantity_ o + fillQuantity in
    let o1 := assign_filledQuantity o filled in
    if filled =? quantity_ o then assign_status o1 FILLED
    else if 0 <? filled then assign_status o1 PARTIALLY_FILLED
    else o1
  else o.

(** [isValid] is virtual: [MarketOrder] overrides it. *)
Definition isValid (o : Order) : bool :=
  negb (empty (orderId_ o)) && negb (empty (userId_ o)) &&
  negb (empty (symbol_ o)) &&
  (0 <? quantity_ o) && (quantity_ o <=? MAX_ORDER_QUANTITY) &&
  match class_ o with
  | LimitOrder =>
      Qleb MIN_ORDER_PRICE (price_ o) && Qleb (price_ o) MAX_ORDER_PRICE
  | MarketOrder => Qleb 0 (price_ o)
  end.

(** [clone] copy-constructs an object of the same dynamic class: every
    member, the timestamp included, is copied. *)
Definition clone (o : Order) : Order := o.

Definition BuyOrderComparator (lhs rhs : Order) : bool :=
  if Qltb PRICE_EPSILON (Qabs (price_ lhs - price_ rhs))
  then Qltb (price_ rhs) (price_ lhs)
  else timestamp_ lhs <? timestamp_ rhs.

Definition SellOrderComparator (lhs rhs : Order) : bool :=
  if Qltb PRICE_EPSILON (Qabs (price_ lhs - price_ rhs))
  then Qltb (price_ lhs) (price_ rhs)
  else timestamp_ lhs <? timestamp_ rhs.

(** ** Trade.h, Trade.cpp *)

Record Trade := mkTrade {
  tradeId_ : TradeId;
  tradeType_ : OrderType;
  buyerOrderId_ : OrderId;
  sellerOrderId_ : OrderId;
  trade_symbol_ : Symbol;
  trade_quantity_ : Quantity;
  trade_price_ : Price;
  trade_timestamp_ : Timestamp
}.

(** The constructor reads the clock. *)
Definition Trade_new (tradeId : TradeId) (tradeType : OrderType)
    (buyerOrderId sellerOrderId : OrderId) (symbol : Symbol)
    (quantity : Quantity) (price : Price) (w : World) : Trade * World :=
  let '(now, w') := getCurrentTimestamp w in
  (mkTrade tradeId tradeType buyerOrderId sellerOrderId symbol quantity
           price now, w').

(** ** The heap of order objects

    A [std::shared_ptr<Order>] that is not null is an index into the heap.
    Objects are never moved; an object that is no longer referenced simply
    stays behind. *)

Abbreviation ptr := nat.
Abbreviation Heap := (list Order).

Definition null_order : Order :=
  mkOrder LimitOrder EmptyString EmptyString BUY EmptyString 0 0%Q 0
          PENDING GTC 0.

Definition deref (h : Heap) (p : ptr) : Order := default null_order (h !! p).
Definition store (h : Heap) (p : ptr) (o : Order) : Heap := <[p := o]> h.
Definition alloc (h : Heap) (o : Order) : ptr * Heap := (length h, h ++ [o]).

(** ** OrderBook.h, OrderBook.cpp *)

(** [std::multiset<shared_ptr<Order>, Cmp>] is modelled by the list of its
    elements in iteration order.  [insert] places the new element before
    the first element that the comparator puts after it; when the
    comparator is a strict weak order on the elements present this is the
    position the red-black tree of the source chooses (the upper bound). *)
Fixpoint multiset_insert (cmp : Order -> Order -> bool) (h : Heap)
    (x : ptr) (l : list ptr) : list ptr :=
  match l with
  | [] => [x]
  | y :: l' =>
      if cmp (deref h x) (deref h y) then x :: y :: l'
      else y :: multiset_insert cmp h x l'
  end.

(** The scan of [cancelOrder] and [modifyOrder]: erase the first element
    whose order id is [orderId]; [None] when the scan reaches [end()]
    ([removed] stays [false]). *)
Fixpoint erase_by_id (h : Heap) (orderId : OrderId) (l : list ptr)
  : option (list ptr) :=
  match l with
  | [] => None
  | p :: l' =>
      if String.eqb (orderId_ (deref h p)) orderId then Some l'
      else (cons p) <$> erase_by_id h orderId l'
  end.

Record OrderBook := mkOrderBook {
  book_symbol_ : Symbol;
  buyOrders_ : list ptr;
  sellOrders_ : list ptr;
  orderLookup_ : gmap OrderId ptr
}.

Module Book.

Definition create (symbol : Symbol) : OrderBook :=
  mkOrderBook symbol [] [] ∅.

Definition addOrder (order : option ptr) (h : Heap) (b : OrderBook)
  : bool * Heap * OrderBook :=
  match order with
  | None => (false, h, b)
  | Some p =>
      let o := deref h p in
      if negb (String.eqb (symbol_ o) (book_symbol_ b)) || negb (isValid o)
      then (false, h, b)
      else
        match orderLookup_ b !! orderId_ o with
        | Some _ => (false, h, b)
        | None =>
            let h1 := store h p (snd (setStatus o ACCEPTED)) in
            let o1 := deref h1 p in
            let b1 :=
              match orderType_ o1 with
              | BUY =>
                  mkOrderBook (book_symbol_ b)
                    (multiset_insert BuyOrderComparator h1 p (buyOrders_ b))
                    (sellOrders_ b) (orderLookup_ b)
              | SELL =>
                  mkOrderBook (book_symbol_ b) (buyOrders_ b)
                    (multiset_insert SellOrderComparator h1 p (sellOrders_ b))
                    (orderLookup_ b)
              end in
            (true, h1,
             mkOrderBook (book_symbol_ b1) (buyOrders_ b1) (sellOrders_ b1)
               (<[orderId_ o1 := p]> (orderLookup_ b1)))
        end
  end.

Definition cancelOrder (orderId : OrderId) (h : Heap) (b : OrderBook)
  : bool * Heap * OrderBook :=
  match orderLookup_ b !! orderId with
  | None => (false, h, b)
  | Some p =>
      let order := deref h p in
      if negb (canCancel order) then (false, h, b)
      else
        let erased :=
          match orderType_ order with
          | BUY =>
              (fun l => mkOrderBook (book_symbol_ b) l (sellOrders_ b)
                          (orderLookup_ b))
                <$> erase_by_id h orderId (buyOrders_ b)
          | SELL =>
              (fun l => mkOrderBook (book_symbol_ b) (buyOrders_ b) l
                          (orderLookup_ b))
                <$> erase_by_id h orderId (sellOrders_ b)
          end in
        match erased with
        | Some b1 => (true, store h p (snd (setStatus order CANCELLED)), b1)
        | None => (false, h, b)
        end
  end.

Definition modifyOrder (orderId : OrderId) (newQuantity : Quantity)
    (newPrice : Price) (h : Heap) (b : OrderBook)
  : bool * Heap * OrderBook :=
  match orderLookup_ b !! orderId with
  | None => (false, h, b)
  | Some p0 =>
      let existingOrder := deref h p0 in
      if negb (canModify existingOrder) then (false, h, b)
      else
        let modifiedOrder := clone existingOrder in
        let '(okq, m1) := setQuantity modifiedOrder newQuantity in
        if negb okq then (false, h, b)
        else
          let '(okp, m2) := setPrice m1 newPrice in
          if negb okp then (false, h, b)
          else
            (* under the exclusive lock: look the id up again *)
            match orderLookup_ b !! orderId with
            | None => (false, h, b)
            | Some p =>
                let order := deref h p in
                if negb (canModify order) then (false, h, b)
                else
                  let erased :=
                    match orderType_ order with
                    | BUY =>
                        (fun l => mkOrderBook (book_symbol_ b) l
                                    (sellOrders_ b) (orderLookup_ b))
                          <$> erase_by_id h orderId (buyOrders_ b)
                    | SELL =>
                        (fun l => mkOrderBook (book_symbol_ b)
                                    (buyOrders_ b) l (orderLookup_ b))
                          <$> erase_by_id h orderId (sellOrders_ b)
                    end in
                  match erased with
                  | None => (false, h, b)
                  | Some b1 =>
                      let '(q, h1) := alloc h m2 in
                      let h2 := store h1 q (snd (setStatus (deref h1 q) ACCEPTED)) in
                      let b2 :=
                        match orderType_ (deref h2 q) with
                        | BUY =>
                            mkOrderBook (book_symbol_ b1)
                              (multiset_insert BuyOrderComparator h2 q
                                 (buyOrders_ b1))
                              (sellOrders_ b1) (orderLookup_ b1)
                        | SELL =>
                            mkOrderBook (book_symbol_ b1) (buyOrders_ b1)
                              (multiset_insert SellOrderComparator h2 q
                                 (sellOrders_ b1))
                              (orderLookup_ b1)
                        end in
                      (true, h2,
                       mkOrderBook (book_symbol_ b2) (buyOrders_ b2)
                         (sellOrders_ b2)
                         (<[orderId := q]> (orderLookup_ b2)))
                  end
            end
  end.

Definition getOrder (orderId : OrderId) (b : OrderBook) : option ptr :=
  orderLookup_ b !! orderId.

Definition getBuyOrders (b : OrderBook) : list ptr := buyOrders_ b.
Definition getSellOrders (b : OrderBook) : list ptr := sellOrders_ b.

(** One pass through the body of the [while] loop of [matchOrders]:
    [None] when the loop is left (a side is empty, or the cross check
    breaks), otherwise the trade pushed and the state after the pass. *)
Definition match_iteration (w : World) (h : Heap) (b : OrderBook)
  : option (Trade * World * Heap * OrderBook) :=
  match buyOrders_ b, sellOrders_ b with
  | pb :: buys, ps :: sells =>
      if Qltb (price_ (deref h pb)) (price_ (deref h ps)) then None
      else
        let tradeQuantity :=
          Z.min (getRemainingQuantity (deref h pb))
                (getRemainingQuantity (deref h ps)) in
        let tradePrice := price_ (deref h ps) in
        let '(tradeId, w1) := generateUUID w in
        let '(trade, w2) :=
          Trade_new tradeId BUY (orderId_ (deref h pb)) (orderId_ (deref h ps))
                    (book_symbol_ b) tradeQuantity tradePrice w1 in
        let h1 := store h pb (fill (deref h pb) tradeQuantity) in
        let h2 := store h1 ps (fill (deref h1 ps) tradeQuantity) in
        let buys' :=
          if getRemainingQuantity (deref h2 pb) =? 0 then buys
          else pb :: buys in
        let sells' :=
          if getRemainingQuantity (deref h2 ps) =? 0 then sells
          else ps :: sells in
        Some (trade, w2, h2,
              mkOrderBook (book_symbol_ b) buys' sells' (orderLookup_ b))
  | _, _ => None
  end.

(** The loop, with an explicit bound on the number of passes; [None] means
    that the bound was reached before the loop was left. *)
Fixpoint match_loop (fuel : nat) (w : World) (h : Heap) (b : OrderBook)
  : option (list Trade * World * Heap * OrderBook) :=
  match match_iteration w h b with
  | None => Some ([], w, h, b)
  | Some (trade, w', h', b') =>
      match fuel with
      | O => None
      | S fuel' =>
          match match_loop fuel' w' h' b' with
          | Some (trades, w'', h'', b'') => Some (trade :: trades, w'', h'', b'')
          | None => None
          end
      end
  end.

(** Every pass erases at least one order of a well-formed book, so the
    number of resting orders bounds the number of passes (see
    [matchOrders_returns]). *)
Definition matchOrders (w : World) (h : Heap) (b : OrderBook)
  : option (list Trade * World * Heap * OrderBook) :=
  match_loop (length (buyOrders_ b) + length (sellOrders_ b))%nat w h b.

Definition getBestBid (h : Heap) (b : OrderBook) : Price :=
  match buyOrders_ b with
  | [] => 0%Q
  | p :: _ => price_ (deref h p)
  end.

Definition getBestAsk (h : Heap) (b : OrderBook) : Price :=
  match sellOrders_ b with
  | [] => 0%Q
  | p :: _ => price_ (deref h p)
  end.

Definition getSpread (h : Heap) (b : OrderBook) : Price :=
  (getBestAsk h b - getBestBid h b)%Q.

Definition isValid (b : OrderBook) : bool := negb (empty (book_symbol_ b)).

End Book.

(** ** User.h, TradeObserver.h *)

Record User := mkUser {
  user_userId_ : UserId;
  userName_ : string;
  phoneNumber_ : string;
  emailId_ : string
}.

Definition User_isValid (u : User) : bool :=
  negb (empty (user_userId_ u)) && negb (empty (userName_ u)) &&
  negb (empty (phoneNumber_ u)) && negb (empty (emailId_ u)).

(** A [TradeObserver] is external code.  What the engine does to it is the
    sequence of calls of its two callbacks; a call of
    [onOrderStatusChanged] records the handle it is given together with the
    state of the order object at the moment of the call. *)
Inductive Callback :=
| onTradeExecuted (observer : nat) (trade : Trade)
| onOrderStatusChanged (observer : nat) (order : ptr) (seen : Order).

(** ** TradingEngine.h, TradingEngine.cpp *)

Record TradingEngine := mkTradingEngine {
  orderBooks_ : gmap Symbol OrderBook;
  users_ : gmap UserId User;
  observers_ : list (option nat);
  allOrders_ : gmap OrderId ptr
}.

(** The engine together with what it shares with the rest of the process:
    the oracles, the heap of order objects, and the calls received by the
    observers so far (oldest first). *)
Record System := mkSystem {
  world : World;
  heap : Heap;
  engine : TradingEngine;
  callbacks : list Callback
}.

Module Engine.

Definition registerUser (user : option User) (s : System) : bool * System :=
  match user with
  | None => (false, s)
  | Some u =>
      if negb (User_isValid u) then (false, s)
      else
        let e := engine s in
        match users_ e !! user_userId_ u with
        | Some _ => (false, s)
        | None =>
            (true,
             mkSystem (world s) (heap s)
               (mkTradingEngine (orderBooks_ e)
                  (<[user_userId_ u := u]> (users_ e))
                  (observers_ e) (allOrders_ e))
               (callbacks s))
        end
  end.

Definition getUser (userId : UserId) (s : System) : option User :=
  users_ (engine s) !! userId.

Definition registerObserver (observer : option nat) (s : System) : System :=
  let e := engine s in
  mkSystem (world s) (heap s)
    (mkTradingEngine (orderBooks_ e) (users_ e)
       (observers_ e ++ [observer]) (allOrders_ e))
    (callbacks s).

Definition unregisterObserver (observer : option nat) (s : System) : System :=
  let e := engine s in
  mkSystem (world s) (heap s)
    (mkTradingEngine (orderBooks_ e) (users_ e)
       (filter (fun x => x ≠ observer) (observers_ e)) (allOrders_ e))
    (callbacks s).

Definition getOrCreateOrderBook (symbol : Symbol) (e : TradingEngine)
  : OrderBook * TradingEngine :=
  match orderBooks_ e !! symbol with
  | Some b => (b, e)
  | None =>
      let b := Book.create symbol in
      (b, mkTradingEngine (<[symbol := b]> (orderBooks_ e)) (users_ e)
            (observers_ e) (allOrders_ e))
  end.

(** The book is reached through a pointer; writing it back makes the
    mutation visible in the engine's map. *)
Definition put_book (symbol : Symbol) (b : OrderBook) (e : TradingEngine)
  : TradingEngine :=
  mkTradingEngine (<[symbol := b]> (orderBooks_ e)) (users_ e)
    (observers_ e) (allOrders_ e).

Definition put_order (orderId : OrderId) (p : ptr) (e : TradingEngine)
  : TradingEngine :=
  mkTradingEngine (orderBooks_ e) (users_ e) (observers_ e)
    (<[orderId := p]> (allOrders_ e)).

(** The calls made by one notification: the observers are visited in
    registration order and null entries are skipped. *)
Definition tradeExecuted_calls (observers : list (option nat)) (trade : Trade)
  : list Callback :=
  omap (fmap (fun i => onTradeExecuted i trade)) observers.

Definition orderStatusChanged_calls (observers : list (option nat))
    (h : Heap) (order : ptr) : list Callback :=
  omap (fmap (fun i => onOrderStatusChanged i order (deref h order)))
       observers.

Definition notifyTradeExecuted (trade : Trade) (s : System) : System :=
  mkSystem (world s) (heap s) (engine s)
    (callbacks s ++ tradeExecuted_calls (observers_ (engine s)) trade).

Definition notifyOrderStatusChanged (order : ptr) (s : System) : System :=
  mkSystem (world s) (heap s) (engine s)
    (callbacks s
       ++ orderStatusChanged_calls (observers_ (engine s)) (heap s) order).

(** [for (const auto& trade : trades) notifyTradeExecuted(trade);] *)
Definition notify_trades (trades : list Trade) (s : System) : System :=
  foldl (fun s' trade => notifyTradeExecuted trade s') s trades.

(** [placeOrder]; the outer [None] stands for a call that does not return
    (the matching loop exceeding its bound), the inner option is the
    handle returned, [None] being [nullptr]. *)
Definition placeOrder (userId : UserId) (orderType : OrderType)
    (symbol : Symbol) (quantity : Quantity) (price : Price) (s : System)
  : option (option ptr * System) :=
  match getUser userId s with
  | None => Some (None, s)
  | Some _ =>
      let '(orderId, w1) := generateUUID (world s) in
      if Qltb price 0 then
        Some (None, mkSystem w1 (heap s) (engine s) (callbacks s))
      else
        let '(order, w2) :=
          if Qltb 0 price
          then LimitOrder_new orderId userId orderType symbol quantity price w1
          else MarketOrder_new orderId userId orderType symbol quantity w1 in
        if negb (isValid order) then
          Some (None, mkSystem w2 (heap s) (engine s) (callbacks s))
        else
          let '(orderBook, e1) := getOrCreateOrderBook symbol (engine s) in
          let '(sharedOrder, h1) := alloc (heap s) order in
          let e2 := put_order (orderId_ (deref h1 sharedOrder)) sharedOrder e1 in
          match Book.addOrder (Some sharedOrder) h1 orderBook with
          | (true, h2, orderBook1) =>
              let s1 :=
                notifyOrderStatusChanged sharedOrder
                  (mkSystem w2 h2 (put_book symbol orderBook1 e2) (callbacks s)) in
              match Book.matchOrders (world s1) (heap s1) orderBook1 with
              | None => None
              | Some (trades, w3, h3, orderBook2) =>
                  let s2 :=
                    mkSystem w3 h3 (put_book symbol orderBook2 (engine s1))
                      (callbacks s1) in
                  Some (Some sharedOrder, notify_trades trades s2)
              end
          | (false, h2, orderBook1) =>
              Some (None,
                    mkSystem w2 h2 (put_book symbol orderBook1 e2) (callbacks s))
          end
  end.

(** [placeOrder] for a price that may be NaN: the same body, with the two
    tests on the price taken on doubles.  NaN fails [price < 0] and
    [price > 0], so that a market order is built. *)
Definition placeOrder_double (userId : UserId) (orderType : OrderType)
    (symbol : Symbol) (quantity : Quantity) (price : double) (s : System)
  : option (option ptr * System) :=
  match getUser userId s with
  | None => Some (None, s)
  | Some _ =>
      let '(orderId, w1) := generateUUID (world s) in
      if double_lt price (Num 0) then
        Some (None, mkSystem w1 (heap s) (engine s) (callbacks s))
      else
        let '(order, w2) :=
          if double_lt (Num 0) price
          then LimitOrder_new orderId userId orderType symbol quantity
                 (number price) w1
          else MarketOrder_new orderId userId orderType symbol quantity w1 in
        if negb (isValid order) then
          Some (None, mkSystem w2 (heap s) (engine s) (callbacks s))
        else
          let '(orderBook, e1) := getOrCreateOrderBook symbol (engine s) in
          let '(sharedOrder, h1) := alloc (heap s) order in
          let e2 := put_order (orderId_ (deref h1 sharedOrder)) sharedOrder e1 in
          match Book.addOrder (Some sharedOrder) h1 orderBook with
          | (true, h2, orderBook1) =>
              let s1 :=
                notifyOrderStatusChanged sharedOrder
                  (mkSystem w2 h2 (put_book symbol orderBook1 e2) (callbacks s)) in
              match Book.matchOrders (world s1) (heap s1) orderBook1 with
              | None => None
              | Some (trades, w3, h3, orderBook2) =>
                  let s2 :=
                    mkSystem w3 h3 (put_book symbol orderBook2 (engine s1))
                      (callbacks s1) in
                  Some (Some sharedOrder, notify_trades trades s2)
              end
          | (false, h2, orderBook1) =>
              Some (None,
                    mkSystem w2 h2 (put_book symbol orderBook1 e2) (callbacks s))
          end
  end.

(** The loop of [cancelOrder] over the books of the engine: the first
    book that knows the id and cancels it ends the scan.  The source
    iterates over an [unordered_map], in an unspecified order; the model
    takes the books in the order of [map_to_list].  An order id is indexed
    by the book of its symbol only, so the order of the scan does not show
    in the result. *)
Fixpoint cancel_scan (orderId : OrderId) (h : Heap)
    (books : list (Symbol * OrderBook)) : option (Symbol * Heap * OrderBook) :=
  match books with
  | [] => None
  | (symbol, orderBook) :: rest =>
      match Book.getOrder orderId orderBook with
      | Some _ =>
          match Book.cancelOrder orderId h orderBook with
          | (true, h', orderBook') => Some (symbol, h', orderBook')
          | (false, _, _) => cancel_scan orderId h rest
          end
      | None => cancel_scan orderId h rest
      end
  end.

Definition cancelOrder (userId : UserId) (orderId : OrderId) (s : System)
  : bool * System :=
  match getUser userId s with
  | None => (false, s)
  | Some _ =>
      match allOrders_ (engine s) !! orderId with
      | None => (false, s)
      | Some order =>
          if negb (String.eqb (userId_ (deref (heap s) order)) userId)
          then (false, s)
          else
            match cancel_scan orderId (heap s)
                    (map_to_list (orderBooks_ (engine s))) with
            | Some (symbol, h', orderBook') =>
                (true,
                 notifyOrderStatusChanged order
                   (mkSystem (world s) h'
                      (put_book symbol orderBook' (engine s)) (callbacks s)))
            | None => (false, s)
            end
      end
  end.

Definition modifyOrder (userId : UserId) (orderId : OrderId)
    (newQuantity : Quantity) (newPrice : Price) (s : System)
  : option (bool * System) :=
  match getUser userId s with
  | None => Some (false, s)
  | Some _ =>
      if Qltb newPrice 0 then Some (false, s)
      else
        match allOrders_ (engine s) !! orderId with
        | None => Some (false, s)
        | Some order =>
            if negb (String.eqb (userId_ (deref (heap s) order)) userId)
            then Some (false, s)
            else
              let symbol := symbol_ (deref (heap s) order) in
              match orderBooks_ (engine s) !! symbol with
              | None => Some (false, s)
              | Some orderBook =>
                  match Book.modifyOrder orderId newQuantity newPrice
                          (heap s) orderBook with
                  | (true, h1, orderBook1) =>
                      match Book.getOrder orderId orderBook1 with
                      | Some modifiedOrder =>
                          let s1 :=
                            notifyOrderStatusChanged modifiedOrder
                              (mkSystem (world s) h1
                                 (put_order orderId modifiedOrder
                                    (put_book symbol orderBook1 (engine s)))
                                 (callbacks s)) in
                          match Book.matchOrders (world s1) (heap s1)
                                  orderBook1 with
                          | None => None
                          | Some (trades, w2, h2, orderBook2) =>
                              let s2 :=
                                mkSystem w2 h2
                                  (put_book symbol orderBook2 (engine s1))
                                  (callbacks s1) in
                              Some (true, notify_trades trades s2)
                          end
                      | None =>
                          Some (true,
                                mkSystem (world s) h1
                                  (put_book symbol orderBook1 (engine s))
                                  (callbacks s))
                      end
                  | (false, h1, orderBook1) =>
                      Some (false,
                            mkSystem (world s) h1
                              (put_book symbol orderBook1 (engine s))
                              (callbacks s))
                  end
              end
        end
  end.

Definition getOrderStatus (userId : UserId) (orderId : OrderId) (s : System)
  : option ptr :=
  match getUser userId s with
  | None => None
  | Some _ =>
      match allOrders_ (engine s) !! orderId with
      | Some order =>
          if String.eqb (userId_ (deref (heap s) order)) userId
          then Some order else None
      | None => None
      end
  end.

(** [getUserOrders] walks through [allOrders_], an [unordered_map], in an
    unspecified order; the model takes the entries in the order of
    [map_to_list], and the statements about it speak of membership only. *)
Definition getUserOrders (userId : UserId) (s : System) : list ptr :=
  match getUser userId s with
  | None => []
  | Some _ =>
      omap (fun entry : OrderId * ptr =>
              if String.eqb (userId_ (deref (heap s) entry.2)) userId
              then Some entry.2 else None)
           (map_to_list (allOrders_ (engine s)))
  end.

(** The engine as [getInstance] first creates it, in a given world. *)
Definition initial (w : World) : System :=
  mkSystem w [] (mkTradingEngine ∅ ∅ [] ∅) [].

End Engine.

(** * Notions used in the statements *)

(** ** Well-formed books

    The invariant that the operations of a book maintain (see
    [book_invariant_preserved]). *)

Definition live (s : OrderStatus) : Prop := s = ACCEPTED ∨ s = PARTIALLY_FILLED.

(** The side queue of a book for an order type. *)
Definition side (b : OrderBook) (t : OrderType) : list ptr :=
  match t with BUY => buyOrders_ b | SELL => sellOrders_ b end.

(** The book with the queue of side [t] and the id index replaced. *)
Definition with_side (b : OrderBook) (t : OrderType) (l : list ptr)
    (idx : gmap OrderId ptr) : OrderBook :=
  match t with
  | BUY => mkOrderBook (book_symbol_ b) l (sellOrders_ b) idx
  | SELL => mkOrderBook (book_symbol_ b) (buyOrders_ b) l idx
  end.

(** The comparator of the queue of side [t]. *)
Definition comparator (t : OrderType) : Order -> Order -> bool :=
  match t with BUY => BuyOrderComparator | SELL => SellOrderComparator end.

(** What holds of an order that rests in the queue of side [t]. *)
Record resting (h : Heap) (b : OrderBook) (t : OrderType) (p : ptr) : Prop := {
  resting_valid : (p < length h)%nat;
  resting_type : orderType_ (deref h p) = t;
  resting_symbol : symbol_ (deref h p) = book_symbol_ b;
  resting_indexed : orderLookup_ b !! orderId_ (deref h p) = Some p;
  resting_live : live (status_ (deref h p));
  resting_filled :
    0 <= filledQuantity_ (deref h p) < quantity_ (deref h p);
  resting_untouched :
    status_ (deref h p) = ACCEPTED -> filledQuantity_ (deref h p) = 0
}.

(** What holds of an entry of the id index. *)
Record indexed (h : Heap) (b : OrderBook) (id : OrderId) (p : ptr) : Prop := {
  indexed_valid : (p < length h)%nat;
  indexed_id : orderId_ (deref h p) = id;
  indexed_symbol : symbol_ (deref h p) = book_symbol_ b;
  indexed_where :
    terminal (status_ (deref h p)) = true
    ∨ p ∈ side b (orderType_ (deref h p))
}.

Record book_wf (h : Heap) (b : OrderBook) : Prop := {
  wf_buys : Forall (resting h b BUY) (buyOrders_ b);
  wf_sells : Forall (resting h b SELL) (sellOrders_ b);
  wf_buys_nodup : NoDup (buyOrders_ b);
  wf_sells_nodup : NoDup (sellOrders_ b);
  wf_lookup : ∀ id p, orderLookup_ b !! id = Some p -> indexed h b id p
}.

(** Every book of the engine is filed under its own symbol and is
    well-formed with respect to the shared heap. *)
Definition system_wf (s : System) : Prop :=
  ∀ symbol b, orderBooks_ (engine s) !! symbol = Some b ->
    book_symbol_ b = symbol ∧ book_wf (heap s) b.

(** ** Checkers for well-formedness *)

Definition liveb (s : OrderStatus) : bool :=
  match s with ACCEPTED | PARTIALLY_FILLED => true | _ => false end.

Definition restingb (h : Heap) (b : OrderBook) (t : OrderType) (p : ptr) : bool :=
  let o := deref h p in
  bool_decide (p < length h)%nat
  && bool_decide (orderType_ o = t)
  && bool_decide (symbol_ o = book_symbol_ b)
  && bool_decide (orderLookup_ b !! orderId_ o = Some p)
  && liveb (status_ o)
  && (0 <=? filledQuantity_ o) && (filledQuantity_ o <? quantity_ o)
  && implb (bool_decide (status_ o = ACCEPTED)) (filledQuantity_ o =? 0).

Definition indexedb (h : Heap) (b : OrderBook) (entry : OrderId * ptr) : bool :=
  let o := deref h entry.2 in
  bool_decide (entry.2 < length h)%nat
  && bool_decide (orderId_ o = entry.1)
  && bool_decide (symbol_ o = book_symbol_ b)
  && (terminal (status_ o) || bool_decide (entry.2 ∈ side b (orderType_ o))).

Definition book_wfb (h : Heap) (b : OrderBook) : bool :=
  forallb (restingb h b BUY) (buyOrders_ b)
  && forallb (restingb h b SELL) (sellOrders_ b)
  && bool_decide (NoDup (buyOrders_ b))
  && bool_decide (NoDup (sellOrders_ b))
  && forallb (indexedb h b) (map_to_list (orderLookup_ b)).

Definition system_wfb (s : System) : bool :=
  forallb (fun entry : Symbol * OrderBook =>
             bool_decide (book_symbol_ entry.2 = entry.1)
             && book_wfb (heap s) entry.2)
          (map_to_list (orderBooks_ (engine s))).

(** ** What the operations do *)

(** The members of an order that [fill] leaves alone. *)
Definition same_terms (o o' : Order) : Prop :=
  class_ o' = class_ o ∧ orderId_ o' = orderId_ o ∧ userId_ o' = userId_ o
  ∧ orderType_ o' = orderType_ o ∧ symbol_ o' = symbol_ o
  ∧ quantity_ o' = quantity_ o ∧ price_ o' = price_ o
  ∧ timestamp_ o' = timestamp_ o ∧ timeInForce_ o' = timeInForce_ o.

(** What a trade records. *)
Definition trade_of (h : Heap) (b : OrderBook) (t : Trade) : Prop :=
  ∃ pb ps, pb ∈ buyOrders_ b ∧ ps ∈ sellOrders_ b
    ∧ buyerOrderId_ t = orderId_ (deref h pb)
    ∧ sellerOrderId_ t = orderId_ (deref h ps)
    ∧ trade_symbol_ t = book_symbol_ b
    ∧ trade_price_ t = price_ (deref h ps).

(** What the matching loop does to a well-formed book. *)
Record loop_effect (h : Heap) (b : OrderBook) (h' : Heap) (b' : OrderBook)
  : Prop := {
  effect_length : length h' = length h;
  effect_lookup : orderLookup_ b' = orderLookup_ b;
  effect_symbol : book_symbol_ b' = book_symbol_ b;
  (* only resting orders are touched *)
  effect_frame :
    ∀ p, p ∉ buyOrders_ b -> p ∉ sellOrders_ b -> deref h' p = deref h p;
  effect_filled :
    ∀ p, filledQuantity_ (deref h p) <= filledQuantity_ (deref h' p);
  (* an order leaves its queue only completely filled *)
  effect_erased :
    ∀ t p, p ∈ side b t ->
      p ∈ side b' t
      ∨ (getRemainingQuantity (deref h' p) = 0
         ∧ status_ (deref h' p) = FILLED);
  effect_sides : ∀ t p, p ∈ side b' t -> p ∈ side b t
}.

(** From heap [h] to heap [h']: an order object whose status is terminal
    is the same afterwards, and no filled quantity decreases. *)
Definition heap_progress (h h' : Heap) : Prop :=
  ∀ p, (terminal (status_ (deref h p)) = true -> deref h' p = deref h p)
       ∧ filledQuantity_ (deref h p) <= filledQuantity_ (deref h' p).

(** One call of a mutating operation of the engine that returns. *)
Inductive engine_step (s s' : System) : Prop :=
| step_registerUser user ok :
    Engine.registerUser user s = (ok, s') -> engine_step s s'
| step_registerObserver observer :
    Engine.registerObserver observer s = s' -> engine_step s s'
| step_unregisterObserver observer :
    Engine.unregisterObserver observer s = s' -> engine_step s s'
| step_placeOrder userId orderType symbol quantity price r :
    Engine.placeOrder userId orderType symbol quantity price s = Some (r, s') ->
    engine_step s s'
| step_cancelOrder userId orderId ok :
    Engine.cancelOrder userId orderId s = (ok, s') -> engine_step s s'
| step_modifyOrder userId orderId newQuantity newPrice ok :
    Engine.modifyOrder userId orderId newQuantity newPrice s = Some (ok, s') ->
    engine_step s s'.

(** The test of the comparators: the two prices are more than [1e-9]
    apart. *)
Definition price_far (x y : Order) : bool :=
  Qltb PRICE_EPSILON (Qabs (price_ x - price_ y)).

(** Two prices that the comparators cannot confuse: equal, or more than
    [1e-9] apart. *)
Definition price_separated (x y : Order) : Prop :=
  (price_ x == price_ y)%Q ∨ price_far x y = true.

(** ** The draws of [generateUUID] *)

(** The 31 draws of one call lie in the ranges of their distributions. *)
Definition draws_in_range (draw : nat -> Z) : Prop :=
  ∀ k, (k < 31)%nat ->
    if decide (k = 15%nat) then 8 <= draw k <= 11 else 0 <= draw k <= 15.

(** ** Price-time priority *)

(** [p] does not come after [q] in the queue of side [t]: the comparator
    of the side does not put [q] before [p]. *)
Definition not_after (h : Heap) (t : OrderType) (p q : ptr) : Prop :=
  comparator t (deref h q) (deref h p) = false.

(** A queue in which no order comes after a later one. *)
Definition queue_sorted (h : Heap) (t : OrderType) (l : list ptr) : Prop :=
  StronglySorted (not_after h t) l.

Definition book_sorted (h : Heap) (b : OrderBook) : Prop :=
  ∀ t, queue_sorted h t (side b t).

(** The prices of the orders of [l] are pairwise equal or more than
    [1e-9] apart. *)
Definition prices_separated (h : Heap) (l : list ptr) : Prop :=
  ∀ p q, p ∈ l -> q ∈ l -> price_separated (deref h p) (deref h q).

Definition book_separated (h : Heap) (b : OrderBook) : Prop :=
  ∀ t, prices_separated h (side b t).

(** Checkers. *)
Definition not_afterb (h : Heap) (t : OrderType) (p q : ptr) : bool :=
  negb (comparator t (deref h q) (deref h p)).

Fixpoint queue_sortedb (h : Heap) (t : OrderType) (l : list ptr) : bool :=
  match l with
  | [] => true
  | p :: l' => forallb (not_afterb h t p) l' && queue_sortedb h t l'
  end.

Definition price_separatedb (x y : Order) : bool :=
  Qeq_bool (price_ x) (price_ y) || price_far x y.

Definition prices_separatedb (h : Heap) (l : list ptr) : bool :=
  forallb (fun p => forallb (fun q => price_separatedb (deref h p) (deref h q)) l) l.

(** ** Quantities *)

(** The total filled quantity of the orders of [l]. *)
Definition filled_on (h : Heap) (l : list ptr) : Z :=
  foldr (fun p acc => filledQuantity_ (deref h p) + acc) 0 l.

(** The total quantity of a list of trades. *)
Definition traded (trades : list Trade) : Z :=
  foldr (fun t acc => trade_quantity_ t + acc) 0 trades.


(** ** The engine and its books *)

(** The generator never returns the same UUID twice. *)
Definition uuids_distinct (w : World) : Prop :=
  ∀ i j, uuid_seq w i = uuid_seq w j -> i = j.

(** The order object that [placeOrder] constructs in world [w]: a limit
    order when the price is positive, a market order (price 0) otherwise;
    its id is the next UUID, its timestamp the next reading of the
    clock. *)
Definition new_order (userId : UserId) (orderType : OrderType)
    (symbol : Symbol) (quantity : Quantity) (price : Price) (w : World)
  : Order :=
  mkOrder (if Qltb 0 price then LimitOrder else MarketOrder)
          (uuid_seq w (uuid_calls w)) userId orderType symbol quantity
          (if Qltb 0 price then price else 0%Q)
          (clock_seq w (clock_calls w)) PENDING GTC 0.

(** [allOrders_] and the id indexes of the books agree: an order id known
    to the engine is indexed, to the same object, by the book of the
    order's symbol, every entry of the id index of a book is an entry of
    [allOrders_], and every id in use has been drawn from the
    generator. *)
Record engine_consistent (s : System) : Prop := {
  consistent_wf : system_wf s;
  consistent_uuids : uuids_distinct (world s);
  consistent_all :
    ∀ id p, allOrders_ (engine s) !! id = Some p ->
      ∃ b, orderBooks_ (engine s) !! symbol_ (deref (heap s) p) = Some b
           ∧ orderLookup_ b !! id = Some p;
  consistent_books :
    ∀ symbol b id p, orderBooks_ (engine s) !! symbol = Some b ->
      orderLookup_ b !! id = Some p ->
      allOrders_ (engine s) !! id = Some p;
  consistent_used :
    ∀ id, is_Some (allOrders_ (engine s) !! id) ->
      ∃ i, (i < uuid_calls (world s))%nat ∧ uuid_seq (world s) i = id
}.

(** The observer that receives a call. *)
Definition observer_of (c : Callback) : nat :=
  match c with
  | onTradeExecuted i _ => i
  | onOrderStatusChanged i _ _ => i
  end.

(** No book of the engine indexes the object [p]. *)
Definition unreferenced (s : System) (p : ptr) : Prop :=
  ∀ symbol b id, orderBooks_ (engine s) !! symbol = Some b ->
    orderLookup_ b !! id ≠ Some p.

(** ** Sound order objects *)

(** What [isValid] tests of an order, with the condition on the price of a
    limit order written as [setPrice] tests it: the price is not below
    [MIN_ORDER_PRICE] and not above [MAX_ORDER_PRICE].  For a price that
    is a number this is the test of [isValid], [price_ >= MIN_ORDER_PRICE
    && price_ <= MAX_ORDER_PRICE]; a NaN, for which every comparison is
    false, passes the test of [setPrice] and fails the one of
    [isValid]. *)
Definition within_bounds (o : Order) : Prop :=
  empty (orderId_ o) = false ∧ empty (userId_ o) = false
  ∧ empty (symbol_ o) = false
  ∧ 0 < quantity_ o <= MAX_ORDER_QUANTITY
  ∧ match class_ o with
    | LimitOrder =>
        ¬ (price_ o < MIN_ORDER_PRICE)%Q ∧ ¬ (MAX_ORDER_PRICE < price_ o)%Q
    | MarketOrder => (0 <= price_ o)%Q
    end.

(** An order object whose members fit together: it is within the bounds,
    it is not filled beyond its quantity, its status is FILLED exactly
    when nothing remains, an order that may still be modified (PENDING or
    ACCEPTED) has not been filled at all, a PARTIALLY_FILLED order has
    been filled, and the status is not REJECTED. *)
Record order_sound (o : Order) : Prop := {
  sound_bounds : within_bounds o;
  sound_filled : 0 <= filledQuantity_ o <= quantity_ o;
  sound_FILLED : status_ o = FILLED ↔ filledQuantity_ o = quantity_ o;
  sound_untouched : canModify o = true -> filledQuantity_ o = 0;
  sound_partial : status_ o = PARTIALLY_FILLED -> 0 < filledQuantity_ o;
  sound_not_rejected : status_ o ≠ REJECTED
}.

Definition heap_sound (h : Heap) : Prop :=
  ∀ p, (p < length h)%nat -> order_sound (deref h p).

(** * The specification, in its own words *)

(** ** Section 4.2: the matching loop

    [match_run w h b trades w' h' b']: started in [(w, h, b)], the loop of
    section 4.2 of the specification produces [trades], in this order, and
    ends in [(w', h', b')].  The loop ends when a side is empty or when
    the best bid is priced strictly below the best ask; otherwise it
    trades [q], the smaller of the two remaining quantities, at the price
    of the best ask, fills both best orders by exactly [q], and erases a
    best order exactly when nothing remains of it. *)
Inductive match_run :
  World -> Heap -> OrderBook -> list Trade ->
  World -> Heap -> OrderBook -> Prop :=
| match_run_side_empty w h b :
    buyOrders_ b = [] ∨ sellOrders_ b = [] ->
    match_run w h b [] w h b
| match_run_no_cross w h b B buys A sells :
    buyOrders_ b = B :: buys -> sellOrders_ b = A :: sells ->
    (price_ (deref h B) < price_ (deref h A))%Q ->
    match_run w h b [] w h b
| match_run_trade w h b B buys A sells q trade w' h' b' trades w'' h'' b'' :
    buyOrders_ b = B :: buys -> sellOrders_ b = A :: sells ->
    ¬ (price_ (deref h B) < price_ (deref h A))%Q ->
    q = Z.min (getRemainingQuantity (deref h B))
              (getRemainingQuantity (deref h A)) ->
    (trade, w') =
      Trade_new (generateUUID w).1 BUY (orderId_ (deref h B))
        (orderId_ (deref h A)) (book_symbol_ b) q (price_ (deref h A))
        (generateUUID w).2 ->
    (* both best orders are filled by exactly [q] *)
    deref h' B = fill (deref h B) q ->
    deref h' A = fill (deref h A) q ->
    filledQuantity_ (deref h' B) = filledQuantity_ (deref h B) + q ->
    filledQuantity_ (deref h' A) = filledQuantity_ (deref h A) + q ->
    (* and no other object is touched *)
    h' = store (store h B (deref h' B)) A (deref h' A) ->
    (* a best order is erased exactly when nothing remains of it *)
    buyOrders_ b' =
      (if decide (getRemainingQuantity (deref h' B) = 0) then buys
       else B :: buys) ->
    sellOrders_ b' =
      (if decide (getRemainingQuantity (deref h' A) = 0) then sells
       else A :: sells) ->
    book_symbol_ b' = book_symbol_ b ->
    orderLookup_ b' = orderLookup_ b ->
    match_run w' h' b' trades w'' h'' b'' ->
    match_run w h b (trade :: trades) w'' h'' b''.

(** ** Section 9: the price of a trade

    A trade executes at the price of the resting side, the order of the
    two that arrived first. *)
Definition resting_price (buy sell : Order) : Price :=
  if timestamp_ buy <? timestamp_ sell then price_ buy else price_ sell.

Definition executes_at_resting_price (h : Heap) (t : Trade) : Prop :=
  ∀ pb ps, (pb < length h)%nat -> (ps < length h)%nat ->
    orderId_ (deref h pb) = buyerOrderId_ t ->
    orderId_ (deref h ps) = sellerOrderId_ t ->
    (trade_price_ t == resting_price (deref h pb) (deref h ps))%Q.

(** ** Section 8, invariant 2: no residual cross *)
Definition no_residual_cross (h : Heap) (b : OrderBook) : Prop :=
  buyOrders_ b ≠ [] -> sellOrders_ b ≠ [] ->
  (Book.getBestBid h b < Book.getBestAsk h b)%Q.

(** The book filed under [symbol], if there is one, has no residual cross. *)
Definition uncrossed_at (s : System) (symbol : Symbol) : Prop :=
  ∀ b, orderBooks_ (engine s) !! symbol = Some b ->
    no_residual_cross (heap s) b.

(** ** Section 3: the id index

    The id index is in one-to-one correspondence with the union of the
    two queues. *)
Definition index_matches_queues (h : Heap) (b : OrderBook) : Prop :=
  ∀ id p, orderLookup_ b !! id = Some p
          ↔ p ∈ buyOrders_ b ++ sellOrders_ b ∧ orderId_ (deref h p) = id.

(** ** Section 4.2: modify as remove and re-insert *)

(** The order object that replaces [o] when it is modified: the same
    order id (and user, type, symbol), the new quantity and price, status
    ACCEPTED, and the given arrival time. *)
Definition replacement (o : Order) (newQuantity : Quantity)
    (newPrice : Price) (arrival : Timestamp) : Order :=
  mkOrder (class_ o) (orderId_ o) (userId_ o) (orderType_ o) (symbol_ o)
          newQuantity newPrice arrival ACCEPTED (timeInForce_ o)
          (filledQuantity_ o).

(** Remove the order [p] from its side and from the id index, then
    insert [o'], a new object, into the side of its type and into the id
    index. *)
Definition remove_and_insert (p : ptr) (o' : Order) (h : Heap)
    (b : OrderBook) : Heap * OrderBook :=
  let old := deref h p in
  let removed :=
    with_side b (orderType_ old)
      (default (side b (orderType_ old))
         (erase_by_id h (orderId_ old) (side b (orderType_ old))))
      (delete (orderId_ old) (orderLookup_ b)) in
  let '(q, h1) := alloc h o' in
  (h1,
   with_side removed (orderType_ o')
     (multiset_insert (comparator (orderType_ o')) h1 q
        (side removed (orderType_ o')))
     (<[orderId_ o' := q]> (orderLookup_ removed))).

(** The conditions under which an indexed order can be modified.  The
    condition on the price is written as [setPrice] tests it: the new
    price is not below [MIN_ORDER_PRICE] and not above
    [MAX_ORDER_PRICE]. *)
Definition modifiable (o : Order) (newQuantity : Quantity) (newPrice : Price)
  : Prop :=
  canModify o = true ∧ class_ o = LimitOrder
  ∧ 0 < newQuantity <= MAX_ORDER_QUANTITY
  ∧ ¬ (newPrice < MIN_ORDER_PRICE)%Q ∧ ¬ (MAX_ORDER_PRICE < newPrice)%Q.

(** * Example states and runs *)

(** A world whose UUIDs are [o0], [o1], ... and whose clock ticks once per
    reading. *)
Definition demo_world : World :=
  mkWorld
    (fun n => String.append "o" (String (Ascii.ascii_of_nat (48 + n)) EmptyString))
    0 (fun n => Z.of_nat n) 0.

(** A book in the state in which [placeOrder] calls [matchOrders]: the bid
    at 500 has just arrived and crosses two of the three asks. *)
Definition demo_heap : Heap :=
  [ mkOrder LimitOrder "b0" "U1" BUY "WIPRO" 100 (500 # 1) 4 ACCEPTED GTC 0;
    mkOrder LimitOrder "s0" "U2" SELL "WIPRO" 60 (495 # 1) 1 ACCEPTED GTC 0;
    mkOrder LimitOrder "s1" "U2" SELL "WIPRO" 70 (500 # 1) 2 ACCEPTED GTC 0;
    mkOrder LimitOrder "s2" "U2" SELL "WIPRO" 70 (501 # 1) 3 ACCEPTED GTC 0 ].
Definition demo_book : OrderBook :=
  mkOrderBook "WIPRO" [0%nat] [1%nat; 2%nat; 3%nat]
    (<["b0" := 0%nat]> (<["s0" := 1%nat]> (<["s1" := 2%nat]> (<["s2" := 3%nat]> ∅)))).

(** An order of the given type, price and arrival time. *)
Definition chain_order (id : OrderId) (t : OrderType) (p : Price)
    (arrival : Timestamp) : Order :=
  mkOrder LimitOrder id "U1" t "WIPRO" 100 p arrival ACCEPTED GTC 0.

Definition demo_user (id : UserId) : User := mkUser id "name" "phone" "mail".

(** Two registered users and one observer. *)
Definition demo_system : System :=
  (Engine.registerUser (Some (demo_user "U2"))
     (Engine.registerUser (Some (demo_user "U1"))
        (Engine.registerObserver (Some 7%nat) (Engine.initial demo_world))).2).2.

(** Sequencing of calls that may fail to return. *)
Definition and_then {A B : Type} (m : option (A * System))
    (f : System -> option (B * System)) : option (B * System) :=
  match m with
  | Some (_, s) => f s
  | None => None
  end.

(** A buy order rests at 105; a sell order priced 100 arrives. *)
Definition run_sell_into_bid : option (option ptr * System) :=
  and_then (Engine.placeOrder "U1" BUY "WIPRO" 100 (105 # 1) demo_system)
    (Engine.placeOrder "U2" SELL "WIPRO" 100 (100 # 1)).

(** The system after the first call of [run_sell_into_bid]: one resting
    bid. *)
Definition demo_system_one_bid : System :=
  match Engine.placeOrder "U1" BUY "WIPRO" 100 (105 # 1) demo_system with
  | Some (_, s) => s
  | None => demo_system
  end.

(** The system after [run_sell_into_bid]: two filled orders. *)
Definition demo_system_filled : System :=
  match run_sell_into_bid with
  | Some (_, s) => s
  | None => demo_system
  end.

(** A sell order rests at 50; a MARKET buy order (price 0) arrives. *)
Definition run_market_buy : option (option ptr * System) :=
  and_then (Engine.placeOrder "U1" SELL "WIPRO" 100 (50 # 1) demo_system)
    (Engine.placeOrder "U2" BUY "WIPRO" 100 0%Q).

(** A buy order for 100 rests at 105; a MARKET sell order for 150 arrives. *)
Definition run_market_sell : option (option ptr * System) :=
  Engine.placeOrder "U2" SELL "WIPRO" 150 0%Q demo_system_one_bid.

(** Two bids less than [1e-9] apart, the later one the higher:
    100 and 100 + 2^-31; an ask at 100 + 2^-32; then the first bid is
    cancelled.  The three prices and their differences are doubles. *)
Definition run_cancel_best_bid : option (bool * System) :=
  and_then
    (and_then
       (and_then (Engine.placeOrder "U1" BUY "WIPRO" 100 (100 # 1) demo_system)
          (Engine.placeOrder "U1" BUY "WIPRO" 100 (214748364801 # 2147483648)))
       (Engine.placeOrder "U2" SELL "WIPRO" 100 (429496729601 # 4294967296)))
    (fun s => Some (Engine.cancelOrder "U1" "o0" s)).

(** The system after [run_cancel_best_bid]: its book is crossed. *)
Definition demo_crossed_system : System :=
  match run_cancel_best_bid with
  | Some (_, s) => s
  | None => demo_system
  end.

(** Bids at 100 and at 99 and an ask at 101. *)
Definition demo_system_spread : System :=
  match
    and_then
      (and_then (Engine.placeOrder "U1" BUY "WIPRO" 100 (100 # 1) demo_system)
         (Engine.placeOrder "U1" BUY "WIPRO" 100 (99 # 1)))
      (Engine.placeOrder "U2" SELL "WIPRO" 100 (101 # 1))
  with
  | Some (_, s) => s
  | None => demo_system
  end.

(** An order placed and cancelled. *)
Definition run_place_cancel : option (bool * System) :=
  and_then (Engine.placeOrder "U1" BUY "TCS" 50 (3200 # 1) demo_system)
    (fun s => Some (Engine.cancelOrder "U1" "o0" s)).

(** The system after two bids at the same price. *)
Definition demo_system_two_bids : System :=
  match
    and_then (Engine.placeOrder "U1" BUY "WIPRO" 100 (100 # 1) demo_system)
      (Engine.placeOrder "U2" BUY "WIPRO" 100 (100 # 1))
  with
  | Some (_, s) => s
  | None => demo_system
  end.

(** A world whose UUIDs are [o0], [o1], [o2], ... in decimal, all distinct,
    and whose clock ticks once per reading. *)
Definition counting_world : World :=
  mkWorld
    (fun n => String.append "o" (NilEmpty.string_of_uint (Nat.to_uint n)))
    0 (fun n => Z.of_nat n) 0.

(** Two registered users and one observer, in [counting_world]. *)
Definition counting_system : System :=
  (Engine.registerUser (Some (demo_user "U2"))
     (Engine.registerUser (Some (demo_user "U1"))
        (Engine.registerObserver (Some 7%nat)
           (Engine.initial counting_world))).2).2.

(** [counting_system] after U1 has placed a bid for 100 at 105. *)
Definition counting_system_one_bid : System :=
  match Engine.placeOrder "U1" BUY "WIPRO" 100 (105 # 1) counting_system with
  | Some (_, s) => s
  | None => counting_system
  end.

(** * Properties *)

(** ** The heap *)

Lemma deref_store_eq (h : Heap) (p : ptr) (o : Order) :
  (p < length h)%nat -> deref (store h p o) p = o.
Proof.
  intros Hp. unfold deref, store.
  by rewrite list_lookup_insert_eq.
Qed.

Lemma deref_store_ne (h : Heap) (p q : ptr) (o : Order) :
  p ≠ q -> deref (store h p o) q = deref h q.
Proof.
  intros Hne. unfold deref, store.
  by rewrite list_lookup_insert_ne.
Qed.

Lemma length_store (h : Heap) (p : ptr) (o : Order) :
  length (store h p o) = length h.
Proof. apply length_insert. Qed.

Lemma store_out_of_range (h : Heap) (p : ptr) (o : Order) :
  (length h <= p)%nat -> store h p o = h.
Proof. intros Hp. by apply list_insert_ge. Qed.

Lemma deref_out_of_range (h : Heap) (p : ptr) :
  (length h <= p)%nat -> deref h p = null_order.
Proof. intros Hp. unfold deref. by rewrite lookup_ge_None_2. Qed.

Lemma deref_alloc_old (h : Heap) (o : Order) (p : ptr) :
  (p < length h)%nat -> deref (h ++ [o]) p = deref h p.
Proof. intros Hp. unfold deref. by rewrite lookup_app_l. Qed.

Lemma deref_alloc_new (h : Heap) (o : Order) :
  deref (h ++ [o]) (length h) = o.
Proof. unfold deref. by rewrite list_lookup_middle. Qed.

(** ** [fill] *)

Lemma fill_cases (o : Order) (n : Quantity) :
  (getRemainingQuantity o < n ∧ fill o n = o)
  ∨ (n <= getRemainingQuantity o
     ∧ filledQuantity_ (fill o n) = filledQuantity_ o + n
     ∧ (status_ (fill o n) =
          if filledQuantity_ o + n =? quantity_ o then FILLED
          else if 0 <? filledQuantity_ o + n then PARTIALLY_FILLED
          else status_ o)).
Proof.
  unfold fill. destruct (Z.leb_spec n (getRemainingQuantity o)); [right | left; done].
  split; [done |].
  destruct (_ =? _); [done |]. destruct (0 <? _); done.
Qed.

Lemma fill_frame (o : Order) (n : Quantity) :
  class_ (fill o n) = class_ o ∧ orderId_ (fill o n) = orderId_ o
  ∧ userId_ (fill o n) = userId_ o ∧ orderType_ (fill o n) = orderType_ o
  ∧ symbol_ (fill o n) = symbol_ o ∧ quantity_ (fill o n) = quantity_ o
  ∧ price_ (fill o n) = price_ o ∧ timestamp_ (fill o n) = timestamp_ o
  ∧ timeInForce_ (fill o n) = timeInForce_ o.
Proof.
  unfold fill. destruct (_ <=? _); [| done].
  destruct (_ =? _); [done |]. destruct (0 <? _); done.
Qed.

Lemma fill_resting (o : Order) (n : Quantity) :
  0 <= filledQuantity_ o < quantity_ o ->
  0 < n <= getRemainingQuantity o ->
  filledQuantity_ (fill o n) = filledQuantity_ o + n
  ∧ ((getRemainingQuantity (fill o n) = 0 ∧ status_ (fill o n) = FILLED)
     ∨ (0 < getRemainingQuantity (fill o n)
        ∧ status_ (fill o n) = PARTIALLY_FILLED)).
Proof.
  intros Hf Hn.
  destruct (fill_frame o n) as (_ & _ & _ & _ & _ & Hq & _).
  destruct (fill_cases o n) as [[Hlt _] | (_ & Hfilled & Hst)]; [lia |].
  split; [done |]. unfold getRemainingQuantity in *. rewrite Hq, Hfilled, Hst.
  destruct (Z.eqb_spec (filledQuantity_ o + n) (quantity_ o)).
  - left. split; [lia | done].
  - right. destruct (Z.ltb_spec 0 (filledQuantity_ o + n)); [| lia].
    split; [lia | done].
Qed.

(** ** One pass of the matching loop *)

(** The state after a pass, spelled out. *)
Lemma match_iteration_Some w h b t w' h' b' :
  Book.match_iteration w h b = Some (t, w', h', b') ->
  ∃ pb buys ps sells,
    buyOrders_ b = pb :: buys ∧ sellOrders_ b = ps :: sells
    ∧ Qltb (price_ (deref h pb)) (price_ (deref h ps)) = false
    ∧ let q := Z.min (getRemainingQuantity (deref h pb))
                     (getRemainingQuantity (deref h ps)) in
      let h1 := store h pb (fill (deref h pb) q) in
      (t, w') = Trade_new (generateUUID w).1 BUY (orderId_ (deref h pb))
                  (orderId_ (deref h ps)) (book_symbol_ b) q
                  (price_ (deref h ps)) (generateUUID w).2
      ∧ h' = store h1 ps (fill (deref h1 ps) q)
      ∧ b' = mkOrderBook (book_symbol_ b)
               (if getRemainingQuantity (deref h' pb) =? 0 then buys
                else pb :: buys)
               (if getRemainingQuantity (deref h' ps) =? 0 then sells
                else ps :: sells)
               (orderLookup_ b).
Proof.
  unfold Book.match_iteration.
  destruct (buyOrders_ b) as [| pb buys]; [done |].
  destruct (sellOrders_ b) as [| ps sells]; [done |].
  destruct (Qltb _ _) eqn:Hcross; [done |].
  destruct (generateUUID w) as [tid w1] eqn:Hid.
  destruct (Trade_new _ _ _ _ _ _ _ _) as [trade w2] eqn:Htrade.
  intros [= <- <- <- <-].
  exists pb, buys, ps, sells. simpl. rewrite Htrade. done.
Qed.

Lemma match_iteration_None w h b :
  Book.match_iteration w h b = None ->
  buyOrders_ b = [] ∨ sellOrders_ b = []
  ∨ Qltb (Book.getBestBid h b) (Book.getBestAsk h b) = true.
Proof.
  unfold Book.match_iteration, Book.getBestBid, Book.getBestAsk.
  destruct (buyOrders_ b) as [| pb buys]; [by left |].
  destruct (sellOrders_ b) as [| ps sells]; [by right; left |].
  destruct (Qltb _ _) eqn:Hcross; [by right; right |].
  destruct (generateUUID w) as [tid w1].
  destruct (Trade_new _ _ _ _ _ _ _ _) as [trade w2]. done.
Qed.

(** [resting] and [indexed] look at the heap only through the object they
    speak about. *)
Lemma resting_frame h b h' b' t p :
  resting h b t p ->
  (length h <= length h')%nat ->
  deref h' p = deref h p ->
  book_symbol_ b' = book_symbol_ b ->
  orderLookup_ b' !! orderId_ (deref h p) = Some p ->
  resting h' b' t p.
Proof.
  intros [] Hlen Hd Hsym Hidx.
  split; rewrite ?Hd, ?Hsym; try done. lia.
Qed.

Lemma heads_distinct h b pb buys ps sells :
  book_wf h b -> buyOrders_ b = pb :: buys -> sellOrders_ b = ps :: sells ->
  pb ≠ ps ∧ resting h b BUY pb ∧ resting h b SELL ps.
Proof.
  intros Hwf Hb Hs.
  pose proof (wf_buys _ _ Hwf) as HB. pose proof (wf_sells _ _ Hwf) as HS.
  rewrite Hb in HB. rewrite Hs in HS.
  apply Forall_cons in HB as [HB _]. apply Forall_cons in HS as [HS _].
  split; [| done]. intros ->.
  pose proof (resting_type _ _ _ _ HB). pose proof (resting_type _ _ _ _ HS).
  congruence.
Qed.

(** What a pass does to a well-formed book. *)
Lemma match_iteration_effect w h b t w' h' b' :
  book_wf h b ->
  Book.match_iteration w h b = Some (t, w', h', b') ->
  ∃ pb buys ps sells q,
    buyOrders_ b = pb :: buys ∧ sellOrders_ b = ps :: sells ∧ pb ≠ ps
    ∧ q = Z.min (getRemainingQuantity (deref h pb))
                (getRemainingQuantity (deref h ps))
    ∧ 0 < q
    ∧ deref h' pb = fill (deref h pb) q
    ∧ deref h' ps = fill (deref h ps) q
    ∧ (∀ p, p ≠ pb -> p ≠ ps -> deref h' p = deref h p)
    ∧ length h' = length h
    ∧ b' = mkOrderBook (book_symbol_ b)
             (if getRemainingQuantity (deref h' pb) =? 0 then buys
              else pb :: buys)
             (if getRemainingQuantity (deref h' ps) =? 0 then sells
              else ps :: sells)
             (orderLookup_ b).
Proof.
  intros Hwf Hit.
  apply match_iteration_Some in Hit
    as (pb & buys & ps & sells & Hb & Hs & _ & _ & -> & ->).
  destruct (heads_distinct _ _ _ _ _ _ Hwf Hb Hs) as (Hne & HB & HS).
  exists pb, buys, ps, sells. eexists. split_and!; try done.
  - pose proof (resting_filled _ _ _ _ HB). pose proof (resting_filled _ _ _ _ HS).
    unfold getRemainingQuantity. lia.
  - rewrite deref_store_ne by done. apply deref_store_eq, HB.
  - rewrite deref_store_eq; [by rewrite deref_store_ne |].
    rewrite length_store. apply HS.
  - intros p Hpb Hps. by rewrite !deref_store_ne.
  - by rewrite !length_store.
Qed.

Lemma fill_head_resting h b h' b' t p q :
  resting h b t p ->
  0 < q <= getRemainingQuantity (deref h p) ->
  deref h' p = fill (deref h p) q ->
  length h' = length h ->
  book_symbol_ b' = book_symbol_ b ->
  orderLookup_ b' = orderLookup_ b ->
  getRemainingQuantity (deref h' p) ≠ 0 ->
  resting h' b' t p.
Proof.
  intros [] Hq Hd Hlen Hsym Hidx Hrem.
  destruct (fill_frame (deref h p) q) as (_ & Hid & _ & Hty & Hsy & Hqu & _).
  destruct (fill_resting (deref h p) q) as (Hfilled & Hcases); [done.. |].
  rewrite <- Hd in *.
  split; rewrite ?Hlen, ?Hty, ?Hsy, ?Hid, ?Hsym, ?Hidx; try done.
  - destruct Hcases as [[? _] | [_ ->]]; [done | by right].
  - unfold getRemainingQuantity in *. lia.
  - destruct Hcases as [[? _] | [_ ->]]; [done | done].
Qed.

Lemma kept_or_erased (r : Z) (p : ptr) (l : list ptr) :
  (r = 0 ∧ (if r =? 0 then l else p :: l) = l)
  ∨ (r ≠ 0 ∧ (if r =? 0 then l else p :: l) = p :: l).
Proof. destruct (Z.eqb_spec r 0); [by left | by right]. Qed.

Lemma match_iteration_wf w h b t w' h' b' :
  book_wf h b ->
  Book.match_iteration w h b = Some (t, w', h', b') ->
  book_wf h' b'.
Proof.
  intros Hwf Hit.
  destruct (match_iteration_effect _ _ _ _ _ _ _ Hwf Hit)
    as (pb & buys & ps & sells & q & Hb & Hs & Hne & Hq & Hqpos
        & Hdb & Hds & Hframe & Hlen & ->).
  clear Hit.
  destruct (heads_distinct _ _ _ _ _ _ Hwf Hb Hs) as (_ & HB & HS).
  pose proof (wf_buys _ _ Hwf) as HBs. pose proof (wf_sells _ _ Hwf) as HSs.
  pose proof (wf_buys_nodup _ _ Hwf) as HBn.
  pose proof (wf_sells_nodup _ _ Hwf) as HSn.
  rewrite Hb in HBs, HBn. rewrite Hs in HSs, HSn.
  apply Forall_cons in HBs as [_ HBs]. apply Forall_cons in HSs as [_ HSs].
  apply NoDup_cons in HBn as [HBnotin HBn].
  apply NoDup_cons in HSn as [HSnotin HSn].
  pose proof (kept_or_erased (getRemainingQuantity (deref h' pb)) pb buys) as Hbuys'.
  pose proof (kept_or_erased (getRemainingQuantity (deref h' ps)) ps sells) as Hsells'.
  revert Hbuys' Hsells'.
  generalize (if getRemainingQuantity (deref h' pb) =? 0 then buys else pb :: buys).
  generalize (if getRemainingQuantity (deref h' ps) =? 0 then sells else ps :: sells).
  intros sells' buys' Hbuys' Hsells'.
  set (b' := mkOrderBook (book_symbol_ b) buys' sells' (orderLookup_ b)).
  (* the orders behind the two heads are not touched *)
  assert (Htail : ∀ ty l, Forall (resting h b ty) l -> pb ∉ l -> ps ∉ l ->
            Forall (resting h' b' ty) l).
  { intros ty l Hl Hnb Hns. rewrite Forall_forall in *. intros p Hp.
    assert (p ≠ pb) by (intros ->; done). assert (p ≠ ps) by (intros ->; done).
    eapply resting_frame; [by apply Hl | lia | by apply Hframe | done |].
    simpl. by apply Hl. }
  assert (Hcross1 : ps ∉ buys).
  { intros Hin. rewrite Forall_forall in HBs.
    pose proof (resting_type _ _ _ _ (HBs _ Hin)).
    pose proof (resting_type _ _ _ _ HS). congruence. }
  assert (Hcross2 : pb ∉ sells).
  { intros Hin. rewrite Forall_forall in HSs.
    pose proof (resting_type _ _ _ _ (HSs _ Hin)).
    pose proof (resting_type _ _ _ _ HB). congruence. }
  assert (Hqb : 0 < q <= getRemainingQuantity (deref h pb)) by lia.
  assert (Hqs : 0 < q <= getRemainingQuantity (deref h ps)) by lia.
  assert (HB' : getRemainingQuantity (deref h' pb) ≠ 0 -> resting h' b' BUY pb)
    by (intros; by eapply fill_head_resting).
  assert (HS' : getRemainingQuantity (deref h' ps) ≠ 0 -> resting h' b' SELL ps)
    by (intros; by eapply fill_head_resting).
  split; simpl.
  - destruct Hbuys' as [[_ ->] | [? ->]]; [by apply Htail |].
    apply Forall_cons. split; [by apply HB' | by apply Htail].
  - destruct Hsells' as [[_ ->] | [? ->]]; [by apply Htail |].
    apply Forall_cons. split; [by apply HS' | by apply Htail].
  - destruct Hbuys' as [[_ ->] | [? ->]]; [done | by apply NoDup_cons].
  - destruct Hsells' as [[_ ->] | [? ->]]; [done | by apply NoDup_cons].
  - intros id p Hlk. destruct (wf_lookup _ _ Hwf _ _ Hlk) as [Hv Hid Hsy Hwh].
    destruct (decide (p = pb)) as [-> | Hnb]; [| destruct (decide (p = ps)) as [-> | Hns]].
    + destruct (fill_frame (deref h pb) q) as (_ & Hid' & _ & Hty' & Hsy' & _).
      destruct (fill_resting (deref h pb) q) as (_ & Hcases);
        [apply HB | done |].
      rewrite <- Hdb in *.
      split; rewrite ?Hid', ?Hsy', ?Hty'; simpl; try done; [lia |].
      rewrite (resting_type _ _ _ _ HB). simpl.
      destruct Hcases as [[Hz Hst] | [Hz Hst]]; [left; by rewrite Hst | right].
      destruct Hbuys' as [[? _] | [_ ->]]; [lia | apply list_elem_of_here].
    + destruct (fill_frame (deref h ps) q) as (_ & Hid' & _ & Hty' & Hsy' & _).
      destruct (fill_resting (deref h ps) q) as (_ & Hcases);
        [apply HS | done |].
      rewrite <- Hds in *.
      split; rewrite ?Hid', ?Hsy', ?Hty'; simpl; try done; [lia |].
      rewrite (resting_type _ _ _ _ HS). simpl.
      destruct Hcases as [[Hz Hst] | [Hz Hst]]; [left; by rewrite Hst | right].
      destruct Hsells' as [[? _] | [_ ->]]; [lia | apply list_elem_of_here].
    + split; rewrite ?Hframe by done; simpl; try done; [lia |].
      destruct Hwh as [Hterm | Hin]; [by left | right].
      destruct (orderType_ (deref h p)); simpl in *.
      * rewrite Hb in Hin. apply elem_of_cons in Hin as [-> | Hin]; [done |].
        destruct Hbuys' as [[_ ->] | [_ ->]];
          [done | by apply list_elem_of_further].
      * rewrite Hs in Hin. apply elem_of_cons in Hin as [-> | Hin]; [done |].
        destruct Hsells' as [[_ ->] | [_ ->]];
          [done | by apply list_elem_of_further].
Qed.


(** ** Price comparisons *)

Lemma Qltb_lt (a b : Q) : Qltb a b = true ↔ (a < b)%Q.
Proof.
  unfold Qltb. rewrite negb_true_iff, <- not_true_iff_false, Qle_bool_iff.
  split; [apply Qnot_le_lt | apply Qlt_not_le].
Qed.

Lemma Qltb_nlt (a b : Q) : Qltb a b = false ↔ ¬ (a < b)%Q.
Proof. rewrite <- Qltb_lt. by destruct (Qltb a b). Qed.

(** ** The loop *)

Lemma book_ext (b1 b2 : OrderBook) :
  book_symbol_ b1 = book_symbol_ b2 -> buyOrders_ b1 = buyOrders_ b2 ->
  sellOrders_ b1 = sellOrders_ b2 -> orderLookup_ b1 = orderLookup_ b2 ->
  b1 = b2.
Proof. destruct b1, b2; simpl; congruence. Qed.

Lemma match_run_deterministic w h b ts1 w1 h1 b1 ts2 w2 h2 b2 :
  match_run w h b ts1 w1 h1 b1 -> match_run w h b ts2 w2 h2 b2 ->
  ts1 = ts2 ∧ w1 = w2 ∧ h1 = h2 ∧ b1 = b2.
Proof.
  intros Hrun. revert ts2 w2 h2 b2.
  induction Hrun as
    [w h b Hempty
    | w h b B buys A sells Hb Hs Hlt
    | w h b B buys A sells q trade w' h' b' trades w'' h'' b''
        Hb Hs Hnlt Hq Htrade HdB HdA HfB HfA Hh Hbuys Hsells Hsym Hidx Hrun IH];
    intros ts2 w2 h2 b2 Hrun2;
    inversion Hrun2 as
      [? ? ? Hempty2
      | ? ? ? B2 buys2 A2 sells2 Hb2 Hs2 Hlt2
      | ? ? ? B2 buys2 A2 sells2 q2 trade2 w2' h2' b2' trades2 ? ? ?
          Hb2 Hs2 Hnlt2 Hq2 Htrade2 HdB2 HdA2 HfB2 HfA2 Hh2 Hbuys2 Hsells2
          Hsym2 Hidx2 Hrun2'];
    subst; try done.
  - destruct Hempty; congruence.
  - congruence.
  - destruct Hempty2; congruence.
  - congruence.
  - assert (B2 = B ∧ buys2 = buys ∧ A2 = A ∧ sells2 = sells) as (-> & -> & -> & ->)
      by (split_and!; congruence).
    assert (trade2 = trade ∧ w2' = w') as [-> ->] by (split; congruence).
    assert (h2' = h') as ->.
    { rewrite Hh, Hh2. congruence. }
    assert (b2' = b') as -> by (apply book_ext; congruence).
    destruct (IH _ _ _ _ Hrun2') as (-> & -> & -> & ->). done.
Qed.

Lemma match_iteration_progress w h b t w' h' b' :
  book_wf h b ->
  Book.match_iteration w h b = Some (t, w', h', b') ->
  (length (buyOrders_ b') + length (sellOrders_ b')
   < length (buyOrders_ b) + length (sellOrders_ b))%nat.
Proof.
  intros Hwf Hit.
  destruct (match_iteration_effect _ _ _ _ _ _ _ Hwf Hit)
    as (pb & buys & ps & sells & q & Hb & Hs & Hne & Hq & Hqpos
        & Hdb & Hds & Hframe & Hlen & ->).
  destruct (heads_distinct _ _ _ _ _ _ Hwf Hb Hs) as (_ & HB & HS).
  destruct (fill_frame (deref h pb) q) as (_ & _ & _ & _ & _ & Hqb & _).
  destruct (fill_frame (deref h ps) q) as (_ & _ & _ & _ & _ & Hqs & _).
  destruct (fill_resting (deref h pb) q) as (Hfb & _); [apply HB | lia |].
  destruct (fill_resting (deref h ps) q) as (Hfs & _); [apply HS | lia |].
  rewrite Hb, Hs. simpl. rewrite Hdb, Hds. unfold getRemainingQuantity in *.
  rewrite Hqb, Hqs, Hfb, Hfs.
  destruct (Z.eqb_spec (quantity_ (deref h pb) - (filledQuantity_ (deref h pb) + q)) 0);
  destruct (Z.eqb_spec (quantity_ (deref h ps) - (filledQuantity_ (deref h ps) + q)) 0);
    simpl; lia.
Qed.

Lemma match_iteration_run w h b t w' h' b' ts w'' h'' b'' :
  book_wf h b ->
  Book.match_iteration w h b = Some (t, w', h', b') ->
  match_run w' h' b' ts w'' h'' b'' ->
  match_run w h b (t :: ts) w'' h'' b''.
Proof.
  intros Hwf Hit Hrun.
  destruct (match_iteration_effect _ _ _ _ _ _ _ Hwf Hit)
    as (pb & buys & ps & sells & q & Hb & Hs & Hne & Hq & Hqpos
        & Hdb & Hds & Hframe & Hlen & Hb').
  destruct (heads_distinct _ _ _ _ _ _ Hwf Hb Hs) as (_ & HB & HS).
  destruct (fill_resting (deref h pb) q) as (Hfb & _); [apply HB | lia |].
  destruct (fill_resting (deref h ps) q) as (Hfs & _); [apply HS | lia |].
  apply match_iteration_Some in Hit
    as (pb' & buys' & ps' & sells' & Hb2 & Hs2 & Hcross & Htr & Hh' & _).
  assert (pb' = pb ∧ buys' = buys ∧ ps' = ps ∧ sells' = sells)
    as (-> & -> & -> & ->) by (split_and!; congruence).
  eapply (match_run_trade w h b pb buys ps sells q t w' h' b'); try done.
  - by apply Qltb_nlt.
  - by rewrite Hq.
  - by rewrite Hdb.
  - by rewrite Hds.
  - rewrite Hdb, Hds, Hh', <- Hq. by rewrite deref_store_ne.
  - rewrite Hb'. simpl.
    destruct (Z.eqb_spec (getRemainingQuantity (deref h' pb)) 0);
      by case_decide.
  - rewrite Hb'. simpl.
    destruct (Z.eqb_spec (getRemainingQuantity (deref h' ps)) 0);
      by case_decide.
  - by rewrite Hb'.
  - by rewrite Hb'.
Qed.

Lemma match_loop_run fuel : ∀ w h b,
  book_wf h b ->
  (length (buyOrders_ b) + length (sellOrders_ b) <= fuel)%nat ->
  ∃ ts w' h' b',
    Book.match_loop fuel w h b = Some (ts, w', h', b')
    ∧ match_run w h b ts w' h' b'
    ∧ book_wf h' b'
    ∧ Book.match_iteration w' h' b' = None.
Proof.
  induction fuel as [| fuel IH]; intros w h b Hwf Hfuel; simpl.
  - destruct (Book.match_iteration w h b) as [[[[t w'] h'] b'] |] eqn:Hit.
    + pose proof (match_iteration_progress _ _ _ _ _ _ _ Hwf Hit). lia.
    + exists [], w, h, b. split_and!; try done.
      apply match_iteration_None in Hit as [? | [? | Hlt]];
        [apply match_run_side_empty; by left
        | apply match_run_side_empty; by right |].
      unfold Book.getBestBid, Book.getBestAsk in Hlt.
      destruct (buyOrders_ b) eqn:Hb; [apply match_run_side_empty; by left |].
      destruct (sellOrders_ b) eqn:Hs; [apply match_run_side_empty; by right |].
      eapply match_run_no_cross; [done.. |]. by apply Qltb_lt.
  - destruct (Book.match_iteration w h b) as [[[[t w'] h'] b'] |] eqn:Hit.
    + pose proof (match_iteration_progress _ _ _ _ _ _ _ Hwf Hit).
      pose proof (match_iteration_wf _ _ _ _ _ _ _ Hwf Hit) as Hwf'.
      destruct (IH w' h' b' Hwf') as (ts & w'' & h'' & b'' & -> & Hrun & Hwf'' & Hend);
        [lia |].
      exists (t :: ts), w'', h'', b''. split_and!; try done.
      by eapply match_iteration_run.
    + exists [], w, h, b. split_and!; try done.
      apply match_iteration_None in Hit as [? | [? | Hlt]];
        [apply match_run_side_empty; by left
        | apply match_run_side_empty; by right |].
      unfold Book.getBestBid, Book.getBestAsk in Hlt.
      destruct (buyOrders_ b) eqn:Hb; [apply match_run_side_empty; by left |].
      destruct (sellOrders_ b) eqn:Hs; [apply match_run_side_empty; by right |].
      eapply match_run_no_cross; [done.. |]. by apply Qltb_lt.
Qed.


(** ** The side queues *)

Lemma elem_of_middle {A} (x p : A) (l1 l2 : list A) :
  x ∈ l1 ++ p :: l2 ↔ x = p ∨ x ∈ l1 ++ l2.
Proof.
  rewrite !elem_of_app, elem_of_cons. tauto.
Qed.

Lemma multiset_insert_perm cmp h x l :
  multiset_insert cmp h x l ≡ₚ x :: l.
Proof.
  induction l as [| y l IH]; simpl; [done |].
  destruct (cmp _ _); [done |].
  rewrite IH. apply Permutation_swap.
Qed.

Lemma elem_of_multiset_insert cmp h x l p :
  p ∈ multiset_insert cmp h x l ↔ p = x ∨ p ∈ l.
Proof. by rewrite multiset_insert_perm, elem_of_cons. Qed.

(** A successful scan erases one element that carries the id; the elements
    before it do not carry it. *)
Lemma erase_by_id_Some h id l l' :
  erase_by_id h id l = Some l' ->
  ∃ l1 p l2, l = l1 ++ p :: l2 ∧ l' = l1 ++ l2
    ∧ orderId_ (deref h p) = id
    ∧ Forall (fun q => orderId_ (deref h q) ≠ id) l1.
Proof.
  revert l'. induction l as [| q l IH]; intros l'; simpl; [done |].
  destruct (String.eqb_spec (orderId_ (deref h q)) id) as [Heq | Hne].
  - intros [= <-]. exists [], q, l. by split_and!.
  - destruct (erase_by_id h id l) as [l0 |] eqn:Hl; [| done].
    intros [= <-]. destruct (IH _ eq_refl) as (l1 & p & l2 & -> & -> & Hid & Hl1).
    exists (q :: l1), p, l2. split_and!; try done. by apply Forall_cons.
Qed.

Lemma erase_by_id_None h id l :
  erase_by_id h id l = None ->
  Forall (fun q => orderId_ (deref h q) ≠ id) l.
Proof.
  induction l as [| q l IH]; simpl; [done |].
  destruct (String.eqb_spec (orderId_ (deref h q)) id) as [Heq | Hne]; [done |].
  destruct (erase_by_id h id l); [done |].
  intros _. apply Forall_cons. split; [done | by apply IH].
Qed.

(** In a well-formed book the scan for the id of an indexed order that
    rests erases exactly that order. *)
Lemma erase_resting h b t id p l' :
  book_wf h b ->
  orderLookup_ b !! id = Some p ->
  erase_by_id h id (side b t) = Some l' ->
  ∃ l1 l2, side b t = l1 ++ p :: l2 ∧ l' = l1 ++ l2 ∧ p ∉ l'.
Proof.
  intros Hwf Hlk Her.
  apply erase_by_id_Some in Her as (l1 & q & l2 & Hside & -> & Hid & _).
  assert (Hall : Forall (resting h b t) (side b t))
    by (destruct t; [apply (wf_buys _ _ Hwf) | apply (wf_sells _ _ Hwf)]).
  assert (Hnd : NoDup (side b t))
    by (destruct t; [apply (wf_buys_nodup _ _ Hwf) | apply (wf_sells_nodup _ _ Hwf)]).
  assert (q = p) as ->.
  { rewrite Forall_forall in Hall.
    assert (Hq : q ∈ side b t) by (rewrite Hside; apply elem_of_middle; by left).
    pose proof (resting_indexed _ _ _ _ (Hall _ Hq)) as Hqi.
    rewrite Hid in Hqi. congruence. }
  exists l1, l2. split_and!; try done.
  rewrite Hside in Hnd. apply NoDup_app in Hnd as (_ & Hdisj & Hnd2).
  apply NoDup_cons in Hnd2 as [Hnotin _].
  intros [Hin | Hin]%elem_of_app; [| done].
  apply (Hdisj _ Hin), list_elem_of_here.
Qed.

Lemma erase_resting_exists h b t id p :
  book_wf h b ->
  orderLookup_ b !! id = Some p ->
  p ∈ side b t ->
  is_Some (erase_by_id h id (side b t)).
Proof.
  intros Hwf Hlk Hin.
  destruct (erase_by_id h id (side b t)) eqn:Her; [done |].
  apply erase_by_id_None in Her. rewrite Forall_forall in Her.
  destruct (wf_lookup _ _ Hwf _ _ Hlk) as [_ Hid _ _].
  by destruct (Her _ Hin).
Qed.

Lemma side_resting h b t p :
  book_wf h b -> p ∈ side b t -> resting h b t p.
Proof.
  intros Hwf Hin.
  assert (Hall : Forall (resting h b t) (side b t))
    by (destruct t; [apply (wf_buys _ _ Hwf) | apply (wf_sells _ _ Hwf)]).
  rewrite Forall_forall in Hall. by apply Hall.
Qed.

Lemma book_wf_intro h b :
  (∀ t p, p ∈ side b t -> resting h b t p) ->
  (∀ t, NoDup (side b t)) ->
  (∀ id p, orderLookup_ b !! id = Some p -> indexed h b id p) ->
  book_wf h b.
Proof.
  intros Hrest Hnd Hidx. split; try done.
  - apply Forall_forall. intros p Hp. by apply (Hrest BUY).
  - apply Forall_forall. intros p Hp. by apply (Hrest SELL).
  - apply (Hnd BUY).
  - apply (Hnd SELL).
Qed.

(** An indexed order that is not terminal rests on its side. *)
Lemma indexed_live_resting h b id p :
  book_wf h b -> orderLookup_ b !! id = Some p ->
  terminal (status_ (deref h p)) = false ->
  resting h b (orderType_ (deref h p)) p ∧ orderId_ (deref h p) = id.
Proof.
  intros Hwf Hlk Hterm.
  destruct (wf_lookup _ _ Hwf _ _ Hlk) as [_ Hid _ [Ht | Hin]]; [congruence |].
  split; [by apply side_resting | done].
Qed.


(** ** [addOrder] *)

Lemma side_with_side_eq b t l idx : side (with_side b t l idx) t = l.
Proof. by destruct t. Qed.

Lemma side_with_side_ne b t t' l idx :
  t ≠ t' -> side (with_side b t l idx) t' = side b t'.
Proof. by destruct t, t'. Qed.

Lemma isValid_in_heap h p : isValid (deref h p) = true -> (p < length h)%nat.
Proof.
  intros Hv. destruct (decide (p < length h)%nat) as [| Hge]; [done |].
  rewrite deref_out_of_range in Hv by lia. done.
Qed.

Lemma isValid_quantity o : isValid o = true -> 0 < quantity_ o <= MAX_ORDER_QUANTITY.
Proof.
  unfold isValid. rewrite !andb_true_iff.
  intros [[[_ Hq1%Z.ltb_lt] Hq2%Z.leb_le] _]. done.
Qed.

Lemma addOrder_false order h b h' b' :
  Book.addOrder order h b = (false, h', b') -> h' = h ∧ b' = b.
Proof.
  unfold Book.addOrder. destruct order as [p |]; [| by intros [= <- <-]].
  destruct (_ || _); [by intros [= <- <-] |].
  destruct (orderLookup_ b !! _); [by intros [= <- <-] | done].
Qed.

Lemma addOrder_true order h b h' b' :
  Book.addOrder order h b = (true, h', b') ->
  ∃ p, order = Some p ∧ (p < length h)%nat
    ∧ symbol_ (deref h p) = book_symbol_ b
    ∧ isValid (deref h p) = true
    ∧ orderLookup_ b !! orderId_ (deref h p) = None
    ∧ h' = store h p (assign_status (deref h p) ACCEPTED)
    ∧ b' = with_side b (orderType_ (deref h p))
             (multiset_insert
                (comparator (orderType_ (deref h p))) h' p (side b (orderType_ (deref h p))))
             (<[orderId_ (deref h p) := p]> (orderLookup_ b)).
Proof.
  unfold Book.addOrder. destruct order as [p |]; [| done].
  destruct (_ || _) eqn:Hguard; [done |].
  apply orb_false_iff in Hguard as [Hsym Hval].
  apply negb_false_iff in Hsym, Hval. apply String.eqb_eq in Hsym.
  destruct (orderLookup_ b !! _) eqn:Hlk; [done |].
  intros [= <- <-]. exists p. pose proof (isValid_in_heap _ _ Hval).
  split_and!; try done.
  simpl. rewrite deref_store_eq by done. simpl.
  by destruct (orderType_ (deref h p)).
Qed.

Lemma addOrder_wf p h b ok h' b' :
  book_wf h b ->
  filledQuantity_ (deref h p) = 0 ->
  Book.addOrder (Some p) h b = (ok, h', b') ->
  book_wf h' b'.
Proof.
  intros Hwf Hfresh Hadd. destruct ok;
    [| by apply addOrder_false in Hadd as [-> ->]].
  apply addOrder_true in Hadd
    as (p' & [= <-] & Hp & Hsym & Hval & Hlk & -> & ->).
  set (o := deref h p) in *. set (t := orderType_ o).
  set (h' := store h p (assign_status o ACCEPTED)).
  assert (Hnew : deref h' p = assign_status o ACCEPTED) by by apply deref_store_eq.
  assert (Hold : ∀ q, q ≠ p -> deref h' q = deref h q)
    by (intros; by apply deref_store_ne).
  assert (Hlen : length h' = length h) by apply length_store.
  (* the new order is not yet queued, and no queued order has its id *)
  assert (Hqueued : ∀ t' q, q ∈ side b t' ->
            q ≠ p ∧ orderId_ (deref h q) ≠ orderId_ o).
  { intros t' q Hq. pose proof (resting_indexed _ _ _ _ (side_resting _ _ _ _ Hwf Hq)) as Hi.
    split; [intros -> | intros Heq]; fold o in Hi; congruence. }
  apply book_wf_intro.
  - intros t' q Hq.
    assert (Hcases : (q = p ∧ t' = t) ∨ q ∈ side b t').
    { destruct (decide (t = t')) as [<- | Hne].
      - rewrite side_with_side_eq in Hq.
        apply elem_of_multiset_insert in Hq as [-> | Hq]; [by left | by right].
      - rewrite side_with_side_ne in Hq by done. by right. }
    destruct Hcases as [[-> ->] | Hin].
    + pose proof (isValid_quantity _ Hval).
      split; rewrite ?Hnew; simpl; try done.
      * lia.
      * by destruct t.
      * subst t. destruct (orderType_ o); simpl; apply lookup_insert_eq.
      * by left.
      * fold o in Hfresh. lia.
    + destruct (Hqueued _ _ Hin) as [Hne Hid].
      eapply resting_frame; [by apply side_resting | lia | by apply Hold
                            | by destruct t |].
      subst t. destruct (orderType_ o); simpl; rewrite lookup_insert_ne by done;
        apply (side_resting _ _ _ _ Hwf Hin).
  - intros t'. destruct (decide (t = t')) as [<- | Hne].
    + rewrite side_with_side_eq, multiset_insert_perm. apply NoDup_cons. split.
      * intros Hin. by destruct (Hqueued _ _ Hin).
      * destruct t; [apply (wf_buys_nodup _ _ Hwf) | apply (wf_sells_nodup _ _ Hwf)].
    + rewrite side_with_side_ne by done.
      destruct t'; [apply (wf_buys_nodup _ _ Hwf) | apply (wf_sells_nodup _ _ Hwf)].
  - intros id q Hq.
    assert (Hq' : <[orderId_ o := p]> (orderLookup_ b) !! id = Some q)
      by (subst t; by destruct (orderType_ o)).
    clear Hq. destruct (decide (orderId_ o = id)) as [<- | Hne].
    + rewrite lookup_insert_eq in Hq'. injection Hq' as <-.
      split; rewrite ?Hnew; simpl; try done; [lia | by destruct t |].
      right. fold t. rewrite side_with_side_eq.
      apply elem_of_multiset_insert. by left.
    + rewrite lookup_insert_ne in Hq' by done.
      destruct (wf_lookup _ _ Hwf _ _ Hq') as [Hv Hid Hsy Hwh].
      assert (q ≠ p) by (intros ->; by fold o in Hid).
      split; rewrite ?Hold by done; try done; [lia | by destruct t |].
      destruct Hwh as [? | Hin]; [by left | right].
      destruct (decide (t = orderType_ (deref h q))) as [Heq | Hnt].
      * rewrite <- Heq in *. rewrite side_with_side_eq.
        apply elem_of_multiset_insert. by right.
      * by rewrite side_with_side_ne.
Qed.


(** ** [cancelOrder] *)

Lemma cancelOrder_false id h b h' b' :
  Book.cancelOrder id h b = (false, h', b') -> h' = h ∧ b' = b.
Proof.
  unfold Book.cancelOrder.
  destruct (orderLookup_ b !! id) as [p |]; [| by intros [= <- <-]].
  destruct (negb _); [by intros [= <- <-] |].
  destruct (orderType_ (deref h p));
    (destruct (erase_by_id h id _); simpl; [done | by intros [= <- <-]]).
Qed.

Lemma cancelOrder_true id h b h' b' :
  Book.cancelOrder id h b = (true, h', b') ->
  ∃ p l', orderLookup_ b !! id = Some p
    ∧ canCancel (deref h p) = true
    ∧ erase_by_id h id (side b (orderType_ (deref h p))) = Some l'
    ∧ h' = store h p (assign_status (deref h p) CANCELLED)
    ∧ b' = with_side b (orderType_ (deref h p)) l' (orderLookup_ b).
Proof.
  unfold Book.cancelOrder.
  destruct (orderLookup_ b !! id) as [p |]; [| done].
  destruct (canCancel (deref h p)) eqn:Hc; simpl; [| done].
  destruct (orderType_ (deref h p)) eqn:Ht; simpl;
    (destruct (erase_by_id h id _) as [l' |] eqn:Her; simpl; [| done]);
    intros [= <- <-]; exists p, l'; by rewrite ?Ht.
Qed.

Lemma canCancel_not_terminal o : canCancel o = true -> terminal (status_ o) = false.
Proof. unfold canCancel. by destruct (status_ o). Qed.

Lemma canModify_not_terminal o : canModify o = true -> terminal (status_ o) = false.
Proof. unfold canModify. by destruct (status_ o). Qed.

(** Erasing the order [p] from its side and changing only the object [p]
    leaves every other resting order as it was. *)
Lemma erased_side_wf h b p l1 l2 h' idx' :
  book_wf h b ->
  side b (orderType_ (deref h p)) = l1 ++ p :: l2 ->
  (length h <= length h')%nat ->
  (∀ q, q ≠ p -> (q < length h)%nat -> deref h' q = deref h q) ->
  (∀ q, q ≠ p -> orderLookup_ b !! orderId_ (deref h q) = Some q ->
        idx' !! orderId_ (deref h q) = Some q) ->
  let b' := with_side b (orderType_ (deref h p)) (l1 ++ l2) idx' in
  (∀ t q, q ∈ side b' t -> resting h' b' t q ∧ q ≠ p ∧ q ∈ side b t)
  ∧ (∀ t, NoDup (side b' t))
  ∧ (∀ t q, q ∈ side b t -> q ≠ p -> q ∈ side b' t).
Proof.
  intros Hwf Hside Hlen Hold Hidx b'. set (t0 := orderType_ (deref h p)) in *.
  assert (Hnd0 : ∀ t, NoDup (side b t))
    by (intros []; [apply (wf_buys_nodup _ _ Hwf) | apply (wf_sells_nodup _ _ Hwf)]).
  assert (Hp_notin : p ∉ l1 ++ l2).
  { pose proof (Hnd0 t0) as Hnd. rewrite Hside in Hnd.
    apply NoDup_app in Hnd as (_ & Hdisj & Hnd2).
    apply NoDup_cons in Hnd2 as [Hnotin _].
    intros [Hin | Hin]%elem_of_app; [| done].
    apply (Hdisj _ Hin), list_elem_of_here. }
  assert (Hsub : ∀ t q, q ∈ side b' t -> q ≠ p ∧ q ∈ side b t).
  { intros t q Hq. subst b'. destruct (decide (t0 = t)) as [Heq | Hne].
    - rewrite <- Heq in *. rewrite side_with_side_eq in Hq. split; [by intros -> |].
      rewrite Hside. apply elem_of_middle. by right.
    - rewrite side_with_side_ne in Hq by done. split; [| done].
      intros ->. pose proof (resting_type _ _ _ _ (side_resting _ _ _ _ Hwf Hq)).
      by subst t0. }
  split_and!.
  - intros t q Hq. destruct (Hsub _ _ Hq) as [Hne Hin]. split_and!; try done.
    pose proof (side_resting _ _ _ _ Hwf Hin) as Hr.
    eapply resting_frame; [done | lia | apply Hold; [done | apply Hr]
                          | subst b'; by destruct t0 |].
    replace (orderLookup_ b') with idx' by (subst b'; by destruct t0).
    apply Hidx; [done | apply Hr].
  - intros t. subst b'. destruct (decide (t0 = t)) as [<- | Hne].
    + rewrite side_with_side_eq. pose proof (Hnd0 t0) as Hnd. rewrite Hside in Hnd.
      apply NoDup_app in Hnd as (Hnd1 & Hdisj & Hnd2).
      apply NoDup_cons in Hnd2 as [_ Hnd2].
      apply NoDup_app. split_and!; [done | | done].
      intros x Hx1 Hx2. by apply (Hdisj _ Hx1), list_elem_of_further.
    + rewrite side_with_side_ne by done. apply Hnd0.
  - intros t q Hq Hne. subst b'. destruct (decide (t0 = t)) as [<- | Hnt].
    + rewrite side_with_side_eq. rewrite Hside in Hq.
      by apply elem_of_middle in Hq as [-> | ?].
    + by rewrite side_with_side_ne.
Qed.

Lemma cancelOrder_wf id h b ok h' b' :
  book_wf h b ->
  Book.cancelOrder id h b = (ok, h', b') ->
  book_wf h' b'.
Proof.
  intros Hwf Hc. destruct ok;
    [| by apply cancelOrder_false in Hc as [-> ->]].
  apply cancelOrder_true in Hc as (p & l' & Hlk & Hcan & Her & -> & ->).
  destruct (erase_resting _ _ _ _ _ _ Hwf Hlk Her) as (l1 & l2 & Hside & -> & Hnotin).
  pose proof (wf_lookup _ _ Hwf _ _ Hlk) as [Hv Hid Hsy _].
  set (h' := store h p (assign_status (deref h p) CANCELLED)).
  assert (Hnew : deref h' p = assign_status (deref h p) CANCELLED)
    by by apply deref_store_eq.
  assert (Hold : ∀ q, q ≠ p -> deref h' q = deref h q)
    by (intros; by apply deref_store_ne).
  assert (Hlen : length h' = length h) by apply length_store.
  destruct (erased_side_wf h b p l1 l2 h' (orderLookup_ b) Hwf Hside)
    as (Hrest & Hnd & Hkeep); [lia | by intros; apply Hold | done |].
  apply book_wf_intro; [by intros t q Hq; apply Hrest | done |].
  intros id' q Hq.
  replace (orderLookup_ (with_side b (orderType_ (deref h p)) (l1 ++ l2)
                           (orderLookup_ b))) with (orderLookup_ b) in Hq
    by by destruct (orderType_ (deref h p)).
  destruct (wf_lookup _ _ Hwf _ _ Hq) as [Hv' Hid' Hsy' Hwh].
  destruct (decide (q = p)) as [-> | Hne].
  - split; rewrite ?Hnew; simpl; try done; [lia | | by left].
    by destruct (orderType_ (deref h p)).
  - split; rewrite ?Hold by done; try done; [lia | |].
    + by destruct (orderType_ (deref h p)).
    + destruct Hwh as [? | Hin]; [by left | right]. by apply Hkeep.
Qed.


(** ** [modifyOrder] *)

Lemma setQuantity_true o q o' :
  setQuantity o q = (true, o') ->
  0 < q <= MAX_ORDER_QUANTITY ∧ canModify o = true ∧ o' = assign_quantity o q.
Proof.
  unfold setQuantity.
  destruct (Z.leb_spec q 0); simpl; [done |].
  destruct (Z.ltb_spec MAX_ORDER_QUANTITY q); simpl; [done |].
  destruct (canModify o); simpl; [| done].
  intros [= <-]. split_and!; [lia | lia | done | done].
Qed.

Lemma setQuantity_false o q o' :
  setQuantity o q = (false, o') ->
  o' = o ∧ (q <= 0 ∨ MAX_ORDER_QUANTITY < q ∨ canModify o = false).
Proof.
  unfold setQuantity.
  destruct (Z.leb_spec q 0); simpl; [intros [= <-]; eauto |].
  destruct (Z.ltb_spec MAX_ORDER_QUANTITY q); simpl; [intros [= <-]; eauto |].
  destruct (canModify o); simpl; [done | intros [= <-]; eauto].
Qed.

Lemma setPrice_true o pr o' :
  setPrice o pr = (true, o') ->
  class_ o = LimitOrder
  ∧ (MIN_ORDER_PRICE <= pr)%Q ∧ (pr <= MAX_ORDER_PRICE)%Q
  ∧ canModify o = true ∧ o' = assign_price o pr.
Proof.
  unfold setPrice. destruct (class_ o); [| done].
  destruct (Qltb pr MIN_ORDER_PRICE) eqn:H1; simpl; [done |].
  destruct (Qltb MAX_ORDER_PRICE pr) eqn:H2; simpl; [done |].
  destruct (canModify o); simpl; [| done].
  intros [= <-]. apply Qltb_nlt, Qnot_lt_le in H1. apply Qltb_nlt, Qnot_lt_le in H2.
  done.
Qed.

Lemma setPrice_false o pr o' :
  setPrice o pr = (false, o') ->
  o' = o
  ∧ (class_ o = MarketOrder ∨ (pr < MIN_ORDER_PRICE)%Q
     ∨ (MAX_ORDER_PRICE < pr)%Q ∨ canModify o = false).
Proof.
  unfold setPrice. destruct (class_ o); [| intros [= <-]; eauto].
  destruct (Qltb pr MIN_ORDER_PRICE) eqn:H1; simpl;
    [apply Qltb_lt in H1; intros [= <-]; eauto |].
  destruct (Qltb MAX_ORDER_PRICE pr) eqn:H2; simpl;
    [apply Qltb_lt in H2; intros [= <-]; eauto 6 |].
  destruct (canModify o); simpl; [done | intros [= <-]; eauto 6].
Qed.

Lemma store_alloc (h : Heap) (o o' : Order) :
  store (h ++ [o]) (length h) o' = h ++ [o'].
Proof.
  unfold store. rewrite insert_app_r_alt by lia.
  by rewrite Nat.sub_diag.
Qed.

Lemma modifyOrder_false id q pr h b h' b' :
  Book.modifyOrder id q pr h b = (false, h', b') -> h' = h ∧ b' = b.
Proof.
  unfold Book.modifyOrder.
  destruct (orderLookup_ b !! id) as [p |]; [| by intros [= <- <-]].
  destruct (negb (canModify (deref h p))); [by intros [= <- <-] |].
  destruct (setQuantity _ _) as [[] m1]; simpl; [| by intros [= <- <-]].
  destruct (setPrice _ _) as [[] m2]; simpl; [| by intros [= <- <-]].
  destruct (orderType_ (deref h p));
    (destruct (erase_by_id h id _); simpl; [done | by intros [= <- <-]]).
Qed.

Lemma modifyOrder_true id q pr h b h' b' :
  Book.modifyOrder id q pr h b = (true, h', b') ->
  ∃ p l', orderLookup_ b !! id = Some p
    ∧ canModify (deref h p) = true
    ∧ class_ (deref h p) = LimitOrder
    ∧ 0 < q <= MAX_ORDER_QUANTITY
    ∧ (MIN_ORDER_PRICE <= pr)%Q ∧ (pr <= MAX_ORDER_PRICE)%Q
    ∧ erase_by_id h id (side b (orderType_ (deref h p))) = Some l'
    ∧ h' = h ++ [assign_status
                   (assign_price (assign_quantity (deref h p) q) pr) ACCEPTED]
    ∧ b' = with_side b (orderType_ (deref h p))
             (multiset_insert (comparator (orderType_ (deref h p))) h'
                (length h) l')
             (<[id := length h]> (orderLookup_ b)).
Proof.
  unfold Book.modifyOrder.
  destruct (orderLookup_ b !! id) as [p |]; [| done].
  destruct (canModify (deref h p)) eqn:Hcm; simpl; [| done].
  destruct (setQuantity _ _) as [[] m1] eqn:Hsq; simpl; [| done].
  destruct (setPrice _ _) as [[] m2] eqn:Hsp; simpl; [| done].
  apply setQuantity_true in Hsq as (Hq & _ & ->).
  apply setPrice_true in Hsp as (Hcl & Hp1 & Hp2 & _ & ->).
  unfold clone in *. rewrite store_alloc, deref_alloc_new. simpl.
  destruct (orderType_ (deref h p)) eqn:Ht; simpl;
    (destruct (erase_by_id h id _) as [l' |] eqn:Her; simpl; [| done]);
    rewrite deref_alloc_new; simpl; rewrite Ht;
    intros [= <- <-]; exists p, l'; rewrite Ht;
    split_and!; try done; lia.
Qed.

Lemma modifyOrder_wf id q pr h b ok h' b' :
  book_wf h b ->
  Book.modifyOrder id q pr h b = (ok, h', b') ->
  book_wf h' b'.
Proof.
  intros Hwf Hm. destruct ok;
    [| by apply modifyOrder_false in Hm as [-> ->]].
  apply modifyOrder_true in Hm
    as (p & l' & Hlk & Hcan & Hcl & Hq & Hp1 & Hp2 & Her & -> & ->).
  destruct (erase_resting _ _ _ _ _ _ Hwf Hlk Her) as (l1 & l2 & Hside & -> & Hnotin).
  destruct (indexed_live_resting _ _ _ _ Hwf Hlk (canModify_not_terminal _ Hcan))
    as [Hrp Hid].
  set (o := deref h p) in *. set (t := orderType_ o) in *.
  set (m := assign_status (assign_price (assign_quantity o q) pr) ACCEPTED).
  set (h' := h ++ [m]). set (n := length h).
  assert (Hnew : deref h' n = m) by apply deref_alloc_new.
  assert (Hold : ∀ x, (x < length h)%nat -> deref h' x = deref h x)
    by (intros; by apply deref_alloc_old).
  assert (Hlen : length h' = S (length h)).
  { subst h'. rewrite length_app. simpl. lia. }
  assert (Hfilled : filledQuantity_ o = 0).
  { apply Hrp. destruct (resting_live _ _ _ _ Hrp) as [? | Hpf]; [done |].
    unfold canModify in Hcan. subst o. by rewrite Hpf in Hcan. }
  (* the book after the erasure, with the index already updated *)
  destruct (erased_side_wf h b p l1 l2 h' (<[id := n]> (orderLookup_ b)) Hwf Hside)
    as (Hrest & Hnd & Hkeep); [lia | by intros; apply Hold | |].
  { intros x Hne Hx. rewrite lookup_insert_ne; [done |].
    intros Heq. rewrite <- Heq in Hx. congruence. }
  fold o t in Hrest, Hnd, Hkeep.
  set (b1 := with_side b t (l1 ++ l2) (<[id := n]> (orderLookup_ b))) in *.
  set (b' := with_side b t (multiset_insert (comparator t) h' n (l1 ++ l2))
               (<[id := n]> (orderLookup_ b))).
  assert (Hsym' : book_symbol_ b' = book_symbol_ b) by (subst b'; by destruct t).
  assert (Hidx' : orderLookup_ b' = <[id := n]> (orderLookup_ b))
    by (subst b'; by destruct t).
  assert (Hside' : ∀ t' x, x ∈ side b' t' ↔ (x = n ∧ t' = t) ∨ x ∈ side b1 t').
  { intros t' x. subst b' b1. destruct (decide (t = t')) as [<- | Hne].
    - rewrite !side_with_side_eq, elem_of_multiset_insert.
      split; [intros [-> | ?]; [by left | by right] | intros [[-> _] | ?]; [by left | by right]].
    - rewrite !side_with_side_ne by done.
      split; [by right | by intros [[_ ?] | ?]]. }
  assert (Hn_fresh : ∀ t', n ∉ side b1 t').
  { intros t' Hin. destruct (Hrest _ _ Hin) as (_ & _ & Hin').
    pose proof (resting_valid _ _ _ _ (side_resting _ _ _ _ Hwf Hin')). lia. }
  apply book_wf_intro.
  - intros t' x [[-> ->] | Hin]%Hside'.
    + split; rewrite ?Hnew, ?Hsym', ?Hidx'; simpl; try done.
      * lia.
      * apply Hrp.
      * rewrite Hid. apply lookup_insert_eq.
      * by left.
      * lia.
    + destruct (Hrest _ _ Hin) as (Hr & _ & _).
      destruct Hr. split; rewrite ?Hsym', ?Hidx'; try done.
      * replace (book_symbol_ b) with (book_symbol_ b1); [done |].
        subst b1. by destruct t.
      * replace (<[id:=n]> (orderLookup_ b)) with (orderLookup_ b1); [done |].
        subst b1. by destruct t.
  - intros t'. subst b'. destruct (decide (t = t')) as [<- | Hne].
    + rewrite side_with_side_eq, multiset_insert_perm. apply NoDup_cons. split.
      * pose proof (Hn_fresh t) as Hf. subst b1. by rewrite side_with_side_eq in Hf.
      * pose proof (Hnd t) as Hf. subst b1. by rewrite side_with_side_eq in Hf.
    + rewrite side_with_side_ne by done.
      pose proof (Hnd t') as Hf. subst b1. by rewrite side_with_side_ne in Hf.
  - intros id' x. rewrite Hidx'. intros Hx.
    destruct (decide (id = id')) as [<- | Hne].
    + rewrite lookup_insert_eq in Hx. injection Hx as <-.
      split; rewrite ?Hnew, ?Hsym'; simpl; try done; [lia | apply Hrp |].
      right. apply Hside'. by left.
    + rewrite lookup_insert_ne in Hx by done.
      destruct (wf_lookup _ _ Hwf _ _ Hx) as [Hv Hid' Hsy Hwh].
      assert (x ≠ p) by (intros ->; subst o; congruence).
      split; rewrite ?Hold, ?Hsym' by done; try done; [lia |].
      destruct Hwh as [? | Hin]; [by left | right].
      apply Hside'. right. by apply Hkeep.
Qed.

(** ** The checker is sound *)

Lemma restingb_sound h b t p : restingb h b t p = true -> resting h b t p.
Proof.
  unfold restingb. rewrite !andb_true_iff, !bool_decide_eq_true.
  intros [[[[[[[? ?] ?] ?] Hl] ?%Z.leb_le] ?%Z.ltb_lt] Himp].
  split; try done.
  - unfold liveb in Hl. destruct (status_ (deref h p)); try done; [by left | by right].
  - intros Hacc. rewrite bool_decide_eq_true_2 in Himp by done.
    by apply Z.eqb_eq in Himp.
Qed.

Lemma indexedb_sound h b id p : indexedb h b (id, p) = true -> indexed h b id p.
Proof.
  unfold indexedb. simpl. rewrite !andb_true_iff, orb_true_iff, !bool_decide_eq_true.
  intros [[[? ?] ?] ?]. by split.
Qed.

Lemma book_wfb_sound h b : book_wfb h b = true -> book_wf h b.
Proof.
  unfold book_wfb. rewrite !andb_true_iff, !bool_decide_eq_true.
  intros [[[[Hb Hs] ?] ?] Hi].
  rewrite forallb_forall in Hb, Hs, Hi. split; try done.
  - apply Forall_forall. intros p Hp%list_elem_of_In. by apply restingb_sound, Hb.
  - apply Forall_forall. intros p Hp%list_elem_of_In. by apply restingb_sound, Hs.
  - intros id p Hlk. apply indexedb_sound, Hi, list_elem_of_In.
    by apply elem_of_map_to_list.
Qed.

(** ** What the loop never changes *)

Lemma same_terms_refl o : same_terms o o.
Proof. by repeat split. Qed.

Lemma same_terms_trans o1 o2 o3 :
  same_terms o1 o2 -> same_terms o2 o3 -> same_terms o1 o3.
Proof.
  intros (? & ? & ? & ? & ? & ? & ? & ? & ?) (? & ? & ? & ? & ? & ? & ? & ? & ?).
  unfold same_terms. split_and!; congruence.
Qed.

Lemma store_fill_same_terms h p q x :
  same_terms (deref h x) (deref (store h p (fill (deref h p) q)) x).
Proof.
  destruct (decide (p = x)) as [-> | Hne];
    [| rewrite deref_store_ne by done; apply same_terms_refl].
  destruct (decide (x < length h)%nat).
  - rewrite deref_store_eq by done. apply fill_frame.
  - rewrite store_out_of_range by lia. apply same_terms_refl.
Qed.

Lemma match_iteration_same_terms w h b t w' h' b' x :
  Book.match_iteration w h b = Some (t, w', h', b') ->
  same_terms (deref h x) (deref h' x).
Proof.
  intros (pb & buys & ps & sells & _ & _ & _ & _ & -> & _)%match_iteration_Some.
  eapply same_terms_trans; apply store_fill_same_terms.
Qed.

Lemma match_iteration_sides w h b t w' h' b' :
  Book.match_iteration w h b = Some (t, w', h', b') ->
  buyOrders_ b' ⊆ buyOrders_ b ∧ sellOrders_ b' ⊆ sellOrders_ b.
Proof.
  intros (pb & buys & ps & sells & -> & -> & _ & _ & _ & ->)%match_iteration_Some.
  simpl. split.
  - destruct (_ =? _); [| done]. intros x Hx. by apply list_elem_of_further.
  - destruct (getRemainingQuantity (deref _ ps) =? _); [| done].
    intros x Hx. by apply list_elem_of_further.
Qed.

Lemma match_iteration_trade w h b t w' h' b' :
  Book.match_iteration w h b = Some (t, w', h', b') -> trade_of h b t.
Proof.
  intros (pb & buys & ps & sells & Hb & Hs & _ & Ht & _ & _)%match_iteration_Some.
  exists pb, ps. rewrite Hb, Hs. unfold Trade_new in Ht. simpl in Ht.
  injection Ht as -> _. simpl. split_and!; try done; apply list_elem_of_here.
Qed.

Lemma trade_of_earlier w h b t0 w' h' b' t :
  Book.match_iteration w h b = Some (t0, w', h', b') ->
  trade_of h' b' t -> trade_of h b t.
Proof.
  intros Hit (pb & ps & Hpb & Hps & Hb & Hs & Hsy & Hpr).
  destruct (match_iteration_sides _ _ _ _ _ _ _ Hit) as [Hsub1 Hsub2].
  destruct (match_iteration_same_terms _ _ _ _ _ _ _ pb Hit) as (_ & Hid1 & _).
  destruct (match_iteration_same_terms _ _ _ _ _ _ _ ps Hit)
    as (_ & Hid2 & _ & _ & _ & _ & Hpr2 & _).
  exists pb, ps. rewrite <- Hid1, <- Hid2, <- Hpr2.
  split_and!; try done; [by apply Hsub1 | by apply Hsub2 |].
  rewrite Hsy. by apply match_iteration_Some in Hit
    as (? & ? & ? & ? & _ & _ & _ & _ & _ & ->).
Qed.

Lemma match_loop_trades fuel : ∀ w h b trades w' h' b',
  Book.match_loop fuel w h b = Some (trades, w', h', b') ->
  Forall (trade_of h b) trades.
Proof.
  induction fuel as [| fuel IH]; intros w h b trades w' h' b'; simpl.
  - destruct (Book.match_iteration w h b) as [[[[t w1] h1] b1] |]; [done |].
    by intros [= <- _ _ _].
  - destruct (Book.match_iteration w h b) as [[[[t w1] h1] b1] |] eqn:Hit;
      [| by intros [= <- _ _ _]].
    destruct (Book.match_loop fuel w1 h1 b1) as [[[[ts w2] h2] b2] |] eqn:Hloop;
      [| done].
    intros [= <- _ _ _]. apply Forall_cons. split.
    + by eapply match_iteration_trade.
    + eapply Forall_impl; [by eapply IH |].
      intros t'. by eapply trade_of_earlier.
Qed.


(** ** What the loop does to a well-formed book *)

Lemma loop_effect_refl h b : loop_effect h b h b.
Proof. split; try done; intros; try lia; by left. Qed.

Lemma not_in_sides h b t p :
  book_wf h b -> p ∈ side b t -> p ∉ side b (match t with BUY => SELL | SELL => BUY end).
Proof.
  intros Hwf Hin Hin'.
  pose proof (resting_type _ _ _ _ (side_resting _ _ _ _ Hwf Hin)).
  pose proof (resting_type _ _ _ _ (side_resting _ _ _ _ Hwf Hin')).
  destruct t; congruence.
Qed.

Lemma match_iteration_loop_effect w h b t w' h' b' :
  book_wf h b ->
  Book.match_iteration w h b = Some (t, w', h', b') ->
  loop_effect h b h' b'
  ∧ ∀ ty p, p ∈ side b ty -> p ∉ side b' ty ->
      (p ∉ buyOrders_ b') ∧ (p ∉ sellOrders_ b').
Proof.
  intros Hwf Hit.
  pose proof (match_iteration_wf _ _ _ _ _ _ _ Hwf Hit) as Hwf'.
  destruct (match_iteration_effect _ _ _ _ _ _ _ Hwf Hit)
    as (pb & buys & ps & sells & q & Hb & Hs & Hne & Hq & Hqpos
        & Hdb & Hds & Hframe & Hlen & Hb').
  destruct (heads_distinct _ _ _ _ _ _ Hwf Hb Hs) as (_ & HB & HS).
  destruct (fill_resting (deref h pb) q) as (Hfb & Hcb); [apply HB | lia |].
  destruct (fill_resting (deref h ps) q) as (Hfs & Hcs); [apply HS | lia |].
  rewrite <- Hdb in Hfb, Hcb. rewrite <- Hds in Hfs, Hcs.
  pose proof (kept_or_erased (getRemainingQuantity (deref h' pb)) pb buys) as Hbuys'.
  pose proof (kept_or_erased (getRemainingQuantity (deref h' ps)) ps sells) as Hsells'.
  assert (Hsides : ∀ ty p, p ∈ side b' ty -> p ∈ side b ty).
  { intros ty p. rewrite Hb'. destruct ty; simpl; rewrite ?Hb, ?Hs.
    - destruct Hbuys' as [[_ ->] | [_ ->]]; [apply list_elem_of_further | done].
    - destruct Hsells' as [[_ ->] | [_ ->]]; [apply list_elem_of_further | done]. }
  assert (Herased : ∀ ty p, p ∈ side b ty ->
            p ∈ side b' ty
            ∨ (getRemainingQuantity (deref h' p) = 0
               ∧ status_ (deref h' p) = FILLED)).
  { intros ty p. rewrite Hb'. destruct ty; simpl; rewrite ?Hb, ?Hs.
    - intros [-> | Hin]%elem_of_cons.
      + destruct Hbuys' as [[? ->] | [? ->]]; [right | left; apply list_elem_of_here].
        destruct Hcb as [? | [? _]]; [done | lia].
      + left. destruct Hbuys' as [[_ ->] | [_ ->]];
          [done | by apply list_elem_of_further].
    - intros [-> | Hin]%elem_of_cons.
      + destruct Hsells' as [[? ->] | [? ->]]; [right | left; apply list_elem_of_here].
        destruct Hcs as [? | [? _]]; [done | lia].
      + left. destruct Hsells' as [[_ ->] | [_ ->]];
          [done | by apply list_elem_of_further]. }
  split; [split |].
  - done.
  - by rewrite Hb'.
  - by rewrite Hb'.
  - intros p. rewrite Hb, Hs, !not_elem_of_cons. intros [? _] [? _]. by apply Hframe.
  - intros p. destruct (decide (p = pb)) as [-> | ?];
      [lia | destruct (decide (p = ps)) as [-> | ?]; [lia |]].
    rewrite Hframe by done. lia.
  - done.
  - done.
  - intros ty p Hin Hout. destruct ty; simpl in *.
    + split; [done |]. intros Hin'. apply (Hsides SELL) in Hin'.
      by apply (not_in_sides _ _ BUY _ Hwf Hin).
    + split; [| done]. intros Hin'. apply (Hsides BUY) in Hin'.
      by apply (not_in_sides _ _ SELL _ Hwf Hin).
Qed.

Lemma match_loop_effect fuel : ∀ w h b trades w' h' b',
  book_wf h b ->
  Book.match_loop fuel w h b = Some (trades, w', h', b') ->
  loop_effect h b h' b' ∧ book_wf h' b'.
Proof.
  induction fuel as [| fuel IH]; intros w h b trades w' h' b' Hwf; simpl.
  - destruct (Book.match_iteration w h b) as [[[[t w1] h1] b1] |]; [done |].
    intros [= <- <- <- <-]. split; [apply loop_effect_refl | done].
  - destruct (Book.match_iteration w h b) as [[[[t w1] h1] b1] |] eqn:Hit;
      [| intros [= <- <- <- <-]; split; [apply loop_effect_refl | done]].
    destruct (Book.match_loop fuel w1 h1 b1) as [[[[ts w2] h2] b2] |] eqn:Hloop;
      [| done].
    intros [= <- <- <- <-].
    pose proof (match_iteration_wf _ _ _ _ _ _ _ Hwf Hit) as Hwf1.
    destruct (match_iteration_loop_effect _ _ _ _ _ _ _ Hwf Hit)
      as [[Hlen0 Hlk0 Hsy0 Hframe0 Hfilled0 Herased0 Hsides0] Hgone].
    destruct (IH _ _ _ _ _ _ _ Hwf1 Hloop)
      as [[Hlen1 Hlk1 Hsy1 Hframe1 Hfilled1 Herased1 Hsides1] Hwf2].
    split; [split | done].
    + congruence.
    + congruence.
    + congruence.
    + intros p Hnb Hns. rewrite Hframe1; [by apply Hframe0 | |].
      * intros Hin. by apply (Hsides0 BUY) in Hin.
      * intros Hin. by apply (Hsides0 SELL) in Hin.
    + intros p. specialize (Hfilled0 p). specialize (Hfilled1 p). lia.
    + intros ty p Hin.
      destruct (decide (p ∈ side b1 ty)) as [Hin1 | Hout1];
        [by apply Herased1 |].
      right. destruct (Hgone _ _ Hin Hout1) as [Hnb Hns].
      rewrite Hframe1 by done.
      by destruct (Herased0 _ _ Hin).
    + intros ty p Hin. by apply Hsides0, Hsides1.
Qed.

(** ** The engine *)

Lemma notify_trades_callbacks trades s :
  Engine.notify_trades trades s
  = mkSystem (world s) (heap s) (engine s)
      (callbacks s
         ++ flat_map (Engine.tradeExecuted_calls (observers_ (engine s))) trades).
Proof.
  unfold Engine.notify_trades. revert s.
  induction trades as [| t trades IH]; intros s; simpl.
  - rewrite app_nil_r. by destruct s.
  - rewrite IH. unfold Engine.notifyTradeExecuted. simpl. by rewrite <- app_assoc.
Qed.

Lemma put_book_put_book symbol b1 b2 e :
  Engine.put_book symbol b2 (Engine.put_book symbol b1 e)
  = Engine.put_book symbol b2 e.
Proof. unfold Engine.put_book. simpl. by rewrite insert_insert_eq. Qed.

Lemma getOrCreateOrderBook_spec symbol e b e' :
  Engine.getOrCreateOrderBook symbol e = (b, e') ->
  orderBooks_ e' !! symbol = Some b
  ∧ users_ e' = users_ e ∧ observers_ e' = observers_ e
  ∧ allOrders_ e' = allOrders_ e
  ∧ ((orderBooks_ e !! symbol = Some b ∧ e' = e)
     ∨ (orderBooks_ e !! symbol = None ∧ b = Book.create symbol
        ∧ orderBooks_ e' = <[symbol := b]> (orderBooks_ e))).
Proof.
  unfold Engine.getOrCreateOrderBook.
  destruct (orderBooks_ e !! symbol) as [b0 |] eqn:Hb; intros [= <- <-]; simpl.
  - split_and!; try done. by left.
  - rewrite lookup_insert_eq. split_and!; try done. by right.
Qed.

(** The order object that [placeOrder] constructs. *)
Lemma new_order_fresh c id u ty sym q pr tif w o w' :
  Order_new c id u ty sym q pr tif w = (o, w') ->
  orderId_ o = id ∧ userId_ o = u ∧ orderType_ o = ty ∧ symbol_ o = sym
  ∧ quantity_ o = q ∧ price_ o = pr ∧ status_ o = PENDING
  ∧ filledQuantity_ o = 0 ∧ class_ o = c.
Proof. unfold Order_new. simpl. by intros [= <- <-]. Qed.

(** The steps of a call of [placeOrder] that returns a handle. *)
Lemma placeOrder_accepted userId ty symbol q pr s p s' :
  Engine.placeOrder userId ty symbol q pr s = Some (Some p, s') ->
  ∃ o w2 b0 e1 h2 b1 trades w3 h3 b2,
    p = length (heap s)
    ∧ orderType_ o = ty ∧ symbol_ o = symbol ∧ quantity_ o = q
    ∧ status_ o = PENDING ∧ filledQuantity_ o = 0
    ∧ class_ o = (if Qltb 0 pr then LimitOrder else MarketOrder)
    ∧ price_ o = (if Qltb 0 pr then pr else 0%Q)
    ∧ Engine.getOrCreateOrderBook symbol (engine s) = (b0, e1)
    ∧ Book.addOrder (Some p) (heap s ++ [o]) b0 = (true, h2, b1)
    ∧ Book.matchOrders w2 h2 b1 = Some (trades, w3, h3, b2)
    ∧ s' = mkSystem w3 h3
             (Engine.put_book symbol b2 (Engine.put_order (orderId_ o) p e1))
             (callbacks s
                ++ Engine.orderStatusChanged_calls (observers_ (engine s)) h2 p
                ++ flat_map (Engine.tradeExecuted_calls (observers_ (engine s)))
                     trades).
Proof.
  unfold Engine.placeOrder.
  destruct (Engine.getUser userId s); [| done].
  destruct (generateUUID (world s)) as [orderId w1].
  destruct (Qltb pr 0); [done |].
  destruct (if Qltb 0 pr then _ else _) as [o w2] eqn:Hnew.
  destruct (negb (isValid o)); [done |].
  destruct (Engine.getOrCreateOrderBook symbol (engine s)) as [b0 e1] eqn:Hbook.
  cbv beta iota zeta delta [alloc]. rewrite deref_alloc_new.
  destruct (Book.addOrder _ _ _) as [[[] h2] b1] eqn:Hadd; [| done].
  cbv beta iota zeta delta [Engine.notifyOrderStatusChanged world heap engine callbacks].
  destruct (Book.matchOrders _ _ _) as [[[[trades w3] h3] b2] |] eqn:Hmatch;
    [| done].
  intros [= <- <-].
  destruct (getOrCreateOrderBook_spec _ _ _ _ Hbook) as (_ & _ & Hobs & _ & _).
  assert (Hfresh : orderType_ o = ty ∧ symbol_ o = symbol ∧ quantity_ o = q
                   ∧ status_ o = PENDING ∧ filledQuantity_ o = 0
                   ∧ class_ o = (if Qltb 0 pr then LimitOrder else MarketOrder)
                   ∧ price_ o = (if Qltb 0 pr then pr else 0%Q)).
  { destruct (Qltb 0 pr);
      apply new_order_fresh in Hnew as (_ & _ & ? & ? & ? & ? & ? & ? & ?);
      by split_and!. }
  destruct Hfresh as (? & ? & ? & ? & ? & ? & ?).
  exists o, w2, b0, e1, h2, b1, trades, w3, h3, b2.
  split_and!; try done.
  rewrite notify_trades_callbacks. simpl.
  rewrite put_book_put_book, Hobs, <- app_assoc. done.
Qed.

(** A book stays well-formed when the heap grows and the objects the book
    refers to stay as they are. *)
Lemma book_wf_frame h b h' :
  book_wf h b ->
  (length h <= length h')%nat ->
  (∀ id p, orderLookup_ b !! id = Some p -> deref h' p = deref h p) ->
  book_wf h' b.
Proof.
  intros Hwf Hlen Hsame. apply book_wf_intro.
  - intros t p Hin. pose proof (side_resting _ _ _ _ Hwf Hin) as Hr.
    eapply resting_frame; [done | done | | done | apply Hr].
    eapply Hsame, Hr.
  - intros []; [apply (wf_buys_nodup _ _ Hwf) | apply (wf_sells_nodup _ _ Hwf)].
  - intros id p Hlk. destruct (wf_lookup _ _ Hwf _ _ Hlk).
    split; rewrite ?(Hsame _ _ Hlk); try done. lia.
Qed.

Lemma book_wf_create h symbol : book_wf h (Book.create symbol).
Proof.
  apply book_wf_intro.
  - intros [] p Hin; simpl in Hin; by apply elem_of_nil in Hin.
  - intros []; apply NoDup_nil_2.
  - intros id p Hlk. simpl in Hlk. by rewrite lookup_empty in Hlk.
Qed.

Lemma with_side_symbol b t l idx : book_symbol_ (with_side b t l idx) = book_symbol_ b.
Proof. by destruct t. Qed.

Lemma with_side_lookup b t l idx : orderLookup_ (with_side b t l idx) = idx.
Proof. by destruct t. Qed.

Lemma getOrCreateOrderBook_wf symbol s b e' :
  system_wf s ->
  Engine.getOrCreateOrderBook symbol (engine s) = (b, e') ->
  book_symbol_ b = symbol ∧ book_wf (heap s) b
  ∧ ∀ symbol' b', orderBooks_ e' !! symbol' = Some b' ->
      book_symbol_ b' = symbol' ∧ book_wf (heap s) b'.
Proof.
  intros Hwf Hget.
  destruct (getOrCreateOrderBook_spec _ _ _ _ Hget)
    as (Hb & _ & _ & _ & [[Hold ->] | (Hnone & -> & Hbooks)]).
  - destruct (Hwf _ _ Hold). by split_and!.
  - split_and!; [done | apply book_wf_create |].
    intros symbol' b'. rewrite Hbooks.
    destruct (decide (symbol = symbol')) as [<- | Hne].
    + rewrite lookup_insert_eq. intros [= <-]. split; [done | apply book_wf_create].
    + rewrite lookup_insert_ne by done. apply Hwf.
Qed.

(** What one book does leaves the other books of the engine well-formed:
    their orders carry another symbol. *)
Lemma other_book_wf h b h' b' :
  book_wf h b -> book_wf h' b' ->
  book_symbol_ b ≠ book_symbol_ b' ->
  (length h <= length h')%nat ->
  (∀ p, (p < length h)%nat -> symbol_ (deref h p) ≠ book_symbol_ b' ->
        deref h' p = deref h p) ->
  book_wf h' b.
Proof.
  intros Hwf Hwf' Hne Hlen Hsame. eapply book_wf_frame; [done | done |].
  intros id p Hlk. destruct (wf_lookup _ _ Hwf _ _ Hlk).
  apply Hsame; [done | congruence].
Qed.

Lemma matchOrders_effect w h b trades w' h' b' :
  book_wf h b ->
  Book.matchOrders w h b = Some (trades, w', h', b') ->
  loop_effect h b h' b' ∧ book_wf h' b'.
Proof. intros Hwf Hm. by eapply match_loop_effect. Qed.

Lemma matchOrders_returns w h b :
  book_wf h b -> is_Some (Book.matchOrders w h b).
Proof.
  intros Hwf. destruct (match_loop_run _ w h b Hwf (le_n _))
    as (trades & w' & h' & b' & Hloop & _). unfold Book.matchOrders. by rewrite Hloop.
Qed.

Lemma matchOrders_ends w h b trades w' h' b' :
  Book.matchOrders w h b = Some (trades, w', h', b') ->
  Book.match_iteration w' h' b' = None.
Proof.
  unfold Book.matchOrders. generalize (length (buyOrders_ b) + length (sellOrders_ b))%nat.
  intros fuel. revert w h b trades.
  induction fuel as [| fuel IH]; intros w h b trades; simpl.
  - destruct (Book.match_iteration w h b) as [[[[t w1] h1] b1] |] eqn:Hit; [done |].
    by intros [= _ <- <- <-].
  - destruct (Book.match_iteration w h b) as [[[[t w1] h1] b1] |] eqn:Hit;
      [| by intros [= _ <- <- <-]].
    destruct (Book.match_loop fuel w1 h1 b1) as [[[[ts w2] h2] b2] |] eqn:Hloop;
      [| done].
    intros [= _ <- <- <-]. by eapply IH.
Qed.

Lemma match_iteration_None_uncrossed w h b :
  Book.match_iteration w h b = None -> no_residual_cross h b.
Proof.
  intros [? | [? | Hlt]]%match_iteration_None Hb Hs; [done | done |].
  by apply Qltb_lt.
Qed.

(** The objects that matching touches carry the symbol of the book. *)
Lemma matchOrders_other_symbol w h b trades w' h' b' p :
  book_wf h b ->
  Book.matchOrders w h b = Some (trades, w', h', b') ->
  symbol_ (deref h p) ≠ book_symbol_ b ->
  deref h' p = deref h p.
Proof.
  intros Hwf Hm Hsym.
  destruct (matchOrders_effect _ _ _ _ _ _ _ Hwf Hm) as [[_ _ _ Hframe _ _ _] _].
  apply Hframe; intros Hin.
  - by pose proof (resting_symbol _ _ _ _ (side_resting _ _ BUY _ Hwf Hin)).
  - by pose proof (resting_symbol _ _ _ _ (side_resting _ _ SELL _ Hwf Hin)).
Qed.

(** ** [placeOrder] keeps the system well-formed *)

Lemma addOrder_symbol order h b ok h' b' :
  Book.addOrder order h b = (ok, h', b') -> book_symbol_ b' = book_symbol_ b.
Proof.
  destruct ok.
  - intros (p & _ & _ & _ & _ & _ & _ & ->)%addOrder_true. apply with_side_symbol.
  - by intros [_ ->]%addOrder_false.
Qed.

Lemma addOrder_heap p h b ok h' b' :
  Book.addOrder (Some p) h b = (ok, h', b') ->
  length h' = length h ∧ ∀ x, x ≠ p -> deref h' x = deref h x.
Proof.
  destruct ok.
  - intros (p' & [= <-] & _ & _ & _ & _ & -> & _)%addOrder_true.
    split; [apply length_store | intros; by apply deref_store_ne].
  - by intros [-> _]%addOrder_false.
Qed.

(** The state in which [placeOrder] calls [matchOrders]. *)
Lemma place_steps_wf s symbol o b0 e1 ok h2 b1 :
  system_wf s ->
  Engine.getOrCreateOrderBook symbol (engine s) = (b0, e1) ->
  filledQuantity_ o = 0 ->
  Book.addOrder (Some (length (heap s))) (heap s ++ [o]) b0 = (ok, h2, b1) ->
  book_wf h2 b1 ∧ book_symbol_ b1 = symbol
  ∧ length h2 = S (length (heap s))
  ∧ (∀ x, (x < length (heap s))%nat -> deref h2 x = deref (heap s) x)
  ∧ ∀ symbol' b', orderBooks_ e1 !! symbol' = Some b' ->
      book_symbol_ b' = symbol' ∧ book_wf h2 b'.
Proof.
  intros Hwf Hget Hfresh Hadd.
  destruct (getOrCreateOrderBook_wf _ _ _ _ Hwf Hget) as (Hsym & Hwf0 & Hbooks).
  destruct (addOrder_heap _ _ _ _ _ _ Hadd) as [Hlen Hsame].
  assert (Hlen1 : length (heap s ++ [o]) = S (length (heap s))).
  { rewrite length_app. simpl. lia. }
  assert (Hold : ∀ x, (x < length (heap s))%nat -> deref h2 x = deref (heap s) x).
  { intros x Hx. rewrite Hsame by lia. by apply deref_alloc_old. }
  assert (Hframe : ∀ b, book_wf (heap s) b -> book_wf (heap s ++ [o]) b).
  { intros b Hb. eapply book_wf_frame; [done | lia |].
    intros id x Hlk. apply deref_alloc_old. by destruct (wf_lookup _ _ Hb _ _ Hlk). }
  split_and!.
  - eapply addOrder_wf; [by apply Hframe | | done].
    by rewrite deref_alloc_new.
  - by rewrite (addOrder_symbol _ _ _ _ _ _ Hadd).
  - lia.
  - done.
  - intros symbol' b' Hb'. destruct (Hbooks _ _ Hb') as [? Hwf']. split; [done |].
    eapply book_wf_frame; [done | lia |].
    intros id x Hlk. apply Hold. by destruct (wf_lookup _ _ Hwf' _ _ Hlk).
Qed.

Lemma system_wf_put_book symbol b w h e cb :
  book_symbol_ b = symbol -> book_wf h b ->
  (∀ symbol' b', symbol' ≠ symbol -> orderBooks_ e !! symbol' = Some b' ->
     book_symbol_ b' = symbol' ∧ book_wf h b') ->
  system_wf (mkSystem w h (Engine.put_book symbol b e) cb).
Proof.
  intros Hsym Hwf Hothers symbol' b'. simpl.
  destruct (decide (symbol = symbol')) as [<- | Hne].
  - rewrite lookup_insert_eq. by intros [= <-].
  - rewrite lookup_insert_ne by done. by apply Hothers.
Qed.

Lemma placeOrder_wf userId ty symbol q pr s r s' :
  system_wf s ->
  Engine.placeOrder userId ty symbol q pr s = Some (r, s') ->
  system_wf s'.
Proof.
  intros Hwf. destruct r as [p |].
  - intros (o & w2 & b0 & e1 & h2 & b1 & trades & w3 & h3 & b2 & -> & _ & _ & _
            & _ & Hfresh & _ & _ & Hget & Hadd & Hmatch & ->)%placeOrder_accepted.
    destruct (place_steps_wf _ _ _ _ _ _ _ _ Hwf Hget Hfresh Hadd)
      as (Hwf1 & Hsym1 & Hlen & Hold & Hbooks).
    destruct (matchOrders_effect _ _ _ _ _ _ _ Hwf1 Hmatch)
      as [[Hlen3 _ Hsy3 _ _ _ _] Hwf3].
    apply system_wf_put_book; [congruence | done |].
    intros symbol' b' Hne Hb'. simpl in Hb'.
    destruct (Hbooks _ _ Hb') as [Hsym' Hwf']. split; [done |].
    apply (other_book_wf h2 b' h3 b2 Hwf' Hwf3); [congruence | lia |].
    intros x _ Hx. apply (matchOrders_other_symbol _ _ _ _ _ _ _ x Hwf1 Hmatch).
    congruence.
  - unfold Engine.placeOrder.
    destruct (Engine.getUser userId s); [| by intros [= <-]].
    destruct (generateUUID (world s)) as [orderId w1].
    destruct (Qltb pr 0); [by intros [= <-] |].
    destruct (if Qltb 0 pr then _ else _) as [o w2] eqn:Hnew.
    destruct (negb (isValid o)); [by intros [= <-] |].
    destruct (Engine.getOrCreateOrderBook symbol (engine s)) as [b0 e1] eqn:Hget.
    cbv beta iota zeta delta [alloc]. rewrite deref_alloc_new.
    destruct (Book.addOrder _ _ _) as [[[] h2] b1] eqn:Hadd.
    { cbv beta iota zeta delta [Engine.notifyOrderStatusChanged world heap engine callbacks].
      by destruct (Book.matchOrders _ _ _) as [[[[trades w3] h3] b2] |]. }
    intros [= <-].
    assert (Hfresh : filledQuantity_ o = 0).
    { destruct (Qltb 0 pr);
      by apply new_order_fresh in Hnew as (_ & _ & _ & _ & _ & _ & _ & ? & _). }
    destruct (place_steps_wf _ _ _ _ _ _ _ _ Hwf Hget Hfresh Hadd)
      as (Hwf1 & Hsym1 & Hlen & Hold & Hbooks).
    apply system_wf_put_book; [done | done |].
    intros symbol' b' Hne Hb'. simpl in Hb'. by apply Hbooks.
Qed.

Lemma placeOrder_returns userId ty symbol q pr s :
  system_wf s -> is_Some (Engine.placeOrder userId ty symbol q pr s).
Proof.
  intros Hwf. unfold Engine.placeOrder.
  destruct (Engine.getUser userId s); [| done].
  destruct (generateUUID (world s)) as [orderId w1].
  destruct (Qltb pr 0); [done |].
  destruct (if Qltb 0 pr then _ else _) as [o w2] eqn:Hnew.
  destruct (negb (isValid o)); [done |].
  destruct (Engine.getOrCreateOrderBook symbol (engine s)) as [b0 e1] eqn:Hget.
  cbv beta iota zeta delta [alloc]. rewrite deref_alloc_new.
  destruct (Book.addOrder _ _ _) as [[[] h2] b1] eqn:Hadd; [| done].
  cbv beta iota zeta delta [Engine.notifyOrderStatusChanged world heap engine callbacks].
  assert (Hfresh : filledQuantity_ o = 0).
  { destruct (Qltb 0 pr);
      by apply new_order_fresh in Hnew as (_ & _ & _ & _ & _ & _ & _ & ? & _). }
  destruct (place_steps_wf _ _ _ _ _ _ _ _ Hwf Hget Hfresh Hadd) as (Hwf1 & _).
  destruct (matchOrders_returns w2 h2 b1 Hwf1) as [[[[trades w3] h3] b2] ->].
  done.
Qed.

(** ** [cancelOrder] and [modifyOrder] of the engine *)

Lemma cancel_scan_Some orderId h books symbol h' b' :
  Engine.cancel_scan orderId h books = Some (symbol, h', b') ->
  ∃ b, (symbol, b) ∈ books ∧ Book.cancelOrder orderId h b = (true, h', b').
Proof.
  induction books as [| [sym b] books IH]; simpl; [done |].
  destruct (Book.getOrder orderId b).
  - destruct (Book.cancelOrder orderId h b) as [[[] h1] b1] eqn:Hc.
    + intros [= <- <- <-]. exists b. split; [apply list_elem_of_here | done].
    + intros (b2 & Hin & Hc2)%IH. exists b2. split; [by apply list_elem_of_further | done].
  - intros (b2 & Hin & Hc2)%IH. exists b2. split; [by apply list_elem_of_further | done].
Qed.

Lemma engine_cancelOrder_false userId orderId s s' :
  Engine.cancelOrder userId orderId s = (false, s') -> s' = s.
Proof.
  unfold Engine.cancelOrder.
  destruct (Engine.getUser userId s); [| by intros [= <-]].
  destruct (allOrders_ (engine s) !! orderId) as [order |]; [| by intros [= <-]].
  destruct (negb _); [by intros [= <-] |].
  destruct (Engine.cancel_scan _ _ _) as [[[symbol h'] b'] |]; [done | by intros [= <-]].
Qed.

Lemma engine_cancelOrder_true userId orderId s s' :
  Engine.cancelOrder userId orderId s = (true, s') ->
  ∃ order symbol b h' b',
    allOrders_ (engine s) !! orderId = Some order
    ∧ orderBooks_ (engine s) !! symbol = Some b
    ∧ Book.cancelOrder orderId (heap s) b = (true, h', b')
    ∧ s' = mkSystem (world s) h' (Engine.put_book symbol b' (engine s))
             (callbacks s
                ++ Engine.orderStatusChanged_calls (observers_ (engine s)) h' order).
Proof.
  unfold Engine.cancelOrder.
  destruct (Engine.getUser userId s); [| done].
  destruct (allOrders_ (engine s) !! orderId) as [order |]; [| done].
  destruct (negb _); [done |].
  destruct (Engine.cancel_scan _ _ _) as [[[symbol h'] b'] |] eqn:Hscan; [| done].
  intros [= <-]. apply cancel_scan_Some in Hscan as (b & Hin & Hc).
  apply elem_of_map_to_list in Hin.
  by exists order, symbol, b, h', b'.
Qed.

Lemma cancelOrder_changes id h b h' b' :
  Book.cancelOrder id h b = (true, h', b') ->
  ∃ p, orderLookup_ b !! id = Some p
    ∧ canCancel (deref h p) = true
    ∧ h' = store h p (assign_status (deref h p) CANCELLED)
    ∧ book_symbol_ b' = book_symbol_ b
    ∧ orderLookup_ b' = orderLookup_ b.
Proof.
  intros (p & l' & Hlk & Hcan & _ & -> & ->)%cancelOrder_true.
  exists p. by rewrite with_side_symbol, with_side_lookup.
Qed.

Lemma engine_cancelOrder_wf userId orderId s ok s' :
  system_wf s ->
  Engine.cancelOrder userId orderId s = (ok, s') ->
  system_wf s'.
Proof.
  intros Hwf Hc. destruct ok;
    [| by apply engine_cancelOrder_false in Hc as ->].
  apply engine_cancelOrder_true in Hc
    as (order & symbol & b & h' & b' & _ & Hb & Hc & ->).
  destruct (Hwf _ _ Hb) as [Hsym Hwfb].
  pose proof (cancelOrder_wf _ _ _ _ _ _ Hwfb Hc) as Hwfb'.
  destruct (cancelOrder_changes _ _ _ _ _ Hc) as (p & Hlk & _ & Hh' & Hsym' & _).
  destruct (wf_lookup _ _ Hwfb _ _ Hlk) as [_ _ Hpsym _].
  apply system_wf_put_book; [congruence | done |].
  intros symbol' b2 Hne Hb2. destruct (Hwf _ _ Hb2) as [Hsym2 Hwf2]. split; [done |].
  apply (other_book_wf (heap s) b2 h' b' Hwf2 Hwfb'); [congruence | |].
  - rewrite Hh', length_store. lia.
  - intros x _ Hx. rewrite Hh'. apply deref_store_ne. intros ->. congruence.
Qed.

Lemma put_book_same symbol b e :
  orderBooks_ e !! symbol = Some b -> Engine.put_book symbol b e = e.
Proof.
  intros Hb. unfold Engine.put_book. rewrite insert_id by done. by destruct e.
Qed.

(** After a successful [modifyOrder] the id is indexed to the new object. *)
Lemma modifyOrder_getOrder id q pr h b h' b' :
  Book.modifyOrder id q pr h b = (true, h', b') ->
  Book.getOrder id b' = Some (length h).
Proof.
  intros (p & l' & _ & _ & _ & _ & _ & _ & _ & _ & ->)%modifyOrder_true.
  unfold Book.getOrder. by rewrite with_side_lookup, lookup_insert_eq.
Qed.

Lemma engine_modifyOrder_false userId orderId q pr s s' :
  Engine.modifyOrder userId orderId q pr s = Some (false, s') -> s' = s.
Proof.
  unfold Engine.modifyOrder.
  destruct (Engine.getUser userId s); [| by intros [= <-]].
  destruct (Qltb pr 0); [by intros [= <-] |].
  destruct (allOrders_ (engine s) !! orderId) as [order |]; [| by intros [= <-]].
  destruct (negb _); [by intros [= <-] |].
  destruct (orderBooks_ (engine s) !! _) as [b |] eqn:Hb; [| by intros [= <-]].
  destruct (Book.modifyOrder _ _ _ _ _) as [[[] h1] b1] eqn:Hm.
  - destruct (Book.getOrder orderId b1); [| done].
    unfold Engine.notifyOrderStatusChanged; cbn [world heap engine callbacks].
    by destruct (Book.matchOrders _ _ _) as [[[[trades w2] h2] b2] |].
  - apply modifyOrder_false in Hm as [-> ->]. intros [= <-].
    rewrite put_book_same by done. by destruct s.
Qed.

Lemma engine_modifyOrder_true userId orderId q pr s s' :
  Engine.modifyOrder userId orderId q pr s = Some (true, s') ->
  ∃ order b h1 b1 trades w2 h2 b2,
    let symbol := symbol_ (deref (heap s) order) in
    allOrders_ (engine s) !! orderId = Some order
    ∧ orderBooks_ (engine s) !! symbol = Some b
    ∧ Book.modifyOrder orderId q pr (heap s) b = (true, h1, b1)
    ∧ Book.matchOrders (world s) h1 b1 = Some (trades, w2, h2, b2)
    ∧ s' = mkSystem w2 h2
             (Engine.put_book symbol b2
                (Engine.put_order orderId (length (heap s)) (engine s)))
             (callbacks s
                ++ Engine.orderStatusChanged_calls (observers_ (engine s)) h1
                     (length (heap s))
                ++ flat_map (Engine.tradeExecuted_calls (observers_ (engine s)))
                     trades).
Proof.
  unfold Engine.modifyOrder.
  destruct (Engine.getUser userId s); [| done].
  destruct (Qltb pr 0); [done |].
  destruct (allOrders_ (engine s) !! orderId) as [order |]; [| done].
  destruct (negb _); [done |].
  destruct (orderBooks_ (engine s) !! _) as [b |] eqn:Hb; [| done].
  destruct (Book.modifyOrder _ _ _ _ _) as [[[] h1] b1] eqn:Hm; [| done].
  rewrite (modifyOrder_getOrder _ _ _ _ _ _ _ Hm).
  unfold Engine.notifyOrderStatusChanged; cbn [world heap engine callbacks].
  destruct (Book.matchOrders _ _ _) as [[[[trades w2] h2] b2] |] eqn:Hmatch; [| done].
  intros [= <-]. exists order, b, h1, b1, trades, w2, h2, b2.
  split_and!; try done.
  rewrite notify_trades_callbacks. simpl.
  rewrite <- app_assoc. f_equal.
  unfold Engine.put_book, Engine.put_order. simpl. by rewrite insert_insert_eq.
Qed.

Lemma modifyOrder_changes id q pr h b h' b' :
  Book.modifyOrder id q pr h b = (true, h', b') ->
  ∃ p m, orderLookup_ b !! id = Some p
    ∧ canModify (deref h p) = true
    ∧ h' = h ++ [m]
    ∧ filledQuantity_ m = filledQuantity_ (deref h p)
    ∧ status_ m = ACCEPTED
    ∧ book_symbol_ b' = book_symbol_ b.
Proof.
  intros (p & l' & Hlk & Hcan & _ & _ & _ & _ & _ & -> & ->)%modifyOrder_true.
  exists p. eexists. by rewrite with_side_symbol.
Qed.

(** The state in which the engine's [modifyOrder] calls [matchOrders]. *)
Lemma modify_steps_wf s symbol b orderId q pr h1 b1 :
  system_wf s ->
  orderBooks_ (engine s) !! symbol = Some b ->
  Book.modifyOrder orderId q pr (heap s) b = (true, h1, b1) ->
  book_wf h1 b1 ∧ book_symbol_ b1 = symbol
  ∧ length h1 = S (length (heap s))
  ∧ (∀ x, (x < length (heap s))%nat -> deref h1 x = deref (heap s) x)
  ∧ ∀ symbol' b', orderBooks_ (engine s) !! symbol' = Some b' ->
      symbol' ≠ symbol -> book_symbol_ b' = symbol' ∧ book_wf h1 b'.
Proof.
  intros Hwf Hb Hm. destruct (Hwf _ _ Hb) as [Hsym Hwfb].
  pose proof (modifyOrder_wf _ _ _ _ _ _ _ _ Hwfb Hm) as Hwf1.
  destruct (modifyOrder_changes _ _ _ _ _ _ _ Hm) as (p & m & _ & _ & -> & _ & _ & Hsym1).
  assert (Hlen : length (heap s ++ [m]) = S (length (heap s))).
  { rewrite length_app. simpl. lia. }
  split_and!; [done | congruence | done | by intros; apply deref_alloc_old |].
  intros symbol' b' Hb' Hne. destruct (Hwf _ _ Hb') as [? Hwf']. split; [done |].
  eapply book_wf_frame; [done | lia |].
  intros id x Hlk. apply deref_alloc_old. by destruct (wf_lookup _ _ Hwf' _ _ Hlk).
Qed.

Lemma engine_modifyOrder_wf userId orderId q pr s ok s' :
  system_wf s ->
  Engine.modifyOrder userId orderId q pr s = Some (ok, s') ->
  system_wf s'.
Proof.
  intros Hwf Hm. destruct ok;
    [| by apply engine_modifyOrder_false in Hm as ->].
  apply engine_modifyOrder_true in Hm
    as (order & b & h1 & b1 & trades & w2 & h2 & b2 & _ & Hb & Hm & Hmatch & ->).
  destruct (modify_steps_wf _ _ _ _ _ _ _ _ Hwf Hb Hm)
    as (Hwf1 & Hsym1 & Hlen & Hold & Hbooks).
  destruct (matchOrders_effect _ _ _ _ _ _ _ Hwf1 Hmatch)
    as [[Hlen2 _ Hsy2 _ _ _ _] Hwf2].
  apply system_wf_put_book; [congruence | done |].
  intros symbol' b' Hne Hb'. simpl in Hb'.
  destruct (Hbooks _ _ Hb' Hne) as [Hsym' Hwf']. split; [done |].
  apply (other_book_wf h1 b' h2 b2 Hwf' Hwf2); [congruence | lia |].
  intros x _ Hx. apply (matchOrders_other_symbol _ _ _ _ _ _ _ x Hwf1 Hmatch).
  congruence.
Qed.

Lemma engine_modifyOrder_returns userId orderId q pr s :
  system_wf s -> is_Some (Engine.modifyOrder userId orderId q pr s).
Proof.
  intros Hwf. unfold Engine.modifyOrder.
  destruct (Engine.getUser userId s); [| done].
  destruct (Qltb pr 0); [done |].
  destruct (allOrders_ (engine s) !! orderId) as [order |]; [| done].
  destruct (negb _); [done |].
  destruct (orderBooks_ (engine s) !! _) as [b |] eqn:Hb; [| done].
  destruct (Book.modifyOrder _ _ _ _ _) as [[[] h1] b1] eqn:Hm; [| done].
  destruct (modify_steps_wf _ _ _ _ _ _ _ _ Hwf Hb Hm) as (Hwf1 & _).
  rewrite (modifyOrder_getOrder _ _ _ _ _ _ _ Hm).
  unfold Engine.notifyOrderStatusChanged; cbn [world heap engine callbacks].
  destruct (matchOrders_returns (world s) h1 b1 Hwf1) as [[[[trades w3] h3] b2] ->].
  done.
Qed.

Lemma system_wf_initial w : system_wf (Engine.initial w).
Proof. intros symbol b Hb. simpl in Hb. by rewrite lookup_empty in Hb. Qed.

Lemma match_loop_same_terms fuel : ∀ w h b trades w' h' b' x,
  Book.match_loop fuel w h b = Some (trades, w', h', b') ->
  same_terms (deref h x) (deref h' x).
Proof.
  induction fuel as [| fuel IH]; intros w h b trades w' h' b' x; simpl.
  - destruct (Book.match_iteration w h b) as [[[[t w1] h1] b1] |]; [done |].
    intros [= _ _ <- _]. apply same_terms_refl.
  - destruct (Book.match_iteration w h b) as [[[[t w1] h1] b1] |] eqn:Hit;
      [| intros [= _ _ <- _]; apply same_terms_refl].
    destruct (Book.match_loop fuel w1 h1 b1) as [[[[ts w2] h2] b2] |] eqn:Hloop;
      [| done].
    intros [= _ _ <- _]. eapply same_terms_trans.
    + by eapply match_iteration_same_terms.
    + by eapply IH.
Qed.

Lemma matchOrders_price w h b trades w' h' b' x :
  Book.matchOrders w h b = Some (trades, w', h', b') ->
  price_ (deref h' x) = price_ (deref h x).
Proof. intros Hm. by apply (match_loop_same_terms _ _ _ _ _ _ _ _ x) in Hm as (_ & _ & _ & _ & _ & _ & ? & _). Qed.

Lemma no_residual_cross_frame h b h' :
  (∀ p, p ∈ buyOrders_ b ∨ p ∈ sellOrders_ b ->
        price_ (deref h' p) = price_ (deref h p)) ->
  no_residual_cross h b -> no_residual_cross h' b.
Proof.
  intros Hsame Hnc Hb Hs. specialize (Hnc Hb Hs).
  unfold Book.getBestBid, Book.getBestAsk in *.
  destruct (buyOrders_ b) as [| pb buys]; [done |].
  destruct (sellOrders_ b) as [| ps sells]; [done |].
  rewrite !Hsame; [done | right | left]; apply list_elem_of_here.
Qed.

Lemma no_residual_cross_create h symbol : no_residual_cross h (Book.create symbol).
Proof. by intros Hb _. Qed.

Lemma book_wf_queued_valid h b p :
  book_wf h b -> p ∈ buyOrders_ b ∨ p ∈ sellOrders_ b -> (p < length h)%nat.
Proof.
  intros Hwf [Hin | Hin].
  - apply (side_resting _ _ BUY _ Hwf Hin).
  - apply (side_resting _ _ SELL _ Hwf Hin).
Qed.
Lemma system_wfb_sound s : system_wfb s = true -> system_wf s.
Proof.
  unfold system_wfb. rewrite forallb_forall. intros Hall symbol b Hb.
  apply elem_of_map_to_list, list_elem_of_In in Hb. specialize (Hall _ Hb).
  simpl in Hall. apply andb_true_iff in Hall as [Hsym Hwf].
  split; [by apply bool_decide_eq_true in Hsym | by apply book_wfb_sound].
Qed.

(** ** Further facts used for the claims *)

Lemma match_loop_first fuel w h b trades w' h' b' :
  Book.match_loop fuel w h b = Some (trades, w', h', b') ->
  match Book.match_iteration w h b with
  | Some _ => trades ≠ []
  | None => trades = [] ∧ w' = w ∧ h' = h ∧ b' = b
  end.
Proof.
  destruct fuel; simpl;
    destruct (Book.match_iteration w h b) as [[[[t w1] h1] b1] |];
    try done; try by intros [= <- <- <- <-].
  destruct (Book.match_loop fuel w1 h1 b1) as [[[[ts w2] h2] b2] |]; [| done].
  by intros [= <- _ _ _].
Qed.

Lemma match_iteration_crossing w h b pb buys ps sells :
  buyOrders_ b = pb :: buys -> sellOrders_ b = ps :: sells ->
  Book.match_iteration w h b = None
  ↔ (price_ (deref h pb) < price_ (deref h ps))%Q.
Proof.
  intros Hb Hs. unfold Book.match_iteration. rewrite Hb, Hs, <- Qltb_lt.
  destruct (Qltb _ _); [done |].
  destruct (generateUUID w) as [tid w1].
  by destruct (Trade_new _ _ _ _ _ _ _ _) as [trade w2].
Qed.

Lemma setQuantity_ok o q :
  canModify o = true -> 0 < q <= MAX_ORDER_QUANTITY ->
  setQuantity o q = (true, assign_quantity o q).
Proof.
  intros Hc Hq. unfold setQuantity. rewrite Hc.
  destruct (Z.leb_spec q 0); [lia |].
  destruct (Z.ltb_spec MAX_ORDER_QUANTITY q); [lia | done].
Qed.

Lemma setPrice_ok o pr :
  canModify o = true -> class_ o = LimitOrder ->
  (MIN_ORDER_PRICE <= pr)%Q -> (pr <= MAX_ORDER_PRICE)%Q ->
  setPrice o pr = (true, assign_price o pr).
Proof.
  intros Hc Hcl H1 H2. unfold setPrice. rewrite Hcl, Hc.
  apply Qle_not_lt, Qltb_nlt in H1. apply Qle_not_lt, Qltb_nlt in H2.
  by rewrite H1, H2.
Qed.

Lemma heap_progress_refl h : heap_progress h h.
Proof. intros p. split; [done | lia]. Qed.

Lemma heap_progress_trans h1 h2 h3 :
  heap_progress h1 h2 -> heap_progress h2 h3 -> heap_progress h1 h3.
Proof.
  intros H12 H23 p. destruct (H12 p) as [Ht1 Hf1]. destruct (H23 p) as [Ht2 Hf2].
  split; [| lia]. intros Hterm. rewrite <- (Ht1 Hterm). apply Ht2.
  by rewrite (Ht1 Hterm).
Qed.

Lemma heap_progress_alloc h o :
  0 <= filledQuantity_ o -> heap_progress h (h ++ [o]).
Proof.
  intros Ho p. destruct (decide (p < length h)%nat) as [Hlt | Hge].
  - rewrite deref_alloc_old by done. split; [done | lia].
  - rewrite (deref_out_of_range h p) by lia. split; [done |]. simpl.
    destruct (decide (p = length h)) as [-> | Hne].
    + by rewrite deref_alloc_new.
    + rewrite deref_out_of_range; [done |]. rewrite length_app. simpl. lia.
Qed.

Lemma heap_progress_status h p st :
  terminal (status_ (deref h p)) = false ->
  heap_progress h (store h p (assign_status (deref h p) st)).
Proof.
  intros Hlive x. destruct (decide (x = p)) as [-> | Hne].
  - split; [congruence |].
    destruct (decide (p < length h)%nat).
    + rewrite deref_store_eq by done. simpl. lia.
    + rewrite store_out_of_range by lia. lia.
  - rewrite deref_store_ne by done. split; [done | lia].
Qed.

Lemma heap_progress_match w h b trades w' h' b' :
  book_wf h b ->
  Book.matchOrders w h b = Some (trades, w', h', b') ->
  heap_progress h h'.
Proof.
  intros Hwf Hm p.
  destruct (matchOrders_effect _ _ _ _ _ _ _ Hwf Hm)
    as [[_ _ _ Hframe Hfilled _ _] _].
  split; [| apply Hfilled]. intros Hterm. apply Hframe; intros Hin.
  - destruct (resting_live _ _ _ _ (side_resting _ _ BUY _ Hwf Hin)) as [Hs | Hs];
      by rewrite Hs in Hterm.
  - destruct (resting_live _ _ _ _ (side_resting _ _ SELL _ Hwf Hin)) as [Hs | Hs];
      by rewrite Hs in Hterm.
Qed.

Lemma placeOrder_rejected userId ty symbol q pr s s' :
  Engine.placeOrder userId ty symbol q pr s = Some (None, s') ->
  heap s' = heap s ∨ ∃ o, filledQuantity_ o = 0 ∧ heap s' = heap s ++ [o].
Proof.
  unfold Engine.placeOrder.
  destruct (Engine.getUser userId s); [| intros [= <-]; by left].
  destruct (generateUUID (world s)) as [orderId w1].
  destruct (Qltb pr 0); [intros [= <-]; by left |].
  destruct (if Qltb 0 pr then _ else _) as [o w2] eqn:Hnew.
  destruct (negb (isValid o)); [intros [= <-]; by left |].
  destruct (Engine.getOrCreateOrderBook symbol (engine s)) as [b0 e1] eqn:Hget.
  cbv beta iota zeta delta [alloc]. rewrite deref_alloc_new.
  destruct (Book.addOrder _ _ _) as [[[] h2] b1] eqn:Hadd.
  { unfold Engine.notifyOrderStatusChanged; cbn [world heap engine callbacks].
    by destruct (Book.matchOrders _ _ _) as [[[[trades w3] h3] b2] |]. }
  intros [= <-]. apply addOrder_false in Hadd as [-> ->]. right. exists o.
  split; [| done].
  destruct (Qltb 0 pr);
    by apply new_order_fresh in Hnew as (_ & _ & _ & _ & _ & _ & _ & ? & _).
Qed.

Lemma engine_step_progress s s' :
  system_wf s -> engine_step s s' -> heap_progress (heap s) (heap s').
Proof.
  intros Hwf [user ok Hr | ob <- | ob <- | userId ty symbol q pr r Hp
              | userId orderId ok Hc | userId orderId q pr ok Hm].
  - unfold Engine.registerUser in Hr. destruct user as [u |];
      [| injection Hr as _ <-; apply heap_progress_refl].
    destruct (negb _); [injection Hr as _ <-; apply heap_progress_refl |].
    destruct (users_ (engine s) !! _); injection Hr as _ <-;
      apply heap_progress_refl.
  - apply heap_progress_refl.
  - apply heap_progress_refl.
  - destruct r as [p |].
    + apply placeOrder_accepted in Hp
        as (o & w2 & b0 & e1 & h2 & b1 & trades & w3 & h3 & b2 & -> & _ & _ & _
            & Hpend & Hfresh & _ & _ & Hget & Hadd & Hmatch & ->).
      destruct (place_steps_wf _ _ _ _ _ _ _ _ Hwf Hget Hfresh Hadd) as (Hwf1 & _).
      apply addOrder_true in Hadd as (p' & [= <-] & _ & _ & _ & _ & -> & _).
      simpl. apply (heap_progress_trans _ (heap s ++ [o]));
        [apply heap_progress_alloc; lia |].
      eapply heap_progress_trans; [| by eapply heap_progress_match].
      apply heap_progress_status. by rewrite deref_alloc_new, Hpend.
    + apply placeOrder_rejected in Hp as [-> | (o & Ho & ->)];
        [apply heap_progress_refl | apply heap_progress_alloc; lia].
  - destruct ok; [| apply engine_cancelOrder_false in Hc as ->;
                    apply heap_progress_refl].
    apply engine_cancelOrder_true in Hc
      as (order & symbol & b & h' & b' & _ & _ & Hc & ->).
    apply cancelOrder_changes in Hc as (p & _ & Hcan & -> & _). simpl.
    apply heap_progress_status. by apply canCancel_not_terminal.
  - destruct ok; [| apply engine_modifyOrder_false in Hm as ->;
                    apply heap_progress_refl].
    apply engine_modifyOrder_true in Hm
      as (order & b & h1 & b1 & trades & w2 & h2 & b2 & _ & Hb & Hm & Hmatch & ->).
    destruct (modify_steps_wf _ _ _ _ _ _ _ _ Hwf Hb Hm) as (Hwf1 & _).
    destruct (Hwf _ _ Hb) as [_ Hwfb].
    apply modifyOrder_changes in Hm as (p & m & Hlk & Hcan & -> & Hfm & _).
    destruct (indexed_live_resting _ _ _ _ Hwfb Hlk (canModify_not_terminal _ Hcan))
      as [Hrp _].
    pose proof (resting_filled _ _ _ _ Hrp).
    simpl. apply (heap_progress_trans _ (heap s ++ [m]));
      [apply heap_progress_alloc; lia |].
    by eapply heap_progress_match.
Qed.

Lemma engine_step_wf s s' : system_wf s -> engine_step s s' -> system_wf s'.
Proof.
  intros Hwf [user ok Hr | ob <- | ob <- | userId ty symbol q pr r Hp
              | userId orderId ok Hc | userId orderId q pr ok Hm].
  - unfold Engine.registerUser in Hr. destruct user as [u |];
      [| by injection Hr as _ <-].
    destruct (negb _); [by injection Hr as _ <- |].
    destruct (users_ (engine s) !! _); by injection Hr as _ <-.
  - done.
  - done.
  - by eapply placeOrder_wf.
  - by eapply engine_cancelOrder_wf.
  - by eapply engine_modifyOrder_wf.
Qed.

Lemma price_far_sym x y : price_far x y = price_far y x.
Proof.
  unfold price_far.
  apply eq_true_iff_eq. rewrite !Qltb_lt.
  assert (Heq : (Qabs (price_ x - price_ y) == Qabs (price_ y - price_ x))%Q).
  { rewrite <- (Qabs_opp (price_ y - price_ x)). apply Qabs_wd. ring. }
  by rewrite Heq.
Qed.

Lemma price_far_irrefl x : price_far x x = false.
Proof.
  unfold price_far. apply Qltb_nlt.
  assert (Heq : (Qabs (price_ x - price_ x) == 0)%Q).
  { transitivity (Qabs 0); [apply Qabs_wd; ring | done]. }
  rewrite Heq. done.
Qed.

Lemma price_far_eq x y : (price_ x == price_ y)%Q -> price_far x y = false.
Proof.
  intros Hxy. unfold price_far. apply Qltb_nlt.
  assert (Heq : (Qabs (price_ x - price_ y) == 0)%Q).
  { transitivity (Qabs 0); [apply Qabs_wd; rewrite Hxy; ring | done]. }
  rewrite Heq. done.
Qed.

Lemma price_far_neq x y : price_far x y = true -> ¬ (price_ x == price_ y)%Q.
Proof. intros Hfar Heq. by rewrite (price_far_eq _ _ Heq) in Hfar. Qed.

Lemma comparator_unfold t x y :
  comparator t x y
  = if price_far x y
    then match t with
         | BUY => Qltb (price_ y) (price_ x)
         | SELL => Qltb (price_ x) (price_ y)
         end
    else timestamp_ x <? timestamp_ y.
Proof. by destruct t. Qed.

(** The checkers of sortedness and separation are sound. *)
Lemma queue_sortedb_sound h t l : queue_sortedb h t l = true -> queue_sorted h t l.
Proof.
  unfold queue_sorted. induction l as [| p l IH]; simpl; [constructor |].
  rewrite andb_true_iff, forallb_forall. intros [Hall Hl].
  constructor; [by apply IH |].
  apply Forall_forall. intros q Hq. apply list_elem_of_In in Hq.
  specialize (Hall q Hq). unfold not_afterb in Hall. unfold not_after.
  by destruct (comparator t (deref h q) (deref h p)).
Qed.

Lemma book_sortedb_sound h b :
  queue_sortedb h BUY (buyOrders_ b) && queue_sortedb h SELL (sellOrders_ b) = true ->
  book_sorted h b.
Proof.
  rewrite andb_true_iff. intros [? ?] []; by apply queue_sortedb_sound.
Qed.

Lemma prices_separatedb_sound h l :
  prices_separatedb h l = true -> prices_separated h l.
Proof.
  unfold prices_separatedb. rewrite forallb_forall. intros Hall p q Hp Hq.
  apply list_elem_of_In in Hp, Hq. specialize (Hall p Hp).
  rewrite forallb_forall in Hall. specialize (Hall q Hq).
  unfold price_separatedb in Hall. apply orb_true_iff in Hall as [He | Hf].
  - left. by apply Qeq_bool_iff.
  - by right.
Qed.

Lemma book_separatedb_sound h b :
  prices_separatedb h (buyOrders_ b) && prices_separatedb h (sellOrders_ b) = true ->
  book_separated h b.
Proof.
  rewrite andb_true_iff. intros [? ?] []; by apply prices_separatedb_sound.
Qed.

(** In a sorted queue whose prices are pairwise equal or more than [1e-9]
    apart, no order is priced better than the first one. *)
Lemma sorted_head_price h t p l q :
  queue_sorted h t (p :: l) -> prices_separated h (p :: l) -> q ∈ p :: l ->
  match t with
  | BUY => (price_ (deref h q) <= price_ (deref h p))%Q
  | SELL => (price_ (deref h p) <= price_ (deref h q))%Q
  end.
Proof.
  intros Hsorted Hsep Hq.
  apply elem_of_cons in Hq as [-> | Hq]; [destruct t; lra |].
  apply StronglySorted_inv in Hsorted as [_ Hall].
  rewrite Forall_forall in Hall. specialize (Hall _ Hq).
  unfold not_after in Hall. rewrite comparator_unfold in Hall.
  destruct (Hsep q p) as [Heq | Hfar];
    [by apply list_elem_of_further | apply list_elem_of_here | destruct t; lra |].
  rewrite Hfar in Hall. destruct t; apply Qltb_nlt in Hall; lra.
Qed.

Lemma erase_by_id_head h id p l l' q :
  erase_by_id h id (p :: l) = Some l' -> head l' = Some q -> q ∈ p :: l.
Proof.
  intros Her Hq. apply erase_by_id_Some in Her as (l1 & x & l2 & Hl & -> & _).
  rewrite Hl. apply head_Some_elem_of in Hq.
  apply elem_of_app in Hq as [Hq | Hq]; apply elem_of_app;
    [by left | right; by apply list_elem_of_further].
Qed.

Lemma price_store_status h p st x :
  price_ (deref (store h p (assign_status (deref h p) st)) x) = price_ (deref h x).
Proof.
  destruct (decide (p < length h)%nat) as [Hp | Hp];
    [| by rewrite store_out_of_range by lia].
  destruct (decide (x = p)) as [-> | Hne];
    [by rewrite deref_store_eq | by rewrite deref_store_ne].
Qed.

(** [cancelOrder] runs no matching, but among prices that the comparators
    tell apart the order behind the best one is not priced better than the
    best one was. *)
Lemma cancelOrder_uncrossed id h b ok h' b' :
  book_sorted h b -> book_separated h b -> no_residual_cross h b ->
  Book.cancelOrder id h b = (ok, h', b') ->
  no_residual_cross h' b'.
Proof.
  intros Hsorted Hsep Hnc Hc. destruct ok;
    [| by apply cancelOrder_false in Hc as [-> ->]].
  apply cancelOrder_true in Hc as (p & l' & _ & _ & Her & -> & ->).
  intros Hb' Hs'. unfold Book.getBestBid, Book.getBestAsk.
  destruct (orderType_ (deref h p)) eqn:Hty; simpl in *.
  - destruct l' as [| y l'']; [done |].
    destruct (sellOrders_ b) as [| ps sells] eqn:Hs; [done |].
    destruct (buyOrders_ b) as [| pb buys] eqn:Hb; [done |].
    rewrite !price_store_status.
    assert (Hy : y ∈ pb :: buys) by (by eapply erase_by_id_head).
    pose proof (sorted_head_price h BUY pb buys y) as Hle. simpl in Hle.
    specialize (Hsorted BUY). specialize (Hsep BUY). simpl in Hsorted, Hsep.
    rewrite Hb in Hsorted, Hsep. specialize (Hle Hsorted Hsep Hy).
    unfold no_residual_cross, Book.getBestBid, Book.getBestAsk in Hnc.
    rewrite Hb, Hs in Hnc. specialize (Hnc ltac:(done) ltac:(done)). lra.
  - destruct l' as [| y l'']; [done |].
    destruct (buyOrders_ b) as [| pb buys] eqn:Hb; [done |].
    destruct (sellOrders_ b) as [| ps sells] eqn:Hs; [done |].
    rewrite !price_store_status.
    assert (Hy : y ∈ ps :: sells) by (by eapply erase_by_id_head).
    pose proof (sorted_head_price h SELL ps sells y) as Hle. simpl in Hle.
    specialize (Hsorted SELL). specialize (Hsep SELL). simpl in Hsorted, Hsep.
    rewrite Hs in Hsorted, Hsep. specialize (Hle Hsorted Hsep Hy).
    unfold no_residual_cross, Book.getBestBid, Book.getBestAsk in Hnc.
    rewrite Hb, Hs in Hnc. specialize (Hnc ltac:(done) ltac:(done)). lra.
Qed.

(** * The claims *)

(** ** C1 *)

(** C1: on every (well-formed) book [matchOrders] returns, and what it
    returns is what the loop of the specification produces: the loop runs
    while both sides are non-empty, stops as soon as the best bid is priced
    strictly below the best ask, otherwise trades the smaller of the two
    remaining quantities, fills both best orders by exactly that quantity
    and erases a best order exactly when nothing remains of it; the trades
    are returned in the order of the passes, and the run is determined by
    the book (and the two oracles). *)
Theorem matchOrders_runs_the_loop (w : World) (h : Heap) (b : OrderBook) :
  book_wf h b ->
  ∃ trades w' h' b',
    Book.matchOrders w h b = Some (trades, w', h', b')
    ∧ match_run w h b trades w' h' b'
    ∧ ∀ trades2 w2 h2 b2,
        match_run w h b trades2 w2 h2 b2 ->
        trades2 = trades ∧ w2 = w' ∧ h2 = h' ∧ b2 = b'.
Proof.
  intros Hwf.
  destruct (match_loop_run _ w h b Hwf (le_n _))
    as (trades & w' & h' & b' & Hloop & Hrun & _ & _).
  exists trades, w', h', b'. split_and!; [done | done |].
  intros trades2 w2 h2 b2 Hrun2.
  by destruct (match_run_deterministic _ _ _ _ _ _ _ _ _ _ _ Hrun2 Hrun)
    as (-> & -> & -> & ->).
Qed.

Lemma matchOrders_runs_the_loop_witness :
  book_wf demo_heap demo_book
  ∧ ∃ trades w' h' b',
      Book.matchOrders demo_world demo_heap demo_book
      = Some (trades, w', h', b')
      ∧ match_run demo_world demo_heap demo_book trades w' h' b'.
Proof.
  assert (Hwf : book_wf demo_heap demo_book)
    by (apply book_wfb_sound; vm_compute; reflexivity).
  split; [exact Hwf |].
  destruct (matchOrders_runs_the_loop demo_world demo_heap demo_book Hwf)
    as (trades & w' & h' & b' & Hm & Hrun & _).
  exists trades, w', h', b'. split; [exact Hm | exact Hrun].
Defined.

(** ** C2 *)

(** C2, counterexample: a buy order rests at 105 and a sell order priced
    100 arrives.  The trade executes at 100, the price of the incoming
    order, not at 105, the price of the resting one. *)
Lemma trade_at_the_price_of_the_aggressor :
  ∃ s' t,
    run_sell_into_bid = Some (Some 1%nat, s')
    ∧ onTradeExecuted 7 t ∈ callbacks s'
    ∧ timestamp_ (deref (heap s') 0) < timestamp_ (deref (heap s') 1)
    ∧ price_ (deref (heap s') 0) = (105 # 1)%Q
    ∧ price_ (deref (heap s') 1) = (100 # 1)%Q
    ∧ trade_price_ t = (100 # 1)%Q
    ∧ ¬ executes_at_resting_price (heap s') t.
Proof.
  eexists _, _. split; [vm_compute; reflexivity |].
  split; [do 2 apply list_elem_of_further; apply list_elem_of_here |].
  split; [reflexivity |]. split; [reflexivity |]. split; [reflexivity |].
  split; [reflexivity |].
  intros Hrule.
  specialize (Hrule 0%nat 1%nat ltac:(simpl; lia) ltac:(simpl; lia) eq_refl eq_refl).
  vm_compute in Hrule. discriminate.
Qed.

(** C2, as amended: every trade produced by [matchOrders] carries the
    price of its sell order (the best ask of the pass that produced it),
    whichever of the two orders arrived first. *)
Theorem trades_execute_at_the_ask (w : World) (h : Heap) (b : OrderBook)
    (trades : list Trade) (w' : World) (h' : Heap) (b' : OrderBook) :
  Book.matchOrders w h b = Some (trades, w', h', b') ->
  ∀ t, t ∈ trades ->
    ∃ pb ps, pb ∈ buyOrders_ b ∧ ps ∈ sellOrders_ b
      ∧ buyerOrderId_ t = orderId_ (deref h pb)
      ∧ sellerOrderId_ t = orderId_ (deref h ps)
      ∧ trade_price_ t = price_ (deref h ps).
Proof.
  intros Hm t Ht. apply match_loop_trades in Hm. rewrite Forall_forall in Hm.
  destruct (Hm t Ht) as (pb & ps & ? & ? & ? & ? & _ & ?). by exists pb, ps.
Qed.

Lemma trades_execute_at_the_ask_witness :
  ∃ trades w' h' b',
    Book.matchOrders demo_world demo_heap demo_book = Some (trades, w', h', b')
    ∧ ∀ t, t ∈ trades ->
        ∃ pb ps, pb ∈ buyOrders_ demo_book ∧ ps ∈ sellOrders_ demo_book
          ∧ buyerOrderId_ t = orderId_ (deref demo_heap pb)
          ∧ sellerOrderId_ t = orderId_ (deref demo_heap ps)
          ∧ trade_price_ t = price_ (deref demo_heap ps).
Proof.
  destruct (Book.matchOrders demo_world demo_heap demo_book)
    as [[[[trades w'] h'] b'] |] eqn:Hm; [| vm_compute in Hm; discriminate].
  exists trades, w', h', b'. split; [reflexivity |].
  exact (trades_execute_at_the_ask _ _ _ _ _ _ _ Hm).
Defined.

(** ** C3 *)

(** C3, counterexample: a buy order for 100 rests at 105 and a MARKET sell
    order for 150 arrives.  100 are traded; the remaining 50 of the MARKET
    order are not cancelled: the order stays in the ask queue with status
    PARTIALLY_FILLED. *)
Lemma market_sell_remainder_rests :
  ∃ p s' b,
    run_market_sell = Some (Some p, s')
    ∧ class_ (deref (heap s') p) = MarketOrder
    ∧ orderBooks_ (engine s') !! "WIPRO" = Some b
    ∧ buyOrders_ b = [] ∧ sellOrders_ b = [p]
    ∧ getRemainingQuantity (deref (heap s') p) = 50
    ∧ status_ (deref (heap s') p) = PARTIALLY_FILLED.
Proof.
  eexists _, _, _. split; [vm_compute; reflexivity |].
  split; [reflexivity |]. split; [vm_compute; reflexivity |].
  split; [reflexivity |]. split; [reflexivity |]. split; reflexivity.
Qed.

(** C3, as amended: the order that [placeOrder] returns is a MARKET order
    exactly when the price given is not above 0, and a MARKET order is
    stored with price 0.  Nothing cancels what remains of an order: when
    [placeOrder] returns, after [addOrder] and [matchOrders], whatever
    remains of the order placed and of the orders that rested in its book,
    MARKET or not, rests in the queue of its side with status ACCEPTED or
    PARTIALLY_FILLED, and no order of the engine has become CANCELLED.
    How the cross check treats the price of a MARKET order is not part of
    this statement. *)
Theorem market_orders_rest_uncancelled (s : System) (userId : UserId)
    (ty : OrderType) (symbol : Symbol) (q : Quantity) (pr : Price)
    (p : ptr) (s' : System) :
  system_wf s ->
  Engine.placeOrder userId ty symbol q pr s = Some (Some p, s') ->
  let o := deref (heap s') p in
  (class_ o = MarketOrder ↔ ¬ (0 < pr)%Q)
  ∧ (class_ o = MarketOrder -> price_ o = 0%Q)
  ∧ (getRemainingQuantity o ≠ 0 ->
     live (status_ o)
     ∧ ∃ b, orderBooks_ (engine s') !! symbol = Some b ∧ p ∈ side b ty)
  ∧ (∀ b t x, orderBooks_ (engine s) !! symbol = Some b -> x ∈ side b t ->
       getRemainingQuantity (deref (heap s') x) ≠ 0 ->
       live (status_ (deref (heap s') x))
       ∧ ∃ b', orderBooks_ (engine s') !! symbol = Some b' ∧ x ∈ side b' t)
  ∧ (∀ x, status_ (deref (heap s') x) = CANCELLED ->
       status_ (deref (heap s) x) = CANCELLED).
Proof.
  intros Hwf Hp o. unfold o. clear o.
  apply placeOrder_accepted in Hp
    as (o & w2 & b0 & e1 & h2 & b1 & trades & w3 & h3 & b2 & -> & Hty & _ & _
        & Hst & Hfresh & Hcl & Hpr & Hget & Hadd & Hm & ->).
  cbn [heap engine].
  destruct (place_steps_wf _ _ _ _ _ _ _ _ Hwf Hget Hfresh Hadd)
    as (Hwf1 & _ & Hlen & Hold & _).
  destruct (matchOrders_effect _ _ _ _ _ _ _ Hwf1 Hm) as [Heff Hwf2].
  pose proof (match_loop_same_terms _ _ _ _ _ _ _ _ (length (heap s)) Hm)
    as (Hcl' & _ & _ & _ & _ & _ & Hpr' & _).
  apply addOrder_true in Hadd as (p' & [= <-] & _ & _ & _ & _ & Hh2 & Hb1).
  rewrite deref_alloc_new in Hh2, Hb1.
  assert (Hp2 : deref h2 (length (heap s)) = assign_status o ACCEPTED).
  { rewrite Hh2, deref_store_eq; [done |]. rewrite length_app. simpl. lia. }
  rewrite Hp2 in Hcl', Hpr'. simpl in Hcl', Hpr'.
  assert (Hin : length (heap s) ∈ side b1 ty).
  { rewrite Hb1, Hty, side_with_side_eq. apply elem_of_multiset_insert. by left. }
  assert (Hrests : ∀ t x, x ∈ side b1 t ->
            getRemainingQuantity (deref h3 x) ≠ 0 ->
            live (status_ (deref h3 x))
            ∧ ∃ b', orderBooks_
                      (Engine.put_book symbol b2
                         (Engine.put_order (orderId_ o) (length (heap s)) e1))
                    !! symbol = Some b' ∧ x ∈ side b' t).
  { intros t x Hx Hrem.
    destruct (effect_erased _ _ _ _ Heff _ _ Hx) as [Hrest | [Hz _]]; [| done].
    split; [apply (side_resting _ _ _ _ Hwf2 Hrest) |].
    exists b2. split; [| done]. simpl. by rewrite lookup_insert_eq. }
  rewrite Hcl', Hpr', Hcl, Hpr.
  split_and!.
  - destruct (Qltb 0 pr) eqn:Hlt;
      [apply Qltb_lt in Hlt | apply Qltb_nlt in Hlt]; split; done.
  - by destruct (Qltb 0 pr).
  - by apply Hrests.
  - intros b t x Hb Hx. apply Hrests.
    destruct (getOrCreateOrderBook_spec _ _ _ _ Hget)
      as (_ & _ & _ & _ & [[Hb0 _] | [Hnone _]]); [| congruence].
    rewrite Hb in Hb0. injection Hb0 as ->.
    rewrite Hb1, Hty. destruct (decide (ty = t)) as [<- | Hne].
    + rewrite side_with_side_eq. apply elem_of_multiset_insert. by right.
    + by rewrite side_with_side_ne.
  - intros x Hc.
    destruct (decide (x ∈ side b1 BUY)) as [Hb | Hnb].
    { destruct (effect_erased _ _ _ _ Heff _ _ Hb) as [Hrest | [_ Hf]]; [| congruence].
      destruct (resting_live _ _ _ _ (side_resting _ _ _ _ Hwf2 Hrest)); congruence. }
    destruct (decide (x ∈ side b1 SELL)) as [Hs | Hns].
    { destruct (effect_erased _ _ _ _ Heff _ _ Hs) as [Hrest | [_ Hf]]; [| congruence].
      destruct (resting_live _ _ _ _ (side_resting _ _ _ _ Hwf2 Hrest)); congruence. }
    rewrite (effect_frame _ _ _ _ Heff) in Hc by done.
    destruct (decide (x = length (heap s))) as [-> | Hne].
    { by destruct ty. }
    rewrite Hh2, deref_store_ne in Hc by done.
    destruct (decide (x < length (heap s))%nat) as [Hx | Hx].
    + by rewrite deref_alloc_old in Hc.
    + rewrite deref_out_of_range in Hc; [done |]. rewrite length_app. simpl. lia.
Qed.

Lemma market_orders_rest_uncancelled_witness :
  system_wf demo_system_one_bid
  ∧ ∃ p s' b,
      run_market_sell = Some (Some p, s')
      ∧ price_ (deref (heap s') p) = 0%Q
      ∧ live (status_ (deref (heap s') p))
      ∧ orderBooks_ (engine s') !! "WIPRO" = Some b ∧ p ∈ side b SELL.
Proof.
  assert (Hwf : system_wf demo_system_one_bid)
    by (apply system_wfb_sound; vm_compute; reflexivity).
  split; [exact Hwf |].
  destruct run_market_sell as [[[p |] s'] |] eqn:Hrun;
    [| vm_compute in Hrun; discriminate | vm_compute in Hrun; discriminate].
  destruct (market_orders_rest_uncancelled demo_system_one_bid "U2" SELL "WIPRO"
              150 0%Q p s' Hwf Hrun) as (Hclass & Hprice & Hrest & _).
  assert (Hcl : class_ (deref (heap s') p) = MarketOrder).
  { apply Hclass. vm_compute. discriminate. }
  assert (Hrem : getRemainingQuantity (deref (heap s') p) ≠ 0).
  { vm_compute in Hrun. injection Hrun as <- <-. vm_compute. discriminate. }
  destruct (Hrest Hrem) as (Hlive & b & Hb & Hin).
  exists p, s', b. split; [reflexivity |]. split; [exact (Hprice Hcl) |].
  split; [exact Hlive |]. split; [exact Hb | exact Hin].
Defined.

(** The cross check of the loop compares the prices as they are stored.  A
    sell order rests at 50 and a MARKET buy order (stored with price 0)
    arrives: no trade is executed, and the whole MARKET order stays in the
    bid queue with status ACCEPTED.  [Order.h] says of market orders that
    they execute at market price; C3 as amended leaves the cross check
    out. *)
Lemma market_buy_rests_unmatched :
  ∃ p s' b ask,
    run_market_buy = Some (Some p, s')
    ∧ class_ (deref (heap s') p) = MarketOrder
    ∧ orderBooks_ (engine s') !! "WIPRO" = Some b
    ∧ sellOrders_ b = [ask] ∧ buyOrders_ b = [p]
    ∧ (∀ i t, onTradeExecuted i t ∉ callbacks s')
    ∧ getRemainingQuantity (deref (heap s') p) = 100
    ∧ status_ (deref (heap s') p) = ACCEPTED.
Proof.
  eexists _, _, _, _. split; [vm_compute; reflexivity |].
  split; [reflexivity |]. split; [vm_compute; reflexivity |].
  split; [reflexivity |]. split; [reflexivity |].
  split; [| split; reflexivity].
  intros i t Hin. vm_compute in Hin.
  repeat (apply elem_of_cons in Hin as [Hin | Hin]; [discriminate |]).
  by apply elem_of_nil in Hin.
Qed.

(** ** C4 *)

(** C4, counterexample: two bids at 100 and 100 + 2^-31 (less than 1e-9
    apart, so the earlier one, at 100, is the best bid) and an ask at
    100 + 2^-32 do not cross; cancelling the best bid leaves the bid at
    100 + 2^-31 above the ask, and [cancelOrder] does not run the matching
    loop. *)
Lemma cancel_leaves_residual_cross :
  ∃ s' b,
    run_cancel_best_bid = Some (true, s')
    ∧ orderBooks_ (engine s') !! "WIPRO" = Some b
    ∧ buyOrders_ b ≠ [] ∧ sellOrders_ b ≠ []
    ∧ ¬ (Book.getBestBid (heap s') b < Book.getBestAsk (heap s') b)%Q.
Proof.
  eexists _, _. split; [vm_compute; reflexivity |].
  split; [vm_compute; reflexivity |].
  split; [discriminate |]. split; [discriminate |].
  vm_compute. discriminate.
Qed.

(** C4, as amended: [placeOrder] and [modifyOrder] return on every
    well-formed system; when they succeed, the book of the order's symbol
    has no residual cross afterwards, and a book that had no residual
    cross before the call has none after it.  [cancelOrder] does not run
    the matching loop: a book whose queues are sorted by their comparators,
    with prices that are pairwise equal or more than 1e-9 apart within
    each queue, and that had no residual cross before a [cancelOrder] has
    none after it. *)
Theorem engine_operations_leave_no_residual_cross (s : System) :
  system_wf s ->
  (∀ userId ty symbol q pr,
     ∃ r s', Engine.placeOrder userId ty symbol q pr s = Some (r, s')
       ∧ (is_Some r -> uncrossed_at s' symbol)
       ∧ ∀ symbol', uncrossed_at s symbol' -> uncrossed_at s' symbol')
  ∧ (∀ userId orderId q pr,
       ∃ ok s', Engine.modifyOrder userId orderId q pr s = Some (ok, s')
         ∧ (ok = true ->
            ∃ order, allOrders_ (engine s) !! orderId = Some order
              ∧ uncrossed_at s' (symbol_ (deref (heap s) order)))
         ∧ ∀ symbol', uncrossed_at s symbol' -> uncrossed_at s' symbol')
  ∧ (∀ userId orderId ok s',
       Engine.cancelOrder userId orderId s = (ok, s') ->
       ∀ symbol',
         (∀ b, orderBooks_ (engine s) !! symbol' = Some b ->
               book_sorted (heap s) b ∧ book_separated (heap s) b) ->
         uncrossed_at s symbol' -> uncrossed_at s' symbol').
Proof.
  intros Hwf. split_and!.
  - intros userId ty symbol q pr.
    destruct (placeOrder_returns userId ty symbol q pr s Hwf) as [[r s'] Hp].
    exists r, s'. split; [done |].
    destruct r as [p |].
    + apply placeOrder_accepted in Hp
        as (o & w2 & b0 & e1 & h2 & b1 & trades & w3 & h3 & b2 & -> & _ & _ & _
            & _ & Hfresh & _ & _ & Hget & Hadd & Hmatch & ->).
      destruct (place_steps_wf _ _ _ _ _ _ _ _ Hwf Hget Hfresh Hadd)
        as (Hwf1 & Hsym1 & Hlen & Hold & Hbooks).
      assert (Htouched : uncrossed_at
                (mkSystem w3 h3
                   (Engine.put_book symbol b2 (Engine.put_order (orderId_ o) (length (heap s)) e1))
                   (callbacks s
                      ++ Engine.orderStatusChanged_calls (observers_ (engine s)) h2 (length (heap s))
                      ++ flat_map (Engine.tradeExecuted_calls (observers_ (engine s))) trades))
                symbol).
      { intros b. simpl. rewrite lookup_insert_eq. intros [= <-].
        eapply match_iteration_None_uncrossed, matchOrders_ends, Hmatch. }
      split; [done |]. intros symbol' Hun.
      destruct (decide (symbol' = symbol)) as [-> | Hne]; [done |].
      intros b. simpl. rewrite lookup_insert_ne by done. intros Hb.
      destruct (getOrCreateOrderBook_spec _ _ _ _ Hget)
        as (_ & _ & _ & _ & [[_ ->] | (_ & _ & Hbooks1)]);
        [| rewrite Hbooks1, lookup_insert_ne in Hb by done].
      all: destruct (Hwf _ _ Hb) as [_ Hwfb];
        apply (no_residual_cross_frame (heap s)); [| by apply Hun];
        intros x Hx; rewrite (matchOrders_price _ _ _ _ _ _ _ x Hmatch);
        f_equal; apply Hold, (book_wf_queued_valid _ _ _ Hwfb Hx).
    + split; [by intros [? ?] |]. intros symbol' Hun.
      revert Hp. unfold Engine.placeOrder.
      destruct (Engine.getUser userId s); [| by intros [= <-]].
      destruct (generateUUID (world s)) as [orderId w1].
      destruct (Qltb pr 0); [by intros [= <-] |].
      destruct (if Qltb 0 pr then _ else _) as [o w2] eqn:Hnew.
      destruct (negb (isValid o)); [by intros [= <-] |].
      destruct (Engine.getOrCreateOrderBook symbol (engine s)) as [b0 e1] eqn:Hget.
      cbv beta iota zeta delta [alloc]. rewrite deref_alloc_new.
      destruct (Book.addOrder _ _ _) as [[[] h2] b1] eqn:Hadd.
      { unfold Engine.notifyOrderStatusChanged; cbn [world heap engine callbacks].
        by destruct (Book.matchOrders _ _ _) as [[[[trades w3] h3] b2] |]. }
      intros [= <-]. apply addOrder_false in Hadd as [-> ->].
      destruct (getOrCreateOrderBook_spec _ _ _ _ Hget) as (Hb0 & _ & _ & _ & Hcase).
      intros b. simpl. rewrite insert_id by done. intros Hb.
      destruct Hcase as [[_ ->] | (_ & -> & Hbooks1)].
      * destruct (Hwf _ _ Hb) as [_ Hwfb].
        apply (no_residual_cross_frame (heap s)); [| by apply Hun].
        intros x Hx. f_equal. apply deref_alloc_old, (book_wf_queued_valid _ _ _ Hwfb Hx).
      * rewrite Hbooks1 in Hb.
        destruct (decide (symbol = symbol')) as [<- | Hne].
        { rewrite lookup_insert_eq in Hb. injection Hb as <-.
          apply no_residual_cross_create. }
        rewrite lookup_insert_ne in Hb by done.
        destruct (Hwf _ _ Hb) as [_ Hwfb].
        apply (no_residual_cross_frame (heap s)); [| by apply Hun].
        intros x Hx. f_equal. apply deref_alloc_old, (book_wf_queued_valid _ _ _ Hwfb Hx).
  - intros userId orderId q pr.
    destruct (engine_modifyOrder_returns userId orderId q pr s Hwf) as [[ok s'] Hm].
    exists ok, s'. split; [done |]. destruct ok.
    + apply engine_modifyOrder_true in Hm
        as (order & b & h1 & b1 & trades & w2 & h2 & b2 & Hord & Hb & Hm & Hmatch & ->).
      destruct (modify_steps_wf _ _ _ _ _ _ _ _ Hwf Hb Hm)
        as (Hwf1 & Hsym1 & Hlen & Hold & Hbooks).
      set (symbol := symbol_ (deref (heap s) order)) in *.
      assert (Htouched : ∀ cb e, uncrossed_at
                (mkSystem w2 h2 (Engine.put_book symbol b2 e) cb) symbol).
      { intros cb e b'. simpl. rewrite lookup_insert_eq. intros [= <-].
        eapply match_iteration_None_uncrossed, matchOrders_ends, Hmatch. }
      split; [intros _; exists order; by split |].
      intros symbol' Hun.
      destruct (decide (symbol' = symbol)) as [-> | Hne]; [by apply Htouched |].
      intros b'. simpl. rewrite lookup_insert_ne by done. intros Hb'.
      destruct (Hwf _ _ Hb') as [_ Hwfb].
      apply (no_residual_cross_frame (heap s)); [| by apply Hun].
      intros x Hx. rewrite (matchOrders_price _ _ _ _ _ _ _ x Hmatch).
      f_equal. apply Hold, (book_wf_queued_valid _ _ _ Hwfb Hx).
    + apply engine_modifyOrder_false in Hm as ->. by split.
  - intros userId orderId ok s' Hc symbol' Htidy Hun.
    destruct ok; [| by apply engine_cancelOrder_false in Hc as ->].
    apply engine_cancelOrder_true in Hc
      as (order & symbol & b & h' & b' & _ & Hb & Hc & ->).
    intros b0. simpl. destruct (decide (symbol' = symbol)) as [-> | Hne].
    + rewrite lookup_insert_eq. intros [= <-].
      destruct (Htidy _ Hb) as [Hsorted Hsep].
      by apply (cancelOrder_uncrossed _ _ _ _ _ _ Hsorted Hsep (Hun _ Hb) Hc).
    + rewrite lookup_insert_ne by done. intros Hb0.
      apply cancelOrder_true in Hc as (p & l' & _ & _ & _ & -> & _).
      apply (no_residual_cross_frame (heap s)); [| by apply Hun].
      intros x _. apply price_store_status.
Qed.

Lemma engine_operations_leave_no_residual_cross_witness :
  system_wf demo_crossed_system
  ∧ (∃ p s',
       Engine.placeOrder "U2" SELL "WIPRO" 10 (200 # 1) demo_crossed_system
       = Some (Some p, s')
       ∧ uncrossed_at s' "WIPRO")
  ∧ system_wf demo_system_spread
  ∧ ∃ s' b,
      Engine.cancelOrder "U1" "o0" demo_system_spread = (true, s')
      ∧ orderBooks_ (engine s') !! "WIPRO" = Some b
      ∧ buyOrders_ b ≠ [] ∧ sellOrders_ b ≠ []
      ∧ no_residual_cross (heap s') b.
Proof.
  assert (Hwf : system_wf demo_crossed_system)
    by (apply system_wfb_sound; vm_compute; reflexivity).
  split; [exact Hwf |]. split.
  { destruct (engine_operations_leave_no_residual_cross demo_crossed_system Hwf)
      as [Hplace _].
    destruct (Hplace "U2" SELL "WIPRO" 10 (200 # 1)) as (r & s' & Hp & Htouched & _).
    destruct r as [p |]; [| vm_compute in Hp; discriminate].
    exists p, s'. split; [exact Hp | apply Htouched; by eexists]. }
  assert (Hwf2 : system_wf demo_system_spread)
    by (apply system_wfb_sound; vm_compute; reflexivity).
  split; [exact Hwf2 |].
  destruct (Engine.cancelOrder "U1" "o0" demo_system_spread) as [ok s'] eqn:Hc.
  destruct (orderBooks_ (engine s') !! "WIPRO") as [b |] eqn:Hb;
    [| vm_compute in Hc; injection Hc as _ <-; vm_compute in Hb; discriminate].
  assert (Hok : ok = true) by (vm_compute in Hc; by injection Hc as <- _).
  subst ok. exists s', b. split; [reflexivity |]. split; [exact Hb |].
  split; [vm_compute in Hc; injection Hc as <-; vm_compute in Hb;
          injection Hb as <-; discriminate |].
  split; [vm_compute in Hc; injection Hc as <-; vm_compute in Hb;
          injection Hb as <-; discriminate |].
  destruct (engine_operations_leave_no_residual_cross demo_system_spread Hwf2)
    as (_ & _ & Hcancel).
  apply (Hcancel "U1" "o0" true s' Hc "WIPRO"); [| | exact Hb].
  - intros b0 Hb0. vm_compute in Hb0. injection Hb0 as <-. split.
    + apply book_sortedb_sound. vm_compute. reflexivity.
    + apply book_separatedb_sound. vm_compute. reflexivity.
  - intros b0 Hb0. vm_compute in Hb0. injection Hb0 as <-.
    intros _ _. vm_compute. reflexivity.
Defined.

(** ** C5 *)

(** C5, counterexample: an order is placed and cancelled.  Both queues of
    its book are empty afterwards, but the id index still holds the
    order, whose status is CANCELLED. *)
Lemma cancelled_order_stays_indexed :
  ∃ s' b,
    run_place_cancel = Some (true, s')
    ∧ orderBooks_ (engine s') !! "TCS" = Some b
    ∧ buyOrders_ b = [] ∧ sellOrders_ b = []
    ∧ orderLookup_ b !! "o0" = Some 0%nat
    ∧ terminal (status_ (deref (heap s') 0)) = true
    ∧ ¬ index_matches_queues (heap s') b.
Proof.
  eexists _, _. split; [vm_compute; reflexivity |].
  split; [vm_compute; reflexivity |].
  split; [reflexivity |]. split; [reflexivity |].
  split; [vm_compute; reflexivity |]. split; [reflexivity |].
  intros Hbij. specialize (Hbij "o0" 0%nat).
  destruct Hbij as [Hbij _].
  destruct Hbij as [Hin _]; [vm_compute; reflexivity |].
  simpl in Hin. by apply elem_of_nil in Hin.
Qed.

(** C5, as amended: every operation of a book keeps the book well-formed
    ([book_wf]): each queued order is on the side of its type, is live
    (ACCEPTED or PARTIALLY_FILLED, with something remaining) and is the
    entry of the id index for its id, neither queue holds an order twice,
    and each entry of the id index is either queued on its side or has a
    terminal status.  The id index never shrinks: a successful
    [cancelOrder] erases the order from its side queue and sets its status
    to CANCELLED but leaves it in the id index, and [matchOrders] (which
    returns on every well-formed book) erases filled orders from their
    queues only. *)
Theorem book_invariant_preserved (h : Heap) (b : OrderBook) :
  book_wf h b ->
  (∀ p ok h' b',
     filledQuantity_ (deref h p) = 0 ->
     Book.addOrder (Some p) h b = (ok, h', b') -> book_wf h' b')
  ∧ (∀ orderId ok h' b',
       Book.cancelOrder orderId h b = (ok, h', b') ->
       book_wf h' b'
       ∧ (ok = true ->
          ∃ p, orderLookup_ b !! orderId = Some p
            ∧ (p ∉ buyOrders_ b') ∧ (p ∉ sellOrders_ b')
            ∧ status_ (deref h' p) = CANCELLED
            ∧ orderLookup_ b' = orderLookup_ b))
  ∧ (∀ orderId q pr ok h' b',
       Book.modifyOrder orderId q pr h b = (ok, h', b') -> book_wf h' b')
  ∧ (∀ w, ∃ trades w' h' b',
       Book.matchOrders w h b = Some (trades, w', h', b')
       ∧ book_wf h' b' ∧ orderLookup_ b' = orderLookup_ b).
Proof.
  intros Hwf. split_and!.
  - intros p ok h' b' Hfresh Hadd. by eapply addOrder_wf.
  - intros orderId ok h' b' Hc.
    pose proof (cancelOrder_wf _ _ _ _ _ _ Hwf Hc) as Hwf'.
    split; [done |]. intros ->.
    destruct (cancelOrder_changes _ _ _ _ _ Hc) as (p & Hlk & _ & Hh' & _ & Hidx).
    destruct (wf_lookup _ _ Hwf _ _ Hlk) as [Hv _ _ _].
    assert (Hst : status_ (deref h' p) = CANCELLED)
      by (rewrite Hh', deref_store_eq by done; done).
    assert (Hout : ∀ t, p ∉ side b' t).
    { intros t Hin.
      destruct (resting_live _ _ _ _ (side_resting _ _ _ _ Hwf' Hin)); congruence. }
    exists p. split_and!; [done | apply (Hout BUY) | apply (Hout SELL) | done | done].
  - intros orderId q pr ok h' b' Hm. by eapply modifyOrder_wf.
  - intros w.
    destruct (matchOrders_returns w h b Hwf) as [[[[trades w'] h'] b'] Hm].
    exists trades, w', h', b'.
    destruct (matchOrders_effect _ _ _ _ _ _ _ Hwf Hm) as [[_ Hidx _ _ _ _ _] Hwf'].
    done.
Qed.

Lemma book_invariant_preserved_witness :
  book_wf demo_heap demo_book
  ∧ ∃ h' b',
      Book.cancelOrder "s1" demo_heap demo_book = (true, h', b')
      ∧ book_wf h' b'
      ∧ ∃ p, orderLookup_ demo_book !! "s1" = Some p
          ∧ (p ∉ buyOrders_ b') ∧ (p ∉ sellOrders_ b')
          ∧ status_ (deref h' p) = CANCELLED
          ∧ orderLookup_ b' = orderLookup_ demo_book.
Proof.
  assert (Hwf : book_wf demo_heap demo_book)
    by (apply book_wfb_sound; vm_compute; reflexivity).
  split; [exact Hwf |].
  destruct (Book.cancelOrder "s1" demo_heap demo_book) as [[ok h'] b'] eqn:Hc.
  assert (ok = true) as ->.
  { pose proof Hc as Hc'. vm_compute in Hc'. by injection Hc' as <- _ _. }
  exists h', b'. split; [reflexivity |].
  destruct (book_invariant_preserved demo_heap demo_book Hwf)
    as (_ & Hcancel & _ & _).
  destruct (Hcancel "s1" true h' b' Hc) as [Hwf' Hfacts].
  split; [exact Hwf' | exact (Hfacts eq_refl)].
Defined.

(** ** C6 *)

(** C6, counterexample: two bids rest at the same price and the earlier
    one is modified.  The new object keeps the arrival time of the old
    one, and with it its place in front of the later bid; with the arrival
    time refreshed from the clock it would go behind. *)
Lemma modify_keeps_time_priority :
  let s := demo_system_two_bids in
  let now := (getCurrentTimestamp (world s)).1 in
  ∃ b h' b',
    orderBooks_ (engine s) !! "WIPRO" = Some b
    ∧ buyOrders_ b = [0%nat; 1%nat]
    ∧ Book.modifyOrder "o0" 150 (100 # 1) (heap s) b = (true, h', b')
    ∧ buyOrders_ b' = [2%nat; 1%nat]
    ∧ timestamp_ (deref h' 2) = timestamp_ (deref (heap s) 0)
    ∧ timestamp_ (deref h' 2) < timestamp_ (deref h' 1) < now
    ∧ buyOrders_
        (remove_and_insert 0 (replacement (deref (heap s) 0) 150 (100 # 1) now)
           (heap s) b).2
      = [1%nat; 2%nat]
    ∧ (h', b')
      ≠ remove_and_insert 0 (replacement (deref (heap s) 0) 150 (100 # 1) now)
          (heap s) b.
Proof.
  eexists _, _, _. split; [vm_compute; reflexivity |].
  split; [reflexivity |]. split; [vm_compute; reflexivity |].
  split; [reflexivity |]. split; [reflexivity |].
  split; [split; reflexivity |]. split; [vm_compute; reflexivity |].
  intros Heq. apply (f_equal (fun r => buyOrders_ r.2)) in Heq.
  vm_compute in Heq. discriminate.
Qed.

(** C6, as amended: on a well-formed book and for a new price that is a
    number, [modifyOrder] of an indexed order succeeds exactly when the
    order can be modified (status PENDING or ACCEPTED), is a limit order,
    the new quantity lies between 1 and [MAX_ORDER_QUANTITY], and the new
    price is neither below [MIN_ORDER_PRICE] nor above [MAX_ORDER_PRICE]
    (the two tests of [setPrice]); it fails, and leaves the heap and the
    book as they are, in every other case and when the id is not indexed.
    When it succeeds it removes the order from its side and inserts a new
    object with the same order id, the new quantity and price, status
    ACCEPTED and the arrival time of the old object: the arrival time is
    not refreshed, so the order keeps its time priority among the orders
    of its new price. *)
Theorem modifyOrder_is_remove_and_insert (h : Heap) (b : OrderBook)
    (orderId : OrderId) (newQuantity : Quantity) (newPrice : Price) :
  book_wf h b ->
  (orderLookup_ b !! orderId = None ->
   Book.modifyOrder orderId newQuantity newPrice h b = (false, h, b))
  ∧ ∀ p, orderLookup_ b !! orderId = Some p ->
      (modifiable (deref h p) newQuantity newPrice ->
       Book.modifyOrder orderId newQuantity newPrice h b
       = (true,
          (remove_and_insert p
             (replacement (deref h p) newQuantity newPrice
                (timestamp_ (deref h p))) h b).1,
          (remove_and_insert p
             (replacement (deref h p) newQuantity newPrice
                (timestamp_ (deref h p))) h b).2))
      ∧ (¬ modifiable (deref h p) newQuantity newPrice ->
         Book.modifyOrder orderId newQuantity newPrice h b = (false, h, b)).
Proof.
  intros Hwf. split.
  - intros Hnone. unfold Book.modifyOrder. by rewrite Hnone.
  - intros p Hlk. split.
    + intros (Hcan & Hcl & Hq & Hp1%Qnot_lt_le & Hp2%Qnot_lt_le).
      destruct (indexed_live_resting _ _ _ _ Hwf Hlk (canModify_not_terminal _ Hcan))
        as [Hrp Hid].
      destruct (erase_resting_exists h b (orderType_ (deref h p)) orderId p Hwf Hlk)
        as [l' Her]; [by destruct (wf_lookup _ _ Hwf _ _ Hlk) as [_ _ _ [Ht | ?]];
                      [rewrite (canModify_not_terminal _ Hcan) in Ht |] |].
      unfold Book.modifyOrder, remove_and_insert. rewrite Hlk, Hcan. simpl.
      unfold clone. rewrite (setQuantity_ok _ _ Hcan Hq). simpl.
      rewrite setPrice_ok by done. simpl.
      rewrite store_alloc, !deref_alloc_new, Hid. simpl.
      destruct (orderType_ (deref h p)) eqn:Hty; simpl in *;
        rewrite Her; simpl; by rewrite insert_delete_eq.
    + intros Hnot.
      destruct (Book.modifyOrder orderId newQuantity newPrice h b)
        as [[[] h'] b'] eqn:Hm.
      * exfalso. apply Hnot.
        apply modifyOrder_true in Hm
          as (p' & l' & Hlk' & Hcan & Hcl & Hq & Hp1 & Hp2 & _).
        rewrite Hlk in Hlk'. injection Hlk' as <-.
        unfold modifiable. split_and!; try done; try lia; by apply Qle_not_lt.
      * by apply modifyOrder_false in Hm as [-> ->].
Qed.

Lemma modifyOrder_is_remove_and_insert_witness :
  let s := demo_system_two_bids in
  ∃ b,
    orderBooks_ (engine s) !! "WIPRO" = Some b
    ∧ book_wf (heap s) b
    ∧ orderLookup_ b !! "o0" = Some 0%nat
    ∧ modifiable (deref (heap s) 0) 150 (100 # 1)
    ∧ Book.modifyOrder "o0" 150 (100 # 1) (heap s) b
      = (true,
         (remove_and_insert 0
            (replacement (deref (heap s) 0) 150 (100 # 1)
               (timestamp_ (deref (heap s) 0))) (heap s) b).1,
         (remove_and_insert 0
            (replacement (deref (heap s) 0) 150 (100 # 1)
               (timestamp_ (deref (heap s) 0))) (heap s) b).2)
    ∧ Book.modifyOrder "o0" 150 (2000000 # 1) (heap s) b = (false, heap s, b)
    ∧ Book.modifyOrder "o7" 150 (100 # 1) (heap s) b = (false, heap s, b).
Proof.
  intros s.
  destruct (orderBooks_ (engine s) !! "WIPRO") as [b |] eqn:Hb;
    [| vm_compute in Hb; discriminate].
  exists b.
  assert (Hwf : book_wf (heap s) b).
  { apply book_wfb_sound. vm_compute in Hb. injection Hb as <-.
    vm_compute. reflexivity. }
  assert (Hlk : orderLookup_ b !! "o0" = Some 0%nat).
  { vm_compute in Hb. injection Hb as <-. vm_compute. reflexivity. }
  assert (Hnone : orderLookup_ b !! "o7" = None).
  { vm_compute in Hb. injection Hb as <-. vm_compute. reflexivity. }
  assert (Hmod : modifiable (deref (heap s) 0) 150 (100 # 1)).
  { unfold modifiable. split_and!; try reflexivity; vm_compute; discriminate. }
  assert (Hnot : ¬ modifiable (deref (heap s) 0) 150 (2000000 # 1)).
  { intros (_ & _ & _ & _ & Hmax). apply Hmax. vm_compute. reflexivity. }
  split; [reflexivity |]. split; [exact Hwf |]. split; [exact Hlk |].
  split; [exact Hmod |].
  split; [| split].
  - destruct (modifyOrder_is_remove_and_insert (heap s) b "o0" 150 (100 # 1) Hwf)
      as [_ Hsome].
    exact (proj1 (Hsome 0%nat Hlk) Hmod).
  - destruct (modifyOrder_is_remove_and_insert (heap s) b "o0" 150 (2000000 # 1)
                Hwf) as [_ Hsome].
    exact (proj2 (Hsome 0%nat Hlk) Hnot).
  - destruct (modifyOrder_is_remove_and_insert (heap s) b "o7" 150 (100 # 1) Hwf)
      as [Hunknown _].
    exact (Hunknown Hnone).
Defined.

(** ** C7 *)

(** C7, counterexample: [setStatus] overwrites a terminal status, [fill]
    changes the status of a cancelled order that has something remaining,
    and [fill] with a negative quantity decreases the filled quantity. *)
Lemma terminal_status_overwritten :
  let o := mkOrder LimitOrder "o1" "U1" BUY "WIPRO" 100 (500 # 1) 1
                   CANCELLED GTC 40 in
  terminal (status_ o) = true
  ∧ status_ (setStatus o ACCEPTED).2 = ACCEPTED
  ∧ status_ (fill o 10) = PARTIALLY_FILLED
  ∧ filledQuantity_ (fill o (-10)) < filledQuantity_ o.
Proof. vm_compute. by repeat split. Qed.

(** C7, as amended: over any sequence of operations of the engine
    (registrations, [placeOrder], [cancelOrder], [modifyOrder]) that starts
    in a well-formed system, an order object that has reached a terminal
    status is never changed again, and the filled quantity of no order
    object decreases. *)
Theorem terminal_orders_are_final (s s' : System) :
  system_wf s -> rtc engine_step s s' ->
  system_wf s'
  ∧ ∀ p,
      (terminal (status_ (deref (heap s) p)) = true ->
       deref (heap s') p = deref (heap s) p)
      ∧ filledQuantity_ (deref (heap s) p)
        <= filledQuantity_ (deref (heap s') p).
Proof.
  intros Hwf Hsteps.
  induction Hsteps as [s | s s1 s' Hstep Hsteps IH]; [split; [done |] |].
  - apply heap_progress_refl.
  - pose proof (engine_step_wf _ _ Hwf Hstep) as Hwf1.
    destruct (IH Hwf1) as [Hwf' Hprog]. split; [done |].
    eapply heap_progress_trans; [by apply engine_step_progress | done].
Qed.

Lemma terminal_orders_are_final_witness :
  ∃ s',
    system_wf demo_system_filled
    ∧ rtc engine_step demo_system_filled s'
    ∧ terminal (status_ (deref (heap demo_system_filled) 0)) = true
    ∧ deref (heap s') 0 = deref (heap demo_system_filled) 0.
Proof.
  assert (Hwf : system_wf demo_system_filled)
    by (apply system_wfb_sound; vm_compute; reflexivity).
  destruct (Engine.placeOrder "U1" SELL "WIPRO" 10 (90 # 1) demo_system_filled)
    as [[r s1] |] eqn:H1; [| vm_compute in H1; discriminate].
  destruct (Engine.cancelOrder "U1" "o3" s1) as [ok s2] eqn:H2.
  exists s2.
  assert (Hsteps : rtc engine_step demo_system_filled s2).
  { eapply rtc_l; [eapply step_placeOrder, H1 |].
    eapply rtc_l; [eapply step_cancelOrder, H2 |]. apply rtc_refl. }
  split; [exact Hwf |]. split; [exact Hsteps |]. split; [reflexivity |].
  destruct (terminal_orders_are_final _ _ Hwf Hsteps) as [_ Hfinal].
  apply (Hfinal 0%nat). reflexivity.
Defined.

(** ** C8 *)

(** C8, counterexample: with the prices 1, 1 + 2^-30 and 1 + 2^-29 and
    three distinct timestamps, each comparator orders the first before the
    second and the second before the third, but not the first before the
    third: neither is transitive. *)
Lemma comparators_not_transitive :
  let b1 := chain_order "x" BUY (1 # 1) 1 in
  let b2 := chain_order "y" BUY (1073741825 # 1073741824) 2 in
  let b3 := chain_order "z" BUY (536870913 # 536870912) 3 in
  (BuyOrderComparator b1 b2 = true ∧ BuyOrderComparator b2 b3 = true
   ∧ BuyOrderComparator b1 b3 = false)
  ∧ let a1 := chain_order "x" SELL (536870913 # 536870912) 1 in
    let a2 := chain_order "y" SELL (1073741825 # 1073741824) 2 in
    let a3 := chain_order "z" SELL (1 # 1) 3 in
    SellOrderComparator a1 a2 = true ∧ SellOrderComparator a2 a3 = true
    ∧ SellOrderComparator a1 a3 = false.
Proof. vm_compute. by repeat split. Qed.

(** C8, as amended: each comparator is irreflexive and asymmetric, and it
    orders any two orders with distinct timestamps one way or the other
    (so no two such orders are incomparable); it is transitive on orders
    whose prices are pairwise equal or more than [1e-9] apart.  It is not
    transitive in general. *)
Theorem comparators_strict_on_separated_prices (t : OrderType) :
  (∀ x, comparator t x x = false)
  ∧ (∀ x y, comparator t x y = true -> comparator t y x = false)
  ∧ (∀ x y, timestamp_ x ≠ timestamp_ y ->
       comparator t x y = true ∨ comparator t y x = true)
  ∧ (∀ x y z,
       price_separated x y -> price_separated y z -> price_separated x z ->
       comparator t x y = true -> comparator t y z = true ->
       comparator t x z = true).
Proof.
  split_and!.
  - intros x. rewrite comparator_unfold, price_far_irrefl. apply Z.ltb_irrefl.
  - intros x y. rewrite !comparator_unfold, (price_far_sym y x).
    destruct (price_far x y).
    + destruct t; rewrite Qltb_lt, Qltb_nlt; intros ? ?; lra.
    + rewrite Z.ltb_lt, Z.ltb_ge. lia.
  - intros x y Hne. rewrite !comparator_unfold, (price_far_sym y x).
    destruct (price_far x y) eqn:Hfar.
    + pose proof (price_far_neq _ _ Hfar) as Hneq.
      destruct (Q_dec (price_ x) (price_ y)) as [[Hlt | Hgt] | Heq]; [| | done];
        destruct t; rewrite !Qltb_lt; auto.
    + rewrite !Z.ltb_lt. lia.
  - intros x y z Hxy Hyz Hxz. rewrite !comparator_unfold.
    assert (Hnear : ∀ a b, price_separated a b -> price_far a b = false ->
              (price_ a == price_ b)%Q).
    { intros a b [? | Hf] Hnf; [done | congruence]. }
    destruct (price_far x y) eqn:Fxy; destruct (price_far y z) eqn:Fyz.
    + (* both steps by price *)
      intros H1 H2.
      assert (Hfar : price_far x z = true).
      { destruct Hxz as [Heq | ?]; [| done]. exfalso.
        destruct t; apply Qltb_lt in H1, H2; rewrite Heq in H1; lra. }
      rewrite Hfar. destruct t; apply Qltb_lt; apply Qltb_lt in H1, H2; lra.
    + (* by price, then by time at one price *)
      intros H1 H2. pose proof (Hnear _ _ Hyz Fyz) as Heq2.
      assert (Hfar : price_far x z = true).
      { destruct Hxz as [Heq | ?]; [| done]. exfalso.
        destruct t; apply Qltb_lt in H1; rewrite Heq, Heq2 in H1; lra. }
      rewrite Hfar. destruct t; apply Qltb_lt; apply Qltb_lt in H1; lra.
    + intros H1 H2. pose proof (Hnear _ _ Hxy Fxy) as Heq1.
      assert (Hfar : price_far x z = true).
      { destruct Hxz as [Heq | ?]; [| done]. exfalso.
        destruct t; apply Qltb_lt in H2; rewrite <- Heq1, Heq in H2; lra. }
      rewrite Hfar. destruct t; apply Qltb_lt; apply Qltb_lt in H2; lra.
    + (* one price throughout *)
      intros H1 H2. pose proof (Hnear _ _ Hxy Fxy) as Heq1.
      pose proof (Hnear _ _ Hyz Fyz) as Heq2.
      rewrite price_far_eq by (by rewrite Heq1).
      apply Z.ltb_lt. apply Z.ltb_lt in H1, H2. lia.
Qed.

Lemma comparators_strict_on_separated_prices_witness :
  let b1 := chain_order "x" BUY (3 # 1) 1 in
  let b2 := chain_order "y" BUY (2 # 1) 3 in
  let b3 := chain_order "z" BUY (2 # 1) 5 in
  price_separated b1 b2 ∧ price_separated b2 b3 ∧ price_separated b1 b3
  ∧ comparator BUY b1 b2 = true ∧ comparator BUY b2 b3 = true
  ∧ comparator BUY b1 b3 = true.
Proof.
  intros b1 b2 b3.
  assert (H12 : price_separated b1 b2) by (right; reflexivity).
  assert (H23 : price_separated b2 b3) by (left; reflexivity).
  assert (H13 : price_separated b1 b3) by (right; reflexivity).
  split; [exact H12 |]. split; [exact H23 |]. split; [exact H13 |].
  split; [reflexivity |]. split; [reflexivity |].
  destruct (comparators_strict_on_separated_prices BUY) as (_ & _ & _ & Htrans).
  apply (Htrans b1 b2 b3 H12 H23 H13); reflexivity.
Defined.

(** ** C9 *)




(** ** C10 *)

(** C10: a fill larger than the remaining quantity changes nothing. *)
Theorem fill_too_large_noop (o : Order) (fillQuantity : Quantity) :
  getRemainingQuantity o < fillQuantity -> fill o fillQuantity = o.
Proof.
  intros Hgt. unfold fill.
  destruct (Z.leb_spec fillQuantity (getRemainingQuantity o)); [lia | reflexivity].
Qed.

Lemma fill_too_large_noop_witness :
  getRemainingQuantity
    (mkOrder LimitOrder "o1" "U1" BUY "WIPRO" 100 (500 # 1) 1
             PARTIALLY_FILLED GTC 60) < 41
  ∧ fill (mkOrder LimitOrder "o1" "U1" BUY "WIPRO" 100 (500 # 1) 1
                  PARTIALLY_FILLED GTC 60) 41
    = mkOrder LimitOrder "o1" "U1" BUY "WIPRO" 100 (500 # 1) 1
              PARTIALLY_FILLED GTC 60.
Proof.
  split; [reflexivity |].
  apply fill_too_large_noop. reflexivity.
Defined.

(** * Further properties of the code *)

(** ** Orders *)

(** X1: two fills add up: when [q1 + q2] does not exceed the remaining
    quantity of an order, filling it by [q1] and then by [q2] is filling it
    by [q1 + q2] once. *)
Theorem fill_twice (o : Order) (q1 q2 : Quantity) :
  0 <= filledQuantity_ o -> 0 <= q1 -> 0 <= q2 ->
  q1 + q2 <= getRemainingQuantity o ->
  fill (fill o q1) q2 = fill o (q1 + q2).
Proof.
  destruct o as [c id u ty sym q pr ts st tif f].
  unfold fill, getRemainingQuantity, assign_status, assign_filledQuantity.
  simpl. intros Hf H1 H2 Hsum.
  replace (f + q1 + q2) with (f + (q1 + q2)) by lia.
  repeat
    (match goal with
     | |- context [Z.leb ?a ?b] => destruct (Z.leb_spec a b)
     | |- context [Z.eqb ?a ?b] => destruct (Z.eqb_spec a b)
     | |- context [Z.ltb ?a ?b] => destruct (Z.ltb_spec a b)
     end; simpl; try replace (f + q1 + q2) with (f + (q1 + q2)) by lia);
    simpl in *; first [exfalso; lia | reflexivity | f_equal; lia].
Qed.

Lemma fill_twice_witness :
  let o := mkOrder LimitOrder "o1" "U1" BUY "SBIN" 1000 (600 # 1) 1
                   ACCEPTED GTC 0 in
  fill (fill o 300) 400 = fill o (300 + 400).
Proof. intros o. apply fill_twice; vm_compute; discriminate. Defined.

Lemma isValid_within_bounds o : isValid o = true -> within_bounds o.
Proof.
  unfold isValid, within_bounds.
  rewrite !andb_true_iff, !negb_true_iff, Z.ltb_lt, Z.leb_le.
  intros [[[[[? ?] ?] ?] ?] Hp]. split_and!; try done.
  destruct (class_ o); unfold Qleb in Hp;
    rewrite ?andb_true_iff, !Qle_bool_iff in Hp; [| done].
  destruct Hp. split; by apply Qle_not_lt.
Qed.

(** X2: a valid order stays valid through [setQuantity], whatever it is
    given.  Through [setPrice], whatever number it is given, the price of a
    valid order stays within the bounds as [setPrice] tests them: it ends
    neither below [MIN_ORDER_PRICE] nor above [MAX_ORDER_PRICE], which for
    a number is validity (a NaN passes these two tests as well, and is not
    valid).  A setter that refuses leaves the order as it is. *)
Theorem setters_keep_orders_within_bounds (o : Order) :
  isValid o = true ->
  (∀ q, isValid (setQuantity o q).2 = true
        ∧ ((setQuantity o q).1 = false -> (setQuantity o q).2 = o))
  ∧ (∀ pr, within_bounds (setPrice o pr).2
           ∧ ((setPrice o pr).1 = false -> (setPrice o pr).2 = o)).
Proof.
  intros Hv. split.
  - intros q. destruct (setQuantity o q) as [[] o'] eqn:Hs; simpl.
    + apply setQuantity_true in Hs as (Hq & _ & ->). split; [| done].
      revert Hv. unfold isValid, assign_quantity. simpl.
      rewrite !andb_true_iff. intros [[[[[? ?] ?] _] _] ?].
      split_and!; try done; [apply Z.ltb_lt | apply Z.leb_le]; lia.
    + by apply setQuantity_false in Hs as [-> _].
  - intros pr. destruct (setPrice o pr) as [[] o'] eqn:Hs; simpl.
    + apply setPrice_true in Hs as (Hc & Hlo & Hhi & _ & ->). split; [| done].
      destruct (isValid_within_bounds _ Hv) as (? & ? & ? & ? & _).
      unfold within_bounds, assign_price. simpl. rewrite Hc.
      split_and!; try done; try lia; by apply Qle_not_lt.
    + apply setPrice_false in Hs as [-> _].
      split; [by apply isValid_within_bounds | done].
Qed.

Lemma setters_keep_orders_within_bounds_witness :
  let o := mkOrder LimitOrder "o1" "U1" BUY "HDFC" 100 (1500 # 1) 1
                   ACCEPTED GTC 0 in
  isValid (setQuantity o 150).2 = true
  ∧ within_bounds (setPrice o (1600 # 1)).2
  ∧ (setQuantity o 0).2 = o
  ∧ (setPrice o (2000000 # 1)).2 = o.
Proof.
  intros o.
  assert (Hv : isValid o = true) by reflexivity.
  destruct (setters_keep_orders_within_bounds o Hv) as [Hq Hp].
  split; [apply (Hq 150) |]. split; [apply (Hp (1600 # 1)) |].
  split; [apply (Hq 0); reflexivity | apply (Hp (2000000 # 1)); reflexivity].
Defined.

(** ** The text of a UUID *)

Lemma hex_one (n : Z) :
  0 <= n <= 15 -> Util.hex n = String (Util.hex_digit n) EmptyString.
Proof.
  intros Hn. unfold Util.hex.
  rewrite (Z.mod_small n (2 ^ 32)) by lia.
  cbn [Util.hex_loop].
  rewrite (Z.mod_small n 16), (Z.div_small n 16) by lia.
  reflexivity.
Qed.

Lemma hex_digit_inj (a b : Z) :
  0 <= a <= 15 -> 0 <= b <= 15 ->
  Util.hex_digit a = Util.hex_digit b -> a = b.
Proof.
  intros Ha Hb.
  assert (Ea : a = 0 ∨ a = 1 ∨ a = 2 ∨ a = 3 ∨ a = 4 ∨ a = 5 ∨ a = 6 ∨ a = 7
               ∨ a = 8 ∨ a = 9 ∨ a = 10 ∨ a = 11 ∨ a = 12 ∨ a = 13 ∨ a = 14
               ∨ a = 15) by lia.
  assert (Eb : b = 0 ∨ b = 1 ∨ b = 2 ∨ b = 3 ∨ b = 4 ∨ b = 5 ∨ b = 6 ∨ b = 7
               ∨ b = 8 ∨ b = 9 ∨ b = 10 ∨ b = 11 ∨ b = 12 ∨ b = 13 ∨ b = 14
               ∨ b = 15) by lia.
  clear Ha Hb.
  repeat (destruct Ea as [-> | Ea]);
    [.. | subst a];
    repeat (destruct Eb as [-> | Eb]);
    try subst b; first [reflexivity | discriminate].
Qed.

Lemma draw_in_range (draw : nat -> Z) (k : nat) :
  draws_in_range draw -> (k < 31)%nat -> 0 <= draw k <= 15.
Proof.
  intros Hr Hk. specialize (Hr k Hk). destruct (decide (k = 15%nat)); lia.
Qed.

(** The text, character by character. *)
Lemma generateUUID_text (draw : nat -> Z) :
  draws_in_range draw ->
  let d k := Util.hex_digit (draw k) in
  Util.generateUUID draw
  = String.string_of_list_ascii
      [d 0%nat; d 1%nat; d 2%nat; d 3%nat; d 4%nat; d 5%nat; d 6%nat; d 7%nat;
       "-"%char;
       d 8%nat; d 9%nat; d 10%nat; d 11%nat; "-"%char; "4"%char;
       d 12%nat; d 13%nat; d 14%nat; "-"%char;
       d 15%nat; d 16%nat; d 17%nat; d 18%nat; "-"%char;
       d 19%nat; d 20%nat; d 21%nat; d 22%nat; d 23%nat; d 24%nat;
       d 25%nat; d 26%nat; d 27%nat; d 28%nat; d 29%nat; d 30%nat].
Proof.
  intros Hr d. unfold Util.generateUUID. cbn [Util.put_digits].
  rewrite !hex_one by (apply draw_in_range; [done | lia]).
  reflexivity.
Qed.

(** X3: [generateUUID] returns 36 characters in the groups 8-4-4-4-12: the
    hyphens are at the positions 8, 13, 18 and 23, the version digit at
    position 14 is 4, and the variant digit at position 19 is one of 8, 9, a
    and b.  In particular its result is never the empty string. *)
Theorem generateUUID_format (draw : nat -> Z) :
  draws_in_range draw ->
  let uuid := Util.generateUUID draw in
  String.length uuid = 36%nat
  ∧ empty uuid = false
  ∧ String.get 8 uuid = Some "-"%char ∧ String.get 13 uuid = Some "-"%char
  ∧ String.get 18 uuid = Some "-"%char ∧ String.get 23 uuid = Some "-"%char
  ∧ String.get 14 uuid = Some "4"%char
  ∧ (∃ c, String.get 19 uuid = Some c
       ∧ (c = "8" ∨ c = "9" ∨ c = "a" ∨ c = "b")%char).
Proof.
  intros Hr uuid. unfold uuid. rewrite (generateUUID_text draw Hr).
  split_and!; try reflexivity.
  eexists. split; [reflexivity |].
  pose proof (Hr 15%nat ltac:(lia)) as H15. simpl in H15.
  assert (E : draw 15%nat = 8 ∨ draw 15%nat = 9 ∨ draw 15%nat = 10
              ∨ draw 15%nat = 11) by lia.
  destruct E as [-> | [-> | [-> | ->]]]; auto.
Qed.

Lemma generateUUID_format_witness :
  let draw := fun k : nat => if decide (k = 15%nat) then 9 else Z.of_nat k mod 16 in
  String.length (Util.generateUUID draw) = 36%nat
  ∧ Util.generateUUID draw = "01234567-89ab-4cde-9012-3456789abcde".
Proof.
  intros draw.
  assert (Hr : draws_in_range draw).
  { intros k Hk. unfold draw. destruct (decide (k = 15%nat)); [lia |].
    pose proof (Z.mod_pos_bound (Z.of_nat k) 16). lia. }
  split; [apply (generateUUID_format draw Hr) | reflexivity].
Defined.

(** X4: two calls of [generateUUID] return the same text only when all their
    31 draws agree: the text loses nothing of the draws. *)
Theorem generateUUID_injective (draw1 draw2 : nat -> Z) :
  draws_in_range draw1 -> draws_in_range draw2 ->
  Util.generateUUID draw1 = Util.generateUUID draw2 ->
  ∀ k, (k < 31)%nat -> draw1 k = draw2 k.
Proof.
  intros H1 H2 Heq k Hk.
  rewrite (generateUUID_text draw1 H1), (generateUUID_text draw2 H2) in Heq.
  cbn [String.string_of_list_ascii] in Heq.
  apply hex_digit_inj; [by apply draw_in_range | by apply draw_in_range |].
  do 31 (destruct k as [| k]; [by simplify_eq |]). lia.
Qed.

Lemma generateUUID_injective_witness :
  let draw1 := fun k : nat => if decide (k = 15%nat) then 9 else 3 in
  let draw2 := fun k : nat => if decide (k = 15%nat) then 9 else 3 + 0 in
  draw1 7%nat = draw2 7%nat.
Proof.
  intros draw1 draw2.
  apply (generateUUID_injective draw1 draw2).
  - intros k Hk. unfold draw1. destruct (decide (k = 15%nat)); lia.
  - intros k Hk. unfold draw2. destruct (decide (k = 15%nat)); lia.
  - reflexivity.
  - lia.
Defined.

(** ** The order book: adding and cancelling *)

(** X5: [addOrder] refuses exactly a null handle, an order of another
    symbol, an invalid order, and an order whose id the book has indexed
    already; when it refuses, neither the order nor the book is changed. *)
Theorem addOrder_refuses (order : option ptr) (h : Heap) (b : OrderBook) :
  ((Book.addOrder order h b).1.1 = false
   ↔ order = None
     ∨ ∃ p, order = Some p
         ∧ (symbol_ (deref h p) ≠ book_symbol_ b
            ∨ isValid (deref h p) = false
            ∨ is_Some (orderLookup_ b !! orderId_ (deref h p))))
  ∧ ((Book.addOrder order h b).1.1 = false ->
     (Book.addOrder order h b).1.2 = h ∧ (Book.addOrder order h b).2 = b).
Proof.
  split.
  - destruct order as [p |]; [| simpl; naive_solver].
    unfold Book.addOrder.
    destruct (String.eqb_spec (symbol_ (deref h p)) (book_symbol_ b)) as [Es | Es];
      simpl; [| split; [intros _; right; exists p; auto | done]].
    destruct (isValid (deref h p)) eqn:Ev; simpl;
      [| split; [intros _; right; exists p; auto | done]].
    destruct (orderLookup_ b !! orderId_ (deref h p)) as [q |] eqn:El; simpl.
    + split; [intros _; right; exists p; eauto | done].
    + split; [done |]. intros [[=] | (p' & [= <-] & [? | [? | [? ?]]])];
        congruence.
  - destruct (Book.addOrder order h b) as [[[] h'] b'] eqn:Ha; simpl; [done |].
    intros _. by apply addOrder_false in Ha.
Qed.

(** X6: after a successful [addOrder] the book returns the order for its id,
    the order is ACCEPTED and nothing else of it has changed, it has joined
    the queue of its side, and the other queue, the other ids and the other
    order objects are as before. *)
Theorem addOrder_then_getOrder (p : ptr) (h : Heap) (b : OrderBook)
    (h' : Heap) (b' : OrderBook) :
  Book.addOrder (Some p) h b = (true, h', b') ->
  let o := deref h p in
  Book.getOrder (orderId_ o) b' = Some p
  ∧ deref h' p = assign_status o ACCEPTED
  ∧ side b' (orderType_ o) ≡ₚ p :: side b (orderType_ o)
  ∧ (∀ t, t ≠ orderType_ o -> side b' t = side b t)
  ∧ (∀ id, id ≠ orderId_ o -> Book.getOrder id b' = Book.getOrder id b)
  ∧ (∀ x, x ≠ p -> deref h' x = deref h x).
Proof.
  intros Ha o.
  apply addOrder_true in Ha as (p' & [= <-] & Hp & _ & _ & _ & -> & ->).
  fold o. unfold Book.getOrder. rewrite with_side_lookup.
  split_and!.
  - by rewrite lookup_insert_eq.
  - by rewrite deref_store_eq.
  - rewrite side_with_side_eq. apply multiset_insert_perm.
  - intros t Ht. by rewrite side_with_side_ne.
  - intros id Hid. by rewrite lookup_insert_ne.
  - intros x Hx. by rewrite deref_store_ne.
Qed.

Lemma addOrder_then_getOrder_witness :
  let new := mkOrder LimitOrder "b1" "U1" BUY "WIPRO" 10 (480 # 1) 5 PENDING GTC 0 in
  ∃ h' b',
    Book.addOrder (Some 4%nat) (demo_heap ++ [new]) demo_book = (true, h', b')
    ∧ Book.getOrder "b1" b' = Some 4%nat
    ∧ status_ (deref h' 4) = ACCEPTED.
Proof.
  intros new.
  destruct (Book.addOrder (Some 4%nat) (demo_heap ++ [new]) demo_book)
    as [[ok h'] b'] eqn:Ha.
  assert (Hok : ok = true) by (vm_compute in Ha; congruence). subst ok.
  exists h', b'. split; [reflexivity |].
  destruct (addOrder_then_getOrder _ _ _ _ _ Ha) as (Hget & Hst & _).
  split; [exact Hget |]. rewrite Hst. reflexivity.
Defined.

Lemma erase_by_id_insert cmp h id x l :
  orderId_ (deref h x) = id ->
  Forall (fun q => orderId_ (deref h q) ≠ id) l ->
  erase_by_id h id (multiset_insert cmp h x l) = Some l.
Proof.
  intros Hx Hl. induction Hl as [| y l Hy Hl IH]; simpl.
  - rewrite Hx, String.eqb_refl. done.
  - destruct (cmp (deref h x) (deref h y)); simpl.
    + by rewrite Hx, String.eqb_refl.
    + destruct (String.eqb_spec (orderId_ (deref h y)) id); [done |].
      by rewrite IH.
Qed.

(** X7: adding an order and cancelling it again gives back the two queues as
    they were; the order ends CANCELLED and stays in the id index, and no
    other order object is touched. *)
Theorem addOrder_cancelOrder (p : ptr) (h : Heap) (b : OrderBook)
    (h1 : Heap) (b1 : OrderBook) :
  book_wf h b ->
  Book.addOrder (Some p) h b = (true, h1, b1) ->
  ∃ h2 b2,
    Book.cancelOrder (orderId_ (deref h p)) h1 b1 = (true, h2, b2)
    ∧ buyOrders_ b2 = buyOrders_ b ∧ sellOrders_ b2 = sellOrders_ b
    ∧ status_ (deref h2 p) = CANCELLED
    ∧ Book.getOrder (orderId_ (deref h p)) b2 = Some p
    ∧ ∀ x, x ≠ p -> deref h2 x = deref h x.
Proof.
  intros Hwf Ha.
  apply addOrder_true in Ha as (p' & [= <-] & Hp & _ & _ & Hnone & -> & ->).
  set (o := deref h p) in *.
  set (h1 := store h p (assign_status o ACCEPTED)).
  assert (Ho1 : deref h1 p = assign_status o ACCEPTED)
    by (unfold h1; by rewrite deref_store_eq).
  assert (Hp1 : (p < length h1)%nat) by (unfold h1; by rewrite length_store).
  assert (Hother : Forall (fun q => orderId_ (deref h1 q) ≠ orderId_ o)
                          (side b (orderType_ o))).
  { apply Forall_forall. intros q Hq Heq.
    pose proof (side_resting _ _ _ _ Hwf Hq) as [_ _ _ Hidx _ _ _].
    destruct (decide (q = p)) as [-> | Hne]; [fold o in Hidx; congruence |].
    unfold h1 in Heq. rewrite deref_store_ne in Heq by done.
    rewrite Heq in Hidx. congruence. }
  unfold Book.cancelOrder. rewrite with_side_lookup, lookup_insert_eq.
  rewrite Ho1. cbn [canCancel assign_status status_ negb orderType_].
  assert (Her : erase_by_id h1 (orderId_ o)
                  (multiset_insert (comparator (orderType_ o)) h1 p
                     (side b (orderType_ o)))
                = Some (side b (orderType_ o))).
  { apply erase_by_id_insert; [by rewrite Ho1 | done]. }
  destruct (orderType_ o) eqn:Hty; simpl in *; rewrite Her; simpl;
    (eexists _, _; split; [reflexivity |]; simpl; split_and!; try done;
     [ by rewrite deref_store_eq
     | unfold Book.getOrder; simpl; by rewrite lookup_insert_eq
     | intros x Hx; unfold h1; by rewrite !deref_store_ne ]).
Qed.

Lemma addOrder_cancelOrder_witness :
  let new := mkOrder LimitOrder "b1" "U1" BUY "WIPRO" 10 (480 # 1) 5 PENDING GTC 0 in
  ∃ h1 b1 h2 b2,
    Book.addOrder (Some 4%nat) (demo_heap ++ [new]) demo_book = (true, h1, b1)
    ∧ Book.cancelOrder "b1" h1 b1 = (true, h2, b2)
    ∧ buyOrders_ b2 = buyOrders_ demo_book
    ∧ sellOrders_ b2 = sellOrders_ demo_book.
Proof.
  intros new.
  assert (Hwf : book_wf (demo_heap ++ [new]) demo_book)
    by (apply book_wfb_sound; vm_compute; reflexivity).
  destruct (Book.addOrder (Some 4%nat) (demo_heap ++ [new]) demo_book)
    as [[ok h1] b1] eqn:Ha.
  assert (Hok : ok = true) by (vm_compute in Ha; congruence). subst ok.
  destruct (addOrder_cancelOrder _ _ _ _ _ Hwf Ha)
    as (h2 & b2 & Hc & Hb & Hs & _).
  exists h1, b1, h2, b2. split; [reflexivity |].
  split; [exact Hc |]. split; [exact Hb | exact Hs].
Defined.

(** X8: in a well-formed book [cancelOrder] succeeds exactly for the ids of
    the orders that rest in a queue (status ACCEPTED or PARTIALLY_FILLED);
    the scan of the queue always finds the order.  It changes nothing when
    it fails, and a second [cancelOrder] of the same id fails. *)
Theorem cancelOrder_succeeds_iff (h : Heap) (b : OrderBook) (orderId : OrderId) :
  book_wf h b ->
  ((Book.cancelOrder orderId h b).1.1 = true
   ↔ ∃ p, Book.getOrder orderId b = Some p ∧ live (status_ (deref h p)))
  ∧ (∀ h' b', Book.cancelOrder orderId h b = (false, h', b') -> h' = h ∧ b' = b)
  ∧ (∀ h' b', Book.cancelOrder orderId h b = (true, h', b') ->
       Book.cancelOrder orderId h' b' = (false, h', b')).
Proof.
  intros Hwf. split_and!.
  - destruct (Book.cancelOrder orderId h b) as [[ok h'] b'] eqn:Hc. simpl.
    split.
    + intros ->.
      apply cancelOrder_true in Hc as (p & l' & Hlk & Hcan & _).
      exists p. split; [done |].
      apply (indexed_live_resting _ _ _ _ Hwf Hlk).
      by apply canCancel_not_terminal.
    + intros (p & Hlk & Hlive). unfold Book.getOrder in Hlk.
      assert (Hnt : terminal (status_ (deref h p)) = false)
        by (destruct Hlive as [-> | ->]; done).
      destruct (indexed_live_resting _ _ _ _ Hwf Hlk Hnt) as [Hrest _].
      destruct (erase_resting_exists h b (orderType_ (deref h p)) orderId p)
        as [l' Her]; [done | done | |].
      { destruct (wf_lookup _ _ Hwf _ _ Hlk) as [_ _ _ [Ht | ?]]; [congruence | done]. }
      revert Hc. unfold Book.cancelOrder. rewrite Hlk.
      assert (Hcan : canCancel (deref h p) = true)
        by (unfold canCancel; destruct Hlive as [-> | ->]; done).
      rewrite Hcan. simpl.
      destruct (orderType_ (deref h p)); simpl in Her; rewrite Her; simpl; congruence.
  - intros h' b' Hc. by apply cancelOrder_false in Hc.
  - intros h' b' Hc.
    apply cancelOrder_changes in Hc as (p & Hlk & Hcan & -> & _ & Hidx).
    pose proof (wf_lookup _ _ Hwf _ _ Hlk) as [Hp _ _ _].
    unfold Book.cancelOrder. rewrite Hidx, Hlk.
    by rewrite deref_store_eq.
Qed.

Lemma cancelOrder_succeeds_iff_witness :
  ∃ h' b',
    book_wf demo_heap demo_book
    ∧ Book.cancelOrder "s1" demo_heap demo_book = (true, h', b')
    ∧ Book.cancelOrder "s1" h' b' = (false, h', b').
Proof.
  assert (Hwf : book_wf demo_heap demo_book)
    by (apply book_wfb_sound; vm_compute; reflexivity).
  destruct (Book.cancelOrder "s1" demo_heap demo_book) as [[ok h'] b'] eqn:Hc.
  assert (Hok : ok = true) by (vm_compute in Hc; congruence). subst ok.
  exists h', b'. split; [exact Hwf |]. split; [reflexivity |].
  destruct (cancelOrder_succeeds_iff demo_heap demo_book "s1" Hwf)
    as (_ & _ & Hagain).
  exact (Hagain h' b' Hc).
Defined.

Lemma match_loop_lookup fuel : ∀ w h b trades w' h' b',
  Book.match_loop fuel w h b = Some (trades, w', h', b') ->
  orderLookup_ b' = orderLookup_ b.
Proof.
  induction fuel as [| fuel IH]; intros w h b trades w' h' b' Hl; simpl in Hl.
  - destruct (Book.match_iteration w h b) as [[[[t w1] h1] b1] |]; [done |].
    by injection Hl as _ _ _ <-.
  - destruct (Book.match_iteration w h b) as [[[[t w1] h1] b1] |] eqn:Hit.
    + destruct (Book.match_loop fuel w1 h1 b1) as [[[[ts w2] h2] b2] |] eqn:Hl2;
        [| done].
      injection Hl as _ _ _ <-. rewrite (IH _ _ _ _ _ _ _ Hl2).
      apply match_iteration_Some in Hit
        as (pb & buys & ps & sells & _ & _ & _ & _ & _ & ->). done.
    + by injection Hl as _ _ _ <-.
Qed.

(** X9: no operation of a book ever takes an id out of its index: an id that
    is indexed stays indexed under [addOrder], [cancelOrder], [modifyOrder]
    and [matchOrders].  So the id of an order the book has seen, cancelled
    and filled orders included, is never accepted again by [addOrder]. *)
Theorem order_ids_stay_indexed (h : Heap) (b : OrderBook) (id : OrderId) :
  is_Some (Book.getOrder id b) ->
  (∀ order, is_Some (Book.getOrder id (Book.addOrder order h b).2))
  ∧ (∀ orderId, is_Some (Book.getOrder id (Book.cancelOrder orderId h b).2))
  ∧ (∀ orderId q pr,
       is_Some (Book.getOrder id (Book.modifyOrder orderId q pr h b).2))
  ∧ (∀ w trades w' h' b',
       Book.matchOrders w h b = Some (trades, w', h', b') ->
       is_Some (Book.getOrder id b'))
  ∧ (∀ p, orderId_ (deref h p) = id ->
       Book.addOrder (Some p) h b = (false, h, b)).
Proof.
  unfold Book.getOrder. intros Hid. split_and!.
  - intros order.
    destruct (Book.addOrder order h b) as [[[] h'] b'] eqn:Ha; simpl.
    + apply addOrder_true in Ha as (p & _ & _ & _ & _ & _ & _ & ->).
      rewrite with_side_lookup.
      destruct (decide (orderId_ (deref h p) = id)) as [<- | Hne];
        [by rewrite lookup_insert_eq | by rewrite lookup_insert_ne].
    + by apply addOrder_false in Ha as [_ ->].
  - intros orderId.
    destruct (Book.cancelOrder orderId h b) as [[[] h'] b'] eqn:Hc; simpl.
    + apply cancelOrder_changes in Hc as (p & _ & _ & _ & _ & ->). done.
    + by apply cancelOrder_false in Hc as [_ ->].
  - intros orderId q pr.
    destruct (Book.modifyOrder orderId q pr h b) as [[[] h'] b'] eqn:Hm; simpl.
    + apply modifyOrder_true in Hm
        as (p & l' & _ & _ & _ & _ & _ & _ & _ & _ & ->).
      rewrite with_side_lookup.
      destruct (decide (orderId = id)) as [<- | Hne];
        [by rewrite lookup_insert_eq | by rewrite lookup_insert_ne].
    + by apply modifyOrder_false in Hm as [_ ->].
  - intros w trades w' h' b' Hm. unfold Book.matchOrders in Hm.
    by rewrite (match_loop_lookup _ _ _ _ _ _ _ _ Hm).
  - intros p Hp. unfold Book.addOrder.
    destruct (negb _ || negb _); [done |].
    rewrite Hp. by destruct Hid as [q ->].
Qed.

Lemma order_ids_stay_indexed_witness :
  is_Some (Book.getOrder "s1" (Book.cancelOrder "s1" demo_heap demo_book).2)
  ∧ Book.addOrder (Some 2%nat) demo_heap demo_book = (false, demo_heap, demo_book).
Proof.
  assert (Hid : is_Some (Book.getOrder "s1" demo_book))
    by (eexists; reflexivity).
  destruct (order_ids_stay_indexed demo_heap demo_book "s1" Hid)
    as (_ & Hc & _ & _ & Ha).
  split; [apply (Hc "s1") | apply (Ha 2%nat); reflexivity].
Defined.

(** ** Price-time priority *)

Lemma comparator_asym t x y :
  comparator t x y = true -> comparator t y x = false.
Proof.
  rewrite !comparator_unfold, (price_far_sym y x).
  destruct (price_far x y).
  - destruct t; rewrite Qltb_lt, Qltb_nlt; intros ? ?; lra.
  - rewrite Z.ltb_lt, Z.ltb_ge. lia.
Qed.

Lemma price_separated_near x y :
  price_separated x y -> price_far x y = false -> (price_ x == price_ y)%Q.
Proof. intros [? | Hf] Hnf; [done | congruence]. Qed.

Lemma comparator_trans t x y z :
  price_separated x y -> price_separated y z -> price_separated x z ->
  comparator t x y = true -> comparator t y z = true ->
  comparator t x z = true.
Proof.
  intros Hxy Hyz Hxz. rewrite !comparator_unfold.
  destruct (price_far x y) eqn:Fxy; destruct (price_far y z) eqn:Fyz.
  - intros H1 H2.
    assert (Hfar : price_far x z = true).
    { destruct Hxz as [Heq | ?]; [| done]. exfalso.
      destruct t; apply Qltb_lt in H1, H2; rewrite Heq in H1; lra. }
    rewrite Hfar. destruct t; apply Qltb_lt; apply Qltb_lt in H1, H2; lra.
  - intros H1 H2. pose proof (price_separated_near _ _ Hyz Fyz) as Heq2.
    assert (Hfar : price_far x z = true).
    { destruct Hxz as [Heq | ?]; [| done]. exfalso.
      destruct t; apply Qltb_lt in H1; rewrite Heq, Heq2 in H1; lra. }
    rewrite Hfar. destruct t; apply Qltb_lt; apply Qltb_lt in H1; lra.
  - intros H1 H2. pose proof (price_separated_near _ _ Hxy Fxy) as Heq1.
    assert (Hfar : price_far x z = true).
    { destruct Hxz as [Heq | ?]; [| done]. exfalso.
      destruct t; apply Qltb_lt in H2; rewrite <- Heq1, Heq in H2; lra. }
    rewrite Hfar. destruct t; apply Qltb_lt; apply Qltb_lt in H2; lra.
  - intros H1 H2. pose proof (price_separated_near _ _ Hxy Fxy) as Heq1.
    pose proof (price_separated_near _ _ Hyz Fyz) as Heq2.
    rewrite price_far_eq by (by rewrite Heq1).
    apply Z.ltb_lt. apply Z.ltb_lt in H1, H2. lia.
Qed.

(** The comparators look at the price and the timestamp only. *)
Lemma comparator_terms t x y x' y' :
  price_ x' = price_ x -> timestamp_ x' = timestamp_ x ->
  price_ y' = price_ y -> timestamp_ y' = timestamp_ y ->
  comparator t x' y' = comparator t x y.
Proof.
  intros Hpx Htx Hpy Hty. rewrite !comparator_unfold. unfold price_far.
  by rewrite Hpx, Htx, Hpy, Hty.
Qed.

Lemma queue_sorted_heap h h' t l :
  (∀ p, p ∈ l -> price_ (deref h' p) = price_ (deref h p)
                 ∧ timestamp_ (deref h' p) = timestamp_ (deref h p)) ->
  queue_sorted h t l -> queue_sorted h' t l.
Proof.
  unfold queue_sorted. intros Hsame Hs.
  induction Hs as [| p l Hs IH Hall]; constructor.
  - apply IH. intros q Hq. apply Hsame. by right.
  - rewrite Forall_forall in Hall |- *. intros q Hq.
    specialize (Hall q Hq). unfold not_after in *.
    destruct (Hsame p) as [? ?]; [by left |].
    destruct (Hsame q) as [? ?]; [by right |].
    by rewrite (comparator_terms t (deref h q) (deref h p)).
Qed.

Lemma queue_sorted_erase h t l1 p l2 :
  queue_sorted h t (l1 ++ p :: l2) -> queue_sorted h t (l1 ++ l2).
Proof.
  unfold queue_sorted. rewrite !StronglySorted_app.
  intros (H12 & H1 & H2). split_and!;
    [| done | by apply StronglySorted_inv in H2 as [? _]].
  intros x1 x2 ? ?. apply H12; [done | by right].
Qed.

Lemma queue_sorted_insert h t x l :
  prices_separated h (x :: l) ->
  queue_sorted h t l ->
  queue_sorted h t (multiset_insert (comparator t) h x l).
Proof.
  unfold queue_sorted. intros Hsep Hs.
  induction Hs as [| y l Hs IH Hall]; simpl.
  - repeat constructor.
  - destruct (comparator t (deref h x) (deref h y)) eqn:Hxy.
    + constructor; [by constructor |].
      rewrite Forall_forall in Hall |- *. intros z Hz. unfold not_after.
      apply elem_of_cons in Hz as [-> | Hz]; [by apply comparator_asym |].
      destruct (comparator t (deref h z) (deref h x)) eqn:Hzx; [| done].
      specialize (Hall z Hz). unfold not_after in Hall.
      rewrite (comparator_trans t (deref h z) (deref h x) (deref h y)) in Hall;
        [done | | | | done | done];
        apply Hsep; rewrite !elem_of_cons; auto.
    + constructor.
      * apply IH. intros p q Hp Hq.
        apply Hsep; rewrite !elem_of_cons in *; tauto.
      * rewrite Forall_forall in Hall |- *. intros z Hz.
        apply elem_of_multiset_insert in Hz as [-> | Hz]; [done |].
        by apply Hall.
Qed.

Lemma prices_separated_perm h l l' :
  l ≡ₚ l' -> prices_separated h l -> prices_separated h l'.
Proof.
  intros Hperm Hsep p q Hp Hq. apply Hsep; by rewrite Hperm.
Qed.

Lemma prices_separated_heap h h' l :
  (∀ p, p ∈ l -> price_ (deref h' p) = price_ (deref h p)) ->
  prices_separated h' l -> prices_separated h l.
Proof.
  intros Hsame Hsep p q Hp Hq. specialize (Hsep p q Hp Hq).
  unfold price_separated, price_far in *.
  by rewrite (Hsame p Hp), (Hsame q Hq) in Hsep.
Qed.

Lemma side_cases b t t' l idx :
  side (with_side b t l idx) t' = if decide (t = t') then l else side b t'.
Proof.
  destruct (decide (t = t')) as [<- | Hne];
    [apply side_with_side_eq | by apply side_with_side_ne].
Qed.

(** X10: [addOrder] and [modifyOrder] put the order where price-time
    priority wants it: when the prices in the queues they leave are pairwise
    equal or more than 1e-9 apart, a book whose queues were sorted by their
    comparators has sorted queues afterwards. *)
Theorem insertion_keeps_queues_sorted (h : Heap) (b : OrderBook) :
  book_wf h b -> book_sorted h b ->
  (∀ p ok h' b',
     Book.addOrder (Some p) h b = (ok, h', b') ->
     book_separated h' b' -> book_sorted h' b')
  ∧ (∀ orderId q pr ok h' b',
       Book.modifyOrder orderId q pr h b = (ok, h', b') ->
       book_separated h' b' -> book_sorted h' b').
Proof.
  intros Hwf Hsorted. split.
  - intros p [] h' b' Ha Hsep;
      [| by apply addOrder_false in Ha as [-> ->]].
    apply addOrder_true in Ha as (p' & [= <-] & Hp & _ & _ & _ & Hh' & Hb').
    assert (Hkeep : ∀ x, price_ (deref h' x) = price_ (deref h x)
                         ∧ timestamp_ (deref h' x) = timestamp_ (deref h x)).
    { intros x. rewrite Hh'. destruct (decide (x = p)) as [-> | Hx];
        [by rewrite deref_store_eq | by rewrite deref_store_ne]. }
    intros t. specialize (Hsep t). rewrite Hb', side_cases in Hsep |- *.
    destruct (decide (orderType_ (deref h p) = t)) as [<- | Hne].
    + apply queue_sorted_insert.
      * eapply prices_separated_perm; [apply multiset_insert_perm | done].
      * eapply queue_sorted_heap; [| apply Hsorted]. intros x _. apply Hkeep.
    + eapply queue_sorted_heap; [| apply Hsorted]. intros x _. apply Hkeep.
  - intros orderId q pr [] h' b' Hm Hsep;
      [| by apply modifyOrder_false in Hm as [-> ->]].
    apply modifyOrder_true in Hm
      as (p & l' & Hlk & _ & _ & _ & _ & _ & Her & Hh' & Hb').
    apply erase_by_id_Some in Her as (l1 & p0 & l2 & Hside & -> & _ & _).
    assert (Hkeep : ∀ x t, x ∈ side b t -> deref h' x = deref h x).
    { intros x t Hx. rewrite Hh'. apply deref_alloc_old.
      apply (book_wf_queued_valid h b); [done |]. destruct t; auto. }
    intros t. specialize (Hsep t). rewrite Hb', side_cases in Hsep |- *.
    destruct (decide (orderType_ (deref h p) = t)) as [<- | Hne].
    + apply queue_sorted_insert.
      * eapply prices_separated_perm; [apply multiset_insert_perm | done].
      * apply (queue_sorted_heap h); [| eapply queue_sorted_erase].
        -- intros x Hx. rewrite (Hkeep x (orderType_ (deref h p))); [done |].
           rewrite Hside. apply elem_of_middle. by right.
        -- rewrite <- Hside. apply Hsorted.
    + apply (queue_sorted_heap h); [| apply Hsorted].
      intros x Hx. by rewrite (Hkeep x t).
Qed.

Lemma insertion_keeps_queues_sorted_witness :
  let new := mkOrder LimitOrder "s3" "U2" SELL "WIPRO" 10 (498 # 1) 5 PENDING GTC 0 in
  ∃ h' b',
    Book.addOrder (Some 4%nat) (demo_heap ++ [new]) demo_book = (true, h', b')
    ∧ sellOrders_ b' = [1%nat; 4%nat; 2%nat; 3%nat]
    ∧ book_sorted h' b'.
Proof.
  intros new.
  assert (Hwf : book_wf (demo_heap ++ [new]) demo_book)
    by (apply book_wfb_sound; vm_compute; reflexivity).
  assert (Hs : book_sorted (demo_heap ++ [new]) demo_book)
    by (apply book_sortedb_sound; vm_compute; reflexivity).
  destruct (Book.addOrder (Some 4%nat) (demo_heap ++ [new]) demo_book)
    as [[ok h'] b'] eqn:Ha.
  assert (Hok : ok = true) by (vm_compute in Ha; congruence). subst ok.
  assert (Hsells : sellOrders_ b' = [1%nat; 4%nat; 2%nat; 3%nat])
    by (vm_compute in Ha; injection Ha as _ <-; reflexivity).
  assert (Hsep : book_separated h' b').
  { apply book_separatedb_sound. vm_compute in Ha. injection Ha as <- <-.
    vm_compute. reflexivity. }
  exists h', b'. split; [reflexivity |]. split; [exact Hsells |].
  destruct (insertion_keeps_queues_sorted _ _ Hwf Hs) as [Hadd _].
  exact (Hadd _ _ _ _ Ha Hsep).
Defined.

Lemma match_iteration_sorted w h b t w' h' b' :
  Book.match_iteration w h b = Some (t, w', h', b') ->
  book_sorted h b -> book_sorted h' b'.
Proof.
  intros Hit Hsorted.
  pose proof (fun x => match_iteration_same_terms _ _ _ _ _ _ _ x Hit) as Hsame.
  apply match_iteration_Some in Hit
    as (pb & buys & ps & sells & Hb & Hs & _ & _ & _ & ->).
  assert (Hkeep : ∀ x, price_ (deref h' x) = price_ (deref h x)
                       ∧ timestamp_ (deref h' x) = timestamp_ (deref h x)).
  { intros x. destruct (Hsame x) as (_ & _ & _ & _ & _ & _ & ? & ? & _).
    done. }
  intros ty. apply (queue_sorted_heap h); [intros x _; apply Hkeep |].
  specialize (Hsorted ty). destruct ty; simpl in *.
  - rewrite Hb in Hsorted. destruct (_ =? 0); [by inversion Hsorted | done].
  - rewrite Hs in Hsorted. destruct (_ =? 0); [by inversion Hsorted | done].
Qed.

Lemma match_loop_sorted fuel : ∀ w h b trades w' h' b',
  Book.match_loop fuel w h b = Some (trades, w', h', b') ->
  book_sorted h b -> book_sorted h' b'.
Proof.
  induction fuel as [| fuel IH]; intros w h b trades w' h' b' Hl Hs;
    simpl in Hl.
  - destruct (Book.match_iteration w h b) as [[[[t w1] h1] b1] |]; [done |].
    by injection Hl as _ _ <- <-.
  - destruct (Book.match_iteration w h b) as [[[[t w1] h1] b1] |] eqn:Hit.
    + destruct (Book.match_loop fuel w1 h1 b1) as [[[[ts w2] h2] b2] |] eqn:Hl2;
        [| done].
      injection Hl as _ _ <- <-.
      eapply IH; [done |]. by eapply match_iteration_sorted.
    + by injection Hl as _ _ <- <-.
Qed.

(** X11: [cancelOrder] and [matchOrders] only take orders out of the queues
    and change neither a price nor a timestamp: a book whose queues were
    sorted by their comparators has sorted queues afterwards. *)
Theorem removal_keeps_queues_sorted (h : Heap) (b : OrderBook) :
  book_sorted h b ->
  (∀ orderId ok h' b',
     Book.cancelOrder orderId h b = (ok, h', b') -> book_sorted h' b')
  ∧ (∀ w trades w' h' b',
       Book.matchOrders w h b = Some (trades, w', h', b') -> book_sorted h' b').
Proof.
  intros Hsorted. split.
  - intros orderId [] h' b' Hc;
      [| by apply cancelOrder_false in Hc as [-> ->]].
    apply cancelOrder_true in Hc as (p & l' & _ & _ & Her & -> & ->).
    apply erase_by_id_Some in Her as (l1 & p0 & l2 & Hside & -> & _ & _).
    assert (Hkeep : ∀ x,
              price_ (deref (store h p (assign_status (deref h p) CANCELLED)) x)
              = price_ (deref h x)
              ∧ timestamp_ (deref (store h p (assign_status (deref h p) CANCELLED)) x)
                = timestamp_ (deref h x)).
    { intros x. destruct (decide (x = p)) as [-> | Hx];
        [| by rewrite deref_store_ne].
      destruct (decide (p < length h)%nat);
        [by rewrite deref_store_eq | by rewrite store_out_of_range by lia]. }
    intros t. apply (queue_sorted_heap h); [intros x _; apply Hkeep |].
    rewrite side_cases. destruct (decide _) as [<- | _]; [| apply Hsorted].
    eapply queue_sorted_erase. rewrite <- Hside. apply Hsorted.
  - intros w trades w' h' b' Hm. by eapply match_loop_sorted.
Qed.

Lemma removal_keeps_queues_sorted_witness :
  ∃ trades w' h' b',
    book_sorted demo_heap demo_book
    ∧ Book.matchOrders demo_world demo_heap demo_book = Some (trades, w', h', b')
    ∧ book_sorted h' b'.
Proof.
  assert (Hs : book_sorted demo_heap demo_book)
    by (apply book_sortedb_sound; vm_compute; reflexivity).
  destruct (Book.matchOrders demo_world demo_heap demo_book)
    as [[[[trades w'] h'] b'] |] eqn:Hm; [| vm_compute in Hm; discriminate].
  exists trades, w', h', b'. split; [exact Hs |]. split; [reflexivity |].
  destruct (removal_keeps_queues_sorted _ _ Hs) as [_ Hmatch].
  exact (Hmatch _ _ _ _ _ Hm).
Defined.

(** X12: in a sorted queue whose prices are pairwise equal or more than 1e-9
    apart the first order is the best: no bid is priced above [getBestBid],
    no ask below [getBestAsk], and of the orders at the price of the first
    one none arrived before it. *)
Theorem best_order_has_priority (h : Heap) (b : OrderBook) :
  book_sorted h b -> book_separated h b ->
  (∀ q, q ∈ buyOrders_ b -> (price_ (deref h q) <= Book.getBestBid h b)%Q)
  ∧ (∀ q, q ∈ sellOrders_ b -> (Book.getBestAsk h b <= price_ (deref h q))%Q)
  ∧ (∀ t p l q, side b t = p :: l -> q ∈ l ->
       (price_ (deref h q) == price_ (deref h p))%Q ->
       timestamp_ (deref h p) <= timestamp_ (deref h q)).
Proof.
  intros Hsorted Hsep.
  assert (Hhead : ∀ t p l q, side b t = p :: l -> q ∈ l ->
            comparator t (deref h q) (deref h p) = false
            ∧ price_separated (deref h q) (deref h p)).
  { intros t p l q Hside Hq. split.
    - specialize (Hsorted t). unfold queue_sorted in Hsorted.
      rewrite Hside in Hsorted. inversion Hsorted as [| ? ? _ Hall]; subst.
      rewrite Forall_forall in Hall. by apply Hall.
    - apply (Hsep t); rewrite Hside; [by right | by left]. }
  split_and!.
  - intros q Hq. unfold Book.getBestBid.
    destruct (buyOrders_ b) as [| p l] eqn:Hb; [by apply elem_of_nil in Hq |].
    apply elem_of_cons in Hq as [-> | Hq]; [lra |].
    destruct (Hhead BUY p l q Hb Hq) as [Hcmp Hs].
    rewrite comparator_unfold in Hcmp.
    destruct (price_far (deref h q) (deref h p)) eqn:Hfar.
    + apply Qltb_nlt in Hcmp. lra.
    + pose proof (price_separated_near _ _ Hs Hfar). lra.
  - intros q Hq. unfold Book.getBestAsk.
    destruct (sellOrders_ b) as [| p l] eqn:Hb; [by apply elem_of_nil in Hq |].
    apply elem_of_cons in Hq as [-> | Hq]; [lra |].
    destruct (Hhead SELL p l q Hb Hq) as [Hcmp Hs].
    rewrite comparator_unfold in Hcmp.
    destruct (price_far (deref h q) (deref h p)) eqn:Hfar.
    + apply Qltb_nlt in Hcmp. lra.
    + pose proof (price_separated_near _ _ Hs Hfar). lra.
  - intros t p l q Hside Hq Heq.
    destruct (Hhead t p l q Hside Hq) as [Hcmp _].
    rewrite comparator_unfold, price_far_eq in Hcmp by done.
    apply Z.ltb_ge in Hcmp. lia.
Qed.

Lemma best_order_has_priority_witness :
  book_sorted demo_heap demo_book ∧ book_separated demo_heap demo_book
  ∧ (Book.getBestAsk demo_heap demo_book <= price_ (deref demo_heap 3))%Q.
Proof.
  assert (Hs : book_sorted demo_heap demo_book)
    by (apply book_sortedb_sound; vm_compute; reflexivity).
  assert (Hsep : book_separated demo_heap demo_book)
    by (apply book_separatedb_sound; vm_compute; reflexivity).
  split; [exact Hs |]. split; [exact Hsep |].
  destruct (best_order_has_priority _ _ Hs Hsep) as (_ & Hask & _).
  apply Hask. simpl. rewrite !elem_of_cons. auto.
Defined.

(** ** What the matching loop trades *)

Lemma filled_on_same h h' l :
  (∀ x, x ∈ l -> filledQuantity_ (deref h' x) = filledQuantity_ (deref h x)) ->
  filled_on h' l = filled_on h l.
Proof.
  induction l as [| y l IH]; intros Hsame; simpl; [done |].
  rewrite Hsame by (by left). rewrite IH; [done |].
  intros x Hx. apply Hsame. by right.
Qed.

Lemma filled_on_update h h' l p q :
  NoDup l -> p ∈ l ->
  (∀ x, x ∈ l -> x ≠ p ->
        filledQuantity_ (deref h' x) = filledQuantity_ (deref h x)) ->
  filledQuantity_ (deref h' p) = filledQuantity_ (deref h p) + q ->
  filled_on h' l = filled_on h l + q.
Proof.
  intros Hnd Hp Hother Hq. induction l as [| y l IH]; simpl.
  - by apply elem_of_nil in Hp.
  - apply NoDup_cons in Hnd as [Hy Hnd].
    apply elem_of_cons in Hp as [<- | Hp].
    + rewrite Hq. rewrite (filled_on_same h h' l); [lia |].
      intros x Hx. apply Hother; [by right |]. by intros ->.
    + rewrite Hother; [| by left | by intros ->].
      rewrite IH; [lia | done | done |].
      intros x Hx. apply Hother. by right.
Qed.

(** What one pass trades. *)
Lemma match_iteration_quantity w h b t w' h' b' :
  book_wf h b ->
  Book.match_iteration w h b = Some (t, w', h', b') ->
  ∃ pb buys ps sells,
    buyOrders_ b = pb :: buys ∧ sellOrders_ b = ps :: sells ∧ pb ≠ ps
    ∧ 0 < trade_quantity_ t
    ∧ trade_quantity_ t <= getRemainingQuantity (deref h pb)
    ∧ trade_quantity_ t <= getRemainingQuantity (deref h ps)
    ∧ filledQuantity_ (deref h' pb)
      = filledQuantity_ (deref h pb) + trade_quantity_ t
    ∧ filledQuantity_ (deref h' ps)
      = filledQuantity_ (deref h ps) + trade_quantity_ t
    ∧ (∀ p, p ≠ pb -> p ≠ ps -> deref h' p = deref h p).
Proof.
  intros Hwf Hit.
  destruct (match_iteration_effect _ _ _ _ _ _ _ Hwf Hit)
    as (pb & buys & ps & sells & q & Hb & Hs & Hne & Hq & Hpos & Hfb & Hfs
        & Hframe & _).
  apply match_iteration_Some in Hit
    as (pb' & buys' & ps' & sells' & Hb' & Hs' & _ & Ht & _).
  rewrite Hb in Hb'. rewrite Hs in Hs'.
  injection Hb' as <- <-. injection Hs' as <- <-.
  unfold Trade_new in Ht. simpl in Ht.
  assert (Htq : trade_quantity_ t = q) by (injection Ht as -> _; by subst q).
  destruct (heads_distinct _ _ _ _ _ _ Hwf Hb Hs) as (_ & Rb & Rs).
  exists pb, buys, ps, sells. rewrite Htq.
  destruct (fill_resting (deref h pb) q) as [Fb _];
    [apply (resting_filled _ _ _ _ Rb) | lia |].
  destruct (fill_resting (deref h ps) q) as [Fs _];
    [apply (resting_filled _ _ _ _ Rs) | lia |].
  rewrite Hfb, Hfs. split_and!; try done; lia.
Qed.

Lemma match_loop_quantities fuel : ∀ w h b trades w' h' b' LB LS,
  book_wf h b ->
  Book.match_loop fuel w h b = Some (trades, w', h', b') ->
  NoDup LB -> NoDup LS ->
  buyOrders_ b ⊆ LB -> sellOrders_ b ⊆ LS ->
  (∀ p, p ∈ LB -> p ∉ LS) ->
  filled_on h' LB = filled_on h LB + traded trades
  ∧ filled_on h' LS = filled_on h LS + traded trades
  ∧ Forall (fun t => 0 < trade_quantity_ t) trades
  ∧ (trades = []
     ∨ (length trades < length (buyOrders_ b) + length (sellOrders_ b))%nat).
Proof.
  induction fuel as [| fuel IH];
    intros w h b trades w' h' b' LB LS Hwf Hl HnB HnS HB HS Hdisj;
    simpl in Hl.
  - destruct (Book.match_iteration w h b) as [[[[t w1] h1] b1] |]; [done |].
    injection Hl as <- _ <- _. simpl. split_and!; try lia; auto.
  - destruct (Book.match_iteration w h b) as [[[[t w1] h1] b1] |] eqn:Hit;
      [| injection Hl as <- _ <- _; simpl; split_and!; try lia; auto].
    destruct (Book.match_loop fuel w1 h1 b1) as [[[[ts w2] h2] b2] |] eqn:Hl2;
      [| done].
    injection Hl as <- _ <- _.
    pose proof (match_iteration_wf _ _ _ _ _ _ _ Hwf Hit) as Hwf1.
    pose proof (match_iteration_progress _ _ _ _ _ _ _ Hwf Hit) as Hprog.
    destruct (match_iteration_sides _ _ _ _ _ _ _ Hit) as [HsB HsS].
    destruct (match_iteration_quantity _ _ _ _ _ _ _ Hwf Hit)
      as (pb & buys & ps & sells & Hb & Hs & Hne & Hpos & _ & _ & Fb & Fs
          & Hframe).
    assert (HpbB : pb ∈ LB) by (apply HB; rewrite Hb; by left).
    assert (HpsS : ps ∈ LS) by (apply HS; rewrite Hs; by left).
    destruct (IH w1 h1 b1 ts w2 h2 b2 LB LS Hwf1 Hl2 HnB HnS)
      as (IB & IS & Ipos & Ilen);
      [by etrans | by etrans | done |].
    rewrite IB, IS. simpl.
    rewrite (filled_on_update h h1 LB pb (trade_quantity_ t)); try done;
      [| intros x Hx Hxp; f_equal; apply Hframe; [done |];
         intros ->; by apply (Hdisj ps)].
    rewrite (filled_on_update h h1 LS ps (trade_quantity_ t)); try done;
      [| intros x Hx Hxp; f_equal; apply Hframe; [| done];
         intros ->; by apply (Hdisj pb)].
    split_and!; [lia | lia | by constructor |].
    right. rewrite Hb, Hs in *. simpl in *.
    destruct Ilen as [-> | Ilen]; simpl; lia.
Qed.

(** X13: [matchOrders] neither creates nor loses quantity: the bids of the
    book together are filled by exactly the total quantity of the trades,
    and so are the asks.  Every trade has a positive quantity, and there are
    fewer trades than orders in the two queues. *)
Theorem matchOrders_conserves_quantity (w : World) (h : Heap) (b : OrderBook)
    (trades : list Trade) (w' : World) (h' : Heap) (b' : OrderBook) :
  book_wf h b ->
  Book.matchOrders w h b = Some (trades, w', h', b') ->
  filled_on h' (buyOrders_ b) = filled_on h (buyOrders_ b) + traded trades
  ∧ filled_on h' (sellOrders_ b) = filled_on h (sellOrders_ b) + traded trades
  ∧ (∀ t, t ∈ trades -> 0 < trade_quantity_ t)
  ∧ (trades = []
     ∨ (length trades < length (buyOrders_ b) + length (sellOrders_ b))%nat).
Proof.
  intros Hwf Hm. unfold Book.matchOrders in Hm.
  destruct (match_loop_quantities _ _ _ _ _ _ _ _
              (buyOrders_ b) (sellOrders_ b) Hwf Hm)
    as (HB & HS & Hpos & Hlen);
    [apply (wf_buys_nodup _ _ Hwf) | apply (wf_sells_nodup _ _ Hwf)
     | done | done | |].
  { intros p Hp. apply (not_in_sides h b BUY p Hwf Hp). }
  split_and!; try done. by apply Forall_forall.
Qed.

Lemma matchOrders_conserves_quantity_witness :
  ∃ trades w' h' b',
    book_wf demo_heap demo_book
    ∧ Book.matchOrders demo_world demo_heap demo_book = Some (trades, w', h', b')
    ∧ traded trades = 100
    ∧ filled_on h' (buyOrders_ demo_book)
      = filled_on demo_heap (buyOrders_ demo_book) + traded trades
    ∧ filled_on h' (sellOrders_ demo_book)
      = filled_on demo_heap (sellOrders_ demo_book) + traded trades.
Proof.
  assert (Hwf : book_wf demo_heap demo_book)
    by (apply book_wfb_sound; vm_compute; reflexivity).
  destruct (Book.matchOrders demo_world demo_heap demo_book)
    as [[[[trades w'] h'] b'] |] eqn:Hm; [| vm_compute in Hm; discriminate].
  exists trades, w', h', b'. split; [exact Hwf |]. split; [reflexivity |].
  split; [vm_compute in Hm; injection Hm as <- _ _ _; reflexivity |].
  destruct (matchOrders_conserves_quantity _ _ _ _ _ _ _ Hwf Hm)
    as (HB & HS & _).
  split; [exact HB | exact HS].
Defined.

Lemma match_loop_None_any fuel w h b :
  Book.match_iteration w h b = None ->
  Book.match_loop fuel w h b = Some ([], w, h, b).
Proof. intros Hit. destruct fuel; simpl; by rewrite Hit. Qed.

(** X14: [matchOrders] runs the book to rest: a second call right after it
    returns no trade and changes nothing.  And it returns no trade exactly
    when a queue is empty or the best bid is priced below the best ask; it
    then changes nothing and consults neither oracle. *)
Theorem matchOrders_settles (w : World) (h : Heap) (b : OrderBook)
    (trades : list Trade) (w' : World) (h' : Heap) (b' : OrderBook) :
  Book.matchOrders w h b = Some (trades, w', h', b') ->
  Book.matchOrders w' h' b' = Some ([], w', h', b')
  ∧ (trades = []
     ↔ buyOrders_ b = [] ∨ sellOrders_ b = []
       ∨ (Book.getBestBid h b < Book.getBestAsk h b)%Q)
  ∧ (trades = [] -> w' = w ∧ h' = h ∧ b' = b).
Proof.
  intros Hm. split_and!.
  - apply match_loop_None_any. by eapply matchOrders_ends.
  - pose proof (match_loop_first _ _ _ _ _ _ _ _ Hm) as Hfirst.
    destruct (Book.match_iteration w h b) as [r |] eqn:Hit.
    + split; [done |]. intros Hno. exfalso.
      revert Hit. unfold Book.match_iteration, Book.getBestBid, Book.getBestAsk in *.
      destruct (buyOrders_ b) as [| pb buys]; [done |].
      destruct (sellOrders_ b) as [| ps sells]; [done |].
      destruct Hno as [? | [? | Hlt]]; [done | done |].
      apply Qltb_lt in Hlt. by rewrite Hlt.
    + split; [| by destruct Hfirst]. intros _.
      apply match_iteration_None in Hit as [? | [? | Hlt]]; auto.
      right. right. by apply Qltb_lt.
  - intros ->. pose proof (match_loop_first _ _ _ _ _ _ _ _ Hm) as Hfirst.
    destruct (Book.match_iteration w h b); [done |]. by destruct Hfirst.
Qed.

Lemma matchOrders_settles_witness :
  ∃ trades w' h' b',
    Book.matchOrders demo_world demo_heap demo_book = Some (trades, w', h', b')
    ∧ Book.matchOrders w' h' b' = Some ([], w', h', b').
Proof.
  destruct (Book.matchOrders demo_world demo_heap demo_book)
    as [[[[trades w'] h'] b'] |] eqn:Hm; [| vm_compute in Hm; discriminate].
  exists trades, w', h', b'. split; [reflexivity |].
  apply (matchOrders_settles _ _ _ _ _ _ _ Hm).
Defined.

(** ** Limits and spread *)

Lemma MIN_ORDER_PRICE_pos : (0 < MIN_ORDER_PRICE)%Q.
Proof. reflexivity. Qed.






(** X16: [getBestBid] and [getBestAsk] answer 0 for an empty queue, so
    [getSpread] is a spread only when both queues are non-empty: after
    [matchOrders] it is then positive.  With bids only it is minus the best
    bid, which is negative when the best bid is a valid limit order; with
    asks only it is the best ask; for an empty book it is 0. *)
Theorem getSpread_of_a_one_sided_book (h : Heap) (b : OrderBook) :
  (∀ w trades w' h' b',
     Book.matchOrders w h b = Some (trades, w', h', b') ->
     buyOrders_ b' ≠ [] -> sellOrders_ b' ≠ [] ->
     (0 < Book.getSpread h' b')%Q)
  ∧ (∀ p buys, buyOrders_ b = p :: buys -> sellOrders_ b = [] ->
       (Book.getSpread h b == - price_ (deref h p))%Q
       ∧ (isValid (deref h p) = true -> class_ (deref h p) = LimitOrder ->
          (Book.getSpread h b < 0)%Q))
  ∧ (∀ p sells, sellOrders_ b = p :: sells -> buyOrders_ b = [] ->
       (Book.getSpread h b == price_ (deref h p))%Q)
  ∧ (buyOrders_ b = [] -> sellOrders_ b = [] -> (Book.getSpread h b == 0)%Q).
Proof.
  split_and!.
  - intros w trades w' h' b' Hm Hb Hs.
    pose proof (match_iteration_None_uncrossed _ _ _ (matchOrders_ends _ _ _ _ _ _ _ Hm))
      as Hun.
    specialize (Hun Hb Hs). unfold Book.getSpread. lra.
  - intros p buys Hb Hs. unfold Book.getSpread, Book.getBestBid, Book.getBestAsk.
    rewrite Hb, Hs. split; [lra |].
    intros Hv Hcl. revert Hv. unfold isValid. rewrite Hcl.
    rewrite !andb_true_iff. unfold Qleb. rewrite !Qle_bool_iff.
    intros (_ & Hmin & _). pose proof MIN_ORDER_PRICE_pos. lra.
  - intros p sells Hs Hb. unfold Book.getSpread, Book.getBestBid, Book.getBestAsk.
    rewrite Hb, Hs. lra.
  - intros Hb Hs. unfold Book.getSpread, Book.getBestBid, Book.getBestAsk.
    rewrite Hb, Hs. lra.
Qed.

(** ** An incoming order and the best order of the other side *)

Lemma match_loop_head fuel w h b t w1 h1 b1 trades w' h' b' :
  Book.match_iteration w h b = Some (t, w1, h1, b1) ->
  Book.match_loop fuel w h b = Some (trades, w', h', b') ->
  ∃ rest, trades = t :: rest.
Proof.
  intros Hit Hl. destruct fuel as [| fuel]; simpl in Hl; rewrite Hit in Hl;
    [done |].
  destruct (Book.match_loop fuel w1 h1 b1) as [[[[ts w2] h2] b2] |]; [| done].
  injection Hl as <- _ _ _. by exists ts.
Qed.

(** The first trade of a book whose best bid is not priced below its best
    ask. *)
Lemma matchOrders_first_trade w h b trades w' h' b' pb buys ps sells :
  Book.matchOrders w h b = Some (trades, w', h', b') ->
  buyOrders_ b = pb :: buys -> sellOrders_ b = ps :: sells ->
  (price_ (deref h ps) <= price_ (deref h pb))%Q ->
  ∃ t rest, trades = t :: rest
    ∧ buyerOrderId_ t = orderId_ (deref h pb)
    ∧ sellerOrderId_ t = orderId_ (deref h ps)
    ∧ trade_price_ t = price_ (deref h ps)
    ∧ trade_quantity_ t
      = Z.min (getRemainingQuantity (deref h pb))
              (getRemainingQuantity (deref h ps)).
Proof.
  intros Hm Hb Hs Hle.
  destruct (Book.match_iteration w h b) as [[[[t w1] h1] b1] |] eqn:Hit.
  2: { apply (match_iteration_crossing _ _ _ _ _ _ _ Hb Hs) in Hit. lra. }
  destruct (match_loop_head _ _ _ _ _ _ _ _ _ _ _ _ Hit Hm) as [rest ->].
  apply match_iteration_Some in Hit
    as (pb' & buys' & ps' & sells' & Hb' & Hs' & _ & Ht & _).
  rewrite Hb in Hb'. rewrite Hs in Hs'.
  injection Hb' as <- <-. injection Hs' as <- <-.
  unfold Trade_new in Ht. simpl in Ht. injection Ht as -> _.
  eexists _, rest. split; [reflexivity |]. by split_and!.
Qed.

(** X17: [addOrder] followed by [matchOrders], as [placeOrder] calls them: a
    sell order that arrives at a book without asks and is priced at or below
    the best bid trades first with the best bid, for the smaller of the two
    remaining quantities and at its own price; a buy order that arrives at a
    book without bids and is priced at or above the best ask trades first
    with the best ask, at the price of the ask. *)
Theorem incoming_order_trades_with_the_best (p : ptr) (h : Heap)
    (b : OrderBook) (h1 : Heap) (b1 : OrderBook) (w : World)
    (trades : list Trade) (w' : World) (h' : Heap) (b' : OrderBook) :
  book_wf h b ->
  Book.addOrder (Some p) h b = (true, h1, b1) ->
  Book.matchOrders w h1 b1 = Some (trades, w', h', b') ->
  (∀ pb buys,
     orderType_ (deref h p) = SELL -> sellOrders_ b = [] ->
     buyOrders_ b = pb :: buys ->
     (price_ (deref h p) <= price_ (deref h pb))%Q ->
     ∃ t rest, trades = t :: rest
       ∧ buyerOrderId_ t = orderId_ (deref h pb)
       ∧ sellerOrderId_ t = orderId_ (deref h p)
       ∧ trade_price_ t = price_ (deref h p)
       ∧ trade_quantity_ t
         = Z.min (getRemainingQuantity (deref h pb))
                 (getRemainingQuantity (deref h p)))
  ∧ (∀ ps sells,
       orderType_ (deref h p) = BUY -> buyOrders_ b = [] ->
       sellOrders_ b = ps :: sells ->
       (price_ (deref h ps) <= price_ (deref h p))%Q ->
       ∃ t rest, trades = t :: rest
         ∧ buyerOrderId_ t = orderId_ (deref h p)
         ∧ sellerOrderId_ t = orderId_ (deref h ps)
         ∧ trade_price_ t = price_ (deref h ps)
         ∧ trade_quantity_ t
           = Z.min (getRemainingQuantity (deref h p))
                   (getRemainingQuantity (deref h ps))).
Proof.
  intros Hwf Ha Hm.
  apply addOrder_true in Ha as (p' & [= <-] & Hp & _ & _ & _ & Hh1 & Hb1).
  assert (Hnew : deref h1 p = assign_status (deref h p) ACCEPTED)
    by (rewrite Hh1; by rewrite deref_store_eq).
  assert (Hold : ∀ t x, x ∈ side b t -> t ≠ orderType_ (deref h p) ->
            deref h1 x = deref h x).
  { intros t x Hx Ht. rewrite Hh1, deref_store_ne; [done |]. intros <-.
    apply Ht. symmetry. apply (resting_type _ _ _ _ (side_resting _ _ _ _ Hwf Hx)). }
  split.
  - intros pb buys Hty Hs Hb Hle. rewrite Hty in *.
    assert (Hpb : deref h1 pb = deref h pb).
    { apply (Hold BUY); [simpl; rewrite Hb; by left | done]. }
    destruct (matchOrders_first_trade w h1 b1 trades w' h' b' pb buys p [] Hm)
      as (t & rest & -> & H1 & H2 & H3 & H4).
    { rewrite Hb1. simpl. done. }
    { rewrite Hb1. simpl. by rewrite Hs. }
    { by rewrite Hpb, Hnew. }
    exists t, rest. rewrite Hpb, Hnew in *. by split_and!.
  - intros ps sells Hty Hb Hs Hle. rewrite Hty in *.
    assert (Hps : deref h1 ps = deref h ps).
    { apply (Hold SELL); [simpl; rewrite Hs; by left | done]. }
    destruct (matchOrders_first_trade w h1 b1 trades w' h' b' p [] ps sells Hm)
      as (t & rest & -> & H1 & H2 & H3 & H4).
    { rewrite Hb1. simpl. by rewrite Hb. }
    { rewrite Hb1. simpl. done. }
    { by rewrite Hps, Hnew. }
    exists t, rest. rewrite Hps, Hnew in *. by split_and!.
Qed.

Lemma incoming_order_trades_with_the_best_witness :
  let new := mkOrder LimitOrder "s9" "U2" SELL "WIPRO" 40 (490 # 1) 5 PENDING GTC 0 in
  let h := [mkOrder LimitOrder "b0" "U1" BUY "WIPRO" 100 (500 # 1) 4 ACCEPTED GTC 0; new] in
  let b := mkOrderBook "WIPRO" [0%nat] [] (<["b0" := 0%nat]> ∅) in
  ∃ h1 b1 trades w' h' b' t rest,
    Book.addOrder (Some 1%nat) h b = (true, h1, b1)
    ∧ Book.matchOrders demo_world h1 b1 = Some (trades, w', h', b')
    ∧ trades = t :: rest
    ∧ trade_price_ t = (490 # 1)%Q ∧ trade_quantity_ t = 40.
Proof.
  intros new h b.
  assert (Hwf : book_wf h b) by (apply book_wfb_sound; vm_compute; reflexivity).
  destruct (Book.addOrder (Some 1%nat) h b) as [[ok h1] b1] eqn:Ha.
  assert (Hok : ok = true) by (vm_compute in Ha; congruence). subst ok.
  destruct (Book.matchOrders demo_world h1 b1)
    as [[[[trades w'] h'] b'] |] eqn:Hm.
  2: { vm_compute in Ha. injection Ha as <- <-. vm_compute in Hm. discriminate. }
  destruct (incoming_order_trades_with_the_best 1%nat h b h1 b1 demo_world
              trades w' h' b' Hwf Ha Hm) as [Hsell _].
  assert (Hty : orderType_ (deref h 1) = SELL) by reflexivity.
  assert (Hs : sellOrders_ b = []) by reflexivity.
  assert (Hb : buyOrders_ b = [0%nat]) by reflexivity.
  assert (Hle : (price_ (deref h 1) <= price_ (deref h 0))%Q)
    by (vm_compute; discriminate).
  destruct (Hsell 0%nat [] Hty Hs Hb Hle) as (t & rest & Ht & _ & _ & Hpr & Hq).
  exists h1, b1, trades, w', h', b', t, rest.
  split; [reflexivity |]. split; [exact Hm |]. split; [exact Ht |].
  split; [exact Hpr | exact Hq].
Defined.

(** ** Users and observers *)

(** X18: [registerUser] accepts exactly a valid user whose id is not taken;
    the user can then be looked up.  A registered user is never replaced,
    and a refused registration changes nothing. *)
Theorem registerUser_first_wins (user : option User) (s : System) :
  ((Engine.registerUser user s).1 = true
   ↔ ∃ u, user = Some u ∧ User_isValid u = true
          ∧ Engine.getUser (user_userId_ u) s = None)
  ∧ ((Engine.registerUser user s).1 = false -> (Engine.registerUser user s).2 = s)
  ∧ (∀ u, user = Some u -> (Engine.registerUser user s).1 = true ->
       Engine.getUser (user_userId_ u) (Engine.registerUser user s).2 = Some u)
  ∧ (∀ id u0, Engine.getUser id s = Some u0 ->
       Engine.getUser id (Engine.registerUser user s).2 = Some u0).
Proof.
  unfold Engine.registerUser, Engine.getUser.
  destruct user as [u |]; simpl; cycle 1.
  { split_and!; try done. split; [done | by intros (u & [=] & _)]. }
  destruct (User_isValid u) eqn:Hv; simpl; cycle 1.
  { split_and!; try done. split; [done |].
    intros (u' & [= <-] & Hv' & _). congruence. }
  destruct (users_ (engine s) !! user_userId_ u) as [u1 |] eqn:Hu; simpl.
  - split_and!; try done. split; [done |].
    intros (u' & [= <-] & _ & Hnone). congruence.
  - split_and!; try done.
    + split; [| done]. intros _. by exists u.
    + intros u' [= <-] _. by rewrite lookup_insert_eq.
    + intros id u0 Hid. rewrite lookup_insert_ne; [done |]. congruence.
Qed.

Lemma filter_ne_snoc {A} `{EqDecision A} (l : list A) (x : A) :
  filter (fun y => y ≠ x) (l ++ [x]) = filter (fun y => y ≠ x) l.
Proof.
  rewrite filter_app, filter_cons_False by (intros H; by apply H).
  by rewrite filter_nil, app_nil_r.
Qed.

Lemma filter_ne_absent {A} `{EqDecision A} (l : list A) (x : A) :
  x ∉ l -> filter (fun y => y ≠ x) l = l.
Proof.
  induction l as [| y l IH]; [done |].
  intros [Hy Hl]%not_elem_of_cons.
  rewrite filter_cons_True by (intros ->; by apply Hy). f_equal. by apply IH.
Qed.

(** X19: [unregisterObserver] removes every registration of the observer and
    leaves the other observers in their order; registering an observer that
    was not registered and unregistering it again gives back the list of
    observers as it was. *)
Theorem unregisterObserver_removes_all (observer : option nat) (s : System) :
  let s' := Engine.unregisterObserver observer s in
  (observer ∉ observers_ (engine s'))
  ∧ observers_ (engine s') `sublist_of` observers_ (engine s)
  ∧ (∀ x, x ≠ observer ->
       filter (fun y => y = x) (observers_ (engine s'))
       = filter (fun y => y = x) (observers_ (engine s)))
  ∧ (observer ∉ observers_ (engine s) ->
     Engine.unregisterObserver observer (Engine.registerObserver observer s) = s)
  ∧ observers_ (engine (Engine.unregisterObserver observer
                          (Engine.registerObserver observer
                             (Engine.registerObserver observer s))))
    = observers_ (engine s').
Proof.
  intros s'. unfold s', Engine.unregisterObserver, Engine.registerObserver.
  simpl. split_and!.
  - rewrite list_elem_of_filter. intros [Hne _]. by apply Hne.
  - apply sublist_filter.
  - intros x Hx. rewrite list_filter_filter. apply list_filter_iff.
    intros y. split; [by intros [? _] |]. intros ->. done.
  - intros Hnot. destruct s as [w h [books users obs all] cb]. simpl in *.
    by rewrite filter_ne_snoc, filter_ne_absent.
  - by rewrite !filter_ne_snoc.
Qed.

Lemma unregisterObserver_removes_all_witness :
  Engine.unregisterObserver (Some 7%nat)
    (Engine.registerObserver (Some 7%nat) (Engine.initial demo_world))
  = Engine.initial demo_world.
Proof.
  apply (unregisterObserver_removes_all (Some 7%nat) (Engine.initial demo_world)).
  simpl. apply not_elem_of_nil.
Defined.

(** ** Notifications *)

Lemma new_order_built userId ty symbol q pr w :
  (if Qltb 0 pr
   then LimitOrder_new (generateUUID w).1 userId ty symbol q pr (generateUUID w).2
   else MarketOrder_new (generateUUID w).1 userId ty symbol q (generateUUID w).2)
  = (new_order userId ty symbol q pr w,
     (getCurrentTimestamp (generateUUID w).2).2).
Proof.
  unfold new_order, LimitOrder_new, MarketOrder_new, Order_new.
  by destruct (Qltb 0 pr).
Qed.

(** [placeOrder], with its intermediate states named. *)
Lemma placeOrder_unfold userId ty symbol q pr s :
  Engine.placeOrder userId ty symbol q pr s
  = match Engine.getUser userId s with
    | None => Some (None, s)
    | Some _ =>
        let w1 := (generateUUID (world s)).2 in
        if Qltb pr 0
        then Some (None, mkSystem w1 (heap s) (engine s) (callbacks s))
        else
          let o := new_order userId ty symbol q pr (world s) in
          let w2 := (getCurrentTimestamp w1).2 in
          if negb (isValid o)
          then Some (None, mkSystem w2 (heap s) (engine s) (callbacks s))
          else
            let b0 := (Engine.getOrCreateOrderBook symbol (engine s)).1 in
            let e1 := (Engine.getOrCreateOrderBook symbol (engine s)).2 in
            let p := length (heap s) in
            let e2 := Engine.put_order (orderId_ o) p e1 in
            match Book.addOrder (Some p) (heap s ++ [o]) b0 with
            | (true, h2, b1) =>
                match Book.matchOrders w2 h2 b1 with
                | None => None
                | Some (trades, w3, h3, b2) =>
                    Some (Some p,
                          mkSystem w3 h3 (Engine.put_book symbol b2 e2)
                            (callbacks s
                               ++ Engine.orderStatusChanged_calls
                                    (observers_ (engine s)) h2 p
                               ++ flat_map
                                    (Engine.tradeExecuted_calls
                                       (observers_ (engine s)))
                                    trades))
                end
            | (false, h2, b1) =>
                Some (None,
                      mkSystem w2 h2 (Engine.put_book symbol b1 e2) (callbacks s))
            end
    end.
Proof.
  unfold Engine.placeOrder.
  destruct (Engine.getUser userId s); [| done].
  destruct (generateUUID (world s)) as [orderId w1] eqn:Hu.
  cbn [snd].
  destruct (Qltb pr 0); [done |].
  pose proof (new_order_built userId ty symbol q pr (world s)) as Hnew.
  rewrite Hu in Hnew. cbn [fst snd] in Hnew. rewrite Hnew. clear Hnew.
  cbv zeta.
  destruct (negb (isValid _)); [done |].
  destruct (Engine.getOrCreateOrderBook symbol (engine s)) as [b0 e1] eqn:Hbook.
  cbn [fst snd].
  cbv beta iota zeta delta [alloc]. rewrite deref_alloc_new.
  destruct (Book.addOrder _ _ _) as [[[] h2] b1] eqn:Hadd; [| done].
  cbv beta iota zeta delta [Engine.notifyOrderStatusChanged world heap engine callbacks].
  destruct (Book.matchOrders _ _ _) as [[[[trades w3] h3] b2] |] eqn:Hmatch;
    [| done].
  destruct (getOrCreateOrderBook_spec _ _ _ _ Hbook) as (_ & _ & Hobs & _ & _).
  rewrite notify_trades_callbacks. simpl.
  rewrite put_book_put_book, Hobs, <- app_assoc. done.
Qed.

Lemma calls_to_registered_trade observers trade c :
  c ∈ Engine.tradeExecuted_calls observers trade ->
  Some (observer_of c) ∈ observers.
Proof.
  unfold Engine.tradeExecuted_calls. rewrite list_elem_of_omap.
  intros ([i |] & Hin & Hc); simpl in Hc; [| done].
  by injection Hc as <-.
Qed.

Lemma calls_to_registered_status observers h order c :
  c ∈ Engine.orderStatusChanged_calls observers h order ->
  Some (observer_of c) ∈ observers.
Proof.
  unfold Engine.orderStatusChanged_calls. rewrite list_elem_of_omap.
  intros ([i |] & Hin & Hc); simpl in Hc; [| done].
  by injection Hc as <-.
Qed.

Lemma calls_to_registered_trades observers trades c :
  c ∈ flat_map (Engine.tradeExecuted_calls observers) trades ->
  Some (observer_of c) ∈ observers.
Proof.
  rewrite list_elem_of_In, in_flat_map. intros (t & _ & Hc).
  apply list_elem_of_In in Hc. by eapply calls_to_registered_trade.
Qed.

(** X20: the engine only ever appends to the calls its observers have
    received, and what an operation appends goes to observers that are
    registered when the operation is called: an observer that has been
    unregistered is not called again. *)
Theorem notifications_reach_registered_observers (s s' : System) :
  engine_step s s' ->
  ∃ new, callbacks s' = callbacks s ++ new
    ∧ ∀ c, c ∈ new -> Some (observer_of c) ∈ observers_ (engine s).
Proof.
  intros [user ok Hr | ob <- | ob <- | userId ty symbol q pr r Hp
          | userId orderId ok Hc | userId orderId q pr ok Hm].
  - exists []. rewrite app_nil_r. split; [| by intros c Hc%elem_of_nil].
    unfold Engine.registerUser in Hr. destruct user as [u |];
      [| by injection Hr as _ <-].
    destruct (negb _); [by injection Hr as _ <- |].
    destruct (users_ (engine s) !! _); by injection Hr as _ <-.
  - exists []. rewrite app_nil_r. split; [done | by intros c Hc%elem_of_nil].
  - exists []. rewrite app_nil_r. split; [done | by intros c Hc%elem_of_nil].
  - rewrite placeOrder_unfold in Hp.
    destruct (Engine.getUser userId s);
      [| injection Hp as _ <-; exists []; rewrite app_nil_r;
         split; [done | by intros c Hc%elem_of_nil]].
    cbv zeta in Hp.
    destruct (Qltb pr 0);
      [injection Hp as _ <-; exists []; rewrite app_nil_r;
       split; [done | by intros c Hc%elem_of_nil] |].
    destruct (negb (isValid _));
      [injection Hp as _ <-; exists []; rewrite app_nil_r;
       split; [done | by intros c Hc%elem_of_nil] |].
    destruct (Book.addOrder _ _ _) as [[[] h2] b1];
      [| injection Hp as _ <-; exists []; rewrite app_nil_r;
         split; [done | by intros c Hc%elem_of_nil]].
    destruct (Book.matchOrders _ _ _) as [[[[trades w3] h3] b2] |]; [| done].
    injection Hp as _ <-. eexists. split; [reflexivity |].
    intros c [Hc | Hc]%elem_of_app;
      [by eapply calls_to_registered_status
      | by eapply calls_to_registered_trades].
  - destruct ok;
      [| apply engine_cancelOrder_false in Hc as ->; exists [];
         rewrite app_nil_r; split; [done | by intros c Hc%elem_of_nil]].
    apply engine_cancelOrder_true in Hc
      as (order & symbol & b & h' & b' & _ & _ & _ & ->).
    eexists. split; [reflexivity |].
    intros c Hc. by eapply calls_to_registered_status.
  - destruct ok;
      [| apply engine_modifyOrder_false in Hm as ->; exists [];
         rewrite app_nil_r; split; [done | by intros c Hc%elem_of_nil]].
    apply engine_modifyOrder_true in Hm
      as (order & b & h1 & b1 & trades & w2 & h2 & b2 & _ & _ & _ & _ & ->).
    eexists. split; [reflexivity |].
    intros c [Hc | Hc]%elem_of_app;
      [by eapply calls_to_registered_status
      | by eapply calls_to_registered_trades].
Qed.

Lemma notifications_reach_registered_observers_witness :
  ∃ s' new,
    engine_step demo_system_one_bid s'
    ∧ callbacks s' = callbacks demo_system_one_bid ++ new
    ∧ ∀ c, c ∈ new -> Some (observer_of c) ∈ observers_ (engine demo_system_one_bid).
Proof.
  destruct (Engine.placeOrder "U2" SELL "WIPRO" 100 (100 # 1) demo_system_one_bid)
    as [[r s'] |] eqn:Hp; [| vm_compute in Hp; discriminate].
  assert (Hstep : engine_step demo_system_one_bid s')
    by (eapply step_placeOrder, Hp).
  destruct (notifications_reach_registered_observers _ _ Hstep)
    as (new & Hcb & Hreg).
  exists s', new. split; [exact Hstep |]. split; [exact Hcb | exact Hreg].
Defined.

(** ** The engine and its books *)

Lemma match_iteration_world w h b t w' h' b' :
  Book.match_iteration w h b = Some (t, w', h', b') ->
  uuid_seq w' = uuid_seq w ∧ uuid_calls w' = S (uuid_calls w)
  ∧ tradeId_ t = uuid_seq w (uuid_calls w).
Proof.
  intros Hit. apply match_iteration_Some in Hit
    as (pb & buys & ps & sells & _ & _ & _ & Ht & _).
  unfold Trade_new, generateUUID, getCurrentTimestamp in Ht. simpl in Ht.
  by injection Ht as -> ->.
Qed.

Lemma match_loop_world fuel : ∀ w h b trades w' h' b',
  Book.match_loop fuel w h b = Some (trades, w', h', b') ->
  uuid_seq w' = uuid_seq w
  ∧ uuid_calls w' = (uuid_calls w + length trades)%nat.
Proof.
  induction fuel as [| fuel IH]; intros w h b trades w' h' b' Hl; simpl in Hl.
  - destruct (Book.match_iteration w h b) as [[[[t w1] h1] b1] |]; [done |].
    injection Hl as <- <- _ _. simpl. split; [done | lia].
  - destruct (Book.match_iteration w h b) as [[[[t w1] h1] b1] |] eqn:Hit;
      [| injection Hl as <- <- _ _; simpl; split; [done | lia]].
    destruct (Book.match_loop fuel w1 h1 b1) as [[[[ts w2] h2] b2] |] eqn:Hl2;
      [| done].
    injection Hl as <- <- _ _.
    destruct (IH _ _ _ _ _ _ _ Hl2) as [-> ->].
    destruct (match_iteration_world _ _ _ _ _ _ _ Hit) as (-> & -> & _).
    simpl. split; [done | lia].
Qed.

Lemma consistent_indexed s id p :
  engine_consistent s ->
  allOrders_ (engine s) !! id = Some p ->
  ∃ b, orderBooks_ (engine s) !! symbol_ (deref (heap s) p) = Some b
    ∧ orderLookup_ b !! id = Some p
    ∧ book_wf (heap s) b
    ∧ book_symbol_ b = symbol_ (deref (heap s) p)
    ∧ (p < length (heap s))%nat
    ∧ orderId_ (deref (heap s) p) = id.
Proof.
  intros Hc Hall.
  destruct (consistent_all _ Hc _ _ Hall) as (b & Hb & Hlk).
  destruct (consistent_wf _ Hc _ _ Hb) as [Hsym Hwf].
  destruct (wf_lookup _ _ Hwf _ _ Hlk) as [Hp Hid _ _].
  by exists b.
Qed.

(** The next UUID is the id of no order. *)
Lemma consistent_fresh s :
  engine_consistent s ->
  allOrders_ (engine s) !! uuid_seq (world s) (uuid_calls (world s)) = None.
Proof.
  intros Hc.
  destruct (allOrders_ (engine s) !! _) as [p |] eqn:Hall; [| done].
  destruct (consistent_used _ Hc _ (mk_is_Some _ _ Hall)) as (i & Hi & Heq).
  apply (consistent_uuids _ Hc) in Heq. lia.
Qed.

(** An id is indexed by one book only. *)
Lemma consistent_one_book s symbol1 b1 symbol2 b2 id p1 p2 :
  engine_consistent s ->
  orderBooks_ (engine s) !! symbol1 = Some b1 ->
  orderBooks_ (engine s) !! symbol2 = Some b2 ->
  orderLookup_ b1 !! id = Some p1 -> orderLookup_ b2 !! id = Some p2 ->
  symbol1 = symbol2.
Proof.
  intros Hc Hb1 Hb2 H1 H2.
  pose proof (consistent_books _ Hc _ _ _ _ Hb1 H1) as Ha1.
  pose proof (consistent_books _ Hc _ _ _ _ Hb2 H2) as Ha2.
  rewrite Ha1 in Ha2. injection Ha2 as <-.
  destruct (consistent_wf _ Hc _ _ Hb1) as [<- Hwf1].
  destruct (consistent_wf _ Hc _ _ Hb2) as [<- Hwf2].
  destruct (wf_lookup _ _ Hwf1 _ _ H1) as [_ _ <- _].
  by destruct (wf_lookup _ _ Hwf2 _ _ H2) as [_ _ <- _].
Qed.

Lemma engine_consistent_initial w :
  uuids_distinct w -> engine_consistent (Engine.initial w).
Proof.
  intros Hw. split.
  - apply system_wf_initial.
  - done.
  - intros id p Hp. simpl in Hp. by rewrite lookup_empty in Hp.
  - intros symbol b id p Hb. simpl in Hb. by rewrite lookup_empty in Hb.
  - intros id [p Hp]. simpl in Hp. by rewrite lookup_empty in Hp.
Qed.

(** Operations that touch neither the books, nor [allOrders_], nor the
    heap. *)
Lemma engine_consistent_frame s s' :
  engine_consistent s ->
  heap s' = heap s ->
  orderBooks_ (engine s') = orderBooks_ (engine s) ->
  allOrders_ (engine s') = allOrders_ (engine s) ->
  uuid_seq (world s') = uuid_seq (world s) ->
  (uuid_calls (world s) <= uuid_calls (world s'))%nat ->
  engine_consistent s'.
Proof.
  intros [Hwf Hu Hall Hbooks Hused] Hh Hb Ha Hseq Hcalls. split.
  - intros symbol b. rewrite Hb, Hh. apply Hwf.
  - unfold uuids_distinct. rewrite Hseq. apply Hu.
  - intros id p. rewrite Ha, Hb, Hh. apply Hall.
  - intros symbol b id p. rewrite Ha, Hb. apply Hbooks.
  - intros id. rewrite Ha, Hseq. intros Hid.
    destruct (Hused id Hid) as (i & Hi & Heq). exists i. split; [lia | done].
Qed.

Lemma addOrder_accepts p h b :
  symbol_ (deref h p) = book_symbol_ b ->
  isValid (deref h p) = true ->
  orderLookup_ b !! orderId_ (deref h p) = None ->
  (Book.addOrder (Some p) h b).1.1 = true.
Proof.
  intros Hs Hv Hl. unfold Book.addOrder.
  rewrite Hs, String.eqb_refl, Hv, Hl. done.
Qed.

Lemma deref_alloc_cases (h : Heap) (o : Order) (x : ptr) :
  (x < length h)%nat ∧ deref (h ++ [o]) x = deref h x
  ∨ x = length h ∧ deref (h ++ [o]) x = o
  ∨ (length h < x)%nat ∧ deref (h ++ [o]) x = null_order.
Proof.
  destruct (lt_eq_lt_dec x (length h)) as [[Hlt | ->] | Hgt].
  - left. split; [done | by apply deref_alloc_old].
  - right. left. split; [done | apply deref_alloc_new].
  - right. right. split; [done |]. apply deref_out_of_range.
    rewrite length_app. simpl. lia.
Qed.

Lemma placeOrder_fresh_id s userId ty symbol q pr :
  engine_consistent s ->
  isValid (new_order userId ty symbol q pr (world s)) = true ->
  (Book.addOrder (Some (length (heap s)))
     (heap s ++ [new_order userId ty symbol q pr (world s)])
     (Engine.getOrCreateOrderBook symbol (engine s)).1).1.1 = true.
Proof.
  intros Hc Hv.
  destruct (Engine.getOrCreateOrderBook symbol (engine s)) as [b0 e1] eqn:Hget.
  destruct (getOrCreateOrderBook_wf _ _ _ _ (consistent_wf _ Hc) Hget)
    as (Hsym & _ & _).
  destruct (getOrCreateOrderBook_spec _ _ _ _ Hget)
    as (_ & _ & _ & _ & Hcases).
  simpl. apply addOrder_accepts; rewrite deref_alloc_new; [done | done |].
  simpl.
  destruct (orderLookup_ b0 !! _) as [p |] eqn:Hlk; [| done].
  destruct Hcases as [[Hold _] | (_ & -> & _)];
    [| simpl in Hlk; by rewrite lookup_empty in Hlk].
  pose proof (consistent_books _ Hc _ _ _ _ Hold Hlk) as Hall.
  by rewrite (consistent_fresh _ Hc) in Hall.
Qed.

Lemma placeOrder_consistent s userId ty symbol q pr r s' :
  engine_consistent s ->
  Engine.placeOrder userId ty symbol q pr s = Some (r, s') ->
  engine_consistent s'.
Proof.
  intros Hc Hp.
  pose proof (placeOrder_wf _ _ _ _ _ _ _ _ (consistent_wf _ Hc) Hp) as Hwf'.
  rewrite placeOrder_unfold in Hp.
  destruct (Engine.getUser userId s); [| by injection Hp as _ <-].
  cbv zeta in Hp.
  destruct (Qltb pr 0).
  { injection Hp as _ <-. apply (engine_consistent_frame s); simpl; try done. lia. }
  set (o := new_order userId ty symbol q pr (world s)) in *.
  destruct (isValid o) eqn:Hv; cbn [negb] in Hp; cycle 1.
  { injection Hp as _ <-. apply (engine_consistent_frame s); simpl; try done. lia. }
  pose proof (placeOrder_fresh_id s userId ty symbol q pr Hc Hv) as Hacc.
  fold o in Hacc.
  destruct (Engine.getOrCreateOrderBook symbol (engine s)) as [b0 e1] eqn:Hget.
  cbn [fst snd] in Hp, Hacc.
  destruct (Book.addOrder _ _ b0) as [[ok h2] b1] eqn:Hadd.
  cbn [fst] in Hacc. subst ok.
  destruct (Book.matchOrders _ h2 b1) as [[[[trades w3] h3] b2] |] eqn:Hm;
    [| done].
  injection Hp as _ <-.
  destruct (getOrCreateOrderBook_wf _ _ _ _ (consistent_wf _ Hc) Hget)
    as (Hsym0 & Hwf0 & _).
  destruct (getOrCreateOrderBook_spec _ _ _ _ Hget)
    as (Hb0 & _ & _ & Hall1 & Hcases).
  pose proof (match_loop_world _ _ _ _ _ _ _ _ Hm) as [Hseq Hcalls].
  pose proof (match_loop_lookup _ _ _ _ _ _ _ _ Hm) as Hlk2.
  pose proof (fun x => match_loop_same_terms _ _ _ _ _ _ _ _ x Hm) as Hsame.
  apply addOrder_true in Hadd
    as (p' & [= <-] & _ & _ & _ & _ & Hh2 & Hb1).
  rewrite deref_alloc_new in Hh2, Hb1.
  assert (Hlk1 : orderLookup_ b1
                 = <[orderId_ o := length (heap s)]> (orderLookup_ b0))
    by (rewrite Hb1; apply with_side_lookup).
  (* the objects of the old heap keep their symbol *)
  assert (Hold : ∀ x, (x < length (heap s))%nat ->
            symbol_ (deref h3 x) = symbol_ (deref (heap s) x)).
  { intros x Hx. destruct (Hsame x) as (_ & _ & _ & _ & -> & _).
    rewrite Hh2, deref_store_ne by lia. by rewrite deref_alloc_old. }
  assert (Hnew : symbol_ (deref h3 (length (heap s))) = symbol).
  { destruct (Hsame (length (heap s))) as (_ & _ & _ & _ & -> & _).
    rewrite Hh2, deref_store_eq; [done |]. rewrite length_app. simpl. lia. }
  assert (Hother : ∀ symbol', symbol' ≠ symbol ->
            orderBooks_ e1 !! symbol' = orderBooks_ (engine s) !! symbol').
  { intros symbol' Hne.
    destruct Hcases as [[_ ->] | (_ & _ & ->)]; [done |].
    by rewrite lookup_insert_ne. }
  assert (Hb0old : ∀ b, orderBooks_ (engine s) !! symbol = Some b -> b = b0).
  { intros b Hb. destruct Hcases as [[Hb' _] | (Hnone & _)]; congruence. }
  split; simpl.
  - done.
  - unfold uuids_distinct. rewrite Hseq. simpl. apply (consistent_uuids _ Hc).
  - intros id p. rewrite Hall1.
    destruct (decide (orderId_ o = id)) as [<- | Hne].
    + rewrite lookup_insert_eq. intros [= <-]. rewrite Hnew. exists b2.
      rewrite lookup_insert_eq, Hlk2, Hlk1, lookup_insert_eq. done.
    + rewrite lookup_insert_ne by done. intros Hall.
      destruct (consistent_indexed _ _ _ Hc Hall)
        as (b & Hb & Hlk & _ & _ & Hp & _).
      rewrite (Hold p Hp).
      destruct (decide (symbol_ (deref (heap s) p) = symbol)) as [Hs | Hs].
      * rewrite Hs in *. exists b2. rewrite lookup_insert_eq. split; [done |].
        rewrite Hlk2, Hlk1, lookup_insert_ne by done.
        by rewrite <- (Hb0old b Hb).
      * exists b. rewrite lookup_insert_ne by done. by rewrite Hother.
  - intros symbol' b id p. rewrite Hall1.
    destruct (decide (symbol' = symbol)) as [-> | Hs].
    + rewrite lookup_insert_eq. intros [= <-]. rewrite Hlk2, Hlk1.
      destruct (decide (orderId_ o = id)) as [<- | Hne].
      * by rewrite !lookup_insert_eq.
      * rewrite !lookup_insert_ne by done. intros Hlk.
        destruct Hcases as [[Hb' _] | (_ & -> & _)];
          [| simpl in Hlk; by rewrite lookup_empty in Hlk].
        by apply (consistent_books _ Hc _ _ _ _ Hb').
    + rewrite lookup_insert_ne, Hother by done. intros Hb Hlk.
      pose proof (consistent_books _ Hc _ _ _ _ Hb Hlk) as Hall.
      destruct (decide (orderId_ o = id)) as [<- | Hne];
        [| by rewrite lookup_insert_ne].
      unfold o in Hall. simpl in Hall.
      by rewrite (consistent_fresh _ Hc) in Hall.
  - intros id. rewrite Hall1, Hseq, Hcalls. simpl.
    destruct (decide (orderId_ o = id)) as [<- | Hne].
    + intros _. exists (uuid_calls (world s)). split; [lia | done].
    + rewrite lookup_insert_ne by done. intros Hid.
      destruct (consistent_used _ Hc _ Hid) as (i & Hi & Heq).
      exists i. split; [lia | done].
Qed.

Lemma cancelOrder_consistent s userId orderId ok s' :
  engine_consistent s ->
  Engine.cancelOrder userId orderId s = (ok, s') ->
  engine_consistent s'.
Proof.
  intros Hc Hcancel.
  pose proof (engine_cancelOrder_wf _ _ _ _ _ (consistent_wf _ Hc) Hcancel) as Hwf'.
  destruct ok; [| by apply engine_cancelOrder_false in Hcancel as ->].
  apply engine_cancelOrder_true in Hcancel
    as (order & symbol & b & h' & b' & _ & Hb & Hbc & ->).
  apply cancelOrder_changes in Hbc as (p & Hlk & _ & -> & Hsym & Hidx).
  assert (Hkeep : ∀ x, symbol_ (deref (store (heap s) p
                                  (assign_status (deref (heap s) p) CANCELLED)) x)
                       = symbol_ (deref (heap s) x)).
  { intros x. destruct (decide (x = p)) as [-> | Hx];
      [| by rewrite deref_store_ne].
    destruct (decide (p < length (heap s))%nat);
      [by rewrite deref_store_eq | by rewrite store_out_of_range by lia]. }
  split; simpl.
  - done.
  - apply (consistent_uuids _ Hc).
  - intros id q Hall. rewrite Hkeep.
    destruct (consistent_all _ Hc _ _ Hall) as (b0 & Hb0 & Hlk0).
    destruct (decide (symbol_ (deref (heap s) q) = symbol)) as [Hs | Hs].
    + rewrite Hs in *. exists b'. rewrite lookup_insert_eq. split; [done |].
      rewrite Hidx. congruence.
    + exists b0. by rewrite lookup_insert_ne.
  - intros symbol' b0 id q.
    destruct (decide (symbol' = symbol)) as [-> | Hs].
    + rewrite lookup_insert_eq. intros [= <-]. rewrite Hidx.
      by apply (consistent_books _ Hc _ _ _ _ Hb).
    + rewrite lookup_insert_ne by done. apply (consistent_books _ Hc).
  - apply (consistent_used _ Hc).
Qed.

Lemma modifyOrder_consistent s userId orderId q pr ok s' :
  engine_consistent s ->
  Engine.modifyOrder userId orderId q pr s = Some (ok, s') ->
  engine_consistent s'.
Proof.
  intros Hc Hmod.
  pose proof (engine_modifyOrder_wf _ _ _ _ _ _ _ (consistent_wf _ Hc) Hmod)
    as Hwf'.
  destruct ok; [| by apply engine_modifyOrder_false in Hmod as ->].
  apply engine_modifyOrder_true in Hmod
    as (order & b & h1 & b1 & trades & w2 & h2 & b2 & Hall & Hb & Hbm & Hm & ->).
  set (symbol := symbol_ (deref (heap s) order)) in *.
  pose proof (match_loop_world _ _ _ _ _ _ _ _ Hm) as [Hseq Hcalls].
  pose proof (match_loop_lookup _ _ _ _ _ _ _ _ Hm) as Hlk2.
  pose proof (fun x => match_loop_same_terms _ _ _ _ _ _ _ _ x Hm) as Hsame.
  apply modifyOrder_true in Hbm
    as (p & l' & Hlk & _ & _ & _ & _ & _ & _ & Hh1 & Hb1).
  assert (Hp : order = p).
  { pose proof (consistent_books _ Hc _ _ _ _ Hb Hlk). congruence. }
  subst order.
  assert (Hlk1 : orderLookup_ b1 = <[orderId := length (heap s)]> (orderLookup_ b))
    by (rewrite Hb1; apply with_side_lookup).
  assert (Hold : ∀ x, (x < length (heap s))%nat ->
            symbol_ (deref h2 x) = symbol_ (deref (heap s) x)).
  { intros x Hx. destruct (Hsame x) as (_ & _ & _ & _ & -> & _).
    by rewrite Hh1, deref_alloc_old. }
  assert (Hnew : symbol_ (deref h2 (length (heap s))) = symbol).
  { destruct (Hsame (length (heap s))) as (_ & _ & _ & _ & -> & _).
    by rewrite Hh1, deref_alloc_new. }
  split; simpl.
  - done.
  - unfold uuids_distinct. rewrite Hseq. apply (consistent_uuids _ Hc).
  - intros id x.
    destruct (decide (orderId = id)) as [<- | Hne].
    + rewrite lookup_insert_eq. intros [= <-]. rewrite Hnew. exists b2.
      by rewrite lookup_insert_eq, Hlk2, Hlk1, lookup_insert_eq.
    + rewrite lookup_insert_ne by done. intros Hallx.
      destruct (consistent_indexed _ _ _ Hc Hallx)
        as (b0 & Hb0 & Hlk0 & _ & _ & Hx & _).
      rewrite (Hold x Hx).
      destruct (decide (symbol_ (deref (heap s) x) = symbol)) as [Hs | Hs].
      * rewrite Hs in *. exists b2. rewrite lookup_insert_eq. split; [done |].
        rewrite Hlk2, Hlk1, lookup_insert_ne by done. congruence.
      * exists b0. by rewrite lookup_insert_ne.
  - intros symbol' b0 id x.
    destruct (decide (symbol' = symbol)) as [-> | Hs].
    + rewrite lookup_insert_eq. intros [= <-]. rewrite Hlk2, Hlk1.
      destruct (decide (orderId = id)) as [<- | Hne].
      * by rewrite !lookup_insert_eq.
      * rewrite !lookup_insert_ne by done.
        by apply (consistent_books _ Hc _ _ _ _ Hb).
    + rewrite lookup_insert_ne by done. intros Hb0 Hlk0.
      destruct (decide (orderId = id)) as [<- | Hne].
      * exfalso. apply Hs.
        by apply (consistent_one_book s symbol' b0 symbol b orderId x p).
      * rewrite lookup_insert_ne by done.
        by apply (consistent_books _ Hc _ _ _ _ Hb0).
  - intros id. rewrite Hseq, Hcalls. intros Hid.
    assert (Hid' : is_Some (allOrders_ (engine s) !! id)).
    { destruct (decide (orderId = id)) as [<- | Hne];
        [by rewrite Hall | by rewrite lookup_insert_ne in Hid]. }
    destruct (consistent_used _ Hc _ Hid') as (i & Hi & Heq).
    exists i. split; [lia | done].
Qed.

Lemma engine_step_consistent s s' :
  engine_consistent s -> engine_step s s' -> engine_consistent s'.
Proof.
  intros Hc [user ok Hr | ob <- | ob <- | userId ty symbol q pr r Hp
             | userId orderId ok Hcancel | userId orderId q pr ok Hm].
  - unfold Engine.registerUser in Hr. destruct user as [u |];
      [| by injection Hr as _ <-].
    destruct (negb _); [by injection Hr as _ <- |].
    destruct (users_ (engine s) !! _); injection Hr as _ <-; [done |].
    by apply (engine_consistent_frame s).
  - by apply (engine_consistent_frame s).
  - by apply (engine_consistent_frame s).
  - by eapply placeOrder_consistent.
  - by eapply cancelOrder_consistent.
  - by eapply modifyOrder_consistent.
Qed.

Lemma rtc_consistent s s' :
  engine_consistent s -> rtc engine_step s s' -> engine_consistent s'.
Proof.
  intros Hc Hsteps. induction Hsteps as [s | s s1 s' Hstep Hsteps IH]; [done |].
  apply IH. by eapply engine_step_consistent.
Qed.

Lemma reachable_consistent w s :
  uuids_distinct w -> rtc engine_step (Engine.initial w) s ->
  engine_consistent s.
Proof.
  intros Hw Hsteps. eapply rtc_consistent; [| done].
  by apply engine_consistent_initial.
Qed.

Lemma counting_world_distinct : uuids_distinct counting_world.
Proof.
  intros i j Heq. unfold counting_world in Heq.
  cbv beta iota delta [uuid_seq String.append] in Heq. injection Heq as Heq.
  apply (f_equal NilEmpty.uint_of_string) in Heq.
  rewrite !NilEmpty.usu in Heq. injection Heq as Heq.
  apply (f_equal Nat.of_uint) in Heq.
  by rewrite !DecimalNat.Unsigned.of_to in Heq.
Qed.

Lemma counting_system_reachable :
  rtc engine_step (Engine.initial counting_world) counting_system.
Proof.
  eapply rtc_l; [by eapply (step_registerObserver _ _ (Some 7%nat)) |].
  eapply rtc_l;
    [by eapply (step_registerUser _ _ (Some (demo_user "U1")) true) |].
  eapply rtc_l;
    [by eapply (step_registerUser _ _ (Some (demo_user "U2")) true) |].
  apply rtc_refl.
Qed.

Lemma counting_system_places :
  Engine.placeOrder "U1" BUY "WIPRO" 100 (105 # 1) counting_system
  = Some (Some 0%nat, counting_system_one_bid).
Proof. vm_compute. reflexivity. Qed.

Lemma counting_system_one_bid_reachable :
  rtc engine_step (Engine.initial counting_world) counting_system_one_bid.
Proof.
  eapply rtc_r; [apply counting_system_reachable |].
  eapply step_placeOrder, counting_system_places.
Qed.

Lemma counting_system_consistent : engine_consistent counting_system.
Proof.
  apply (reachable_consistent counting_world);
    [apply counting_world_distinct | apply counting_system_reachable].
Qed.

Lemma counting_system_one_bid_consistent :
  engine_consistent counting_system_one_bid.
Proof.
  apply (reachable_consistent counting_world);
    [apply counting_world_distinct | apply counting_system_one_bid_reachable].
Qed.

(** X21: in every state that the engine reaches from its initial state,
    given that the generator never repeats a UUID, the engine's map of all
    orders and the id indexes of its books agree: an order id known to the
    engine is indexed by the book filed under the order's symbol, and by no
    other book, to the very object the engine knows; and every order a book
    indexes is known to the engine. *)
Theorem engine_and_books_agree (w : World) (s : System) :
  uuids_distinct w ->
  rtc engine_step (Engine.initial w) s ->
  system_wf s
  ∧ (∀ id p, allOrders_ (engine s) !! id = Some p ->
       orderId_ (deref (heap s) p) = id
       ∧ ∃ b, orderBooks_ (engine s) !! symbol_ (deref (heap s) p) = Some b
           ∧ Book.getOrder id b = Some p)
  ∧ (∀ symbol b id p, orderBooks_ (engine s) !! symbol = Some b ->
       Book.getOrder id b = Some p ->
       allOrders_ (engine s) !! id = Some p
       ∧ symbol_ (deref (heap s) p) = symbol).
Proof.
  intros Hw Hsteps.
  assert (Hc : engine_consistent s).
  { pose proof (engine_consistent_initial w Hw) as Hinit.
    induction Hsteps as [s | s s1 s' Hstep Hsteps IH]; [done |].
    apply IH. by apply (engine_step_consistent s). }
  split_and!.
  - apply (consistent_wf _ Hc).
  - intros id p Hall.
    destruct (consistent_indexed _ _ _ Hc Hall) as (b & ? & ? & _ & _ & _ & ?).
    split; [done |]. by exists b.
  - intros symbol b id p Hb Hlk. unfold Book.getOrder in Hlk.
    split; [by apply (consistent_books _ Hc _ _ _ _ Hb) |].
    destruct (consistent_wf _ Hc _ _ Hb) as [<- Hwf].
    by destruct (wf_lookup _ _ Hwf _ _ Hlk) as [_ _ ? _].
Qed.

Lemma engine_and_books_agree_witness :
  uuids_distinct counting_world
  ∧ rtc engine_step (Engine.initial counting_world) counting_system_one_bid
  ∧ allOrders_ (engine counting_system_one_bid) !! "o0" = Some 0%nat
  ∧ orderId_ (deref (heap counting_system_one_bid) 0) = "o0".
Proof.
  split; [apply counting_world_distinct |].
  split; [apply counting_system_one_bid_reachable |].
  assert (Hall : allOrders_ (engine counting_system_one_bid) !! "o0" = Some 0%nat)
    by (vm_compute; reflexivity).
  split; [exact Hall |].
  destruct (engine_and_books_agree counting_world counting_system_one_bid
              counting_world_distinct counting_system_one_bid_reachable)
    as (_ & Hagree & _).
  apply (Hagree "o0" 0%nat Hall).
Defined.

(** ** Placing an order *)

Lemma new_order_valid userId ty symbol q pr w :
  Qltb pr 0 = false ->
  isValid (new_order userId ty symbol q pr w) = true
  ↔ empty (uuid_seq w (uuid_calls w)) = false ∧ empty userId = false
    ∧ empty symbol = false ∧ 0 < q <= MAX_ORDER_QUANTITY
    ∧ ((pr == 0)%Q ∨ ((MIN_ORDER_PRICE <= pr)%Q ∧ (pr <= MAX_ORDER_PRICE)%Q)).
Proof.
  intros Hneg%Qltb_nlt. pose proof MIN_ORDER_PRICE_pos as Hmin.
  unfold isValid, new_order. simpl.
  rewrite !andb_true_iff, !negb_true_iff, Z.ltb_lt, Z.leb_le.
  destruct (Qltb 0 pr) eqn:Hpos; unfold Qleb; rewrite ?andb_true_iff, !Qle_bool_iff.
  - apply Qltb_lt in Hpos. split.
    + intros [[[[[? ?] ?] ?] ?] [? ?]]. split_and!; try done. by right.
    + intros (? & ? & ? & [? ?] & [Hz | [? ?]]); [lra |]. by split_and!.
  - apply Qltb_nlt in Hpos. split.
    + intros [[[[[? ?] ?] ?] ?] _]. split_and!; try done. left. lra.
    + intros (? & ? & ? & [? ?] & _). split_and!; try done.
Qed.

(** What [placeOrder] accepts when the price is a number. *)
Lemma placeOrder_accepts (s : System) (userId : UserId)
    (ty : OrderType) (symbol : Symbol) (q : Quantity) (pr : Price) :
  engine_consistent s ->
  ∃ r s',
    Engine.placeOrder userId ty symbol q pr s = Some (r, s')
    ∧ (is_Some r
       ↔ is_Some (Engine.getUser userId s)
         ∧ empty (uuid_seq (world s) (uuid_calls (world s))) = false
         ∧ empty userId = false ∧ empty symbol = false
         ∧ 0 < q <= MAX_ORDER_QUANTITY
         ∧ ((pr == 0)%Q
            ∨ ((MIN_ORDER_PRICE <= pr)%Q ∧ (pr <= MAX_ORDER_PRICE)%Q)))
    ∧ (r = None ->
       heap s' = heap s ∧ engine s' = engine s ∧ callbacks s' = callbacks s).
Proof.
  intros Hc. pose proof MIN_ORDER_PRICE_pos as Hmin.
  destruct (placeOrder_returns userId ty symbol q pr s (consistent_wf _ Hc))
    as [[r s'] Hp].
  exists r, s'. split; [done |].
  rewrite placeOrder_unfold in Hp.
  destruct (Engine.getUser userId s) as [u |].
  2: { injection Hp as <- <-. split; [| done].
       split; [by intros [? ?] | by intros [[? ?] _]]. }
  cbv zeta in Hp.
  destruct (Qltb pr 0) eqn:Hneg.
  { injection Hp as <- <-. split; [| done].
    apply Qltb_lt in Hneg. split; [by intros [? ?] |].
    intros (_ & _ & _ & _ & _ & [? | [? _]]); lra. }
  pose proof (new_order_valid userId ty symbol q pr (world s) Hneg) as Hvalid.
  destruct (isValid (new_order userId ty symbol q pr (world s))) eqn:Hv;
    cbn [negb] in Hp; cycle 1.
  { injection Hp as <- <-. split; [| done].
    split; [by intros [? ?] |]. intros (_ & Hrest).
    apply Hvalid in Hrest. done. }
  pose proof (placeOrder_fresh_id s userId ty symbol q pr Hc Hv) as Hacc.
  destruct (Book.addOrder _ _ _) as [[ok h2] b1]. cbn [fst] in Hacc. subst ok.
  destruct (Book.matchOrders _ h2 b1) as [[[[trades w3] h3] b2] |]; [| done].
  injection Hp as <- <-. split; [| done].
  split; [| by intros _]. intros _. split; [done |]. by apply Hvalid.
Qed.

(** For a number [placeOrder_double] is [placeOrder]; for NaN it is
    [placeOrder] of the price 0. *)
Lemma placeOrder_double_Num userId ty symbol q pr s :
  Engine.placeOrder_double userId ty symbol q (Num pr) s
  = Engine.placeOrder userId ty symbol q pr s.
Proof. reflexivity. Qed.

Lemma placeOrder_double_NaN userId ty symbol q s :
  Engine.placeOrder_double userId ty symbol q NaN s
  = Engine.placeOrder userId ty symbol q 0 s.
Proof. reflexivity. Qed.

Lemma placed_order_terms s userId ty symbol q pr p s' :
  system_wf s ->
  Engine.placeOrder userId ty symbol q pr s = Some (Some p, s') ->
  class_ (deref (heap s') p) = (if Qltb 0 pr then LimitOrder else MarketOrder)
  ∧ price_ (deref (heap s') p) = (if Qltb 0 pr then pr else 0%Q).
Proof.
  intros Hwf Hp.
  apply placeOrder_accepted in Hp
    as (o & w2 & b0 & e1 & h2 & b1 & trades & w3 & h3 & b2 & -> & _ & _ & _
        & _ & _ & Hcl & Hpr & _ & Hadd & Hm & ->).
  cbn [heap].
  pose proof (match_loop_same_terms _ _ _ _ _ _ _ _ (length (heap s)) Hm)
    as (Hcl' & _ & _ & _ & _ & _ & Hpr' & _).
  apply addOrder_true in Hadd as (p' & [= <-] & _ & _ & _ & _ & Hh2 & _).
  rewrite deref_alloc_new in Hh2.
  rewrite Hh2, deref_store_eq in Hcl', Hpr' by (rewrite length_app; simpl; lia).
  simpl in Hcl', Hpr'. by rewrite Hcl', Hpr'.
Qed.

(** X22: in a consistent state of the engine ([engine_consistent], which
    holds of every state reached when the generator never repeats a UUID),
    [placeOrder] returns, whatever the price, NaN included.  It returns an
    order exactly when the user is registered, no text involved is empty,
    the quantity lies between 1 and [MAX_ORDER_QUANTITY], and the price is
    NaN, or 0, or lies between [MIN_ORDER_PRICE] and [MAX_ORDER_PRICE].  A
    call that returns [nullptr] leaves the orders, the books, the users and
    the observers untouched and notifies nobody.  A price that is NaN gives
    a market order, stored with price 0. *)
Theorem placeOrder_accepts_iff (s : System) (userId : UserId)
    (ty : OrderType) (symbol : Symbol) (q : Quantity) (price : double) :
  engine_consistent s ->
  ∃ r s',
    Engine.placeOrder_double userId ty symbol q price s = Some (r, s')
    ∧ (is_Some r
       ↔ is_Some (Engine.getUser userId s)
         ∧ empty (uuid_seq (world s) (uuid_calls (world s))) = false
         ∧ empty userId = false ∧ empty symbol = false
         ∧ 0 < q <= MAX_ORDER_QUANTITY
         ∧ match price with
           | NaN => True
           | Num pr =>
               (pr == 0)%Q
               ∨ ((MIN_ORDER_PRICE <= pr)%Q ∧ (pr <= MAX_ORDER_PRICE)%Q)
           end)
    ∧ (r = None ->
       heap s' = heap s ∧ engine s' = engine s ∧ callbacks s' = callbacks s)
    ∧ (∀ p, r = Some p -> price = NaN ->
         class_ (deref (heap s') p) = MarketOrder
         ∧ price_ (deref (heap s') p) = 0%Q).
Proof.
  intros Hc. destruct price as [pr |].
  - rewrite placeOrder_double_Num.
    destruct (placeOrder_accepts s userId ty symbol q pr Hc)
      as (r & s' & Hp & Hiff & Hnone).
    exists r, s'. by split_and!.
  - rewrite placeOrder_double_NaN.
    destruct (placeOrder_accepts s userId ty symbol q 0 Hc)
      as (r & s' & Hp & Hiff & Hnone).
    exists r, s'. split_and!; try done.
    + rewrite Hiff. split.
      * intros (? & ? & ? & ? & ? & _). split_and!; try done; lia.
      * intros (? & ? & ? & ? & ? & _). split_and!; try done; try lia. by left.
    + intros p -> _.
      by destruct (placed_order_terms _ _ _ _ _ _ _ _ (consistent_wf _ Hc) Hp).
Qed.

Lemma placeOrder_accepts_iff_witness :
  engine_consistent counting_system
  ∧ (∃ r s',
       Engine.placeOrder_double "U1" BUY "WIPRO" 100 (Num (105 # 1))
         counting_system = Some (r, s')
       ∧ is_Some r)
  ∧ (∃ p s',
       Engine.placeOrder_double "U1" BUY "WIPRO" 100 NaN counting_system
       = Some (Some p, s')
       ∧ class_ (deref (heap s') p) = MarketOrder)
  ∧ (∃ s',
       Engine.placeOrder_double "U1" BUY "WIPRO" 100 (Num (2000000 # 1))
         counting_system = Some (None, s')
       ∧ engine s' = engine counting_system).
Proof.
  split; [apply counting_system_consistent |]. split_and!.
  - destruct (placeOrder_accepts_iff counting_system "U1" BUY "WIPRO" 100
                (Num (105 # 1)) counting_system_consistent)
      as (r & s' & Hp & Hiff & _).
    exists r, s'. split; [exact Hp |].
    apply Hiff. split; [eexists; reflexivity |].
    split; [reflexivity |]. split; [reflexivity |]. split; [reflexivity |].
    split; [vm_compute; split; [reflexivity | discriminate] |].
    right. split; vm_compute; discriminate.
  - destruct (placeOrder_accepts_iff counting_system "U1" BUY "WIPRO" 100
                NaN counting_system_consistent)
      as (r & s' & Hp & Hiff & _ & Hnan).
    assert (Hr : is_Some r).
    { apply Hiff. split; [eexists; reflexivity |].
      split; [reflexivity |]. split; [reflexivity |]. split; [reflexivity |].
      split; [vm_compute; split; [reflexivity | discriminate] | exact I]. }
    destruct r as [p |]; [| by destruct Hr].
    exists p, s'. split; [exact Hp |]. exact (proj1 (Hnan p eq_refl eq_refl)).
  - destruct (placeOrder_accepts_iff counting_system "U1" BUY "WIPRO" 100
                (Num (2000000 # 1)) counting_system_consistent)
      as (r & s' & Hp & Hiff & Hnone & _).
    destruct r as [p |].
    + exfalso. destruct (proj1 Hiff (mk_is_Some _ _ eq_refl))
        as (_ & _ & _ & _ & _ & [Hz | [_ Hmax]]).
      * vm_compute in Hz. discriminate.
      * vm_compute in Hmax. by apply Hmax.
    + exists s'. split; [exact Hp |]. exact (proj1 (proj2 (Hnone eq_refl))).
Defined.

(** X23: the order that [placeOrder] returns is the user's order as
    requested (a price of 0 makes a market order, stored with price 0); it
    is ACCEPTED and unfilled, or PARTIALLY_FILLED, or FILLED with nothing
    remaining; [getOrderStatus] returns it to its owner and to nobody else,
    and [getUserOrders] lists it. *)
Theorem placed_order_is_on_record (s : System) (userId : UserId)
    (ty : OrderType) (symbol : Symbol) (q : Quantity) (pr : Price)
    (p : ptr) (s' : System) :
  system_wf s ->
  Engine.placeOrder userId ty symbol q pr s = Some (Some p, s') ->
  let o := deref (heap s') p in
  userId_ o = userId ∧ orderType_ o = ty ∧ symbol_ o = symbol
  ∧ quantity_ o = q ∧ price_ o = (if Qltb 0 pr then pr else 0%Q)
  ∧ class_ o = (if Qltb 0 pr then LimitOrder else MarketOrder)
  ∧ ((status_ o = ACCEPTED ∧ filledQuantity_ o = 0)
     ∨ (status_ o = PARTIALLY_FILLED ∧ 0 <= filledQuantity_ o < q)
     ∨ (status_ o = FILLED ∧ filledQuantity_ o = q))
  ∧ Engine.getOrderStatus userId (orderId_ o) s' = Some p
  ∧ (∀ other, other ≠ userId ->
       Engine.getOrderStatus other (orderId_ o) s' = None)
  ∧ p ∈ Engine.getUserOrders userId s'.
Proof.
  intros Hwf Hp o. unfold o. clear o.
  rewrite placeOrder_unfold in Hp.
  destruct (Engine.getUser userId s) as [u |] eqn:Hu; [| done].
  unfold Engine.getUser in Hu. cbv zeta in Hp.
  destruct (Qltb pr 0); [done |].
  set (o := new_order userId ty symbol q pr (world s)) in *.
  destruct (negb (isValid o)); [done |].
  destruct (Engine.getOrCreateOrderBook symbol (engine s)) as [b0 e1] eqn:Hget.
  cbn [fst snd] in Hp.
  destruct (Book.addOrder _ _ b0) as [[[] h2] b1] eqn:Hadd; [| done].
  destruct (Book.matchOrders _ h2 b1) as [[[[trades w3] h3] b2] |] eqn:Hm;
    [| done].
  injection Hp as <- <-. cbn [heap].
  destruct (getOrCreateOrderBook_spec _ _ _ _ Hget)
    as (_ & Husers & _ & _ & _).
  destruct (place_steps_wf s symbol o b0 e1 true h2 b1 Hwf Hget eq_refl Hadd)
    as (Hwf1 & _).
  destruct (matchOrders_effect _ _ _ _ _ _ _ Hwf1 Hm) as [Heff Hwf2].
  pose proof (match_loop_same_terms _ _ _ _ _ _ _ _ (length (heap s)) Hm)
    as (Hcl & Hid & Huid & Hty & Hsym & Hq & Hpr & _).
  apply addOrder_true in Hadd as (p' & [= <-] & _ & _ & _ & _ & Hh2 & Hb1).
  rewrite deref_alloc_new in Hh2, Hb1.
  assert (Hp2 : deref h2 (length (heap s)) = assign_status o ACCEPTED).
  { rewrite Hh2, deref_store_eq; [done |]. rewrite length_app. simpl. lia. }
  rewrite Hp2 in Hcl, Hid, Huid, Hty, Hsym, Hq, Hpr. simpl in *.
  assert (Hin : length (heap s) ∈ side b1 ty).
  { rewrite Hb1, side_with_side_eq. apply elem_of_multiset_insert. by left. }
  split_and!; try done.
  - destruct (effect_erased _ _ _ _ Heff _ _ Hin) as [Hrest | [Hrem Hst]].
    + pose proof (side_resting _ _ _ _ Hwf2 Hrest) as [_ _ _ _ Hlive Hf Hun].
      rewrite Hq in Hf.
      destruct Hlive as [Hst | Hst]; [left | right; left]; auto.
    + right. right. split; [done |].
      unfold getRemainingQuantity in Hrem. lia.
  - unfold Engine.getOrderStatus, Engine.getUser. simpl.
    rewrite Husers, Hu, Hid, lookup_insert_eq, Huid, String.eqb_refl. done.
  - intros other Hne. unfold Engine.getOrderStatus, Engine.getUser. simpl.
    destruct (users_ e1 !! other); [| done].
    rewrite Hid, lookup_insert_eq, Huid.
    by destruct (String.eqb_spec userId other).
  - unfold Engine.getUserOrders, Engine.getUser. simpl.
    rewrite Husers, Hu. apply list_elem_of_omap.
    exists (orderId_ o, length (heap s)). split.
    + apply elem_of_map_to_list. by rewrite lookup_insert_eq.
    + simpl. by rewrite Huid, String.eqb_refl.
Qed.

Lemma placed_order_is_on_record_witness :
  system_wf counting_system
  ∧ Engine.placeOrder "U1" BUY "WIPRO" 100 (105 # 1) counting_system
    = Some (Some 0%nat, counting_system_one_bid)
  ∧ Engine.getOrderStatus "U1"
      (orderId_ (deref (heap counting_system_one_bid) 0)) counting_system_one_bid
    = Some 0%nat.
Proof.
  assert (Hwf : system_wf counting_system)
    by apply (consistent_wf _ counting_system_consistent).
  split; [exact Hwf |]. split; [exact counting_system_places |].
  apply (placed_order_is_on_record counting_system "U1" BUY "WIPRO" 100 (105 # 1)
           0%nat counting_system_one_bid Hwf counting_system_places).
Defined.

(** ** Cancelling and modifying through the engine *)

Lemma getOrderStatus_Some userId orderId s p :
  Engine.getOrderStatus userId orderId s = Some p
  ↔ is_Some (users_ (engine s) !! userId)
    ∧ allOrders_ (engine s) !! orderId = Some p
    ∧ userId_ (deref (heap s) p) = userId.
Proof.
  unfold Engine.getOrderStatus, Engine.getUser.
  destruct (users_ (engine s) !! userId) as [u |];
    [| split; [done | by intros [[? ?] _]]].
  destruct (allOrders_ (engine s) !! orderId) as [order |];
    [| split; [done | by intros (_ & ? & _)]].
  destruct (String.eqb_spec (userId_ (deref (heap s) order)) userId) as [E | E].
  - split; [intros [= <-]; by split_and! | by intros (_ & [= <-] & _)].
  - split; [done |]. intros (_ & [= <-] & ?). done.
Qed.

Lemma engine_cancelOrder_stranger userId orderId s :
  Engine.getOrderStatus userId orderId s = None ->
  Engine.cancelOrder userId orderId s = (false, s).
Proof.
  unfold Engine.getOrderStatus, Engine.cancelOrder.
  destruct (Engine.getUser userId s); [| done].
  destruct (allOrders_ (engine s) !! orderId) as [order |]; [| done].
  by destruct (String.eqb _ userId).
Qed.

Lemma engine_modifyOrder_stranger userId orderId q pr s :
  Engine.getOrderStatus userId orderId s = None ->
  Engine.modifyOrder userId orderId q pr s = Some (false, s).
Proof.
  unfold Engine.getOrderStatus, Engine.modifyOrder.
  destruct (Engine.getUser userId s); [| done].
  destruct (Qltb pr 0); [done |].
  destruct (allOrders_ (engine s) !! orderId) as [order |]; [| done].
  by destruct (String.eqb _ userId).
Qed.

(** X24: whoever is not the registered owner of an order can neither cancel
    nor modify it: when [getOrderStatus] does not return the order to a user
    (the user is not registered, the id is unknown, or the order belongs to
    somebody else), [cancelOrder] and [modifyOrder] by that user fail and
    change nothing. *)
Theorem strangers_cannot_touch_orders (s : System) (userId : UserId)
    (orderId : OrderId) :
  Engine.getOrderStatus userId orderId s = None ->
  Engine.cancelOrder userId orderId s = (false, s)
  ∧ ∀ q pr, Engine.modifyOrder userId orderId q pr s = Some (false, s).
Proof.
  intros Hnone. split; [by apply engine_cancelOrder_stranger |].
  intros q pr. by apply engine_modifyOrder_stranger.
Qed.

Lemma strangers_cannot_touch_orders_witness :
  Engine.cancelOrder "U2" "o0" demo_system_one_bid = (false, demo_system_one_bid).
Proof.
  apply (strangers_cannot_touch_orders demo_system_one_bid "U2" "o0").
  reflexivity.
Defined.

Lemma engine_cancelOrder_owner userId orderId s s' :
  Engine.cancelOrder userId orderId s = (true, s') ->
  ∃ order, Engine.getOrderStatus userId orderId s = Some order.
Proof.
  destruct (Engine.getOrderStatus userId orderId s) as [order |] eqn:Hst;
    [by exists order |].
  by rewrite (engine_cancelOrder_stranger _ _ _ Hst).
Qed.

Lemma engine_modifyOrder_owner userId orderId q pr s s' :
  Engine.modifyOrder userId orderId q pr s = Some (true, s') ->
  ∃ order, Engine.getOrderStatus userId orderId s = Some order.
Proof.
  destruct (Engine.getOrderStatus userId orderId s) as [order |] eqn:Hst;
    [by exists order |].
  by rewrite (engine_modifyOrder_stranger _ _ _ _ _ Hst).
Qed.

Lemma cancelOrder_live h b id p :
  book_wf h b -> orderLookup_ b !! id = Some p ->
  live (status_ (deref h p)) ->
  ∃ b', Book.cancelOrder id h b
        = (true, store h p (assign_status (deref h p) CANCELLED), b')
     ∧ book_symbol_ b' = book_symbol_ b ∧ orderLookup_ b' = orderLookup_ b.
Proof.
  intros Hwf Hlk Hlive.
  assert (Hnt : terminal (status_ (deref h p)) = false)
    by (destruct Hlive as [-> | ->]; done).
  destruct (erase_resting_exists h b (orderType_ (deref h p)) id p)
    as [l' Her]; [done | done | |].
  { destruct (wf_lookup _ _ Hwf _ _ Hlk) as [_ _ _ [Ht | ?]]; [congruence | done]. }
  assert (Hcan : canCancel (deref h p) = true)
    by (unfold canCancel; destruct Hlive as [-> | ->]; done).
  unfold Book.cancelOrder. rewrite Hlk, Hcan. simpl.
  destruct (orderType_ (deref h p)); simpl in Her; rewrite Her; simpl;
    by eexists.
Qed.

Lemma cancel_scan_finds orderId h books symbol b h' b' :
  (symbol, b) ∈ books ->
  (∀ symbol0 b0, (symbol0, b0) ∈ books ->
     is_Some (Book.getOrder orderId b0) -> symbol0 = symbol ∧ b0 = b) ->
  Book.cancelOrder orderId h b = (true, h', b') ->
  Engine.cancel_scan orderId h books = Some (symbol, h', b').
Proof.
  intros Hin Honly Hc.
  assert (Hhas : is_Some (Book.getOrder orderId b)).
  { apply cancelOrder_true in Hc as (p & _ & Hlk & _). by exists p. }
  induction books as [| [symbol0 b0] books IH]; [by apply elem_of_nil in Hin |].
  simpl. destruct (Book.getOrder orderId b0) as [p0 |] eqn:Hget.
  - destruct (Honly symbol0 b0) as [-> ->]; [by left | by exists p0 |].
    by rewrite Hc.
  - apply elem_of_cons in Hin as [[= -> ->] | Hin].
    { rewrite Hget in Hhas. by destruct Hhas. }
    apply IH; [done |]. intros s1 b1 H1. apply Honly. by right.
Qed.

(** What a successful [cancelOrder] of the engine does. *)
Lemma engine_cancelOrder_done s userId orderId s' :
  engine_consistent s ->
  Engine.cancelOrder userId orderId s = (true, s') ->
  ∃ p b',
    Engine.getOrderStatus userId orderId s = Some p
    ∧ live (status_ (deref (heap s) p))
    ∧ s' = mkSystem (world s)
             (store (heap s) p (assign_status (deref (heap s) p) CANCELLED))
             (Engine.put_book (symbol_ (deref (heap s) p)) b' (engine s))
             (callbacks s
                ++ Engine.orderStatusChanged_calls (observers_ (engine s))
                     (store (heap s) p (assign_status (deref (heap s) p) CANCELLED))
                     p).
Proof.
  intros Hc Hcancel.
  destruct (engine_cancelOrder_owner _ _ _ _ Hcancel) as [order Hst].
  apply engine_cancelOrder_true in Hcancel
    as (order' & symbol & b & h' & b' & Hall & Hb & Hbc & ->).
  apply getOrderStatus_Some in Hst as Hst'. destruct Hst' as (_ & Hall' & _).
  rewrite Hall in Hall'. injection Hall' as ->.
  destruct (consistent_wf _ Hc _ _ Hb) as [Hsym Hwf].
  apply cancelOrder_changes in Hbc as Hch.
  destruct Hch as (p & Hlk & Hcan & -> & _ & _).
  pose proof (consistent_books _ Hc _ _ _ _ Hb Hlk) as Hall'.
  rewrite Hall in Hall'. injection Hall' as ->.
  destruct (wf_lookup _ _ Hwf _ _ Hlk) as [_ _ Hs _].
  exists p, b'. split; [done |]. split.
  - apply (indexed_live_resting _ _ _ _ Hwf Hlk).
    by apply canCancel_not_terminal.
  - by rewrite Hs, Hsym.
Qed.

(** A live order is cancelled when its owner asks for it. *)
Lemma engine_cancelOrder_live s userId orderId p :
  engine_consistent s ->
  Engine.getOrderStatus userId orderId s = Some p ->
  live (status_ (deref (heap s) p)) ->
  (Engine.cancelOrder userId orderId s).1 = true.
Proof.
  intros Hc Hst Hlive.
  apply getOrderStatus_Some in Hst as ([u Hu] & Hall & Hown).
  destruct (consistent_indexed _ _ _ Hc Hall) as (b & Hb & Hlk & Hwf & _).
  destruct (cancelOrder_live _ _ _ _ Hwf Hlk Hlive) as (b' & Hbc & _).
  unfold Engine.cancelOrder, Engine.getUser. rewrite Hu, Hall, Hown.
  rewrite String.eqb_refl. simpl.
  erewrite cancel_scan_finds; [done | | | exact Hbc].
  - by apply elem_of_map_to_list.
  - intros symbol0 b0 Hin [p0 Hp0]. apply elem_of_map_to_list in Hin.
    assert (symbol0 = symbol_ (deref (heap s) p))
      by (by eapply (consistent_one_book s symbol0 b0 _ b orderId p0 p)).
    subst symbol0. split; [done | congruence].
Qed.

(** X25: in a consistent state of the engine ([engine_consistent], which
    holds of every state reached when the generator never repeats a UUID),
    [cancelOrder] succeeds exactly for the orders of the calling user that
    are still live (ACCEPTED or PARTIALLY_FILLED).  Then the order object,
    and nothing else in the heap, changes: its status becomes CANCELLED;
    [getOrderStatus] shows it; every registered observer is told once, and
    shown the status CANCELLED; and cancelling once more fails.  A call that
    fails changes nothing. *)
Theorem cancelOrder_by_owner (s : System) (userId : UserId) (orderId : OrderId) :
  engine_consistent s ->
  ((Engine.cancelOrder userId orderId s).1 = true
   ↔ ∃ p, Engine.getOrderStatus userId orderId s = Some p
          ∧ live (status_ (deref (heap s) p)))
  ∧ ((Engine.cancelOrder userId orderId s).1 = false ->
     (Engine.cancelOrder userId orderId s).2 = s)
  ∧ (∀ s', Engine.cancelOrder userId orderId s = (true, s') ->
       ∃ p, Engine.getOrderStatus userId orderId s' = Some p
         ∧ deref (heap s') p = assign_status (deref (heap s) p) CANCELLED
         ∧ (∀ x, x ≠ p -> deref (heap s') x = deref (heap s) x)
         ∧ callbacks s'
           = callbacks s
             ++ omap (fmap (fun i => onOrderStatusChanged i p (deref (heap s') p)))
                  (observers_ (engine s))
         ∧ Engine.cancelOrder userId orderId s' = (false, s')).
Proof.
  intros Hc. split_and!.
  - split.
    + destruct (Engine.cancelOrder userId orderId s) as [[] s'] eqn:Hcancel;
        [intros _ | done].
      destruct (engine_cancelOrder_done _ _ _ _ Hc Hcancel)
        as (p & b' & Hst & Hlive & _).
      by exists p.
    + intros (p & Hst & Hlive). by eapply engine_cancelOrder_live.
  - destruct (Engine.cancelOrder userId orderId s) as [[] s'] eqn:Hcancel;
      [done | intros _].
    by apply engine_cancelOrder_false in Hcancel.
  - intros s' Hcancel.
    pose proof (cancelOrder_consistent _ _ _ _ _ Hc Hcancel) as Hc'.
    destruct (engine_cancelOrder_done _ _ _ _ Hc Hcancel)
      as (p & b' & Hst & Hlive & Hs').
    apply getOrderStatus_Some in Hst as Hst'.
    destruct Hst' as (Hu & Hall & Hown).
    destruct (consistent_indexed _ _ _ Hc Hall) as (_ & _ & _ & _ & _ & Hp & _).
    assert (Hnew : deref (heap s') p = assign_status (deref (heap s) p) CANCELLED)
      by (rewrite Hs'; simpl; by rewrite deref_store_eq).
    assert (Hst1 : Engine.getOrderStatus userId orderId s' = Some p).
    { apply getOrderStatus_Some. rewrite Hnew. rewrite Hs'. simpl.
      by split_and!. }
    exists p. split_and!; try done.
    + intros x Hx. rewrite Hs'. simpl. by rewrite deref_store_ne.
    + rewrite Hs'. simpl. done.
    + destruct (Engine.cancelOrder userId orderId s') as [[] s''] eqn:Hagain.
      * destruct (engine_cancelOrder_done _ _ _ _ Hc' Hagain)
          as (p' & _ & Hst2 & Hlive2 & _).
        rewrite Hst1 in Hst2. injection Hst2 as <-.
        rewrite Hnew in Hlive2. by destruct Hlive2.
      * by apply engine_cancelOrder_false in Hagain as ->.
Qed.

Lemma cancelOrder_by_owner_witness :
  engine_consistent counting_system_one_bid
  ∧ (Engine.cancelOrder "U1" "o0" counting_system_one_bid).1 = true.
Proof.
  split; [apply counting_system_one_bid_consistent |].
  apply (cancelOrder_by_owner counting_system_one_bid "U1" "o0"
           counting_system_one_bid_consistent).
  exists 0%nat. split; [vm_compute; reflexivity | left; reflexivity].
Defined.

Lemma modifyOrder_modifiable h b id p q pr :
  book_wf h b -> orderLookup_ b !! id = Some p ->
  modifiable (deref h p) q pr ->
  (Book.modifyOrder id q pr h b).1.1 = true.
Proof.
  intros Hwf Hlk (Hcan & Hcl & Hq & Hp1%Qnot_lt_le & Hp2%Qnot_lt_le).
  destruct (erase_resting_exists h b (orderType_ (deref h p)) id p Hwf Hlk)
    as [l' Her].
  { destruct (wf_lookup _ _ Hwf _ _ Hlk) as [_ _ _ [Ht | ?]]; [| done].
    by rewrite (canModify_not_terminal _ Hcan) in Ht. }
  unfold Book.modifyOrder. rewrite Hlk, Hcan. simpl.
  unfold clone. rewrite (setQuantity_ok _ _ Hcan Hq). simpl.
  rewrite setPrice_ok by done. simpl.
  destruct (orderType_ (deref h p)) eqn:Hty; simpl in *; by rewrite Her.
Qed.

(** The order object that [modifyOrder] leaves behind is in no queue of
    the new book. *)
Lemma modifyOrder_old_object id q pr h b h' b' p :
  book_wf h b ->
  Book.modifyOrder id q pr h b = (true, h', b') ->
  orderLookup_ b !! id = Some p ->
  (p ∉ buyOrders_ b') ∧ (p ∉ sellOrders_ b')
  ∧ ∀ id', orderLookup_ b' !! id' ≠ Some p.
Proof.
  intros Hwf Hm Hlk.
  apply modifyOrder_true in Hm
    as (p0 & l' & Hlk0 & Hcan & _ & _ & _ & _ & Her & -> & ->).
  rewrite Hlk in Hlk0. injection Hlk0 as <-.
  destruct (indexed_live_resting _ _ _ _ Hwf Hlk (canModify_not_terminal _ Hcan))
    as [Hrest Hid].
  destruct (wf_lookup _ _ Hwf _ _ Hlk) as [Hp _ _ _].
  destruct (erase_resting _ _ _ _ _ _ Hwf Hlk Her) as (l1 & l2 & Hside & -> & Hnot).
  assert (Hin : p ∈ side b (orderType_ (deref h p)))
    by (rewrite Hside; apply elem_of_middle; by left).
  pose proof (not_in_sides _ _ _ _ Hwf Hin) as Hother.
  assert (Hsides : ∀ t, p ∉ side (with_side b (orderType_ (deref h p))
                     (multiset_insert (comparator (orderType_ (deref h p)))
                        (h ++ [assign_status
                                 (assign_price (assign_quantity (deref h p) q) pr)
                                 ACCEPTED])
                        (length h) (l1 ++ l2))
                     (<[id := length h]> (orderLookup_ b))) t).
  { intros t. rewrite side_cases. destruct (decide _) as [<- | Hne].
    - rewrite elem_of_multiset_insert. intros [Heq | ?]; [lia | done].
    - destruct (orderType_ (deref h p)), t; done. }
  split_and!; [apply (Hsides BUY) | apply (Hsides SELL) |].
  intros id'. rewrite with_side_lookup.
  destruct (decide (id = id')) as [<- | Hne].
  - rewrite lookup_insert_eq. intros [= Heq]. lia.
  - rewrite lookup_insert_ne by done. intros Hlk'.
    destruct (wf_lookup _ _ Hwf _ _ Hlk') as [_ Hid' _ _]. congruence.
Qed.

Lemma engine_modifyOrder_modifiable s userId orderId q pr p :
  engine_consistent s ->
  Engine.getOrderStatus userId orderId s = Some p ->
  modifiable (deref (heap s) p) q pr ->
  ∃ s', Engine.modifyOrder userId orderId q pr s = Some (true, s').
Proof.
  intros Hc Hst Hmod.
  apply getOrderStatus_Some in Hst as ([u Hu] & Hall & Hown).
  destruct (consistent_indexed _ _ _ Hc Hall) as (b & Hb & Hlk & Hwf & _).
  pose proof (modifyOrder_modifiable _ _ _ _ _ _ Hwf Hlk Hmod) as Hok.
  destruct (engine_modifyOrder_returns userId orderId q pr s (consistent_wf _ Hc))
    as [[ok s'] Hm].
  destruct ok; [by exists s' |]. exfalso.
  assert (Hneg : Qltb pr 0 = false).
  { apply Qltb_nlt. destruct Hmod as (_ & _ & _ & Hmin%Qnot_lt_le & _).
    pose proof MIN_ORDER_PRICE_pos. lra. }
  revert Hm. unfold Engine.modifyOrder, Engine.getUser.
  rewrite Hu, Hneg, Hall, Hown, String.eqb_refl. cbn [negb]. rewrite Hb.
  destruct (Book.modifyOrder orderId q pr (heap s) b) as [[ok1 h1] b1] eqn:Hbm.
  simpl in Hok. subst ok1.
  rewrite (modifyOrder_getOrder _ _ _ _ _ _ _ Hbm).
  unfold Engine.notifyOrderStatusChanged. cbn [world heap engine callbacks].
  by destruct (Book.matchOrders _ _ _) as [[[[trades w2] h2] b2] |].
Qed.

(** What a successful [modifyOrder] of the engine does. *)
Lemma engine_modifyOrder_done s userId orderId q pr s' :
  engine_consistent s ->
  Engine.modifyOrder userId orderId q pr s = Some (true, s') ->
  ∃ p,
    Engine.getOrderStatus userId orderId s = Some p
    ∧ modifiable (deref (heap s) p) q pr
    ∧ Engine.getOrderStatus userId orderId s' = Some (length (heap s))
    ∧ same_terms
        (assign_price (assign_quantity (deref (heap s) p) q) pr)
        (deref (heap s') (length (heap s)))
    ∧ deref (heap s') p = deref (heap s) p
    ∧ (p < length (heap s))%nat
    ∧ unreferenced s' p.
Proof.
  intros Hc Hmod.
  pose proof (modifyOrder_consistent _ _ _ _ _ _ _ Hc Hmod) as Hc'.
  destruct (engine_modifyOrder_owner _ _ _ _ _ _ Hmod) as [p Hst].
  apply getOrderStatus_Some in Hst as Hst'. destruct Hst' as (Hu & Hall & Hown).
  apply engine_modifyOrder_true in Hmod
    as (order & b & h1 & b1 & trades & w2 & h2 & b2 & Hall' & Hb & Hbm & Hm & Hs').
  rewrite Hall in Hall'. injection Hall' as <-.
  destruct (consistent_indexed _ _ _ Hc Hall) as (b0 & Hb0 & Hlk & Hwf & _ & Hp & _).
  rewrite Hb in Hb0. injection Hb0 as <-.
  destruct (modify_steps_wf _ _ _ _ _ _ _ _ (consistent_wf _ Hc) Hb Hbm)
    as (Hwf1 & _).
  destruct (matchOrders_effect _ _ _ _ _ _ _ Hwf1 Hm) as [Heff _].
  pose proof (match_loop_same_terms _ _ _ _ _ _ _ _ (length (heap s)) Hm) as Hsame.
  destruct (modifyOrder_old_object _ _ _ _ _ _ _ _ Hwf Hbm Hlk)
    as (HnB & HnS & Hnidx).
  apply modifyOrder_true in Hbm as Hbm'.
  destruct Hbm' as (p0 & l' & Hlk0 & Hcan & Hcl & Hq & Hp1%Qle_not_lt
                    & Hp2%Qle_not_lt & _ & Hh1 & _).
  rewrite Hlk in Hlk0. injection Hlk0 as <-.
  rewrite Hh1, deref_alloc_new in Hsame.
  assert (Hold : deref h2 p = deref (heap s) p).
  { rewrite (effect_frame _ _ _ _ Heff p HnB HnS).
    by rewrite Hh1, deref_alloc_old. }
  exists p. split_and!; try done.
  - rewrite Hs'. apply getOrderStatus_Some. simpl.
    rewrite lookup_insert_eq. split_and!; try done.
    destruct Hsame as (_ & _ & -> & _). done.
  - rewrite Hs'. simpl.
    destruct Hsame as (? & ? & ? & ? & ? & ? & ? & ? & ?). by split_and!.
  - by rewrite Hs'.
  - intros symbol b' id Hb' Hlk'.
    destruct (consistent_wf _ Hc' _ _ Hb') as [Hsym' Hwf'].
    rewrite Hs' in Hb'. simpl in Hb'.
    destruct (decide (symbol = symbol_ (deref (heap s) p))) as [-> | Hne].
    + rewrite lookup_insert_eq in Hb'. injection Hb' as <-.
      rewrite (effect_lookup _ _ _ _ Heff) in Hlk'. by apply (Hnidx id).
    + rewrite lookup_insert_ne in Hb' by done.
      destruct (consistent_wf _ Hc _ _ Hb') as [Hsym0 Hwf0].
      destruct (wf_lookup _ _ Hwf0 _ _ Hlk') as [_ _ Hs _]. congruence.
Qed.

(** X26: in a consistent state of the engine ([engine_consistent], which
    holds of every state reached when the generator never repeats a UUID)
    and for a new price that is a number, [modifyOrder] returns, and it
    succeeds exactly for the limit orders of the calling user that are still
    PENDING or ACCEPTED, when the new quantity lies between 1 and
    [MAX_ORDER_QUANTITY] and the new price is neither below
    [MIN_ORDER_PRICE] nor above [MAX_ORDER_PRICE] (the two tests of
    [setPrice]).  [getOrderStatus] then returns a new order object that
    carries the same id, user, type and symbol and the new quantity and
    price.  A call that fails changes nothing. *)
Theorem modifyOrder_by_owner (s : System) (userId : UserId)
    (orderId : OrderId) (q : Quantity) (pr : Price) :
  engine_consistent s ->
  ∃ ok s',
    Engine.modifyOrder userId orderId q pr s = Some (ok, s')
    ∧ (ok = true
       ↔ ∃ p, Engine.getOrderStatus userId orderId s = Some p
              ∧ modifiable (deref (heap s) p) q pr)
    ∧ (ok = false -> s' = s)
    ∧ (ok = true ->
       ∃ p, Engine.getOrderStatus userId orderId s = Some p
         ∧ Engine.getOrderStatus userId orderId s' = Some (length (heap s))
         ∧ let o := deref (heap s) p in
           let o' := deref (heap s') (length (heap s)) in
           quantity_ o' = q ∧ price_ o' = pr
           ∧ orderId_ o' = orderId ∧ userId_ o' = userId
           ∧ orderType_ o' = orderType_ o ∧ symbol_ o' = symbol_ o).
Proof.
  intros Hc.
  destruct (engine_modifyOrder_returns userId orderId q pr s (consistent_wf _ Hc))
    as [[ok s'] Hm].
  exists ok, s'. split; [done |]. split_and!.
  - split.
    + intros ->. destruct (engine_modifyOrder_done _ _ _ _ _ _ Hc Hm)
        as (p & ? & ? & _). by exists p.
    + intros (p & Hst & Hmod).
      destruct (engine_modifyOrder_modifiable _ _ _ _ _ _ Hc Hst Hmod) as [s1 H1].
      congruence.
  - intros ->. by apply engine_modifyOrder_false in Hm.
  - intros ->. destruct (engine_modifyOrder_done _ _ _ _ _ _ Hc Hm)
      as (p & Hst & _ & Hst' & Hsame & _).
    exists p. split; [done |]. split; [done |].
    apply getOrderStatus_Some in Hst as (_ & Hall & Hown).
    destruct (consistent_indexed _ _ _ Hc Hall) as (_ & _ & _ & _ & _ & _ & Hid).
    destruct Hsame as (_ & Ho & Hu & Hty & Hsym & Hq & Hpr & _).
    simpl in *. split_and!; congruence.
Qed.

Lemma modifyOrder_by_owner_witness :
  let s := counting_system_one_bid in
  engine_consistent s
  ∧ (∃ s', Engine.modifyOrder "U1" "o0" 150 (106 # 1) s = Some (true, s')
           ∧ quantity_ (deref (heap s') (length (heap s))) = 150)
  ∧ Engine.modifyOrder "U1" "o0" 0 (106 # 1) s = Some (false, s)
  ∧ Engine.modifyOrder "U2" "o0" 150 (106 # 1) s = Some (false, s).
Proof.
  intros s.
  assert (Hc : engine_consistent s) by apply counting_system_one_bid_consistent.
  split; [exact Hc |]. split_and!.
  - destruct (modifyOrder_by_owner s "U1" "o0" 150 (106 # 1) Hc)
      as (ok & s' & Hm & Hiff & _ & Htrue).
    assert (Hok : ok = true).
    { apply Hiff. exists 0%nat. split; [vm_compute; reflexivity |].
      unfold modifiable.
      split; [reflexivity |]. split; [reflexivity |].
      split; [vm_compute; split; [reflexivity | discriminate] |].
      split; vm_compute; discriminate. }
    subst ok. destruct (Htrue eq_refl) as (p & _ & _ & Hq & _).
    exists s'. split; [exact Hm | exact Hq].
  - destruct (modifyOrder_by_owner s "U1" "o0" 0 (106 # 1) Hc)
      as (ok & s' & Hm & Hiff & Hfalse & _).
    destruct ok.
    + exfalso. destruct (proj1 Hiff eq_refl) as (p & _ & _ & _ & Hq & _). lia.
    + rewrite (Hfalse eq_refl) in Hm. exact Hm.
  - destruct (modifyOrder_by_owner s "U2" "o0" 150 (106 # 1) Hc)
      as (ok & s' & Hm & Hiff & Hfalse & _).
    destruct ok.
    + exfalso. destruct (proj1 Hiff eq_refl) as (p & Hst & _).
      vm_compute in Hst. discriminate.
    + rewrite (Hfalse eq_refl) in Hm. exact Hm.
Defined.

(** ** One symbol at a time *)

Lemma getOrCreateOrderBook_other symbol e b0 e1 symbol' :
  Engine.getOrCreateOrderBook symbol e = (b0, e1) ->
  symbol' ≠ symbol ->
  orderBooks_ e1 !! symbol' = orderBooks_ e !! symbol'.
Proof.
  intros Hget Hne.
  destruct (getOrCreateOrderBook_spec _ _ _ _ Hget)
    as (_ & _ & _ & _ & [[_ ->] | (_ & _ & ->)]); [done |].
  by rewrite lookup_insert_ne.
Qed.

(** X27: every operation of the engine works on the book of one symbol: the
    books filed under the other symbols, and the order objects that carry
    another symbol, are the same after the operation as before. *)
Theorem engine_step_touches_one_symbol (s s' : System) :
  system_wf s -> engine_step s s' ->
  ∃ symbol,
    (∀ symbol', symbol' ≠ symbol ->
       orderBooks_ (engine s') !! symbol' = orderBooks_ (engine s) !! symbol')
    ∧ (∀ p, (p < length (heap s))%nat ->
         symbol_ (deref (heap s) p) ≠ symbol ->
         deref (heap s') p = deref (heap s) p).
Proof.
  intros Hwf [user ok Hr | ob <- | ob <- | userId ty symbol q pr r Hp
              | userId orderId ok Hc | userId orderId q pr ok Hm].
  - exists EmptyString.
    unfold Engine.registerUser in Hr. destruct user as [u |];
      [| by injection Hr as _ <-].
    destruct (negb _); [by injection Hr as _ <- |].
    destruct (users_ (engine s) !! _); by injection Hr as _ <-.
  - by exists EmptyString.
  - by exists EmptyString.
  - exists symbol. rewrite placeOrder_unfold in Hp.
    destruct (Engine.getUser userId s); [| by injection Hp as _ <-].
    cbv zeta in Hp.
    destruct (Qltb pr 0); [by injection Hp as _ <- |].
    set (o := new_order userId ty symbol q pr (world s)) in *.
    destruct (negb (isValid o)); [by injection Hp as _ <- |].
    destruct (Engine.getOrCreateOrderBook symbol (engine s)) as [b0 e1] eqn:Hget.
    cbn [fst snd] in Hp.
    destruct (Book.addOrder _ _ b0) as [[ok h2] b1] eqn:Hadd.
    destruct (place_steps_wf s symbol o b0 e1 ok h2 b1 Hwf Hget eq_refl Hadd)
      as (Hwf1 & Hsym1 & _ & Hold & _).
    destruct ok.
    + destruct (Book.matchOrders _ h2 b1) as [[[[trades w3] h3] b2] |] eqn:Hmatch;
        [| done].
      injection Hp as _ <-. simpl. split.
      * intros symbol' Hne. rewrite lookup_insert_ne by done.
        by apply (getOrCreateOrderBook_other _ _ _ _ _ Hget).
      * intros p Hp Hs.
        rewrite (matchOrders_other_symbol _ _ _ _ _ _ _ p Hwf1 Hmatch);
          [by apply Hold |].
        rewrite Hold by done. congruence.
    + injection Hp as _ <-. simpl. split.
      * intros symbol' Hne. rewrite lookup_insert_ne by done.
        by apply (getOrCreateOrderBook_other _ _ _ _ _ Hget).
      * intros p Hp _. by apply Hold.
  - destruct ok;
      [| apply engine_cancelOrder_false in Hc as ->; by exists EmptyString].
    apply engine_cancelOrder_true in Hc
      as (order & symbol & b & h' & b' & _ & Hb & Hbc & ->).
    exists symbol. simpl.
    destruct (Hwf _ _ Hb) as [Hsym Hwfb].
    apply cancelOrder_changes in Hbc as (p0 & Hlk & _ & -> & _ & _).
    destruct (wf_lookup _ _ Hwfb _ _ Hlk) as [_ _ Hs0 _].
    split.
    + intros symbol' Hne. by rewrite lookup_insert_ne.
    + intros p Hp Hs. rewrite deref_store_ne; [done |]. congruence.
  - destruct ok;
      [| apply engine_modifyOrder_false in Hm as ->; by exists EmptyString].
    apply engine_modifyOrder_true in Hm
      as (order & b & h1 & b1 & trades & w2 & h2 & b2 & _ & Hb & Hbm & Hmatch & ->).
    exists (symbol_ (deref (heap s) order)). simpl.
    destruct (modify_steps_wf _ _ _ _ _ _ _ _ Hwf Hb Hbm)
      as (Hwf1 & Hsym1 & _ & Hold & _).
    split.
    + intros symbol' Hne. by rewrite lookup_insert_ne.
    + intros p Hp Hs.
      rewrite (matchOrders_other_symbol _ _ _ _ _ _ _ p Hwf1 Hmatch);
        [by apply Hold |].
      rewrite Hold by done. congruence.
Qed.

Lemma engine_step_touches_one_symbol_witness :
  ∃ s',
    system_wf demo_system_one_bid
    ∧ engine_step demo_system_one_bid s'
    ∧ orderBooks_ (engine s') !! "WIPRO"
      = orderBooks_ (engine demo_system_one_bid) !! "WIPRO"
    ∧ deref (heap s') 0 = deref (heap demo_system_one_bid) 0.
Proof.
  assert (Hwf : system_wf demo_system_one_bid)
    by (apply system_wfb_sound; vm_compute; reflexivity).
  destruct (Engine.placeOrder "U2" SELL "TCS" 100 (100 # 1) demo_system_one_bid)
    as [[r s'] |] eqn:Hp; [| vm_compute in Hp; discriminate].
  assert (Hstep : engine_step demo_system_one_bid s')
    by (eapply step_placeOrder, Hp).
  exists s'. split; [exact Hwf |]. split; [exact Hstep |].
  destruct (engine_step_touches_one_symbol _ _ Hwf Hstep) as (symbol & Hbooks & Hheap).
  assert (Hsym : symbol = "TCS").
  { destruct (decide (symbol = "TCS")) as [-> | Hne]; [done |]. exfalso.
    specialize (Hbooks "TCS" (fun H => Hne (eq_sym H))).
    vm_compute in Hp. injection Hp as _ <-. vm_compute in Hbooks. discriminate. }
  subst symbol.
  split; [apply Hbooks; discriminate |].
  apply Hheap; [vm_compute; lia | vm_compute; discriminate].
Defined.

(** ** The orders of a user *)

Lemma NoDup_omap {A B} (f : A -> option B) (l : list A) :
  NoDup l ->
  (∀ x y z, x ∈ l -> y ∈ l -> f x = Some z -> f y = Some z -> x = y) ->
  NoDup (omap f l).
Proof.
  intros Hnd Hinj. induction Hnd as [| x l Hx Hnd IH]; simpl; [constructor |].
  destruct (f x) as [z |] eqn:Hfx.
  - constructor.
    + rewrite list_elem_of_omap. intros (y & Hy & Hfy).
      apply Hx. rewrite (Hinj x y z); [done | by left | by right | done | done].
    + apply IH. intros a b c Ha Hb. apply Hinj; by right.
  - apply IH. intros a b c Ha Hb. apply Hinj; by right.
Qed.

Lemma elem_of_getUserOrders userId s p :
  p ∈ Engine.getUserOrders userId s
  ↔ ∃ id, Engine.getOrderStatus userId id s = Some p.
Proof.
  unfold Engine.getUserOrders, Engine.getUser. split.
  - destruct (users_ (engine s) !! userId) as [u |] eqn:Hu;
      [| by intros ?%elem_of_nil].
    rewrite list_elem_of_omap. intros ([id p'] & Hin & Hf). simpl in Hf.
    apply elem_of_map_to_list in Hin.
    destruct (String.eqb_spec (userId_ (deref (heap s) p')) userId); [| done].
    injection Hf as ->. exists id. apply getOrderStatus_Some.
    by rewrite Hu.
  - intros (id & ([u Hu] & Hall & Hown)%getOrderStatus_Some).
    rewrite Hu. apply list_elem_of_omap. exists (id, p). split.
    + by apply elem_of_map_to_list.
    + simpl. by rewrite Hown, String.eqb_refl.
Qed.

(** X28: in a consistent state of the engine ([engine_consistent]),
    [getUserOrders] returns the orders that [getOrderStatus] returns to the
    user, each of them once, and nothing for a user who is not registered;
    [getOrderStatus] of the id of a listed order returns that order. *)
Theorem getUserOrders_lists_own_orders (s : System) (userId : UserId) :
  engine_consistent s ->
  (∀ p, p ∈ Engine.getUserOrders userId s
        ↔ ∃ id, Engine.getOrderStatus userId id s = Some p)
  ∧ NoDup (Engine.getUserOrders userId s)
  ∧ (∀ p, p ∈ Engine.getUserOrders userId s ->
       Engine.getOrderStatus userId (orderId_ (deref (heap s) p)) s = Some p)
  ∧ (Engine.getUser userId s = None -> Engine.getUserOrders userId s = []).
Proof.
  intros Hc. split_and!.
  - intros p. apply elem_of_getUserOrders.
  - unfold Engine.getUserOrders.
    destruct (Engine.getUser userId s); [| constructor].
    apply NoDup_omap; [apply NoDup_map_to_list |].
    intros [id1 p1] [id2 p2] z H1 H2 Hf1 Hf2. simpl in *.
    apply elem_of_map_to_list in H1, H2.
    destruct (String.eqb _ userId); [| done].
    destruct (String.eqb _ userId); [| done].
    injection Hf1 as ->. injection Hf2 as ->.
    destruct (consistent_indexed _ _ _ Hc H1) as (_ & _ & _ & _ & _ & _ & <-).
    by destruct (consistent_indexed _ _ _ Hc H2) as (_ & _ & _ & _ & _ & _ & <-).
  - intros p (id & Hst)%elem_of_getUserOrders.
    apply getOrderStatus_Some in Hst as Hst'. destruct Hst' as (_ & Hall & _).
    by destruct (consistent_indexed _ _ _ Hc Hall) as (_ & _ & _ & _ & _ & _ & ->).
  - intros Hu. unfold Engine.getUserOrders. by rewrite Hu.
Qed.

Lemma getUserOrders_lists_own_orders_witness :
  engine_consistent counting_system_one_bid
  ∧ NoDup (Engine.getUserOrders "U1" counting_system_one_bid).
Proof.
  split; [apply counting_system_one_bid_consistent |].
  apply (getUserOrders_lists_own_orders counting_system_one_bid "U1"
           counting_system_one_bid_consistent).
Defined.

(** ** The object that modifyOrder leaves behind *)

Lemma getOrCreateOrderBook_unreferenced s symbol b0 e1 p :
  unreferenced s p ->
  Engine.getOrCreateOrderBook symbol (engine s) = (b0, e1) ->
  ∀ symbol' b id, orderBooks_ e1 !! symbol' = Some b ->
    orderLookup_ b !! id ≠ Some p.
Proof.
  intros Hun Hget symbol' b id Hb.
  destruct (getOrCreateOrderBook_spec _ _ _ _ Hget)
    as (_ & _ & _ & _ & [[_ ->] | (_ & -> & Hbooks)]); [by eapply Hun |].
  rewrite Hbooks in Hb.
  destruct (decide (symbol = symbol')) as [<- | Hne].
  - rewrite lookup_insert_eq in Hb. injection Hb as <-. simpl.
    by rewrite lookup_empty.
  - rewrite lookup_insert_ne in Hb by done. by eapply Hun.
Qed.

Lemma not_queued_if_not_indexed h b p :
  book_wf h b -> (∀ id, orderLookup_ b !! id ≠ Some p) ->
  (p ∉ buyOrders_ b) ∧ (p ∉ sellOrders_ b).
Proof.
  intros Hwf Hnot. split; intros Hin.
  - apply (Hnot (orderId_ (deref h p))).
    apply (resting_indexed _ _ _ _ (side_resting h b BUY p Hwf Hin)).
  - apply (Hnot (orderId_ (deref h p))).
    apply (resting_indexed _ _ _ _ (side_resting h b SELL p Hwf Hin)).
Qed.

Lemma engine_step_unreferenced s s' p :
  system_wf s -> (p < length (heap s))%nat -> unreferenced s p ->
  engine_step s s' ->
  (p < length (heap s'))%nat ∧ unreferenced s' p
  ∧ deref (heap s') p = deref (heap s) p.
Proof.
  intros Hwf Hp Hun [user ok Hr | ob <- | ob <- | userId ty symbol q pr r Hpl
                     | userId orderId ok Hc | userId orderId q pr ok Hm].
  - unfold Engine.registerUser in Hr. destruct user as [u |];
      [| by injection Hr as _ <-].
    destruct (negb _); [by injection Hr as _ <- |].
    destruct (users_ (engine s) !! _); by injection Hr as _ <-.
  - done.
  - done.
  - rewrite placeOrder_unfold in Hpl.
    destruct (Engine.getUser userId s); [| by injection Hpl as _ <-].
    cbv zeta in Hpl.
    destruct (Qltb pr 0); [by injection Hpl as _ <- |].
    set (o := new_order userId ty symbol q pr (world s)) in *.
    destruct (negb (isValid o)); [by injection Hpl as _ <- |].
    destruct (Engine.getOrCreateOrderBook symbol (engine s)) as [b0 e1] eqn:Hget.
    cbn [fst snd] in Hpl.
    pose proof (getOrCreateOrderBook_unreferenced _ _ _ _ _ Hun Hget) as Hun1.
    destruct (getOrCreateOrderBook_spec _ _ _ _ Hget) as (Hb0 & _).
    destruct (Book.addOrder _ _ b0) as [[ok h2] b1] eqn:Hadd.
    destruct (place_steps_wf s symbol o b0 e1 ok h2 b1 Hwf Hget eq_refl Hadd)
      as (Hwf1 & _ & Hlen & Hold & _).
    assert (Hun2 : ∀ id, orderLookup_ b1 !! id ≠ Some p).
    { intros id. destruct ok.
      - apply addOrder_true in Hadd as (p' & [= <-] & _ & _ & _ & _ & _ & ->).
        rewrite with_side_lookup.
        destruct (decide (orderId_ (deref (heap s ++ [o]) (length (heap s))) = id))
          as [<- | Hne].
        + rewrite lookup_insert_eq. intros [= Heq]. lia.
        + rewrite lookup_insert_ne by done. by eapply Hun1.
      - apply addOrder_false in Hadd as [_ ->]. by eapply Hun1. }
    destruct ok.
    + destruct (Book.matchOrders _ h2 b1) as [[[[trades w3] h3] b2] |] eqn:Hmatch;
        [| done].
      injection Hpl as _ <-. simpl.
      destruct (matchOrders_effect _ _ _ _ _ _ _ Hwf1 Hmatch) as [Heff _].
      destruct (not_queued_if_not_indexed _ _ _ Hwf1 Hun2) as [HnB HnS].
      split_and!.
      * rewrite (effect_length _ _ _ _ Heff). lia.
      * intros symbol' b id Hb. simpl in Hb.
        destruct (decide (symbol = symbol')) as [<- | Hne].
        -- rewrite lookup_insert_eq in Hb. injection Hb as <-.
           rewrite (effect_lookup _ _ _ _ Heff). apply Hun2.
        -- rewrite lookup_insert_ne in Hb by done. by eapply Hun1.
      * rewrite (effect_frame _ _ _ _ Heff p HnB HnS). by apply Hold.
    + injection Hpl as _ <-. simpl. split_and!.
      * lia.
      * intros symbol' b id Hb. simpl in Hb.
        destruct (decide (symbol = symbol')) as [<- | Hne].
        -- rewrite lookup_insert_eq in Hb. injection Hb as <-. apply Hun2.
        -- rewrite lookup_insert_ne in Hb by done. by eapply Hun1.
      * by apply Hold.
  - destruct ok; [| by apply engine_cancelOrder_false in Hc as ->].
    apply engine_cancelOrder_true in Hc
      as (order & symbol & b & h' & b' & _ & Hb & Hbc & ->).
    apply cancelOrder_changes in Hbc as (p0 & Hlk & _ & -> & _ & Hidx).
    simpl. split_and!.
    + by rewrite length_store.
    + intros symbol' b1 id Hb1. simpl in Hb1.
      destruct (decide (symbol = symbol')) as [<- | Hne].
      * rewrite lookup_insert_eq in Hb1. injection Hb1 as <-.
        rewrite Hidx. by eapply Hun.
      * rewrite lookup_insert_ne in Hb1 by done. by eapply Hun.
    + rewrite deref_store_ne; [done |]. intros ->. by eapply Hun.
  - destruct ok; [| by apply engine_modifyOrder_false in Hm as ->].
    apply engine_modifyOrder_true in Hm
      as (order & b & h1 & b1 & trades & w2 & h2 & b2 & _ & Hb & Hbm & Hmatch & ->).
    destruct (modify_steps_wf _ _ _ _ _ _ _ _ Hwf Hb Hbm)
      as (Hwf1 & _ & Hlen & Hold & _).
    destruct (matchOrders_effect _ _ _ _ _ _ _ Hwf1 Hmatch) as [Heff _].
    assert (Hun2 : ∀ id, orderLookup_ b1 !! id ≠ Some p).
    { intros id.
      apply modifyOrder_true in Hbm
        as (p0 & l' & _ & _ & _ & _ & _ & _ & _ & _ & ->).
      rewrite with_side_lookup.
      destruct (decide (orderId = id)) as [<- | Hne].
      - rewrite lookup_insert_eq. intros [= Heq]. lia.
      - rewrite lookup_insert_ne by done. by eapply Hun. }
    destruct (not_queued_if_not_indexed _ _ _ Hwf1 Hun2) as [HnB HnS].
    simpl. split_and!.
    + rewrite (effect_length _ _ _ _ Heff). lia.
    + intros symbol' b' id Hb'. simpl in Hb'.
      destruct (decide (symbol_ (deref (heap s) order) = symbol')) as [<- | Hne].
      * rewrite lookup_insert_eq in Hb'. injection Hb' as <-.
        rewrite (effect_lookup _ _ _ _ Heff). apply Hun2.
      * rewrite lookup_insert_ne in Hb' by done. by eapply Hun.
    + rewrite (effect_frame _ _ _ _ Heff p HnB HnS). by apply Hold.
Qed.

Lemma rtc_unreferenced s s' p :
  system_wf s -> (p < length (heap s))%nat -> unreferenced s p ->
  rtc engine_step s s' ->
  unreferenced s' p ∧ deref (heap s') p = deref (heap s) p.
Proof.
  intros Hwf Hp Hun Hsteps.
  induction Hsteps as [s | s s1 s' Hstep Hsteps IH]; [done |].
  destruct (engine_step_unreferenced _ _ _ Hwf Hp Hun Hstep) as (Hp1 & Hun1 & <-).
  apply IH; [by eapply engine_step_wf | done | done].
Qed.

(** X29: [modifyOrder] does not change the order object: it puts a new
    object in its place.  In a consistent state of the engine, the object
    that the owner held before a successful [modifyOrder] is never written
    again, whatever the engine does afterwards (it goes on showing the old
    quantity, the old price and the status it had), and [getOrderStatus]
    never returns it again. *)
Theorem modifyOrder_leaves_old_object_behind (s : System) (userId : UserId)
    (orderId : OrderId) (q : Quantity) (pr : Price) (p : ptr)
    (s1 s' : System) :
  engine_consistent s ->
  Engine.getOrderStatus userId orderId s = Some p ->
  Engine.modifyOrder userId orderId q pr s = Some (true, s1) ->
  rtc engine_step s1 s' ->
  deref (heap s') p = deref (heap s) p
  ∧ (∀ user id, Engine.getOrderStatus user id s' ≠ Some p).
Proof.
  intros Hc Hst Hm Hsteps.
  pose proof (modifyOrder_consistent _ _ _ _ _ _ _ Hc Hm) as Hc1.
  destruct (engine_modifyOrder_done _ _ _ _ _ _ Hc Hm)
    as (p' & Hst' & _ & _ & _ & Hsame & Hp & Hun).
  rewrite Hst in Hst'. injection Hst' as <-.
  assert (Hp1 : (p < length (heap s1))%nat).
  { apply engine_modifyOrder_true in Hm
      as (order & b & h1 & b1 & trades & w2 & h2 & b2 & _ & Hb & Hbm & Hmatch & ->).
    destruct (modify_steps_wf _ _ _ _ _ _ _ _ (consistent_wf _ Hc) Hb Hbm)
      as (Hwf1 & _ & Hlen & _).
    destruct (matchOrders_effect _ _ _ _ _ _ _ Hwf1 Hmatch) as [Heff _].
    simpl. rewrite (effect_length _ _ _ _ Heff). lia. }
  destruct (rtc_unreferenced _ _ _ (consistent_wf _ Hc1) Hp1 Hun Hsteps)
    as [Hun' Hsame'].
  split; [congruence |].
  intros user id (_ & Hall & _)%getOrderStatus_Some.
  pose proof (rtc_consistent _ _ Hc1 Hsteps) as Hc'.
  destruct (consistent_all _ Hc' _ _ Hall) as (b & Hb & Hlk).
  by apply (Hun' _ _ id Hb).
Qed.

Lemma modifyOrder_leaves_old_object_behind_witness :
  ∃ s1 s',
    engine_consistent counting_system_one_bid
    ∧ Engine.getOrderStatus "U1" "o0" counting_system_one_bid = Some 0%nat
    ∧ Engine.modifyOrder "U1" "o0" 150 (106 # 1) counting_system_one_bid
      = Some (true, s1)
    ∧ rtc engine_step s1 s'
    ∧ deref (heap s') 0 = deref (heap counting_system_one_bid) 0.
Proof.
  assert (Hst : Engine.getOrderStatus "U1" "o0" counting_system_one_bid = Some 0%nat)
    by (vm_compute; reflexivity).
  destruct (Engine.modifyOrder "U1" "o0" 150 (106 # 1) counting_system_one_bid)
    as [[ok s1] |] eqn:Hm; [| vm_compute in Hm; discriminate].
  assert (Hok : ok = true) by (vm_compute in Hm; congruence). subst ok.
  destruct (Engine.placeOrder "U2" SELL "WIPRO" 150 (100 # 1) s1)
    as [[r s'] |] eqn:Hp.
  2: { vm_compute in Hm. injection Hm as <-. vm_compute in Hp. discriminate. }
  assert (Hsteps : rtc engine_step s1 s').
  { eapply rtc_l; [eapply step_placeOrder, Hp | apply rtc_refl]. }
  exists s1, s'. split; [apply counting_system_one_bid_consistent |].
  split; [exact Hst |]. split; [reflexivity |]. split; [exact Hsteps |].
  apply (modifyOrder_leaves_old_object_behind counting_system_one_bid "U1" "o0"
           150 (106 # 1) 0%nat s1 s' counting_system_one_bid_consistent Hst Hm Hsteps).
Defined.

(** ** Sound order objects *)

Lemma within_bounds_same_terms o o' :
  same_terms o o' -> within_bounds o -> within_bounds o'.
Proof.
  intros (Hc & Hi & Hu & _ & Hs & Hq & Hp & _). unfold within_bounds.
  by rewrite Hc, Hi, Hu, Hs, Hq, Hp.
Qed.

Lemma heap_sound_alloc h o :
  heap_sound h -> order_sound o -> heap_sound (h ++ [o]).
Proof.
  intros Hh Ho p Hp. rewrite length_app in Hp. simpl in Hp.
  destruct (deref_alloc_cases h o p) as [[? ->] | [[? ->] | [? _]]];
    [by apply Hh | done | lia].
Qed.

Lemma heap_sound_store h p o :
  heap_sound h -> order_sound o -> heap_sound (store h p o).
Proof.
  intros Hh Ho x Hx. rewrite length_store in Hx.
  destruct (decide (x = p)) as [-> | Hne];
    [by rewrite deref_store_eq | rewrite deref_store_ne by done; by apply Hh].
Qed.

(** A fill of a resting order by a positive quantity that remains. *)
Lemma fill_sound o n :
  order_sound o -> live (status_ o) ->
  0 <= filledQuantity_ o < quantity_ o ->
  0 < n <= getRemainingQuantity o ->
  order_sound (fill o n).
Proof.
  intros [Hv Hf HF Hu Hp Hr] Hlive Hrange Hn.
  destruct (fill_resting o n Hrange Hn) as [Hfilled Hcases].
  pose proof (fill_frame o n) as (Hc & Hi & Hus & Hty & Hs & Hq & Hpr & Hts & Htif).
  unfold getRemainingQuantity in *. rewrite Hq in Hcases.
  split.
  - apply (within_bounds_same_terms o); [by split_and! | done].
  - rewrite Hfilled, Hq. lia.
  - rewrite Hfilled, Hq.
    destruct Hcases as [[Hrem Hst] | [Hrem Hst]]; rewrite Hst;
      split; try done; lia.
  - unfold canModify.
    destruct Hcases as [[_ Hst] | [_ Hst]]; by rewrite Hst.
  - intros _. lia.
  - destruct Hcases as [[_ Hst] | [_ Hst]]; by rewrite Hst.
Qed.

Lemma match_iteration_sound w h b t w' h' b' :
  book_wf h b -> heap_sound h ->
  Book.match_iteration w h b = Some (t, w', h', b') ->
  heap_sound h'.
Proof.
  intros Hwf Hh Hit.
  destruct (match_iteration_effect _ _ _ _ _ _ _ Hwf Hit)
    as (pb & buys & ps & sells & q & Hb & Hs & Hne & Hq & Hpos & Hfb & Hfs
        & Hframe & Hlen & _).
  destruct (heads_distinct _ _ _ _ _ _ Hwf Hb Hs) as (_ & Rb & Rs).
  intros p Hp. rewrite Hlen in Hp.
  destruct (decide (p = pb)) as [-> | Hnb].
  { rewrite Hfb. apply fill_sound;
      [by apply Hh | apply (resting_live _ _ _ _ Rb)
       | apply (resting_filled _ _ _ _ Rb) | lia]. }
  destruct (decide (p = ps)) as [-> | Hns].
  { rewrite Hfs. apply fill_sound;
      [by apply Hh | apply (resting_live _ _ _ _ Rs)
       | apply (resting_filled _ _ _ _ Rs) | lia]. }
  rewrite Hframe by done. by apply Hh.
Qed.

Lemma match_loop_sound fuel : ∀ w h b trades w' h' b',
  book_wf h b -> heap_sound h ->
  Book.match_loop fuel w h b = Some (trades, w', h', b') ->
  heap_sound h'.
Proof.
  induction fuel as [| fuel IH]; intros w h b trades w' h' b' Hwf Hh Hl;
    simpl in Hl.
  - destruct (Book.match_iteration w h b) as [[[[t w1] h1] b1] |]; [done |].
    by injection Hl as _ _ <- _.
  - destruct (Book.match_iteration w h b) as [[[[t w1] h1] b1] |] eqn:Hit;
      [| by injection Hl as _ _ <- _].
    destruct (Book.match_loop fuel w1 h1 b1) as [[[[ts w2] h2] b2] |] eqn:Hl2;
      [| done].
    injection Hl as _ _ <- _.
    eapply IH; [| | done].
    + by eapply match_iteration_wf.
    + by eapply match_iteration_sound.
Qed.

Lemma new_order_sound userId ty symbol q pr w :
  isValid (new_order userId ty symbol q pr w) = true ->
  order_sound (new_order userId ty symbol q pr w)
  ∧ order_sound (assign_status (new_order userId ty symbol q pr w) ACCEPTED).
Proof.
  intros Hv. pose proof (isValid_quantity _ Hv) as Hq. simpl in Hq.
  apply isValid_within_bounds in Hv.
  split; (split; simpl; [done | lia | split; [done | lia] | done | done | done]).
Qed.

Lemma cancelled_sound o :
  order_sound o -> live (status_ o) -> filledQuantity_ o < quantity_ o ->
  order_sound (assign_status o CANCELLED).
Proof.
  intros [Hv Hf HF Hu Hp Hr] Hlive Hlt.
  split; simpl; try done. split; [done | lia].
Qed.

Lemma modified_sound o q pr :
  order_sound o -> modifiable o q pr ->
  order_sound (assign_status (assign_price (assign_quantity o q) pr) ACCEPTED).
Proof.
  intros [Hv Hf HF Hu Hp Hr] (Hcan & Hcl & Hq & Hmin & Hmax).
  specialize (Hu Hcan).
  split; simpl; try done.
  - destruct Hv as (? & ? & ? & _ & _).
    unfold within_bounds. simpl. rewrite Hcl. split_and!; try done; lia.
  - lia.
  - split; [done | lia].
Qed.

Lemma engine_step_sound s s' :
  system_wf s -> heap_sound (heap s) -> engine_step s s' ->
  heap_sound (heap s').
Proof.
  intros Hwf Hh [user ok Hr | ob <- | ob <- | userId ty symbol q pr r Hp
                 | userId orderId ok Hc | userId orderId q pr ok Hm].
  - unfold Engine.registerUser in Hr. destruct user as [u |];
      [| by injection Hr as _ <-].
    destruct (negb _); [by injection Hr as _ <- |].
    destruct (users_ (engine s) !! _); by injection Hr as _ <-.
  - done.
  - done.
  - rewrite placeOrder_unfold in Hp.
    destruct (Engine.getUser userId s); [| by injection Hp as _ <-].
    cbv zeta in Hp.
    destruct (Qltb pr 0); [by injection Hp as _ <- |].
    set (o := new_order userId ty symbol q pr (world s)) in *.
    destruct (isValid o) eqn:Hv; cbn [negb] in Hp;
      [| by injection Hp as _ <-].
    destruct (new_order_sound _ _ _ _ _ _ Hv) as [Ho Ho'].
    destruct (Engine.getOrCreateOrderBook symbol (engine s)) as [b0 e1] eqn:Hget.
    cbn [fst snd] in Hp.
    destruct (Book.addOrder _ _ b0) as [[ok h2] b1] eqn:Hadd.
    destruct (place_steps_wf s symbol o b0 e1 ok h2 b1 Hwf Hget eq_refl Hadd)
      as (Hwf1 & _).
    assert (Hh2 : heap_sound h2).
    { destruct ok.
      - apply addOrder_true in Hadd as (p' & [= <-] & _ & _ & _ & _ & -> & _).
        rewrite deref_alloc_new.
        apply heap_sound_store; [by apply heap_sound_alloc | done].
      - apply addOrder_false in Hadd as [-> _]. by apply heap_sound_alloc. }
    destruct ok; [| by injection Hp as _ <-].
    destruct (Book.matchOrders _ h2 b1) as [[[[trades w3] h3] b2] |] eqn:Hmatch;
      [| done].
    injection Hp as _ <-. simpl. by eapply match_loop_sound.
  - destruct ok; [| by apply engine_cancelOrder_false in Hc as ->].
    apply engine_cancelOrder_true in Hc
      as (order & symbol & b & h' & b' & _ & Hb & Hbc & ->).
    destruct (Hwf _ _ Hb) as [_ Hwfb].
    apply cancelOrder_changes in Hbc as (p0 & Hlk & Hcan & -> & _ & _).
    destruct (indexed_live_resting _ _ _ _ Hwfb Hlk (canCancel_not_terminal _ Hcan))
      as [[Hp0 _ _ _ Hlive Hf _] _].
    simpl. apply heap_sound_store; [done |].
    apply cancelled_sound; [by apply Hh | done | lia].
  - destruct ok; [| by apply engine_modifyOrder_false in Hm as ->].
    apply engine_modifyOrder_true in Hm
      as (order & b & h1 & b1 & trades & w2 & h2 & b2 & _ & Hb & Hbm & Hmatch & ->).
    destruct (modify_steps_wf _ _ _ _ _ _ _ _ Hwf Hb Hbm) as (Hwf1 & _).
    destruct (Hwf _ _ Hb) as [_ Hwfb].
    simpl. eapply match_loop_sound; [exact Hwf1 | | exact Hmatch].
    apply modifyOrder_true in Hbm
      as (p0 & l' & Hlk & Hcan & Hcl & Hq & Hp1%Qle_not_lt & Hp2%Qle_not_lt
          & _ & -> & _).
    destruct (wf_lookup _ _ Hwfb _ _ Hlk) as [Hp0 _ _ _].
    apply heap_sound_alloc; [done |].
    apply modified_sound; [by apply Hh | done].
Qed.

(** X30: in every state that the engine reaches from its initial state
    through operations whose price arguments are numbers, every order object
    is sound: it is within the bounds (no id of it is empty, its quantity
    lies between 1 and [MAX_ORDER_QUANTITY], the price of a limit order is
    neither below [MIN_ORDER_PRICE] nor above [MAX_ORDER_PRICE], the price
    of a market order is not below 0), it is never filled beyond its
    quantity, its status is FILLED exactly when nothing of it remains, it is
    unfilled as long as it is PENDING or ACCEPTED, and it is never
    REJECTED. *)
Theorem orders_stay_sound (w : World) (s : System) :
  rtc engine_step (Engine.initial w) s ->
  ∀ p, (p < length (heap s))%nat ->
    let o := deref (heap s) p in
    within_bounds o
    ∧ 0 <= filledQuantity_ o <= quantity_ o
    ∧ (status_ o = FILLED ↔ getRemainingQuantity o = 0)
    ∧ (canModify o = true -> filledQuantity_ o = 0)
    ∧ (status_ o = PARTIALLY_FILLED -> 0 < filledQuantity_ o)
    ∧ status_ o ≠ REJECTED.
Proof.
  intros Hsteps.
  assert (Hinv : system_wf s ∧ heap_sound (heap s)).
  { assert (Hinit : system_wf (Engine.initial w)
                    ∧ heap_sound (heap (Engine.initial w))).
    { split; [apply system_wf_initial |]. intros p Hp. simpl in Hp. lia. }
    induction Hsteps as [s | s s1 s' Hstep Hsteps IH]; [done |].
    destruct Hinit as [Hwf Hh]. apply IH. split.
    - by eapply engine_step_wf.
    - by eapply engine_step_sound. }
  intros p Hp o. unfold o. clear o.
  destruct (proj2 Hinv p Hp) as [Hv Hf HF Hu Hpa Hr].
  split_and!; try done; unfold getRemainingQuantity; try lia.
  split; [intros H%HF; lia | intros H; apply HF; lia].
Qed.

Lemma orders_stay_sound_witness :
  rtc engine_step (Engine.initial counting_world) counting_system_one_bid
  ∧ within_bounds (deref (heap counting_system_one_bid) 0).
Proof.
  split; [apply counting_system_one_bid_reachable |].
  apply (orders_stay_sound counting_world counting_system_one_bid
           counting_system_one_bid_reachable 0%nat).
  vm_compute. lia.
Defined.
